(* ===== verification/_CoqProject ===== *)
-Q . S2P
Prelude.v
GoStrings.v
Sha256.v
Base64.v
Filepath.v
Pem.v
Kube.v
Constants.v
Vendor.v
Reference.v
Crypto.v
ReferenceHost.v
RandUtils.v
Configuration.v
ConfigurationSpec.v
Templates.v
WebhookModifiers.v
PodWebhook.v
VpaWebhook.v
WebhookSpec.v
PodWebhookSpec.v
VpaWebhookSpec.v
ControllerObjects.v
ControllerObjectsSpec.v
NamesSpec.v
Controllers.v
ControllersSpec.v
RegistrySpec.v
WorkloadSpec.v
System.v
SystemStateful.v
EventRouting.v
Gateway.v
CacheSpec.v
Watcher.v
WatcherLoop.v
Slog.v
WatcherMain.v
Certificates.v
CertManager.v
CertBundleSpec.v
CertManagerSpec.v
CertSyncSpec.v
CertGenerateSpec.v
CertRotationSpec.v
CertRaces.v
Runtime.v
ReferenceRuntime.v
Startup.v
StartupSpec.v
DispatchSpec.v
ControllerMain.v
