(* ===== verification/Prelude.v ===== *)
(** * oidc-apps: a verification library

    oidc-apps is a Kubernetes controller that puts an OpenID Connect login in
    front of workloads.  A configuration (pkg/configuration) names targets by
    label and namespace selectors.  An admission webhook (pkg/webhook) adds an
    oauth2-proxy and a kube-rbac-proxy container to the pods of a target;
    reconcilers (pkg/controllers) maintain the secrets, services and routes
    these containers need, propagate a registry pull secret, and manage a
    Gateway; the two sides never talk to each other, they only compute the
    same names.  A certificate manager (pkg/certificates) generates and rotates
    the CA and the serving certificate of the webhook and keeps the CA bundles
    of the webhook configuration up to date.  The command (pkg/oidc-apps) puts
    these together and starts them.  A separate watcher (pkg/watcher, cmd/watcher) restarts the
    kube-rbac-proxy when its mounted configuration changes.

    ** Files

    - Prelude: Go errors and panics ([outcome]), effectful code over a world
      ([M], with [try_], [wrap]), Go maps ([GoMap], [None] is nil), generic
      lemmas.
    - GoStrings, Sha256, Base64, Filepath, Pem, Slog: the parts of Go's standard
      library that the program's behaviour depends on, executable.
    - Kube: the API objects as records, [Kind] and [kobj] for client.Object.
    - Vendor: everything else that is not in this repository, as classes:
      [Vendor] (pure functions of apimachinery, controller-runtime and the
      YAML library), [OSEnv], [Client] (the API client and the entropy
      source).  [VendorLaws], [ClientReads], [ClientWrites], [Entropy] state
      their documented behaviour.  [view w k key] is the object stored under
      a key; [in_cache] is the label filter that cmd.go gives to the cache.
    - Crypto: the classes of the certificate manager ([Crypto] for RSA and
      x509, [Host] for files and the clock, [Clientset]) with their laws;
      Runtime: controller-runtime as data (events, predicates, controllers)
      and as the class [Runtime], with [RuntimeLaws].
    - Reference, ReferenceHost, ReferenceRuntime: an instance of all of these
      (an in-memory API server on a machine with files, keys and a clock, and
      a manager that dispatches events), on which the witnesses run; they show
      the laws can hold together.
    - Constants (const.go), RandUtils (rand.go), Configuration (types.go,
      gateway.go, target.go, resolved.go, general.go, oauth2.go,
      kube_rbac.go), Templates (oauth2-proxy-template.go,
      resource-attributes-template.go and the embedded files).
    - WebhookModifiers (webhook/modifiers.go), PodWebhook (pod-webhook.go),
      VpaWebhook (vpa-webhook.go).
    - ControllerObjects (oidc-apps-secrets.go, oidc-apps-services.go,
      oidc-apps-httproutes.go), Controllers (controllers/modifiers.go,
      owned.go, registry-secret.go, image-pull-secret-reconciler.go and the
      two workload reconcilers), Gateway (gateway_reconciler.go).
    - Certificates (rand.go, operations.go, generate.go) and CertManager
      (manager.go) of pkg/certificates: the package variables are a state
      [names] next to the world; one definition per tick of each loop;
      CertRaces: the accesses of two overlapping rotations to what they share.
    - EventRouting (the map functions and predicates of oidc-apps/cmd.go) and
      Startup (the rest of cmd.go, options.go, config.go, healthz.go): the
      state [process] holds the package variables and what the manager has
      been given.
    - ControllerMain: the command of the controller (cmd/oidc-apps).
    - System, SystemStateful: theorems about the webhook and the reconcilers
      together, for Deployments and for StatefulSets.
    - Watcher (parameters.go, getTotalHash), WatcherLoop (process.go, the
      goroutine of hashcalc.go and those of cmd/watcher/main.go, as a step
      function by goroutine), WatcherMain (main, which sets them up).
    - NamesSpec: the names that are made up for the maintained objects;
      CacheSpec: the writes of all reconcilers against the label filter of
      the cache they read through; CertSyncSpec: sequences of sync ticks.
    - ...Spec files and the later parts of Gateway, EventRouting, Watcher,
      WatcherLoop and WatcherMain: specifications, lemmas, theorems and their witnesses.

    Definitions keep the names of the Go functions; a method is prefixed with
    its type where two share a name ([PodMutator_Default]).  Code that has
    effects is a program in [M W]; a pointer argument that a function mutates
    becomes its result, and where Go mutates a copy (a range variable, a
    struct taken out of a slice) so does the definition.  Nil dereferences,
    slice bounds and writes to nil maps are [Panic].  Integers are [Z] and
    [nat]; the program computes with none that could overflow, and parses
    decimal ones at their width ([ParseInt0], [Atoi]).

    ** Theorems

    - Admission (PodWebhookSpec, WebhookSpec, VpaWebhookSpec): a compatible
      pod is admitted with every secret mounted, its own containers intact and
      exactly one of each proxy; admitting twice changes nothing; the handler
      implements an abstract decision and never writes; which pods lose a
      mount or panic.
    - Names (ControllerObjectsSpec, NamesSpec): every made-up name is a valid
      one of at most 63 characters; what the webhook mounts is what the
      controller maintains; the route's backend, the service's port and the
      proxy's port agree; pods with different ordinals share no name; the
      cookie secret is stable and a referenced client secret is never
      inlined.
    - Reconcilers (ControllersSpec, WorkloadSpec, RegistrySpec, Gateway): a
      successful reconcile establishes everything the pods of a workload need
      ([deployment_ready], [pod_ready]) and touches nothing else; a reconcile
      creates only for a selected, living workload with handled pods and
      otherwise only removes; pruning, the registry secret and the managed
      Gateway are exact.  These hold for every client that obeys
      [ClientWrites]; that a reconcile succeeds is shown on the reference
      client by the witnesses.
    - Visibility (CacheSpec): every run of a reconciler is a sequence of client
      calls ([calls]) that write only objects in its cache, except routes and
      the managed Gateway when configured labels override the component label;
      what is outside the cache is never pruned.
    - Redirects (ControllerObjectsSpec): the redirect URL of a pod of a
      StatefulSet leads to the pod's route exactly when the redirect target
      is the host with its dot ([redirect_matches_route]); a target's own
      redirect URL names another host.
    - Together (System, SystemStateful): every secret an admitted pod mounts
      or pulls with exists after the reconcile of its workload, which resolves
      the same configuration; an admitted pod of a StatefulSet has its service
      and its route.
    - Matching and accessors (ConfigurationSpec), rendering (Templates).
    - Start-up (StartupSpec, DispatchSpec, EventRouting): a manager is started
      with all its parts, wired to one configuration, or not at all; its cache
      is the one [in_cache] describes; which events reach which reconciler,
      and that updates do so only when a generation changes; the exit code
      (ControllerMain).
    - Certificates: what the CA bundles contain and that the loops over them
      end (CertBundleSpec); what an update, a sync and the clean-up do to the
      webhook configuration, and where an unreadable bundle stops them
      (CertManagerSpec); how often any number of sync ticks appends the CA
      (CertSyncSpec); serial numbers, the generated
      certificates, saving and loading (CertGenerateSpec); the invariant of
      the manager over all sequences of ticks, that its certificates never
      expire, starting and restarting, and what a failed rotation does
      (CertRotationSpec); what goes wrong when rotations overlap (CertRaces).
    - Watcher (Watcher, WatcherLoop, WatcherMain): arguments, the hash as a
      fingerprint of the contents, an invariant over all interleavings of the
      main loop, the signal handler, the ticker and the operating system, and
      that the child follows the directory: at most four steps after the last
      tick everything is received and what runs was started for it.

    ** Bounds

    Every loop of the program ranges over a list, except those over a CA
    bundle: these return [None] when they have not ended after the given
    rounds, and the length of the bundle is enough rounds for an end with a
    result ([bundle_loops_terminate]); inside [pem.Decode] a round consumes
    text, too ([decode_loop_fuel]).  Serial numbers fit into 64 signed bits
    ([generateSerial_bounds]); times are in nanoseconds and unbounded.
    [Itoa] divides by ten at most as often as the number has bits, and SHA-256
    takes one block per step of a counter that starts at the length of the
    padded message; both counters are large enough for every input
    ([Atoi_Itoa], [blocks_fuel]).

    ** Not modelled

    Logging and contexts; the watch and work queue machinery of
    controller-runtime (a reconcile is one call); other writers to the API
    server during a reconcile, staleness of the cache, and the fields the
    server fills in or defaults; the ticks of the certificate manager run one
    after the other except in CertRaces, where only the accesses to what they
    share are; the delays of [RetryOnConflict]; a child that cannot be killed
    when the watcher stops it but can be later (the second [Stop] of a process
    always fails, see [Stop]); the fields of an autoscaler's container policy
    other than its container and mode, which the webhook carries along; the parsing of flags by cobra
    and pflag (a parameter of ControllerMain); changes of a watched file while
    it is being hashed (a tick may compute any hash, and the theorem about the
    directory is about a tick that saw it at rest); the test doubles of
    pkg/certificates and the end-to-end tests. *)

From Stdlib Require Export Ascii ZArith Lia.
From stdpp Require Export base tactics gmap strings list option.

#[global] Arguments String.append !_ _ / : simpl nomatch.

(** ** Go errors and panics *)

(** An [error] value: a message ([errors.New]; [fmt.Errorf] without a wrapped
    error), an API status error with its reason, or [fmt.Errorf] wrapping
    another error with [%w]. *)
Inductive error : Type :=
| ErrorString (msg : string)
| StatusError (reason : string)
| Errorf (msg : string) (inner : error).

(** The result of a Go function that returns an [error] or panics (nil
    dereference, slice bounds, write to a nil map). *)
Inductive outcome (A : Type) : Type :=
| Ret (a : A)
| Err (e : error)
| Panic (why : string).

Arguments Ret {A} a.
Arguments Err {A} e.
Arguments Panic {A} why.

#[export] Instance error_eq_dec : EqDecision error.
Proof. solve_decision. Defined.

#[export] Instance outcome_eq_dec A `{EqDecision A} : EqDecision (outcome A).
Proof. solve_decision. Defined.

#[export] Instance outcome_ret : MRet outcome := fun A a => Ret a.

#[export] Instance outcome_bind : MBind outcome := fun A B f m =>
  match m with
  | Ret a => f a
  | Err e => Err e
  | Panic why => Panic why
  end.

(** ** Effectful code

    [M W A]: a computation over the world [W] (API server, entropy).  The
    world survives errors and panics: what was written before stays written. *)

Definition M (W A : Type) : Type := W -> outcome A * W.

#[export] Instance M_ret W : MRet (M W) := fun A a w => (Ret a, w).

#[export] Instance M_bind W : MBind (M W) := fun A B f m w =>
  match m w with
  | (Ret a, w') => f a w'
  | (Err e, w') => (Err e, w')
  | (Panic why, w') => (Panic why, w')
  end.

Definition lift {W A} (o : outcome A) : M W A := fun w => (o, w).
Definition throw {W A} (e : error) : M W A := lift (Err e).
Definition panic {W A} (why : string) : M W A := lift (Panic why).

(** [x, err := m()]: the error becomes a value, a panic still unwinds. *)
Definition try_ {W A} (m : M W A) : M W (error + A) := fun w =>
  match m w with
  | (Ret a, w') => (Ret (inr a), w')
  | (Err e, w') => (Ret (inl e), w')
  | (Panic why, w') => (Panic why, w')
  end.

(** [return fmt.Errorf(msg, err)] on failure *)
Definition wrap {W A} (msg : string) (m : M W A) : M W A := fun w =>
  match m w with
  | (Err e, w') => (Err (Errorf msg e), w')
  | r => r
  end.

(** Code that also has state of its own [S] (package variables): a program
    over the world alone leaves that state as it is. *)
Definition at_world {S W A} (m : M W A) : M (S * W) A := fun sw =>
  let '(r, w') := m (snd sw) in (r, (fst sw, w')).

Definition get_state {S W} : M (S * W) S := fun sw => (Ret (fst sw), sw).
Definition put_state {S W} (s : S) : M (S * W) unit := fun sw => (Ret tt, (s, snd sw)).

(** A call whose error the caller returns as it is: [(x, error)]. *)
Definition checked {A} (r : error + A) : outcome A :=
  match r with inl e => Err e | inr a => Ret a end.

(** ** Go maps with string keys: [None] is the nil map. *)

Abbreviation GoMap V := (option (gmap string V)).

Definition map_get {V} (m : GoMap V) (k : string) : option V :=
  match m with Some m => m !! k | None => None end.

Definition map_len {V} (m : GoMap V) : nat :=
  match m with Some m => size m | None => 0 end.

(** The contents of a map; reading a nil map is reading an empty one. *)
Definition map_contents {V} (m : GoMap V) : gmap string V := default ∅ m.

(** [if len(m) == 0 { m = make(...) }]: the result is not nil. *)
Definition map_or_make {V} (m : GoMap V) : gmap string V := map_contents m.

(** [maps.Copy(dst, src)] *)
Definition map_copy {V} (dst : gmap string V) (src : GoMap V) : gmap string V :=
  map_contents src ∪ dst.

(** ** Lemmas on effects *)

Create HintDb go discriminated.

Lemma M_bind_ret {W A B} (f : A -> M W B) (m : M W A) w a w' :
  m w = (Ret a, w') -> (m ≫= f) w = f a w'.
Proof. intros H. unfold mbind, M_bind. by rewrite H. Qed.

Lemma M_bind_case {W A B} (f : A -> M W B) (m : M W A) w r w' :
  m w = (r, w') ->
  (m ≫= f) w = match r with Ret a => f a w' | Err e => (Err e, w') | Panic p => (Panic p, w') end.
Proof. intros H. unfold mbind, M_bind. rewrite H. by destruct r. Qed.

Lemma M_bind_inv {W A B} (f : A -> M W B) (m : M W A) w b w'' :
  (m ≫= f) w = (Ret b, w'') -> exists a w', m w = (Ret a, w') /\ f a w' = (Ret b, w'').
Proof.
  unfold mbind, M_bind. destruct (m w) as [[a|e|p] w'] eqn:E; [|done..]. eauto.
Qed.

Lemma M_bind_assoc {W A B C} (m : M W A) (f : A -> M W B) (g : B -> M W C) w :
  ((m ≫= f) ≫= g) w = (m ≫= (fun a => f a ≫= g)) w.
Proof. unfold mbind, M_bind. by destruct (m w) as [[] ?]. Qed.

Lemma outcome_bind_inv {A B} (f : A -> outcome B) m b :
  m ≫= f = Ret b -> exists a, m = Ret a /\ f a = Ret b.
Proof. destruct m; simpl; try done. eauto. Qed.

Lemma wrap_inv {W A} msg (m : M W A) w a w' : wrap msg m w = (Ret a, w') -> m w = (Ret a, w').
Proof. unfold wrap. by destruct (m w) as [[] ?]. Qed.

Lemma at_world_inv {S W A} (m : M W A) (s s' : S) w w' (r : outcome A) :
  at_world m (s, w) = (r, (s', w')) -> s' = s /\ m w = (r, w').
Proof. unfold at_world. cbn. destruct (m w) as [r1 w1]. by intros [= -> -> ->]. Qed.

(** Reads one step of a successful computation in the context. *)
Ltac inv_bind :=
  repeat match goal with
  | H : (_ ≫= _) _ = (Ret _, _) |- _ =>
      apply M_bind_inv in H as (? & ? & ? & H)
  | H : wrap _ _ _ = (Ret _, _) |- _ => apply wrap_inv in H
  | H : mret _ _ = (Ret _, _) |- _ => injection H as <- <- || injection H as -> -> || (injection H; clear H; intros; subst)
  end.

(** A run that does not panic, ends in a state that satisfies [R] whether it
    fails or not, and whose result satisfies [Q]. *)
Definition safe {S A} (m : M S A) (s : S) (R : S -> Prop) (Q : A -> S -> Prop) : Prop :=
  R (snd (m s)) /\ match fst (m s) with Ret a => Q a (snd (m s)) | Err _ => True | Panic _ => False end.

Lemma safe_intro {S A} (m : M S A) s r s' (R : S -> Prop) (Q : A -> S -> Prop) :
  m s = (r, s') -> R s' -> (forall p, r <> Panic p) -> (forall a, r = Ret a -> Q a s') -> safe m s R Q.
Proof. intros E HR Hp HQ. unfold safe. rewrite E. cbn. split; [done|]. destruct r as [a|e|p]; [by apply HQ|done|by destruct (Hp p)]. Qed.

Lemma safe_elim {S A} (m : M S A) s r s' (R : S -> Prop) (Q : A -> S -> Prop) :
  safe m s R Q -> m s = (r, s') -> R s' /\ (forall p, r <> Panic p) /\ (forall a, r = Ret a -> Q a s').
Proof. unfold safe. intros [HR HQ] E. rewrite E in HR, HQ. cbn in *. split; [done|]. destruct r as [a|e|p]; naive_solver. Qed.

Lemma safe_bind {S A B} (m : M S A) (f : A -> M S B) s R P Q :
  safe m s R P -> (forall a s', R s' -> P a s' -> safe (f a) s' R Q) -> safe (m ≫= f) s R Q.
Proof.
  unfold safe, mbind, M_bind. intros [HR HP] Hf. destruct (m s) as [[a|e|p] s']; cbn in *; [by apply Hf|done|done].
Qed.

Lemma safe_ret {S A} (a : A) s (R : S -> Prop) (Q : A -> S -> Prop) : R s -> Q a s -> safe (mret a) s R Q.
Proof. done. Qed.

Lemma safe_wrap {S A} msg (m : M S A) s R Q : safe m s R Q -> safe (wrap msg m) s R Q.
Proof. unfold safe, wrap. by destruct (m s) as [[] ?]. Qed.

Lemma safe_lift {S A} (o : outcome A) s (R : S -> Prop) (Q : A -> S -> Prop) :
  R s -> (forall p, o <> Panic p) -> (forall a, o = Ret a -> Q a s) -> safe (lift o) s R Q.
Proof. intros HR Hp HQ. by eapply safe_intro. Qed.

Lemma safe_at_world {S W A} (m : M W A) (sw : S * W) (R : S * W -> Prop) Q :
  safe m (snd sw) (fun w => R (fst sw, w)) (fun a w => Q a (fst sw, w)) -> safe (at_world m) sw R Q.
Proof. unfold safe, at_world. by destruct (m (snd sw)) as [[] ?]. Qed.

Lemma safe_impl {S A} (m : M S A) s (R R' : S -> Prop) (Q Q' : A -> S -> Prop) :
  safe m s R Q -> (forall s', R s' -> R' s') -> (forall a s', R s' -> Q a s' -> Q' a s') -> safe m s R' Q'.
Proof. unfold safe. intros [HR HQ] H1 H2. split; [by apply H1|]. destruct (fst (m s)); auto. Qed.

(** ** Lemmas on Go maps *)

Lemma map_len_zero {V} (m : GoMap V) : map_len m = 0 -> map_contents m = ∅.
Proof. destruct m; simpl; [apply map_size_empty_inv | done]. Qed.

Lemma map_get_contents {V} (m : GoMap V) k : map_get m k = map_contents m !! k.
Proof. destruct m; simpl; [done|]. by rewrite lookup_empty. Qed.

Lemma map_copy_lookup {V} (dst : gmap string V) src k :
  map_copy dst src !! k = match map_get src k with Some v => Some v | None => dst !! k end.
Proof.
  unfold map_copy. rewrite map_get_contents.
  destruct (map_contents src !! k) eqn:E.
  - by apply lookup_union_Some_l.
  - by apply lookup_union_r.
Qed.

(** ** Lemmas on lists *)

Section lists.
Context {A : Type}.

(** First element satisfying a boolean test. *)
Fixpoint find_first (p : A -> bool) (l : list A) : option A :=
  match l with
  | [] => None
  | x :: l' => if p x then Some x else find_first p l'
  end.

Lemma find_first_Some p l x :
  find_first p l = Some x -> p x = true /\ x ∈ l.
Proof.
  induction l as [|y l IH]; simpl; [done|].
  destruct (p y) eqn:E.
  - intros [= ->]. split; [done|set_solver].
  - intros [Hx Hin]%IH. split; [done|set_solver].
Qed.

Lemma find_first_None p l : find_first p l = None <-> forall x, x ∈ l -> p x = false.
Proof.
  induction l as [|y l IH]; simpl; [set_solver|].
  destruct (p y) eqn:E.
  - split; [done|]. intros H. rewrite H in E; [done|set_solver].
  - rewrite IH. setoid_rewrite elem_of_cons. naive_solver.
Qed.

End lists.
