(* ===== verification/GoStrings.v ===== *)
(** * Go's [strings] and [strconv], as far as the program uses them

    A Go string is a byte sequence; it is modelled by [String.string], whose
    characters are 8-bit.  Single-byte separators are passed as an [ascii]:
    every call of [strings.Cut], [strings.Split] and [strings.SplitN] in the
    sources separates on one ASCII byte. *)

From S2P Require Import Prelude.

(** ** Prefixes and suffixes *)

(** [strings.HasPrefix] *)
Fixpoint HasPrefix (s p : string) : bool :=
  match p, s with
  | EmptyString, _ => true
  | String c p', String d s' => Ascii.eqb c d && HasPrefix s' p'
  | String _ _, EmptyString => false
  end.

Fixpoint string_drop (n : nat) (s : string) : string :=
  match n, s with
  | S n', String _ s' => string_drop n' s'
  | _, _ => s
  end.

Fixpoint string_take (n : nat) (s : string) : string :=
  match n, s with
  | S n', String c s' => String c (string_take n' s')
  | _, _ => EmptyString
  end.

(** [strings.CutPrefix] *)
Definition CutPrefix (s p : string) : string * bool :=
  if HasPrefix s p then (string_drop (String.length p) s, true) else (s, false).

(** [strings.TrimPrefix] *)
Definition TrimPrefix (s p : string) : string := fst (CutPrefix s p).

(** [strings.HasSuffix] *)
Definition HasSuffix (s x : string) : bool :=
  Nat.leb (String.length x) (String.length s) &&
  String.eqb (string_drop (String.length s - String.length x) s) x.

(** [strings.CutSuffix] *)
Definition CutSuffix (s x : string) : string * bool :=
  if HasSuffix s x then (string_take (String.length s - String.length x) s, true)
  else (s, false).

(** [strings.TrimSuffix] *)
Definition TrimSuffix (s x : string) : string := fst (CutSuffix s x).

(** [strings.Contains] *)
Fixpoint Contains (s sub : string) : bool :=
  HasPrefix s sub ||
  match s with
  | EmptyString => false
  | String _ s' => Contains s' sub
  end.

(** ** Cutting and splitting on one byte *)

(** [strings.Cut]: text before and after the first separator, and whether it
    was found. *)
Fixpoint Cut (s : string) (sep : ascii) : string * string * bool :=
  match s with
  | EmptyString => (EmptyString, EmptyString, false)
  | String c s' =>
      if Ascii.eqb c sep then (EmptyString, s', true)
      else let '(before, after, found) := Cut s' sep in (String c before, after, found)
  end.

(** [strings.Split] *)
Fixpoint Split (s : string) (sep : ascii) : list string :=
  match s with
  | EmptyString => [EmptyString]
  | String c s' =>
      if Ascii.eqb c sep then EmptyString :: Split s' sep
      else match Split s' sep with
           | [] => [String c EmptyString]
           | h :: t => String c h :: t
           end
  end.

(** [strings.SplitN s sep 2] *)
Definition SplitN2 (s : string) (sep : ascii) : list string :=
  let '(before, after, found) := Cut s sep in
  if found : bool then [before; after] else [s].

(** [l[len(l)-1]]; [strings.Split] never returns an empty slice. *)
Definition last_elem (l : list string) : string := List.last l EmptyString.

(** [strings.Join] *)
Fixpoint Join (l : list string) (sep : string) : string :=
  match l with
  | [] => EmptyString
  | [s] => s
  | s :: l' => s +:+ sep +:+ Join l' sep
  end.

(** The ASCII white space that [strings.TrimSpace] removes. *)
Definition is_space (c : ascii) : bool :=
  let n := N_of_ascii c in
  (N.eqb n 32 || (N.leb 9 n && N.leb n 13)).

Fixpoint trim_left (s : string) : string :=
  match s with
  | String c s' => if is_space c then trim_left s' else s
  | EmptyString => EmptyString
  end.

Fixpoint trim_right (s : string) : string :=
  match s with
  | EmptyString => EmptyString
  | String c s' =>
      match trim_right s' with
      | EmptyString => if is_space c then EmptyString else String c EmptyString
      | r => String c r
      end
  end.

(** [strings.TrimSpace] on ASCII text (the only text it is applied to is the
    embedded oauth2-proxy template). *)
Definition TrimSpace (s : string) : string := trim_right (trim_left s).

(** ** Characters *)

(** The byte [N]; used for bytes that have no literal of their own. *)
Definition dquote : string := String "034"%char EmptyString.
Definition newline : string := String "010"%char EmptyString.

Fixpoint string_forallb (p : ascii -> bool) (s : string) : bool :=
  match s with
  | EmptyString => true
  | String c s' => p c && string_forallb p s'
  end.

Definition in_range (lo hi c : ascii) : bool :=
  N.leb (N_of_ascii lo) (N_of_ascii c) && N.leb (N_of_ascii c) (N_of_ascii hi).

Definition is_lower (c : ascii) : bool := in_range "a" "z" c.
Definition is_upper (c : ascii) : bool := in_range "A" "Z" c.
Definition is_digit (c : ascii) : bool := in_range "0" "9" c.

(** [c | ('x' - 'X')], the [lower] helper of [strconv]. *)
Definition to_lower (c : ascii) : ascii := ascii_of_N (N.lor (N_of_ascii c) 32).

(** ** Numbers *)

(** [strconv.FormatBool] *)
Definition FormatBool (b : bool) : string := if b then "true" else "false".

Definition digit_char (n : N) : ascii := ascii_of_N (48 + n).

Fixpoint itoa_go (fuel : nat) (n : N) (acc : string) : string :=
  match fuel with
  | O => acc
  | S f =>
      let acc := String (digit_char (n mod 10)) acc in
      if N.eqb (n / 10) 0 then acc else itoa_go f (n / 10) acc
  end.

Definition itoa_N (n : N) : string := itoa_go (S (N.size_nat n)) n EmptyString.

(** [strconv.Itoa], and the verb [%d] of [fmt.Sprintf] *)
Definition Itoa (z : Z) : string :=
  match z with
  | Zneg p => "-" +:+ itoa_N (Npos p)
  | _ => itoa_N (Z.to_N z)
  end.

(** Value of a digit in [ParseUint]: [0-9], then [a-z] in either case. *)
Definition digit_val (c : ascii) : option N :=
  if is_digit c then Some (N_of_ascii c - 48)%N
  else if is_lower (to_lower c) then Some (N_of_ascii (to_lower c) - 97 + 10)%N
  else None.

(** The digit loop of [ParseUint]; [us] allows underscores.  The running
    value is unbounded here: [ParseInt] compares the final value with the
    bit size, and every call in the program only distinguishes success from
    failure. *)
Fixpoint parse_digits (base : N) (us : bool) (s : string) (n : N) : option N :=
  match s with
  | EmptyString => Some n
  | String c s' =>
      if us && Ascii.eqb c "_" then parse_digits base us s' n
      else match digit_val c with
           | Some d => if N.ltb d base then parse_digits base us s' (n * base + d)%N else None
           | None => None
           end
  end.

(** [underscoreOK] of [strconv]: underscores only between digits.  [saw] is
    the class of the previous character. *)
Fixpoint underscore_go (hex : bool) (saw : ascii) (s : string) : bool :=
  match s with
  | EmptyString => negb (Ascii.eqb saw "_")
  | String c s' =>
      if is_digit c || (hex && in_range "a" "f" (to_lower c)) then underscore_go hex "0" s'
      else if Ascii.eqb c "_" then
        if Ascii.eqb saw "0" then underscore_go hex "_" s' else false
      else if Ascii.eqb saw "_" then false
      else underscore_go hex "!" s'
  end.

Definition base_prefix (c : ascii) : option N :=
  if Ascii.eqb (to_lower c) "b" then Some 2%N
  else if Ascii.eqb (to_lower c) "o" then Some 8%N
  else if Ascii.eqb (to_lower c) "x" then Some 16%N
  else None.

Definition underscoreOK (s : string) : bool :=
  match s with
  | String "0" (String c s') =>
      match base_prefix c with
      | Some b => underscore_go (N.eqb b 16) "0" s'
      | None => underscore_go false "^" s
      end
  | _ => underscore_go false "^" s
  end.

(** [strconv.ParseUint s 0]: the base comes from the prefix. *)
Definition parse_uint_base0 (s : string) : option N :=
  let '(base, digits) :=
    match s with
    | String "0" (String c (String d s')) =>
        match base_prefix c with
        | Some b => (b, String d s')
        | None => (8%N, String c (String d s'))
        end
    | String "0" s' => (8%N, s')
    | _ => (10%N, s)
    end in
  match s with
  | EmptyString => None
  | _ =>
      n ← parse_digits base true digits 0%N;
      if Contains digits "_" && negb (underscoreOK s) then None else Some n
  end.

(** Sign handling and range check shared by [ParseInt] and [Atoi]. *)
Definition signed (bits : Z) (parse : string -> option N) (s : string) : option Z :=
  let '(neg, u) :=
    match s with
    | String "+" s' => (false, s')
    | String "-" s' => (true, s')
    | _ => (false, s)
    end in
  n ← parse u;
  if (neg : bool) then if Z.ltb (2 ^ (bits - 1)) (Z.of_N n) then None else Some (- Z.of_N n)%Z
  else if Z.leb (2 ^ (bits - 1)) (Z.of_N n) then None else Some (Z.of_N n).

(** [strconv.ParseInt s 0 bits] ([None] for any error) *)
Definition ParseInt0 (s : string) (bits : Z) : option Z := signed bits parse_uint_base0 s.

(** [strconv.Atoi]: base 10, 64-bit [int] *)
Definition Atoi (s : string) : option Z :=
  signed 64 (fun u => match u with EmptyString => None | _ => parse_digits 10 false u 0%N end) s.

(** [no_char c s]: the byte [c] does not occur in [s]. *)
Definition no_char (c : ascii) (s : string) : bool :=
  string_forallb (fun d => negb (Ascii.eqb d c)) s.

(** ** Lemmas *)

Create Rewrite HintDb gostr.

Lemma sapp_nil_r s : s +:+ EmptyString = s.
Proof. induction s; simpl; congruence. Qed.

Lemma sapp_assoc a b c : (a +:+ b) +:+ c = a +:+ (b +:+ c).
Proof. induction a; simpl; congruence. Qed.

Lemma slength_app a b : String.length (a +:+ b) = String.length a + String.length b.
Proof. induction a; simpl; congruence. Qed.

Lemma sapp_inj_l a b c : a +:+ b = a +:+ c -> b = c.
Proof. induction a; simpl; [done|]; intros [= H]; auto. Qed.

Lemma string_drop_app a b : string_drop (String.length a) (a +:+ b) = b.
Proof. induction a; simpl; [by destruct b | done]. Qed.

Lemma string_take_app a b : string_take (String.length a) (a +:+ b) = a.
Proof. induction a; simpl; [by destruct b | congruence]. Qed.

#[export] Hint Rewrite sapp_nil_r sapp_assoc slength_app string_drop_app string_take_app : gostr.

Lemma string_forallb_app p a b :
  string_forallb p (a +:+ b) = string_forallb p a && string_forallb p b.
Proof. induction a; simpl; [done|]. by rewrite IHa, andb_assoc. Qed.

Lemma string_forallb_impl (p q : ascii -> bool) s :
  (forall c, p c = true -> q c = true) -> string_forallb p s = true -> string_forallb q s = true.
Proof.
  intros Hpq. induction s as [|c s IH]; simpl; [done|].
  intros [Hc Hs]%andb_prop. by rewrite (Hpq _ Hc), (IH Hs).
Qed.

#[export] Hint Rewrite string_forallb_app : gostr.

(** *** Prefixes and suffixes *)

Lemma HasPrefix_app p s : HasPrefix (p +:+ s) p = true.
Proof. induction p; simpl; [by destruct s|]. by rewrite Ascii.eqb_refl. Qed.

Lemma HasPrefix_spec s p : HasPrefix s p = true <-> exists r, s = p +:+ r.
Proof.
  split; [|intros [r ->]; apply HasPrefix_app].
  revert s. induction p as [|c p IH]; intros s H; [by exists s|].
  destruct s as [|d s]; [done|]. simpl in H.
  apply andb_prop in H as [->%Ascii.eqb_eq [r ->]%IH]. by exists r.
Qed.

Lemma CutPrefix_app p s : CutPrefix (p +:+ s) p = (s, true).
Proof. unfold CutPrefix. by rewrite HasPrefix_app, string_drop_app. Qed.

Lemma TrimPrefix_app p s : TrimPrefix (p +:+ s) p = s.
Proof. unfold TrimPrefix. by rewrite CutPrefix_app. Qed.

Lemma HasSuffix_app s x : HasSuffix (s +:+ x) x = true.
Proof.
  unfold HasSuffix. rewrite slength_app.
  replace (String.length s + String.length x - String.length x) with (String.length s) by lia.
  rewrite string_drop_app, String.eqb_refl.
  by rewrite (proj2 (Nat.leb_le _ _)) by lia.
Qed.

Lemma take_drop_string n s : string_take n s +:+ string_drop n s = s.
Proof. revert s. induction n; intros [|c s]; simpl; try done. by rewrite IHn. Qed.

Lemma HasSuffix_spec s x : HasSuffix s x = true <-> exists r, s = r +:+ x.
Proof.
  split; [|intros [r ->]; apply HasSuffix_app].
  unfold HasSuffix. intros [_ H%String.eqb_eq]%andb_prop.
  exists (string_take (String.length s - String.length x) s).
  rewrite <- H at 2. by rewrite take_drop_string.
Qed.

Lemma CutSuffix_app s x : CutSuffix (s +:+ x) x = (s, true).
Proof.
  unfold CutSuffix. rewrite HasSuffix_app, slength_app.
  replace (String.length s + String.length x - String.length x) with (String.length s) by lia.
  by rewrite string_take_app.
Qed.

Lemma TrimSuffix_app s x : TrimSuffix (s +:+ x) x = s.
Proof. unfold TrimSuffix. by rewrite CutSuffix_app. Qed.

(** *** Cut, Split, Contains *)

Lemma no_char_app c a b : no_char c (a +:+ b) = no_char c a && no_char c b.
Proof. apply string_forallb_app. Qed.

Lemma Cut_app sep a b :
  no_char sep a = true -> Cut (a +:+ String sep b) sep = (a, b, true).
Proof.
  induction a as [|c a IH]; simpl; [by rewrite Ascii.eqb_refl|].
  intros [->%negb_true_iff Ha]%andb_prop. by rewrite IH.
Qed.

Lemma Cut_none sep s : no_char sep s = true -> Cut s sep = (s, EmptyString, false).
Proof.
  induction s as [|c s IH]; simpl; [done|].
  intros [->%negb_true_iff Hs]%andb_prop. by rewrite IH.
Qed.

Lemma Cut_spec sep s :
  match Cut s sep with
  | (b, a, true) => s = b +:+ String sep a /\ no_char sep b = true
  | (b, a, false) => b = s /\ a = EmptyString /\ no_char sep s = true
  end.
Proof.
  induction s as [|c s IH]; simpl; [done|].
  destruct (Ascii.eqb c sep) eqn:E.
  - by apply Ascii.eqb_eq in E as ->.
  - destruct (Cut s sep) as [[b a] []]; unfold no_char in *; simpl in *; rewrite ?E; simpl; naive_solver.
Qed.

Lemma Split_cons sep s : exists h t, Split s sep = h :: t.
Proof.
  induction s as [|c s (h & t & E)]; simpl; [eauto|].
  rewrite E. destruct (Ascii.eqb c sep); eauto.
Qed.

Lemma Split_none sep s : no_char sep s = true -> Split s sep = [s].
Proof.
  induction s as [|c s IH]; simpl; [done|].
  intros [->%negb_true_iff Hs]%andb_prop. by rewrite IH.
Qed.

Lemma last_Split_app sep a b :
  last_elem (Split (a +:+ String sep b) sep) = last_elem (Split b sep).
Proof.
  unfold last_elem. destruct (Split_cons sep b) as (hb & tb & Eb).
  induction a as [|c a IH]; simpl.
  - rewrite Ascii.eqb_refl, Eb. done.
  - destruct (Split_cons sep (a +:+ String sep b)) as (h & t & E). rewrite E in *.
    destruct (Ascii.eqb c sep); [exact IH|].
    destruct t; [|exact IH].
    (* the text contains a separator, so there are at least two pieces *)
    exfalso. clear -E. revert h E. induction a as [|d a IHa]; simpl; intros h.
    + rewrite Ascii.eqb_refl. destruct (Split_cons sep b) as (h' & t' & ->). done.
    + destruct (Split_cons sep (a +:+ String sep b)) as (h' & t' & E'). rewrite E'.
      destruct (Ascii.eqb d sep); [done|]. intros [= _ ->]. by apply (IHa h').
Qed.

(** The piece after the last separator. *)
Lemma last_Split_index sep a b :
  no_char sep b = true -> last_elem (Split (a +:+ String sep b) sep) = b.
Proof. intros H. by rewrite last_Split_app, Split_none. Qed.

Lemma HasPrefix_one s c :
  HasPrefix s (String c EmptyString) =
  match s with EmptyString => false | String d _ => Ascii.eqb c d end.
Proof. destruct s as [|d s]; [done|]. simpl. destruct s; apply andb_true_r. Qed.

Lemma Contains_no_char c s :
  Contains s (String c EmptyString) = negb (no_char c s).
Proof.
  induction s as [|d s IH]; [done|].
  cbn [Contains]. rewrite HasPrefix_one, IH. unfold no_char. simpl.
  rewrite (Ascii.eqb_sym c d). by destruct (Ascii.eqb d c).
Qed.

(** *** Numerals *)

Lemma is_digit_spec c : is_digit c = true <-> exists d, (d < 10)%N /\ c = digit_char d.
Proof.
  split.
  - intros [H1%N.leb_le H2%N.leb_le]%andb_prop. cbn in H1, H2.
    exists (N_of_ascii c - 48)%N. split; [lia|]. unfold digit_char.
    rewrite <- (ascii_N_embedding c) at 1. f_equal. lia.
  - intros (d & Hd & ->). unfold is_digit, in_range, digit_char.
    rewrite N_ascii_embedding by lia. cbn.
    apply andb_true_intro; split; apply N.leb_le; lia.
Qed.

Lemma digit_val_char d : (d < 10)%N -> digit_val (digit_char d) = Some d.
Proof.
  intros Hd. unfold digit_val.
  rewrite (proj2 (is_digit_spec _)) by eauto.
  unfold digit_char. rewrite N_ascii_embedding by lia. f_equal. lia.
Qed.

Lemma is_digit_ne c x : is_digit c = true -> is_digit x = false -> Ascii.eqb c x = false.
Proof. intros H1 H2. apply Ascii.eqb_neq. congruence. Qed.

Lemma itoa_go_digits fuel n acc :
  string_forallb is_digit acc = true -> string_forallb is_digit (itoa_go fuel n acc) = true.
Proof.
  revert n acc. induction fuel as [|f IH]; intros n acc Hacc; simpl; [done|].
  assert (Hd : is_digit (digit_char (n mod 10)) = true).
  { apply is_digit_spec. eexists. split; [|done]. by apply N.mod_lt. }
  destruct (N.eqb _ _); [|apply IH]; simpl; by rewrite Hd, Hacc.
Qed.

Lemma itoa_N_digits n : string_forallb is_digit (itoa_N n) = true.
Proof. by apply itoa_go_digits. Qed.

Lemma parse_digits_cons us d s n :
  (d < 10)%N ->
  parse_digits 10 us (String (digit_char d) s) n = parse_digits 10 us s (n * 10 + d)%N.
Proof.
  intros Hd. simpl. rewrite digit_val_char by done.
  rewrite (is_digit_ne (digit_char d) "_") by (try apply is_digit_spec; eauto).
  rewrite andb_false_r. by apply N.ltb_lt in Hd as ->.
Qed.

Lemma itoa_go_parse us fuel n acc :
  (n < 10 ^ N.of_nat fuel)%N ->
  parse_digits 10 us (itoa_go fuel n acc) 0 = parse_digits 10 us acc n.
Proof.
  revert n acc. induction fuel as [|f IH]; intros n acc Hn.
  { cbn in *. by replace n with 0%N by lia. }
  cbn [itoa_go]. assert (n mod 10 < 10)%N by (by apply N.mod_lt).
  pose proof (N.div_mod n 10 ltac:(done)) as Hdm.
  destruct (N.eqb_spec (n / 10) 0) as [E|E].
  - rewrite parse_digits_cons by done. f_equal. lia.
  - rewrite IH, parse_digits_cons by (try done; rewrite Nat2N.inj_succ, N.pow_succ_r in Hn by lia;
      apply N.Div0.div_lt_upper_bound; lia).
    f_equal. lia.
Qed.

Lemma size_nat_bound n : (n < 10 ^ N.of_nat (S (N.size_nat n)))%N.
Proof.
  apply N.lt_le_trans with (2 ^ N.of_nat (N.size_nat n))%N.
  - destruct n as [|p]; [done|]. cbn [N.size_nat].
    induction p as [p IH|p IH|]; [| |done]; cbn [Pos.size_nat];
      rewrite Nat2N.inj_succ, N.pow_succ_r by lia; lia.
  - rewrite Nat2N.inj_succ. etrans; [apply (N.pow_le_mono_l 2 10); lia|].
    apply N.pow_le_mono_r; lia.
Qed.

Lemma parse_itoa us n : parse_digits 10 us (itoa_N n) 0 = Some n.
Proof. unfold itoa_N. rewrite itoa_go_parse by apply size_nat_bound. done. Qed.

(** A numeral starts with a digit, and with a zero only for zero itself. *)
Lemma itoa_go_head fuel n acc :
  (0 < n < 10 ^ N.of_nat fuel)%N ->
  exists c s, itoa_go fuel n acc = String c s /\ is_digit c = true /\ c <> "0"%char.
Proof.
  revert n acc. induction fuel as [|f IH]; intros n acc [H0 Hn]; [cbn in Hn; lia|].
  cbn [itoa_go]. assert (n mod 10 < 10)%N by (by apply N.mod_lt).
  pose proof (N.div_mod n 10 ltac:(done)) as Hdm.
  destruct (N.eqb_spec (n / 10) 0) as [E|E].
  - eexists _, _. split; [done|]. split; [apply is_digit_spec; eauto|].
    unfold digit_char. change "0"%char with (ascii_of_N 48).
    intros Heq%(f_equal N_of_ascii). rewrite !N_ascii_embedding in Heq by lia. lia.
  - apply IH. split; [lia|]. rewrite Nat2N.inj_succ, N.pow_succ_r in Hn by lia.
    apply N.Div0.div_lt_upper_bound. lia.
Qed.

Lemma itoa_N_head n :
  (0 < n)%N -> exists c s, itoa_N n = String c s /\ is_digit c = true /\ c <> "0"%char.
Proof. intros H. apply itoa_go_head. split; [done|]. apply size_nat_bound. Qed.

Lemma itoa_N_no_char c n : is_digit c = false -> no_char c (itoa_N n) = true.
Proof.
  intros Hc. eapply string_forallb_impl; [|apply itoa_N_digits].
  intros d Hd. by rewrite is_digit_ne.
Qed.

Lemma signed_digit bits parse c s :
  is_digit c = true ->
  signed bits parse (String c s) =
  (n ← parse (String c s);
   if Z.leb (2 ^ (bits - 1)) (Z.of_N n) then None else Some (Z.of_N n)).
Proof.
  intros Hc. unfold signed.
  by destruct c as [[] [] [] [] [] [] [] []].
Qed.

Lemma Itoa_nonneg z : (0 <= z)%Z -> Itoa z = itoa_N (Z.to_N z).
Proof. by destruct z. Qed.

Lemma itoa_N_cases n :
  (n = 0%N /\ itoa_N n = "0") \/
  (exists c s, itoa_N n = String c s /\ is_digit c = true /\ c <> "0"%char).
Proof.
  destruct (decide (n = 0%N)) as [->|Hn]; [by left|right]. apply itoa_N_head. lia.
Qed.

Lemma Atoi_Itoa z : (0 <= z < 2 ^ 63)%Z -> Atoi (Itoa z) = Some z.
Proof.
  intros [H0 H1]. rewrite Itoa_nonneg by done. unfold Atoi.
  destruct (itoa_N_cases (Z.to_N z)) as [[Ez E]|(c & s & E & Hc & _)]; rewrite E.
  - by replace z with 0%Z by lia.
  - rewrite signed_digit by done. rewrite <- E, parse_itoa. simpl.
    rewrite Z2N.id by done. by rewrite (proj2 (Z.leb_gt _ _)).
Qed.

Lemma parse_uint_decimal c s :
  is_digit c = true -> c <> "0"%char ->
  no_char "_" (String c s) = true ->
  parse_uint_base0 (String c s) = parse_digits 10 true (String c s) 0.
Proof.
  intros Hc H0 Hu. unfold parse_uint_base0.
  replace (match String c s with
           | String "0" (String c0 (String d s')) =>
               match base_prefix c0 with
               | Some b => (b, String d s')
               | None => (8%N, String c0 (String d s'))
               end
           | String "0" s' => (8%N, s')
           | _ => (10%N, String c s)
           end) with (10%N, String c s).
  - change (Contains (String c s) "_") with (Contains (String c s) (String "_" EmptyString)).
    rewrite Contains_no_char, Hu. cbn [negb andb].
    by destruct (parse_digits 10 true (String c s) 0).
  - destruct c as [[] [] [] [] [] [] [] []]; done.
Qed.

Lemma ParseInt0_Itoa z :
  (0 <= z)%Z -> ParseInt0 (Itoa z) 32 = if decide (z < 2 ^ 31)%Z then Some z else None.
Proof.
  intros H0. rewrite Itoa_nonneg by done. unfold ParseInt0.
  destruct (itoa_N_cases (Z.to_N z)) as [[Ez E]|(c & s & E & Hc & Hz)]; rewrite E.
  - by replace z with 0%Z by lia.
  - rewrite signed_digit, parse_uint_decimal by (try done; rewrite <- E; by apply itoa_N_no_char).
    rewrite <- E, parse_itoa. simpl. rewrite Z2N.id by done.
    change (2 ^ (32 - 1))%Z with (2 ^ 31)%Z.
    destruct (Z.leb_spec (2 ^ 31) z); case_decide; (done || lia).
Qed.
