(* ===== verification/Sha256.v ===== *)
(** * SHA-256 ([crypto/sha256]) and the hexadecimal digest

    FIPS 180-4 on byte lists, executable; used by [randutils] (object-name
    suffixes, configuration checksums) and by the watcher's [hashcalc]. *)

From S2P Require Import Prelude GoStrings.

Module Sha256.

Local Open Scope N_scope.

Definition mask32 (x : N) : N := N.land x 4294967295.
Definition add32 (x y : N) : N := mask32 (x + y).
Definition rotr (n x : N) : N := N.lor (N.shiftr x n) (mask32 (N.shiftl x (32 - n))).

Definition ch (x y z : N) : N := N.lxor (N.land x y) (N.land (N.lxor x 4294967295) z).
Definition maj (x y z : N) : N := N.lxor (N.lxor (N.land x y) (N.land x z)) (N.land y z).
Definition bsig0 (x : N) : N := N.lxor (N.lxor (rotr 2 x) (rotr 13 x)) (rotr 22 x).
Definition bsig1 (x : N) : N := N.lxor (N.lxor (rotr 6 x) (rotr 11 x)) (rotr 25 x).
Definition ssig0 (x : N) : N := N.lxor (N.lxor (rotr 7 x) (rotr 18 x)) (N.shiftr x 3).
Definition ssig1 (x : N) : N := N.lxor (N.lxor (rotr 17 x) (rotr 19 x)) (N.shiftr x 10).

(** The round constants are the first 32 bits of the fractional parts of the
    cube roots of the first 64 primes, the initial state those of the square
    roots of the first 8. *)
Definition is_prime (n : N) : bool :=
  forallb (fun d => negb (n mod N.of_nat d =? 0)) (seq 2 (N.to_nat n - 2)).

Definition primes : list N := filter is_prime (map N.of_nat (seq 2 310)).

Definition cube_root (n : N) : N :=
  fold_left (fun r b => let r' := r + 2 ^ N.of_nat b in if r' * r' * r' <=? n then r' else r)
    (rev (seq 0 36)) 0.

Definition K : list N :=
  Eval vm_compute in map (fun p => mask32 (cube_root (p * 2 ^ 96))) primes.

Definition square_frac (i : nat) : N := mask32 (N.sqrt (nth i primes 0 * 2 ^ 64)).

Record state := mkState { sa : N; sb : N; sc : N; sd : N; se : N; sf : N; sg : N; sh : N }.

Definition H0 : state :=
  Eval vm_compute in
  mkState (square_frac 0) (square_frac 1) (square_frac 2) (square_frac 3)
          (square_frac 4) (square_frac 5) (square_frac 6) (square_frac 7).

Definition round (s : state) (kw : N * N) : state :=
  let t1 := add32 (add32 (add32 (sh s) (bsig1 (se s))) (add32 (ch (se s) (sf s) (sg s)) (fst kw))) (snd kw) in
  let t2 := add32 (bsig0 (sa s)) (maj (sa s) (sb s) (sc s)) in
  mkState (add32 t1 t2) (sa s) (sb s) (sc s) (add32 (sd s) t1) (se s) (sf s) (sg s).

(** The message schedule, most recent word first. *)
Fixpoint extend (n : nat) (w : list N) : list N :=
  match n with
  | O => w
  | S n' =>
      let at_ i := nth i w 0 in
      extend n' (add32 (add32 (ssig1 (at_ 1%nat)) (at_ 6%nat)) (add32 (ssig0 (at_ 14%nat)) (at_ 15%nat)) :: w)
  end.

Fixpoint be_words (bytes : list N) : list N :=
  match bytes with
  | a :: b :: c :: d :: r =>
      N.lor (N.lor (N.shiftl a 24) (N.shiftl b 16)) (N.lor (N.shiftl c 8) d) :: be_words r
  | _ => []
  end.

Definition compress (s : state) (block : list N) : state :=
  let w := rev (extend 48 (rev (be_words block))) in
  let r := fold_left round (combine K w) s in
  mkState (add32 (sa s) (sa r)) (add32 (sb s) (sb r)) (add32 (sc s) (sc r)) (add32 (sd s) (sd r))
          (add32 (se s) (se r)) (add32 (sf s) (sf r)) (add32 (sg s) (sg r)) (add32 (sh s) (sh r)).

(** Padding to a multiple of 64 bytes: 0x80, zeros, the bit length. *)
Definition pad (msg : list N) : list N :=
  let len := N.of_nat (List.length msg) in
  let zeros := Z.to_nat ((55 - Z.of_N len) mod 64) in
  msg ++ [128] ++ repeat 0 zeros ++
  map (fun i => N.land (N.shiftr (8 * len) (8 * i)) 255) [7; 6; 5; 4; 3; 2; 1; 0].

Fixpoint blocks (fuel : nat) (s : state) (bytes : list N) : state :=
  match fuel, bytes with
  | S f, _ :: _ => blocks f (compress s (firstn 64 bytes)) (skipn 64 bytes)
  | _, _ => s
  end.

(** One unit of fuel per block; a padded message has at most one block per
    64 bytes, hence fewer blocks than bytes. *)
Definition digest (msg : list N) : state :=
  let p := pad msg in blocks (List.length p) H0 p.

(** Lower-case hexadecimal, the verb [%x] of [fmt.Sprintf]. *)
Definition hex_digit (n : N) : ascii :=
  if n <? 10 then ascii_of_N (48 + n) else ascii_of_N (87 + n).

Definition hex_word (w : N) (rest : string) : string :=
  fold_right (fun i acc => String (hex_digit (N.land (N.shiftr w (4 * i)) 15)) acc) rest
    [7; 6; 5; 4; 3; 2; 1; 0].

Definition hex_state (s : state) : string :=
  fold_right hex_word EmptyString [sa s; sb s; sc s; sd s; se s; sf s; sg s; sh s].

Fixpoint string_bytes (s : string) : list N :=
  match s with
  | EmptyString => []
  | String c s' => N_of_ascii c :: string_bytes s'
  end.

(** [fmt.Sprintf (%x, sha256.Sum256 s)] *)
Definition hex_sha256 (s : string) : string := hex_state (digest (string_bytes s)).

(** ** The digest is 64 lower-case hexadecimal characters *)

Definition is_hex (c : ascii) : bool := is_digit c || in_range "a" "f" c.

Lemma hex_digit_hex n : n < 16 -> is_hex (hex_digit n) = true.
Proof.
  intros H. unfold is_hex, is_digit, in_range, hex_digit.
  destruct (N.ltb_spec n 10); rewrite N_ascii_embedding by lia; cbn.
  - rewrite (proj2 (N.leb_le _ _)), (proj2 (N.leb_le _ _)) by lia. done.
  - apply orb_true_intro; right. apply andb_true_intro; split; apply N.leb_le; lia.
Qed.

Lemma nibble_lt x : N.land x 15 < 16.
Proof. change 15 with (N.ones 4). rewrite N.land_ones. by apply N.mod_lt. Qed.

Lemma hex_word_spec w r :
  String.length (hex_word w r) = (8 + String.length r)%nat /\
  string_forallb is_hex (hex_word w r) = string_forallb is_hex r.
Proof.
  split; [done|]. cbn [hex_word fold_right string_forallb].
  rewrite !hex_digit_hex by apply nibble_lt. done.
Qed.

Lemma hex_sha256_spec s :
  String.length (hex_sha256 s) = 64%nat /\ string_forallb is_hex (hex_sha256 s) = true.
Proof.
  unfold hex_sha256, hex_state. cbn [fold_right]. split.
  - by rewrite !(proj1 (hex_word_spec _ _)).
  - by rewrite !(proj2 (hex_word_spec _ _)).
Qed.

(** Fuel for every byte is enough: more changes nothing. *)
Lemma blocks_fuel f f' s bytes :
  (List.length bytes <= f)%nat -> (List.length bytes <= f')%nat -> blocks f s bytes = blocks f' s bytes.
Proof.
  revert f' s bytes. induction f as [|f IH]; intros f' s bytes Hf Hf'.
  - destruct bytes; [by destruct f'|cbn in Hf; lia].
  - destruct bytes as [|b bytes]; [by destruct f'|]. destruct f' as [|f']; [cbn in Hf'; lia|].
    cbn [blocks]. apply IH; rewrite length_skipn; cbn [List.length] in *; lia.
Qed.

(** The padded message is a whole number of blocks. *)
Lemma pad_blocks msg : (List.length (pad msg) mod 64 = 0)%nat.
Proof.
  unfold pad. rewrite !length_app, repeat_length, length_map. cbn [List.length].
  set (n := List.length msg). rewrite nat_N_Z.
  pose proof (Z.mod_pos_bound (55 - Z.of_nat n) 64 ltac:(lia)) as Hb.
  apply Nat2Z.inj. rewrite Nat2Z.inj_mod, !Nat2Z.inj_add, Z2Nat.id by lia.
  rewrite (Z.mod_eq (55 - Z.of_nat n) 64) by lia.
  replace (Z.of_nat n + (Z.of_nat 1 + (55 - Z.of_nat n - 64 * ((55 - Z.of_nat n) / 64) + Z.of_nat 8)))%Z
    with ((1 - (55 - Z.of_nat n) / 64) * 64)%Z by lia.
  by rewrite Z.mod_mul.
Qed.

(** FIPS 180-4 test vectors. *)
Example sha256_empty :
  hex_sha256 "" = "e3b0c44298fc1c149afbf4c8996fb92427ae41e4649b934ca495991b7852b855".
Proof. vm_compute. reflexivity. Qed.

Example sha256_abc :
  hex_sha256 "abc" = "ba7816bf8f01cfea414140de5dae2223b00361a396177a9cb410ff61f20015ad".
Proof. vm_compute. reflexivity. Qed.

Example sha256_two_blocks :
  hex_sha256 "abcdbcdecdefdefgefghfghighijhijkijkljklmklmnlmnomnopnopq" =
  "248d6a61d20638b8e5c026930c3e6039a33ce45964ff2167f6ecedd419db06c1".
Proof. vm_compute. reflexivity. Qed.

End Sha256.
