(* ===== verification/Base64.v ===== *)
(** * [encoding/base64], [StdEncoding]

    [DecodeString] as Go implements it: carriage returns and line feeds are
    ignored everywhere, padding is mandatory, text after the padding is an
    error, and the unused low bits of the last character are not checked.
    [EncodeToString] is the reference the round trip is stated against. *)

From S2P Require Import Prelude GoStrings.

Module Base64.

Local Open Scope N_scope.

Definition enc_char (n : N) : ascii :=
  if n <? 26 then ascii_of_N (65 + n)
  else if n <? 52 then ascii_of_N (71 + n)
  else if n <? 62 then ascii_of_N (n - 4)
  else if n =? 62 then "+" else "/".

Definition dec_char (c : ascii) : option N :=
  if is_upper c then Some (N_of_ascii c - 65)
  else if is_lower c then Some (N_of_ascii c - 71)
  else if is_digit c then Some (N_of_ascii c + 4)
  else if Ascii.eqb c "+" then Some 62
  else if Ascii.eqb c "/" then Some 63
  else None.

Definition is_newline (c : ascii) : bool := Ascii.eqb c "010" || Ascii.eqb c "013".

Fixpoint strip_newlines (s : string) : string :=
  match s with
  | EmptyString => EmptyString
  | String c s' => if is_newline c then strip_newlines s' else String c (strip_newlines s')
  end.

(** The [k] leading bytes of a 24-bit group. *)
Definition group_bytes (k : nat) (n : N) (rest : string) : string :=
  let b1 := ascii_of_N (n / 65536) in
  let b2 := ascii_of_N ((n / 256) mod 256) in
  let b3 := ascii_of_N (n mod 256) in
  match k with
  | 1%nat => String b1 rest
  | 2%nat => String b1 (String b2 rest)
  | _ => String b1 (String b2 (String b3 rest))
  end.

Definition is_pad (c : ascii) : bool := Ascii.eqb c "=".

(** Text without newlines, four characters at a time ([decodeQuantum]). *)
Fixpoint decode_quanta (s : string) : option string :=
  match s with
  | EmptyString => Some EmptyString
  | String a (String b (String c (String d r))) =>
      x ← dec_char a;
      y ← dec_char b;
      if is_pad c then
        if is_pad d && String.eqb r EmptyString
        then Some (group_bytes 1 (x * 262144 + y * 4096) EmptyString) else None
      else
        z ← dec_char c;
        if is_pad d then
          if String.eqb r EmptyString
          then Some (group_bytes 2 (x * 262144 + y * 4096 + z * 64) EmptyString) else None
        else
          w ← dec_char d;
          rest ← decode_quanta r;
          Some (group_bytes 3 (x * 262144 + y * 4096 + z * 64 + w) rest)
  | _ => None
  end.

(** [base64.StdEncoding.DecodeString]; [None] is [CorruptInputError]. *)
Definition DecodeString (s : string) : option string := decode_quanta (strip_newlines s).

Definition group_chars (k : nat) (n : N) (rest : string) : string :=
  let c i := enc_char ((n / 64 ^ i) mod 64) in
  String (c 3) (String (c 2)
    match k with
    | 1%nat => String "=" (String "=" rest)
    | 2%nat => String (c 1) (String "=" rest)
    | _ => String (c 1) (String (c 0) rest)
    end).

(** [base64.StdEncoding.EncodeToString], the reference encoder *)
Fixpoint EncodeToString (s : string) : string :=
  match s with
  | EmptyString => EmptyString
  | String a EmptyString => group_chars 1 (N_of_ascii a * 65536) EmptyString
  | String a (String b EmptyString) =>
      group_chars 2 (N_of_ascii a * 65536 + N_of_ascii b * 256) EmptyString
  | String a (String b (String c r)) =>
      group_chars 3 (N_of_ascii a * 65536 + N_of_ascii b * 256 + N_of_ascii c) (EncodeToString r)
  end.

(** ** Round trip *)

Lemma dec_enc_char n : n < 64 -> dec_char (enc_char n) = Some n /\ is_pad (enc_char n) = false.
Proof.
  intros H.
  assert (Hall : forallb (fun n => bool_decide (dec_char (enc_char n) = Some n) && negb (is_pad (enc_char n)))
                   (map N.of_nat (seq 0 64)) = true) by (vm_compute; reflexivity).
  rewrite forallb_forall in Hall. specialize (Hall n).
  destruct (andb_prop _ _ (Hall ltac:(apply in_map_iff; exists (N.to_nat n); split;
    [apply N2Nat.id | apply in_seq; lia]))) as [H1 H2].
  apply bool_decide_eq_true in H1. by apply negb_true_iff in H2.
Qed.

Lemma ascii_lt a : N_of_ascii a < 256.
Proof. apply N_ascii_bounded. Qed.

Lemma group_value n :
  n < 16777216 ->
  (n / 64 ^ 3) mod 64 * 262144 + (n / 64 ^ 2) mod 64 * 4096 + (n / 64 ^ 1) mod 64 * 64 + (n / 64 ^ 0) mod 64 = n.
Proof.
  intros H. change (64 ^ 3) with (64 * 64 * 64). change (64 ^ 2) with (64 * 64).
  change (64 ^ 1) with 64. change (64 ^ 0) with 1.
  rewrite <- !N.Div0.div_div, N.div_1_r.
  pose proof (N.div_mod n 64 ltac:(done)). pose proof (N.div_mod (n / 64) 64 ltac:(done)).
  pose proof (N.div_mod (n / 64 / 64) 64 ltac:(done)).
  rewrite (N.mod_small (n / 64 / 64 / 64)); [lia|].
  rewrite !N.Div0.div_div. apply N.Div0.div_lt_upper_bound. lia.
Qed.

Lemma group_bytes_value a b c rest :
  group_bytes 3 (N_of_ascii a * 65536 + N_of_ascii b * 256 + N_of_ascii c) rest =
  String a (String b (String c rest)).
Proof.
  pose proof (ascii_lt a). pose proof (ascii_lt b). pose proof (ascii_lt c).
  unfold group_bytes.
  set (n := N_of_ascii a * 65536 + N_of_ascii b * 256 + N_of_ascii c).
  assert (n / 65536 = N_of_ascii a) as ->
    by (symmetry; apply N.div_unique with (N_of_ascii b * 256 + N_of_ascii c); unfold n; lia).
  assert (n / 256 = N_of_ascii a * 256 + N_of_ascii b) as ->
    by (symmetry; apply N.div_unique with (N_of_ascii c); unfold n; lia).
  assert ((N_of_ascii a * 256 + N_of_ascii b) mod 256 = N_of_ascii b) as ->
    by (symmetry; apply N.mod_unique with (N_of_ascii a); lia).
  assert (n mod 256 = N_of_ascii c) as ->
    by (symmetry; apply N.mod_unique with (N_of_ascii a * 256 + N_of_ascii b); unfold n; lia).
  by rewrite !ascii_N_embedding.
Qed.

Ltac solve_group :=
  repeat match goal with
  | |- context [dec_char (enc_char ?n)] =>
      rewrite (proj1 (dec_enc_char n (N.mod_lt _ 64 ltac:(done)))); simpl mbind; cbn [option_bind]
  | |- context [is_pad (enc_char ?n)] =>
      rewrite (proj2 (dec_enc_char n (N.mod_lt _ 64 ltac:(done))))
  end.

Lemma decode_group3 n rest :
  decode_quanta (group_chars 3 n rest) =
  (r ← decode_quanta rest; Some (group_bytes 3
    ((n / 64 ^ 3) mod 64 * 262144 + (n / 64 ^ 2) mod 64 * 4096 + (n / 64 ^ 1) mod 64 * 64 + (n / 64 ^ 0) mod 64) r)).
Proof. unfold group_chars. cbn [decode_quanta]. by solve_group. Qed.

Lemma decode_group2 n :
  (n mod 64 = 0) -> n < 16777216 ->
  decode_quanta (group_chars 2 n EmptyString) = Some (group_bytes 2 n EmptyString).
Proof.
  intros H0 H. pose proof (group_value n H) as E.
  change (64 ^ 0) with 1 in E. rewrite N.div_1_r, H0, N.add_0_r in E.
  unfold group_chars. cbn [decode_quanta]. solve_group. cbn [is_pad Ascii.eqb Bool.eqb String.eqb].
  by rewrite E.
Qed.

Lemma decode_group1 n :
  (n mod 64 = 0) -> ((n / 64) mod 64 = 0) -> n < 16777216 ->
  decode_quanta (group_chars 1 n EmptyString) = Some (group_bytes 1 n EmptyString).
Proof.
  intros H0 H1 H. pose proof (group_value n H) as E.
  change (64 ^ 1) with 64 in E. change (64 ^ 0) with 1 in E.
  rewrite N.div_1_r, H0, H1, N.mul_0_l, !N.add_0_r in E.
  unfold group_chars. cbn [decode_quanta]. solve_group. cbn [is_pad Ascii.eqb Bool.eqb String.eqb andb].
  by rewrite E.
Qed.

Lemma string_ind3 (P : string -> Prop) :
  P EmptyString -> (forall a, P (String a EmptyString)) ->
  (forall a b, P (String a (String b EmptyString))) ->
  (forall a b c r, P r -> P (String a (String b (String c r)))) -> forall s, P s.
Proof.
  intros H0 H1 H2 H3.
  exact (fix go s := match s with
    | EmptyString => H0
    | String a EmptyString => H1 a
    | String a (String b EmptyString) => H2 a b
    | String a (String b (String c r)) => H3 a b c r (go r)
    end).
Qed.

Lemma decode_encode s : decode_quanta (EncodeToString s) = Some s.
Proof.
  induction s as [|a|a b|a b c r IH] using string_ind3; [done| | |];
    pose proof (ascii_lt a); try pose proof (ascii_lt b); try pose proof (ascii_lt c);
    cbn [EncodeToString].
  - assert (E1 : N_of_ascii a * 65536 = (N_of_ascii a * 16) * 64 * 64) by lia.
    rewrite decode_group1 by (try lia; rewrite E1, ?N.div_mul by done; apply N.Div0.mod_mul).
    pose proof (group_bytes_value a "000" "000" EmptyString) as E. cbn in E |- *.
    rewrite !N.add_0_r in E. congruence.
  - assert (E1 : N_of_ascii a * 65536 + N_of_ascii b * 256 = (N_of_ascii a * 1024 + N_of_ascii b * 4) * 64) by lia.
    rewrite decode_group2 by (try lia; rewrite E1; apply N.Div0.mod_mul).
    pose proof (group_bytes_value a b "000" EmptyString) as E. cbn in E |- *.
    rewrite !N.add_0_r in E. congruence.
  - rewrite decode_group3, IH. cbn [mbind option_bind].
    rewrite group_value by lia. by rewrite group_bytes_value.
Qed.

End Base64.
