(* ===== verification/Filepath.v ===== *)
(** * [path/filepath] on Unix

    [Clean] as Go specifies it: empty and [.] elements vanish, an inner [..]
    removes the element before it, a rooted path has no leading [..], and the
    empty path is the dot.  [Join] ignores empty elements and cleans. *)

From S2P Require Import Prelude GoStrings.

Module filepath.

Definition slash : ascii := "/".

(** One element of the path against the elements kept so far, last first. *)
Definition clean_step (rooted : bool) (stack : list string) (elem : string) : list string :=
  if String.eqb elem EmptyString || String.eqb elem "." then stack
  else if String.eqb elem ".." then
    match stack with
    | top :: below => if String.eqb top ".." then ".." :: stack else below
    | [] => if rooted then [] else [".."]
    end
  else elem :: stack.

Definition rooted (path : string) : bool := HasPrefix path "/".

Definition clean_stack (path : string) : list string :=
  fold_left (clean_step (rooted path)) (Split path slash) [].

Definition render (root : bool) (stack : list string) : string :=
  let body := Join (rev stack) "/" in
  if root then "/" +:+ body
  else if String.eqb body EmptyString then "." else body.

(** [filepath.Clean] *)
Definition Clean (path : string) : string := render (rooted path) (clean_stack path).

(** [filepath.Join] of two elements *)
Definition Join2 (dir file : string) : string :=
  match dir, file with
  | EmptyString, EmptyString => EmptyString
  | EmptyString, _ => Clean file
  | _, EmptyString => Clean dir
  | _, _ => Clean (dir +:+ "/" +:+ file)
  end.

(** ** Cleaning twice *)

(** An element that [Clean] may leave in a path. *)
Definition kept (s : string) : bool :=
  negb (String.eqb s EmptyString) && negb (String.eqb s ".") && no_char slash s.

Fixpoint dots_below (stack : list string) : bool :=
  match stack with
  | [] => true
  | s :: below => (negb (String.eqb s "..") || forallb (String.eqb "..") below) && dots_below below
  end.

(** The elements kept, last first: [..] only at the start of a relative path. *)
Definition normal (root : bool) (stack : list string) : Prop :=
  forallb kept stack = true /\ dots_below stack = true /\
  (root = true -> forallb (fun s => negb (String.eqb s "..")) stack = true).

Lemma Split_no_sep sep s x : In x (Split s sep) -> no_char sep x = true.
Proof.
  revert x. induction s as [|c s IH]; cbn; intros x.
  - by intros [<-|[]].
  - destruct (Ascii.eqb c sep) eqn:E; cbn.
    + intros [<-|Hin]; [done|by apply IH].
    + destruct (Split s sep) as [|h t] eqn:Es; cbn.
      * intros [<-|[]]. unfold no_char. cbn. by rewrite E.
      * intros [<-|Hin]; [|apply IH; by right]. unfold no_char. cbn. rewrite E. cbn. apply (IH h). by left.
Qed.

Lemma clean_step_normal root stack elem :
  normal root stack -> no_char slash elem = true -> normal root (clean_step root stack elem).
Proof.
  intros (Hk & Hd & Hr) He. unfold clean_step.
  destruct (String.eqb elem EmptyString) eqn:E0; [done|].
  destruct (String.eqb elem ".") eqn:E1; [done|]. cbn [orb].
  destruct (String.eqb elem "..") eqn:E2.
  - destruct stack as [|top below].
    + destruct root; [done|]. by repeat split.
    + cbn in Hk, Hd, Hr. apply andb_prop in Hk as [Hk1 Hk2]. apply andb_prop in Hd as [Hd1 Hd2].
      destruct (String.eqb top "..") eqn:Et.
      * cbn in Hd1. apply String.eqb_eq in Et as ->. split; [|split]; cbn; rewrite ?Hk2, ?Hd1, ?Hd2; done.
      * split; [done|]. split; [done|]. intros Hroot. by destruct (andb_prop _ _ (Hr Hroot)).
  - split; [|split].
    + cbn [forallb]. rewrite Hk. unfold kept. by rewrite E0, E1, He.
    + cbn [dots_below]. by rewrite E2, Hd.
    + intros Hroot. cbn [forallb]. by rewrite E2, (Hr Hroot).
Qed.

Lemma fold_normal root l stack :
  normal root stack -> (forall x, In x l -> no_char slash x = true) -> normal root (fold_left (clean_step root) l stack).
Proof.
  revert stack. induction l as [|x l IH]; intros stack Hs Hl; cbn; [done|].
  apply IH; [apply clean_step_normal; [done|apply Hl; by left]|]. intros y Hy. apply Hl. by right.
Qed.

Lemma clean_normal path : normal (rooted path) (clean_stack path).
Proof. apply fold_normal; [by repeat split|]. intros x. apply Split_no_sep. Qed.

(** The elements of a normal path are put back as they were. *)
Lemma fold_kept root stack : normal root stack -> fold_left (clean_step root) (rev stack) [] = stack.
Proof.
  induction stack as [|s below IH]; intros (Hk & Hd & Hr); [done|]. cbn in Hk, Hd.
  apply andb_prop in Hk as [Hk1 Hk2]. apply andb_prop in Hd as [Hd1 Hd2]. cbn [rev]. rewrite fold_left_app.
  rewrite IH by (split; [done|split; [done|]]; intros Hroot; by destruct (andb_prop _ _ (Hr Hroot))).
  cbn. unfold kept in Hk1. apply andb_prop in Hk1 as [Hk1 _]. apply andb_prop in Hk1 as [H0 H1].
  unfold clean_step. apply negb_true_iff in H0, H1. rewrite H0, H1. cbn [orb].
  destruct (String.eqb s "..") eqn:E2; [|done]. apply String.eqb_eq in E2 as ->.
  destruct root; [by specialize (Hr eq_refl)|]. destruct below as [|b below']; [done|].
  change (String.eqb ".." b && forallb (String.eqb "..") below' = true) in Hd1.
  apply andb_prop in Hd1 as [Hb _]. rewrite String.eqb_sym in Hb. by rewrite Hb.
Qed.

Lemma Split_app_sep sep a b : Split (a +:+ String sep b) sep = Split a sep ++ Split b sep.
Proof.
  induction a as [|c a IH]; cbn.
  - by rewrite Ascii.eqb_refl.
  - destruct (Ascii.eqb c sep); [by rewrite IH|]. rewrite IH.
    destruct (Split_cons sep a) as (h & t & ->). done.
Qed.

Lemma Split_Join l : l <> [] -> forallb kept l = true -> Split (Join l "/") slash = l.
Proof.
  induction l as [|s l IH]; intros Hne Hk; [done|]. cbn in Hk. apply andb_prop in Hk as [Hs Hk].
  assert (Hn : no_char slash s = true) by (by apply andb_prop in Hs as [_ ?]).
  destruct l as [|s' l]; [by apply Split_none|].
  change (Join (s :: s' :: l) "/") with (s +:+ String slash (Join (s' :: l) "/")).
  rewrite Split_app_sep, Split_none by done. cbn [app]. f_equal. by apply IH.
Qed.

Lemma kept_head s : kept s = true -> exists c r, s = String c r /\ Ascii.eqb c slash = false.
Proof.
  destruct s as [|c r]; [done|]. intros H. exists c, r. split; [done|]. unfold kept in H.
  apply andb_prop in H as [_ H]. unfold no_char in H. cbn in H. apply andb_prop in H as [H _].
  by apply negb_true_iff in H.
Qed.

Lemma Join_head l : l <> [] -> forallb kept l = true -> exists c r, Join l "/" = String c r /\ Ascii.eqb c slash = false.
Proof.
  destruct l as [|s l]; [done|]. intros _ Hk. cbn in Hk. apply andb_prop in Hk as [Hs _].
  destruct (kept_head s Hs) as (c & r & -> & Hc). destruct l as [|s' l].
  - by exists c, r.
  - exists c, (r +:+ "/" +:+ Join (s' :: l) "/"). by split.
Qed.

Lemma forallb_rev {A} (p : A -> bool) l : forallb p (rev l) = forallb p l.
Proof. induction l as [|x l IH]; [done|]. cbn. rewrite forallb_app, IH. cbn. rewrite andb_true_r. apply andb_comm. Qed.

(** Rendering keeps the root and adds only elements that vanish again. *)
Lemma render_elements root stack : normal root stack -> forall tail,
  rooted (render root stack +:+ tail) = root /\
  fold_left (clean_step root) (Split (render root stack) slash) [] = stack.
Proof.
  intros Hn tail. pose proof (fold_kept _ _ Hn) as Hf. destruct Hn as (Hk & _ & _). rewrite <- forallb_rev in Hk.
  unfold render, rooted. destruct (decide (rev stack = [])) as [E|E].
  - rewrite E in Hf |- *. cbn in Hf. rewrite <- Hf. by destruct root; split; cbn; destruct tail.
  - pose proof (Split_Join _ E Hk) as Hs. destruct (Join_head _ E Hk) as (c & r & Ej & Hc). rewrite Ej in Hs |- *.
    destruct root; cbn [String.eqb String.append HasPrefix andb].
    + split; [by cbn; destruct (r +:+ tail)|]. cbn. cbn in Hs. by rewrite Hs.
    + rewrite Ascii.eqb_sym in Hc. change "/"%char with slash. rewrite Hc. split; [done|]. by rewrite Hs.
Qed.

Lemma rooted_app a b : a <> EmptyString -> rooted (a +:+ b) = rooted a.
Proof. destruct a as [|c a]; [done|]. intros _. unfold rooted. cbn [String.append HasPrefix]. f_equal. by destruct (a +:+ b), a. Qed.

(** Joining after cleaning is joining. *)
Lemma Join2_Clean dir file : file <> EmptyString -> rooted file = false -> Join2 (Clean dir) file = Join2 dir file.
Proof.
  intros Hf Hr. destruct file as [|c f]; [done|]. set (file := String c f) in *.
  destruct (render_elements _ _ (clean_normal dir) EmptyString) as [_ Hs].
  assert (Hne : Clean dir <> EmptyString).
  { unfold Clean, render. destruct (rooted dir); [done|]. destruct (String.eqb_spec (Join (rev (clean_stack dir)) "/") EmptyString); done. }
  assert (Hroot : rooted (Clean dir) = rooted dir).
  { rewrite <- (sapp_nil_r (Clean dir)). apply render_elements, clean_normal. }
  assert (E : forall d, d <> EmptyString -> Join2 d file = Clean (d +:+ "/" +:+ file)) by (by intros [|? ?]; done).
  assert (Ec : forall d, d <> EmptyString -> clean_stack (d +:+ "/" +:+ file) =
                         fold_left (clean_step (rooted d)) (Split file slash) (fold_left (clean_step (rooted d)) (Split d slash) [])).
  { intros d Hd. unfold clean_stack. change (d +:+ "/" +:+ file) with (d +:+ String slash file).
    by rewrite Split_app_sep, fold_left_app, (rooted_app d). }
  rewrite E by done. unfold Clean at 1. rewrite Ec, rooted_app, Hroot by done.
  change (Clean dir) with (render (rooted dir) (clean_stack dir)). rewrite Hs.
  destruct dir as [|d dir].
  - cbn [Join2]. unfold Clean, clean_stack. by rewrite Hr.
  - rewrite E by done. unfold Clean. by rewrite Ec, rooted_app.
Qed.

(** A plain file name *)
Definition plain (s : string) : bool := kept s && negb (String.eqb s "..").

Lemma plain_Split f : plain f = true -> Split f slash = [f].
Proof. intros H. apply Split_none. unfold plain, kept in H. by apply andb_prop in H as [[_ H]%andb_prop _]. Qed.

(** A plain name is put behind the cleaned directory. *)
Lemma Join2_render dir : exists root below, forall f, plain f = true ->
  Join2 dir f = render root (f :: below) /\ normal root (f :: below).
Proof.
  assert (Hstep : forall root stack f, plain f = true -> clean_step root stack f = f :: stack).
  { intros root stack f Hf. unfold plain, kept in Hf. apply andb_prop in Hf as [[[H0 H1]%andb_prop _]%andb_prop H2].
    unfold clean_step. apply negb_true_iff in H0, H1, H2. by rewrite H0, H1, H2. }
  assert (Hno : forall f, plain f = true -> no_char slash f = true).
  { intros f Hf. unfold plain, kept in Hf. by apply andb_prop in Hf as [[_ ?]%andb_prop _]. }
  assert (Hroot : forall f, plain f = true -> rooted f = false).
  { intros f Hf. pose proof (Hno f Hf) as Hn. unfold plain, kept in Hf. destruct f as [|c f]; [done|]. unfold no_char in Hn. cbn in Hn.
    apply andb_prop in Hn as [Hc _]. apply negb_true_iff in Hc. unfold rooted. cbn [HasPrefix].
    rewrite Ascii.eqb_sym in Hc. change "/"%char with slash. by rewrite Hc. }
  destruct dir as [|d dir].
  - exists false, []. intros f Hf. assert (E : clean_stack f = [f]).
    { unfold clean_stack. rewrite (Hroot f Hf), (plain_Split f Hf). cbn [fold_left]. by apply Hstep. }
    split.
    + assert (Ej : Join2 EmptyString f = Clean f) by (by destruct f). rewrite Ej. unfold Clean. by rewrite E, (Hroot f Hf).
    + rewrite <- E, <- (Hroot f Hf). apply clean_normal.
  - exists (rooted (String d dir)), (clean_stack (String d dir)). intros f Hf.
    set (p := String d dir) in *. assert (Hp : p <> EmptyString) by done.
    assert (E : clean_stack (p +:+ "/" +:+ f) = f :: clean_stack p).
    { unfold clean_stack. change (p +:+ "/" +:+ f) with (p +:+ String slash f).
      rewrite Split_app_sep, fold_left_app, (rooted_app p) by done. rewrite (plain_Split f Hf). cbn [fold_left]. by apply Hstep. }
    split.
    + assert (Ej : Join2 p f = Clean (p +:+ "/" +:+ f)) by (by destruct f). rewrite Ej. unfold Clean. by rewrite E, rooted_app.
    + rewrite <- E, <- (rooted_app p ("/" +:+ f)) by done. apply clean_normal.
Qed.

(** Different names in a directory are different files. *)
Lemma Join2_inj dir f g : plain f = true -> plain g = true -> Join2 dir f = Join2 dir g -> f = g.
Proof.
  intros Hf Hg. destruct (Join2_render dir) as (root & below & H). destruct (H f Hf) as [-> Nf], (H g Hg) as [-> Ng]. intros E.
  destruct (render_elements _ _ Nf EmptyString) as [_ Ef], (render_elements _ _ Ng EmptyString) as [_ Eg]. rewrite E, Eg in Ef. congruence.
Qed.

Lemma Join2_Clean_plain dir f : plain f = true -> Join2 (Clean dir) f = Join2 dir f.
Proof.
  intros Hf. apply Join2_Clean; [by intros ->|]. unfold plain, kept in Hf.
  destruct f as [|a f]; [done|]. apply andb_prop in Hf as [[_ Hn]%andb_prop _]. unfold no_char in Hn. cbn in Hn.
  apply andb_prop in Hn as [Hn _]. apply negb_true_iff in Hn. unfold rooted. cbn [HasPrefix].
  rewrite Ascii.eqb_sym in Hn. change "/"%char with slash. by rewrite Hn.
Qed.

Example Clean_examples :
  Clean "" = "." /\ Clean "/" = "/" /\ Clean "./certs" = "certs" /\ Clean "/a/../../b//c/." = "/b/c" /\
  Clean "a/../../x" = "../x" /\ Join2 "./certs" "ca.crt" = "certs/ca.crt" /\ Join2 "" "ca.crt" = "ca.crt".
Proof. by vm_compute. Qed.

End filepath.
