(* ===== verification/Pem.v ===== *)
(** * [encoding/pem]

    [Decode] as the standard library implements it: the next END line, the
    last BEGIN line before it, header lines, the base64 body; blocks that do
    not fit are skipped.  [EncodeToMemory] writes a block without headers, in
    lines of 64 characters. *)

From S2P Require Import Prelude GoStrings Base64.

Module pem.

Record Block := mkBlock {
  Block_Type : string;
  Block_Headers : gmap string string;
  Block_Bytes : string }.

Definition lf : ascii := "010".

(** [pemStart[1:]], [pemEnd], [pemEndOfLine] *)
Definition beginLine : string := "-----BEGIN ".
Definition endLine : string := "-----END ".
Definition pemEnd : string := String lf endLine.
Definition pemEndOfLine : string := "-----".

(** ** Searching *)

(** [bytes.Index] *)
Fixpoint Index (s sub : string) : option nat :=
  if HasPrefix s sub then Some 0
  else match s with
       | EmptyString => None
       | String _ s' => S <$> Index s' sub
       end.

(** [bytes.LastIndex] *)
Fixpoint LastIndex (s sub : string) : option nat :=
  match s with
  | EmptyString => if HasPrefix s sub then Some 0 else None
  | String _ s' =>
      match LastIndex s' sub with
      | Some i => Some (S i)
      | None => if HasPrefix s sub then Some 0 else None
      end
  end.

Definition is_blank (c : ascii) : bool := Ascii.eqb c " " || Ascii.eqb c "009".

(** [bytes.TrimRight(s, " \t")] *)
Fixpoint trim_blanks (s : string) : string :=
  match s with
  | EmptyString => EmptyString
  | String c s' =>
      match trim_blanks s' with
      | EmptyString => if is_blank c then EmptyString else String c EmptyString
      | r => String c r
      end
  end.

Fixpoint removeSpacesAndTabs (s : string) : string :=
  match s with
  | EmptyString => EmptyString
  | String c s' => if is_blank c then removeSpacesAndTabs s' else String c (removeSpacesAndTabs s')
  end.

(** [getLine]: the first line without its end, and what follows it. *)
Definition getLine (data : string) : string * string :=
  let '(line, rest, found) := Cut data lf in
  (trim_blanks (if found : bool then TrimSuffix line (String "013" EmptyString) else line), rest).

(** The number of bytes [getLine] consumed *)
Definition consumed (data rest : string) : Z := Z.of_nat (String.length data) - Z.of_nat (String.length rest).

(** ** Decoding *)

(** The header lines: [None] at the end of the data. *)
Fixpoint header_lines (fuel : nat) (rest : string) (headers : gmap string string) : option (gmap string string * string) :=
  match fuel, rest with
  | O, _ | _, EmptyString => None
  | S fuel', _ =>
      let '(line, next) := getLine rest in
      let '(key, val, ok) := Cut line ":" in
      if ok : bool then header_lines fuel' next (<[TrimSpace key := TrimSpace val]> headers)
      else Some (headers, rest)
  end.

Definition drop_Z (n : Z) (s : string) : string := string_drop (Z.to_nat n) s.

(** The checks on the END line and the body; [None] is [continue]. *)
Definition decode_body (typeLine : string) (headers : gmap string string) (rest : string) (endIndex endTrailerIndex : Z) :
    option (Block * string) :=
  if negb (Nat.eqb (size headers) 0) && Z.ltb endIndex 0 then None
  else
    let endTrailer := drop_Z endTrailerIndex rest in
    let n := String.length typeLine + String.length pemEndOfLine in
    if Nat.ltb (String.length endTrailer) n then None
    else if negb (HasPrefix (string_take n endTrailer) typeLine) || negb (HasSuffix (string_take n endTrailer) pemEndOfLine)
    then None
    else if negb (String.eqb (fst (getLine (string_drop n endTrailer))) EmptyString) then None
    else
      bytes ← (if Z.ltb 0 endIndex
               then Base64.DecodeString (removeSpacesAndTabs (string_take (Z.to_nat endIndex) rest))
               else Some EmptyString);
      Some (mkBlock typeLine headers bytes,
            snd (getLine (drop_Z (endIndex + Z.of_nat (String.length pemEnd) - 1) rest))).

(** Whether position [i] starts a line. *)
Definition starts_line (i : nat) (s : string) : bool :=
  match i with
  | O => true
  | S j => match String.get j s with Some c => Ascii.eqb c lf | None => false end
  end.

(** The attempt at the block whose END line is at [endIndex] and whose BEGIN
    line is at [beginIndex]: the result, or how to go on. *)
Inductive attempt := Done (b : Block) (rest : string) | GiveUp | Continue (rest : string) (endTrailerIndex : Z).

Definition decode_at (rest : string) (beginIndex endIndex : nat) : attempt :=
  let skipped := beginIndex + String.length beginLine in
  let rest := string_drop skipped rest in
  let endIndex := (Z.of_nat endIndex - Z.of_nat skipped)%Z in
  let endTrailerIndex := (endIndex + Z.of_nat (String.length pemEnd))%Z in
  let '(typeLine, rest') := getLine rest in
  if negb (HasSuffix typeLine pemEndOfLine) then Continue rest' endTrailerIndex
  else
    match header_lines (String.length rest') rest' ∅ with
    | None => GiveUp
    | Some (headers, rest'') =>
        let endIndex := (endIndex - consumed rest rest'')%Z in
        let endTrailerIndex := (endTrailerIndex - consumed rest rest'')%Z in
        match decode_body (TrimSuffix typeLine pemEndOfLine) headers rest'' endIndex endTrailerIndex with
        | Some (b, r) => Done b r
        | None => Continue rest'' endTrailerIndex
        end
    end.

Fixpoint decode_loop (fuel : nat) (data rest : string) (endTrailerIndex : Z) : option Block * string :=
  match fuel with
  | O => (None, data)
  | S fuel' =>
      if Z.ltb endTrailerIndex 0 || Z.ltb (Z.of_nat (String.length rest)) endTrailerIndex then (None, data)
      else
        let rest := drop_Z endTrailerIndex rest in
        match Index rest pemEnd with
        | None => (None, data)
        | Some endIndex =>
            let continue := decode_loop fuel' data rest (Z.of_nat (endIndex + String.length pemEnd)) in
            match LastIndex (string_take endIndex rest) beginLine with
            | None => continue
            | Some beginIndex =>
                if negb (starts_line beginIndex rest) then continue
                else match decode_at rest beginIndex endIndex with
                     | Done b r => (Some b, r)
                     | GiveUp => (None, data)
                     | Continue rest' e => decode_loop fuel' data rest' e
                     end
            end
        end
  end.

(** [pem.Decode]: every round of the loop drops some of the text. *)
Definition Decode (data : string) : option Block * string := decode_loop (S (String.length data)) data data 0.

(** ** Encoding *)

(** The [lineBreaker]: [room] characters still fit into the line. *)
Fixpoint break_lines (room : nat) (s : string) : string :=
  match s with
  | EmptyString => if Nat.eqb room 64 then EmptyString else String lf EmptyString
  | String c s' =>
      match room with
      | O | S O => String c (String lf (break_lines 64 s'))
      | S r => String c (break_lines r s')
      end
  end.

(** [pem.EncodeToMemory] of a block without headers *)
Definition EncodeToMemory (type_ bytes : string) : string :=
  beginLine +:+ type_ +:+ pemEndOfLine +:+ String lf
    (break_lines 64 (Base64.EncodeToString bytes) +:+ endLine +:+ type_ +:+ pemEndOfLine +:+ String lf EmptyString).

(** ** Lemmas on searching *)

Lemma Index_skip a s : no_char lf a = true -> Index (a +:+ s) pemEnd = (fun i => String.length a + i) <$> Index s pemEnd.
Proof.
  induction a as [|c a IH]; intros Ha; cbn [String.append String.length].
  - by destruct (Index s pemEnd).
  - unfold no_char in Ha. cbn in Ha. apply andb_prop in Ha as [Hc Ha]. apply negb_true_iff in Hc.
    cbn [Index]. change (HasPrefix (String c (a +:+ s)) pemEnd) with (Ascii.eqb lf c && HasPrefix (a +:+ s) endLine).
    rewrite Ascii.eqb_sym, Hc. cbn [andb]. rewrite IH by done. by destruct (Index s pemEnd).
Qed.

Lemma HasPrefix_before sep sub a b : no_char sep sub = true -> HasPrefix (a +:+ String sep b) sub = HasPrefix a sub.
Proof.
  revert a. induction sub as [|c sub IH]; intros a Hs; [by destruct (a +:+ String sep b), a|].
  unfold no_char in Hs. cbn in Hs. apply andb_prop in Hs as [Hc Hs]. apply negb_true_iff in Hc.
  destruct a as [|d a]; cbn [String.append HasPrefix]; [by rewrite Hc|]. by rewrite IH.
Qed.

Lemma LastIndex_none_app sep sub a b :
  no_char sep sub = true -> LastIndex a sub = None -> LastIndex b sub = None -> LastIndex (a +:+ String sep b) sub = None.
Proof.
  intros Hs. induction a as [|c a IH]; intros Ha Hb.
  - cbn [String.append LastIndex]. rewrite Hb.
    pose proof (HasPrefix_before sep sub EmptyString b Hs) as E. cbn [String.append] in E.
    cbn [LastIndex] in Ha. rewrite E. by destruct (HasPrefix EmptyString sub).
  - cbn [LastIndex] in Ha. destruct (LastIndex a sub) eqn:E; [done|].
    cbn [String.append LastIndex]. rewrite IH by done.
    change (String c (a +:+ String sep b)) with (String c a +:+ String sep b). rewrite HasPrefix_before by done.
    by destruct (HasPrefix (String c a) sub).
Qed.

Lemma LastIndex_no_char c sub s : no_char c s = true -> LastIndex s (String c sub) = None.
Proof.
  induction s as [|d s IH]; intros Hs; [done|]. unfold no_char in Hs. cbn in Hs. apply andb_prop in Hs as [Hd Hs].
  apply negb_true_iff in Hd. cbn [LastIndex HasPrefix]. rewrite IH, Ascii.eqb_sym, Hd by done. done.
Qed.

Lemma LastIndex_head c s sub : LastIndex s sub = None -> HasPrefix (String c s) sub = true -> LastIndex (String c s) sub = Some 0.
Proof. intros H1 H2. cbn [LastIndex]. by rewrite H1, H2. Qed.

Lemma trim_blanks_last s c : is_blank c = false -> trim_blanks (s +:+ String c EmptyString) = s +:+ String c EmptyString.
Proof.
  intros Hc. induction s as [|d s IH]; cbn [String.append trim_blanks]; [by rewrite Hc|]. rewrite IH. by destruct s.
Qed.

Lemma getLine_spec line rest c :
  no_char lf (line +:+ String c EmptyString) = true -> is_blank c = false -> Ascii.eqb c "013" = false ->
  getLine (line +:+ String c (String lf rest)) = (line +:+ String c EmptyString, rest).
Proof.
  intros Hl Hb Hc. unfold getLine.
  replace (line +:+ String c (String lf rest)) with ((line +:+ String c EmptyString) +:+ String lf rest) by (by rewrite sapp_assoc).
  rewrite Cut_app by done. f_equal. unfold TrimSuffix, CutSuffix.
  destruct (HasSuffix (line +:+ String c EmptyString) (String "013" EmptyString)) eqn:E; [|by apply trim_blanks_last].
  apply HasSuffix_spec in E as [r E]. exfalso. revert r E. clear Hl. induction line as [|d line IH]; intros [|x r]; cbn.
  - intros [= ->]. by rewrite Ascii.eqb_refl in Hc.
  - intros [= _ E]. by destruct r.
  - intros [= _ E]. by destruct line.
  - intros [= _ E]. by apply (IH r).
Qed.

Lemma getLine_empty rest : getLine (String lf rest) = (EmptyString, rest).
Proof. done. Qed.

(** ** Length of what is left *)

Lemma string_drop_length n s : String.length (string_drop n s) = String.length s - n.
Proof. revert s. induction n as [|n IH]; intros [|c s]; cbn; by rewrite ?IH. Qed.

Lemma Cut_rest_length sep s : String.length (snd (fst (Cut s sep))) <= String.length s.
Proof.
  induction s as [|c s IH]; cbn; [done|]. destruct (Ascii.eqb c sep); cbn; [lia|].
  destruct (Cut s sep) as [[? ?] ?]. cbn in *. lia.
Qed.

Lemma getLine_length s : String.length (snd (getLine s)) <= String.length s.
Proof.
  unfold getLine. pose proof (Cut_rest_length lf s) as H. by destruct (Cut s lf) as [[? ?] ?].
Qed.

Lemma header_lines_length fuel rest h h' rest' :
  header_lines fuel rest h = Some (h', rest') -> String.length rest' <= String.length rest.
Proof.
  revert rest h. induction fuel as [|fuel IH]; intros rest h; [done|]. destruct rest as [|c rest]; [done|].
  cbn [header_lines]. pose proof (getLine_length (String c rest)) as Hl. destruct (getLine (String c rest)) as [line next].
  destruct (Cut line ":") as [[key val] [|]]; [intros E%IH; cbn in *; lia|]. by intros [= _ <-].
Qed.

Lemma decode_at_length rest b e :
  match decode_at rest b e with
  | Done _ r | Continue r _ => String.length r <= String.length rest - 11
  | GiveUp => True
  end.
Proof.
  unfold decode_at. set (rest1 := string_drop _ rest).
  assert (H1 : String.length rest1 <= String.length rest - 11) by (unfold rest1; rewrite string_drop_length; cbn; lia).
  pose proof (getLine_length rest1) as H2. destruct (getLine rest1) as [typeLine rest2]. cbn [snd] in H2.
  destruct (negb _); [lia|]. destruct (header_lines _ rest2 ∅) as [[h rest3]|] eqn:E; [|done].
  apply header_lines_length in E. unfold decode_body. destruct (_ && _); [lia|]. destruct (Nat.ltb _ _); [lia|].
  destruct (_ || _); [lia|]. destruct (negb _); [lia|].
  destruct (if Z.ltb 0 _ then _ else _); cbn [mbind option_bind]; [|lia].
  etrans; [apply getLine_length|]. unfold drop_Z. rewrite string_drop_length. lia.
Qed.

Lemma Index_pos s i : Index s pemEnd = Some i -> 0 < String.length s.
Proof. destruct s; cbn; [done|lia]. Qed.

(** What is left in a round: each round leaves less. *)
Definition left_over (rest : string) (e : Z) : nat := String.length rest - Z.to_nat e.

(** More fuel than text changes nothing. *)
Lemma decode_loop_fuel fuel1 fuel2 data rest e :
  left_over rest e < fuel1 -> left_over rest e < fuel2 ->
  decode_loop fuel1 data rest e = decode_loop fuel2 data rest e.
Proof.
  revert fuel2 rest e. induction fuel1 as [|fuel1 IH]; intros [|fuel2] rest e H1 H2; try lia.
  cbn [decode_loop]. destruct (_ || _); [done|]. set (rest1 := drop_Z e rest).
  assert (Hl : String.length rest1 = left_over rest e) by (unfold rest1, drop_Z; by rewrite string_drop_length).
  destruct (Index rest1 pemEnd) as [i|] eqn:Ei; [|done]. apply Index_pos in Ei.
  assert (Hc : forall n, 0 < n -> decode_loop fuel1 data rest1 (Z.of_nat n) = decode_loop fuel2 data rest1 (Z.of_nat n)).
  { intros n Hn. apply IH; unfold left_over; lia. }
  destruct (LastIndex _ _) as [b|]; [|apply Hc; cbn; lia]. destruct (negb _); [apply Hc; cbn; lia|].
  pose proof (decode_at_length rest1 b i) as Hd. destruct (decode_at rest1 b i) as [| |r e']; [done..|].
  apply IH; unfold left_over; lia.
Qed.

Lemma decode_loop_shrinks fuel data rest e b r :
  decode_loop fuel data rest e = (Some b, r) -> String.length r < String.length rest.
Proof.
  revert rest e. induction fuel as [|fuel IH]; intros rest e; [done|]. cbn [decode_loop].
  destruct (_ || _); [done|]. set (rest1 := drop_Z e rest).
  assert (Hl : String.length rest1 <= String.length rest) by (unfold rest1, drop_Z; rewrite string_drop_length; lia).
  destruct (Index rest1 pemEnd) as [i|] eqn:Ei; [|done]. apply Index_pos in Ei.
  destruct (LastIndex _ _) as [n|]; [|intros E%IH; lia]. destruct (negb _); [intros E%IH; lia|].
  pose proof (decode_at_length rest1 n i) as Hd. destruct (decode_at rest1 n i); [intros [= <- <-]; lia|done|intros E%IH; lia].
Qed.

(** A decoded block leaves less text. *)
Lemma Decode_shrinks data b r : Decode data = (Some b, r) -> String.length r < String.length data.
Proof. apply decode_loop_shrinks. Qed.

(** ** The text of an encoded block *)

(** The characters of the base64 alphabet and the padding. *)
Definition is_b64 (c : ascii) : bool := match Base64.dec_char c with Some _ => true | None => Base64.is_pad c end.

Lemma is_b64_other c :
  is_b64 c = true ->
  Ascii.eqb c lf = false /\ Ascii.eqb c "-" = false /\ Ascii.eqb c ":" = false /\ is_blank c = false /\
  Base64.is_newline c = false /\ Ascii.eqb c "013" = false.
Proof. destruct c as [[] [] [] [] [] [] [] []]; vm_compute; intros H; repeat split; congruence. Qed.

Lemma enc_char_b64 n : (n < 64)%N -> is_b64 (Base64.enc_char n) = true.
Proof. intros Hn. unfold is_b64. by rewrite (proj1 (Base64.dec_enc_char n Hn)). Qed.

Lemma group_chars_b64 k n rest :
  string_forallb is_b64 rest = true -> string_forallb is_b64 (Base64.group_chars k n rest) = true.
Proof.
  intros Hr. unfold Base64.group_chars. cbn [string_forallb].
  rewrite !enc_char_b64 by (by apply N.mod_lt). destruct k as [|[|[|k]]]; cbn [string_forallb];
    rewrite ?enc_char_b64, ?Hr by (by apply N.mod_lt); done.
Qed.

Lemma encode_b64 s : string_forallb is_b64 (Base64.EncodeToString s) = true.
Proof. induction s using Base64.string_ind3; cbn [Base64.EncodeToString]; try done; by apply group_chars_b64. Qed.

(** The lines: no [-], no blank; without the line ends the text itself. *)
Definition line_char (c : ascii) : bool := is_b64 c || Ascii.eqb c lf.

Lemma break_lines_chars room s : string_forallb is_b64 s = true -> string_forallb line_char (break_lines room s) = true.
Proof.
  revert room. induction s as [|c s IH]; intros room Hs; cbn [break_lines]; [by destruct (Nat.eqb room 64)|].
  cbn in Hs. apply andb_prop in Hs as [Hc Hs]. destruct room as [|[|r]]; cbn [string_forallb]; rewrite (IH _ Hs);
    unfold line_char at 1; by rewrite Hc.
Qed.

Lemma strip_break_lines room s : string_forallb is_b64 s = true -> Base64.strip_newlines (break_lines room s) = s.
Proof.
  revert room. induction s as [|c s IH]; intros room Hs; cbn [break_lines]; [by destruct (Nat.eqb room 64)|].
  cbn in Hs. apply andb_prop in Hs as [Hc Hs]. destruct (is_b64_other c Hc) as (_ & _ & _ & _ & Hn & _).
  destruct room as [|[|r]]; cbn [Base64.strip_newlines]; rewrite Hn; try change (Base64.is_newline lf) with true;
    cbn [Base64.strip_newlines]; by rewrite IH.
Qed.

(** The lines end with a line end. *)
Lemma break_lines_end room s :
  room <= 64 -> s <> EmptyString \/ room < 64 -> exists p, break_lines room s = p +:+ String lf EmptyString.
Proof.
  revert room. induction s as [|c s IH]; intros room Hr Hs; cbn [break_lines].
  - destruct Hs as [|Hs]; [done|]. exists EmptyString. destruct (Nat.eqb_spec room 64); [lia|done].
  - assert (H64 : exists p, String lf (break_lines 64 s) = p +:+ String lf EmptyString).
    { destruct s as [|d s]; [by exists EmptyString|]. destruct (IH 64) as [p ->]; [lia|by left|]. by exists (String lf p). }
    destruct H64 as [p64 H64]. destruct room as [|[|r]]; [by exists (String c p64); rewrite H64..|].
    destruct (IH (S r)) as [p ->]; [lia|right; lia|]. by exists (String c p).
Qed.

(** The first line has neither a line end nor a colon. *)
Lemma break_lines_first room s :
  string_forallb is_b64 s = true -> room <= 64 -> s <> EmptyString \/ room < 64 ->
  exists l more, break_lines room s = l +:+ String lf more /\ string_forallb is_b64 l = true /\ (s <> EmptyString -> l <> EmptyString).
Proof.
  revert room. induction s as [|c s IH]; intros room Hb Hr Hs; cbn [break_lines].
  - destruct Hs as [|Hs]; [done|]. exists EmptyString, EmptyString. by destruct (Nat.eqb_spec room 64); [lia|].
  - cbn in Hb. apply andb_prop in Hb as [Hc Hb].
    assert (H1 : string_forallb is_b64 (String c EmptyString) = true) by (cbn; by rewrite Hc).
    destruct room as [|[|r]]; [by exists (String c EmptyString), (break_lines 64 s)..|].
    destruct (IH (S r)) as (l & more & -> & Hl & _); [done|lia|right; lia|]. exists (String c l), more.
    split; [done|]. split; [|done]. cbn. by rewrite Hc, Hl.
Qed.

Lemma Index_here x : Index (String lf (endLine +:+ x)) pemEnd = Some 0.
Proof.
  assert (H : forall s sub, HasPrefix s sub = true -> Index s sub = Some 0) by (intros [|? ?] sub H; cbn [Index]; by rewrite H).
  apply H. exact (HasPrefix_app pemEnd x).
Qed.

Lemma HasPrefix_first c d s p : Ascii.eqb c d = false -> HasPrefix (String d s) (String c p) = false.
Proof. intros H. cbn [HasPrefix]. by rewrite H. Qed.

(** The END line after the lines is the first one. *)
Lemma Index_body s x :
  string_forallb is_b64 s = true ->
  (s <> EmptyString -> Index (break_lines 64 s +:+ endLine +:+ x) pemEnd = Some (String.length (break_lines 64 s) - 1)) ->
  Index (String lf (break_lines 64 s +:+ endLine +:+ x)) pemEnd = Some (String.length (break_lines 64 s)).
Proof.
  intros Hb H. destruct s as [|d s]; [cbn [break_lines Nat.eqb String.append]; by rewrite Index_here|].
  destruct (break_lines_first 64 (String d s) Hb) as (l & more & El & Hl & Hne); [lia|by left|].
  destruct l as [|e l]; [by specialize (Hne ltac:(done))|]. cbn in Hl. apply andb_prop in Hl as [He _].
  destruct (is_b64_other e He) as (_ & Hd & _). rewrite Ascii.eqb_sym in Hd.
  assert (H1 : forall y, HasPrefix (String lf (String e y)) pemEnd = false).
  { intros y. unfold pemEnd, endLine. cbn [HasPrefix]. rewrite Hd. by rewrite andb_false_r. }
  cbn [Index]. rewrite H, El by done. cbn [String.append]. rewrite H1.
  cbn [fmap option_fmap option_map]. f_equal. cbn. lia.
Qed.

Lemma Index_lines room s x :
  string_forallb is_b64 s = true -> room <= 64 -> s <> EmptyString \/ room < 64 ->
  Index (break_lines room s +:+ endLine +:+ x) pemEnd = Some (String.length (break_lines room s) - 1).
Proof.
  revert room. induction s as [|c s IH]; intros room Hb Hr Hs; cbn [break_lines].
  - destruct Hs as [|Hs]; [done|]. destruct (Nat.eqb_spec room 64); [lia|].
    cbn [String.append]. by rewrite Index_here.
  - cbn in Hb. apply andb_prop in Hb as [Hc Hb]. destruct (is_b64_other c Hc) as (Hlf & _). rewrite Ascii.eqb_sym in Hlf.
    assert (Hskip : forall t i, Index t pemEnd = Some i -> Index (String c t) pemEnd = Some (S i)).
    { intros t i E. cbn [Index]. unfold pemEnd at 1. rewrite HasPrefix_first by done. by rewrite E. }
    pose proof (Index_body s x Hb (fun H => IH 64 Hb ltac:(lia) (or_introl H))) as H64.
    destruct room as [|[|r]]; [cbn [String.append]; rewrite (Hskip _ _ H64); f_equal; cbn; lia..|].
    cbn [String.append]. rewrite (Hskip _ _ (IH (S r) Hb ltac:(lia) ltac:(right; lia))). f_equal. cbn.
    destruct (break_lines_end (S r) s) as [p ->]; [lia|right; lia|]. rewrite slength_app. cbn. lia.
Qed.

(** ** Round trip *)

(** A block type that the first and the last line can carry. *)
Definition type_ok (t : string) : bool :=
  no_char lf t && no_char ":" t &&
  match LastIndex ("----BEGIN " +:+ t +:+ pemEndOfLine) beginLine with None => true | Some _ => false end.

Lemma type_ok_CERTIFICATE : type_ok "CERTIFICATE" = true.
Proof. done. Qed.

Lemma type_ok_KEY : type_ok "RSA PRIVATE KEY" = true.
Proof. done. Qed.

Lemma no_char_b64 c s : string_forallb is_b64 s = true -> is_b64 c = false -> no_char c s = true.
Proof.
  intros Hs Hc. apply (string_forallb_impl is_b64); [|done]. intros d Hd.
  destruct (Ascii.eqb_spec d c); [congruence|done].
Qed.

Lemma lines_no_char c room s : string_forallb is_b64 s = true -> line_char c = false -> no_char c (break_lines room s) = true.
Proof.
  intros Hs Hc. apply (string_forallb_impl line_char); [|by apply break_lines_chars]. intros d Hd.
  destruct (Ascii.eqb_spec d c); [congruence|done].
Qed.

Lemma no_char_take c n s : no_char c s = true -> no_char c (string_take n s) = true.
Proof.
  unfold no_char. revert s. induction n as [|n IH]; intros [|d s]; cbn; try done.
  intros [-> Hs]%andb_prop. by apply IH.
Qed.

Lemma remove_blanks_none s : no_char " " s = true -> no_char "009" s = true -> removeSpacesAndTabs s = s.
Proof.
  unfold no_char. induction s as [|c s IH]; cbn; [done|]. intros [H1 ?]%andb_prop [H2 ?]%andb_prop.
  apply negb_true_iff in H1, H2. unfold is_blank. rewrite H1, H2. cbn. by rewrite IH.
Qed.

(** The text between the lines is decoded. *)
Lemma decode_lines s x :
  s <> EmptyString ->
  Base64.DecodeString (removeSpacesAndTabs (string_take (String.length (break_lines 64 (Base64.EncodeToString s)) - 1)
    (break_lines 64 (Base64.EncodeToString s) +:+ x))) = Some s.
Proof.
  intros Hs. pose proof (encode_b64 s) as Hb. set (t := Base64.EncodeToString s) in *.
  assert (Ht : t <> EmptyString) by (unfold t; destruct s as [|? [|? [|? ?]]]; done).
  destruct (break_lines_end 64 t) as [p Ep]; [lia|by left|]. pose proof (lines_no_char " " 64 t Hb ltac:(done)) as H1.
  pose proof (lines_no_char "009" 64 t Hb ltac:(done)) as H2. pose proof (strip_break_lines 64 t Hb) as H3.
  rewrite Ep in *. rewrite no_char_app in H1, H2. apply andb_prop in H1 as [H1 _], H2 as [H2 _].
  rewrite slength_app. cbn [String.length]. replace (String.length p + 1 - 1) with (String.length p) by lia.
  rewrite sapp_assoc, string_take_app, remove_blanks_none by done.
  unfold Base64.DecodeString. rewrite <- (Base64.decode_encode s). f_equal. fold t. rewrite <- H3. clear.
  induction p as [|c p IH]; [done|]. cbn [String.append Base64.strip_newlines]. by rewrite IH.
Qed.

Section roundtrip.
Context (t s rest : string) (Ht : type_ok t = true).

Let b64 := Base64.EncodeToString s.
Let body := break_lines 64 b64.
Let after := endLine +:+ t +:+ pemEndOfLine +:+ String lf rest.

Lemma after_begin : string_drop (String.length beginLine) (EncodeToMemory t s +:+ rest) = t +:+ pemEndOfLine +:+ String lf (body +:+ after).
Proof.
  unfold EncodeToMemory, body, b64, after. rewrite !sapp_assoc, string_drop_app.
  cbn [String.append]. by rewrite !sapp_assoc.
Qed.

Lemma type_line : no_char lf t = true /\ no_char ":" t = true.
Proof. clear -Ht. unfold type_ok in Ht. apply andb_prop in Ht as [H _]. by apply andb_prop in H. Qed.

Lemma getLine_type x : getLine (t +:+ pemEndOfLine +:+ String lf x) = (t +:+ pemEndOfLine, x).
Proof.
  destruct type_line as [Hl _]. pose proof (getLine_spec (t +:+ "----") x "-") as E.
  rewrite !sapp_assoc in E. apply E; [|done..]. by rewrite no_char_app, Hl.
Qed.

Lemma header_lines_none : header_lines (String.length (body +:+ after)) (body +:+ after) ∅ = Some (∅, body +:+ after).
Proof.
  assert (H : forall x l more, x = l +:+ String lf more -> no_char lf l = true -> no_char ":" l = true ->
                    x <> EmptyString -> header_lines (String.length x) x ∅ = Some (∅, x)).
  { intros x l more -> Hl Hc Hne. destruct (l +:+ String lf more) as [|c x] eqn:E; [done|].
    cbn [String.length header_lines]. rewrite <- E. unfold getLine. rewrite Cut_app by done.
    rewrite Cut_none; [done|]. clear -Hc. assert (Hb : no_char ":" (TrimSuffix l (String "013" EmptyString)) = true).
    { unfold TrimSuffix, CutSuffix. destruct (HasSuffix _ _); [by apply no_char_take|done]. }
    revert Hb. generalize (TrimSuffix l (String "013" EmptyString)). unfold no_char.
    induction s as [|c s' IH]; [done|]. cbn. intros [H1 H2]%andb_prop. specialize (IH H2).
    destruct (trim_blanks s'); [destruct (is_blank c); [done|]|]; cbn in *; by rewrite H1. }
  destruct type_line as [Hl Hc]. destruct (decide (b64 = EmptyString)) as [E|E].
  - unfold body. rewrite E. cbn [break_lines Nat.eqb String.append].
    apply (H _ (endLine +:+ t +:+ pemEndOfLine) rest); [unfold after; by rewrite !sapp_assoc|..|done];
      by rewrite !no_char_app, ?Hl, ?Hc.
  - destruct (break_lines_first 64 b64 (encode_b64 s)) as (l & more & El & Hb & _); [lia|by left|].
    unfold body. rewrite El, sapp_assoc. apply (H _ l (more +:+ after)); [done| | |by destruct l]; by apply no_char_b64.
Qed.

Lemma drop_body n : string_drop (String.length body + n) (body +:+ after) = string_drop n after.
Proof. generalize body. induction body0; [done|]. cbn. done. Qed.

Lemma body_bytes :
  (if Z.ltb 0 (Z.of_nat (String.length body) - 1)
   then Base64.DecodeString (removeSpacesAndTabs (string_take (Z.to_nat (Z.of_nat (String.length body) - 1)) (body +:+ after)))
   else Some EmptyString) = Some s.
Proof.
  replace (Z.to_nat (Z.of_nat (String.length body) - 1)) with (String.length body - 1) by lia.
  destruct (decide (s = EmptyString)) as [E|E].
  - unfold body, b64. by rewrite E.
  - destruct (Z.ltb_spec 0 (Z.of_nat (String.length body) - 1)) as [_|Hlt]; [by apply decode_lines|exfalso].
    destruct (break_lines_first 64 b64 (encode_b64 s)) as (l & more & El & _ & Hne); [lia| |].
    + left. unfold b64. by destruct s as [|? [|? [|? ?]]].
    + assert (Hl : l <> EmptyString) by (apply Hne; unfold b64; by destruct s as [|? [|? [|? ?]]]).
      revert Hlt. unfold body. rewrite El, slength_app. destruct l; [done|]. cbn. lia.
Qed.

Lemma body_end : decode_body t ∅ (body +:+ after) (Z.of_nat (String.length body) - 1) (Z.of_nat (String.length body) + 9) =
  Some (mkBlock t ∅ s, rest).
Proof.
  unfold decode_body. rewrite body_bytes. cbn [negb Nat.eqb size andb mbind option_bind]. unfold drop_Z.
  replace (Z.to_nat (Z.of_nat (String.length body) + 9)) with (String.length body + String.length endLine) by (cbn; lia).
  replace (Z.to_nat (Z.of_nat (String.length body) - 1 + Z.of_nat (String.length pemEnd) - 1)) with (String.length body + 8) by (cbn; lia).
  rewrite !drop_body. unfold after. rewrite string_drop_app.
  replace (t +:+ pemEndOfLine +:+ String lf rest) with ((t +:+ pemEndOfLine) +:+ String lf rest) by (by rewrite sapp_assoc).
  rewrite <- slength_app, string_take_app, string_drop_app, HasPrefix_app, HasSuffix_app, getLine_empty.
  rewrite !slength_app. cbn [negb orb fst]. rewrite (proj2 (Nat.ltb_ge _ _)) by lia. cbn [String.eqb negb].
  pose proof (getLine_type rest) as Hg. destruct type_line as [Hl _].
  change (string_drop 8 (endLine +:+ (t +:+ pemEndOfLine) +:+ String lf rest)) with (String " " ((t +:+ pemEndOfLine) +:+ String lf rest)).
  unfold getLine. change (String " " ((t +:+ pemEndOfLine) +:+ String lf rest)) with (String " " (t +:+ pemEndOfLine) +:+ String lf rest).
  rewrite Cut_app; [done|]. change (no_char lf (t +:+ pemEndOfLine) = true). by rewrite no_char_app, Hl.
Qed.

Lemma text_shape : EncodeToMemory t s +:+ rest = (beginLine +:+ t +:+ pemEndOfLine) +:+ String lf (body +:+ after).
Proof. unfold EncodeToMemory, body, b64, after. rewrite !sapp_assoc. cbn [String.append]. by rewrite !sapp_assoc. Qed.

Lemma first_END : Index (EncodeToMemory t s +:+ rest) pemEnd = Some (String.length (beginLine +:+ t +:+ pemEndOfLine) + String.length body).
Proof.
  destruct type_line as [Hl _]. rewrite text_shape, Index_skip by (by rewrite !no_char_app, Hl).
  unfold after. rewrite (Index_body b64 _ (encode_b64 s)); [done|].
  intros Hne. apply Index_lines; [apply encode_b64|lia|by left].
Qed.

Lemma last_BEGIN :
  LastIndex (string_take (String.length (beginLine +:+ t +:+ pemEndOfLine) + String.length body) (EncodeToMemory t s +:+ rest)) beginLine = Some 0.
Proof.
  rewrite text_shape.
  assert (Htake : forall n a b, string_take (String.length a + n) (a +:+ b) = a +:+ string_take n b).
  { intros n a b. induction a as [|c a IH]; [done|]. cbn. by rewrite IH. }
  rewrite Htake. unfold beginLine at 1. cbn [String.append]. apply LastIndex_head; [|exact (HasPrefix_app beginLine _)].
  assert (Ha : LastIndex ("----BEGIN " +:+ t +:+ pemEndOfLine) beginLine = None).
  { unfold type_ok in Ht. apply andb_prop in Ht as [_ H]. by destruct (LastIndex _ _). }
  destruct (String.length body) as [|n] eqn:En; cbn [string_take].
  - rewrite sapp_nil_r. exact Ha.
  - change (LastIndex (("----BEGIN " +:+ t +:+ pemEndOfLine) +:+ String lf (string_take n (body +:+ after))) beginLine = None).
    apply LastIndex_none_app; [done|exact Ha|]. apply LastIndex_no_char.
    assert (Hb : no_char "-" body = true) by (apply lines_no_char; [apply encode_b64|done]).
    replace (string_take n (body +:+ after)) with (string_take n body); [by apply no_char_take|].
    clear -En. revert n En. generalize body. induction body0 as [|c b IH]; intros n; [done|]. cbn. intros [= <-].
    clear IH. revert c. induction b as [|d b IH]; intros c; [done|]. cbn. f_equal. apply (IH d).
Qed.

Lemma decode_at_block :
  decode_at (EncodeToMemory t s +:+ rest) 0 (String.length (beginLine +:+ t +:+ pemEndOfLine) + String.length body) = Done (mkBlock t ∅ s) rest.
Proof.
  unfold decode_at. rewrite Nat.add_0_l, after_begin, getLine_type, HasSuffix_app. cbn [negb].
  rewrite header_lines_none, TrimSuffix_app. unfold consumed.
  assert (E1 : (Z.of_nat (String.length (t +:+ pemEndOfLine +:+ String lf (body +:+ after))) - Z.of_nat (String.length (body +:+ after)) =
               Z.of_nat (String.length t) + 6)%Z) by (rewrite !slength_app; cbn [String.length]; rewrite !slength_app; cbn; lia).
  rewrite E1, !slength_app.
  replace (_ - _ - _)%Z with (Z.of_nat (String.length body) - 1)%Z by (cbn; lia).
  replace (_ - _ + _ - _)%Z with (Z.of_nat (String.length body) + 9)%Z by (cbn; lia).
  by rewrite body_end.
Qed.

(** Decoding what was encoded gives the block and the text after it. *)
Lemma Decode_EncodeToMemory : Decode (EncodeToMemory t s +:+ rest) = (Some (mkBlock t ∅ s), rest).
Proof.
  pose proof first_END as H1. pose proof last_BEGIN as H2. pose proof decode_at_block as H3.
  unfold Decode. revert H1 H2 H3. generalize (EncodeToMemory t s +:+ rest) as x. intros x H1 H2 H3.
  cbn [decode_loop]. rewrite (proj2 (Z.ltb_ge (Z.of_nat (String.length x)) 0)) by lia. cbn [Z.ltb Z.compare orb].
  replace (drop_Z 0 x) with x by (unfold drop_Z; by destruct x).
  rewrite H1, H2. cbn [starts_line negb]. by rewrite H3.
Qed.

End roundtrip.

(** The text of a block is not empty. *)
Lemma EncodeToMemory_length t s : 0 < String.length (EncodeToMemory t s).
Proof. unfold EncodeToMemory. cbn. lia. Qed.

Lemma Decode_nil : Decode EmptyString = (None, EmptyString).
Proof. done. Qed.

Example Decode_examples :
  let b := EncodeToMemory "CERTIFICATE" "some bytes" in
  Decode b = (Some (mkBlock "CERTIFICATE" ∅ "some bytes"), EmptyString) /\
  Decode ("junk" +:+ String lf b +:+ "more") = (Some (mkBlock "CERTIFICATE" ∅ "some bytes"), "more") /\
  Decode "no block" = (None, "no block") /\
  Decode (EncodeToMemory "CERTIFICATE" EmptyString) = (Some (mkBlock "CERTIFICATE" ∅ EmptyString), EmptyString).
Proof. by vm_compute. Qed.

End pem.
