(* ===== verification/Kube.v ===== *)
(** * Kubernetes API objects

    The API types the program reads or writes, with the fields it touches
    (Go structs as records, pointers as [option], Go maps as [GoMap], slices
    as lists).  The types are declared by k8s.io/api, gateway-api and the VPA
    API; nothing but their field structure is used here. *)

From S2P Require Import Prelude.

(** ** Metadata *)

Record OwnerReference := mkOwnerReference {
  OwnerReference_Kind : string;
  OwnerReference_Name : string;
  OwnerReference_UID : string }.

(** [DeletionTimestamp] is [Some] exactly when [IsZero] is false. *)
Record ObjectMeta := mkObjectMeta {
  Name : string;
  Namespace : string;
  UID : string;
  Labels : GoMap string;
  Annotations : GoMap string;
  OwnerReferences : list OwnerReference;
  Finalizers : list string;
  DeletionTimestamp : option Z }.

Definition emptyMeta : ObjectMeta := mkObjectMeta "" "" "" None None [] [] None.

(** Metadata with only a name and a namespace, as in a composite literal. *)
Definition nameMeta (name namespace : string) : ObjectMeta :=
  mkObjectMeta name namespace "" None None [] [] None.

Definition set_labels (l : GoMap string) (m : ObjectMeta) : ObjectMeta :=
  mkObjectMeta (Name m) (Namespace m) (UID m) l (Annotations m) (OwnerReferences m)
    (Finalizers m) (DeletionTimestamp m).

Definition set_annotations (a : GoMap string) (m : ObjectMeta) : ObjectMeta :=
  mkObjectMeta (Name m) (Namespace m) (UID m) (Labels m) a (OwnerReferences m)
    (Finalizers m) (DeletionTimestamp m).

Definition set_owner_references (o : list OwnerReference) (m : ObjectMeta) : ObjectMeta :=
  mkObjectMeta (Name m) (Namespace m) (UID m) (Labels m) (Annotations m) o
    (Finalizers m) (DeletionTimestamp m).

Definition set_finalizers (f : list string) (m : ObjectMeta) : ObjectMeta :=
  mkObjectMeta (Name m) (Namespace m) (UID m) (Labels m) (Annotations m) (OwnerReferences m)
    f (DeletionTimestamp m).

Definition set_deletion_timestamp (t : option Z) (m : ObjectMeta) : ObjectMeta :=
  mkObjectMeta (Name m) (Namespace m) (UID m) (Labels m) (Annotations m) (OwnerReferences m)
    (Finalizers m) t.

(** [!obj.GetDeletionTimestamp().IsZero()] *)
Definition beingDeleted (m : ObjectMeta) : bool := bool_decide (is_Some (DeletionTimestamp m)).

(** [metav1.LabelSelector] *)
Record LabelSelectorRequirement := mkRequirement {
  Requirement_Key : string;
  Requirement_Operator : string;
  Requirement_Values : list string }.

Record LabelSelector := mkLabelSelector {
  MatchLabels : GoMap string;
  MatchExpressions : list LabelSelectorRequirement }.

(** [intstr.IntOrString] *)
Inductive IntOrString :=
| FromInt (n : Z)
| FromString (s : string).

(** ** Pods *)

(** [resource.Quantity], by its textual form. *)
Inductive Quantity := mkQuantity (repr : string).

Record ResourceRequirements := mkResources { Requests : GoMap Quantity }.

Record ContainerPort := mkContainerPort {
  ContainerPort_Name : string;
  ContainerPort_Port : Z }.

Record VolumeMount := mkVolumeMount {
  VolumeMount_Name : string;
  VolumeMount_ReadOnly : bool;
  VolumeMount_MountPath : string }.

Record SecurityContext := mkSecurityContext {
  Capabilities_Drop : list string;
  AllowPrivilegeEscalation : option bool;
  ReadOnlyRootFilesystem : option bool }.

Record Container := mkContainer {
  Container_Name : string;
  Container_Image : string;
  Container_ImagePullPolicy : string;
  Container_Args : list string;
  Container_Ports : list ContainerPort;
  Container_SecurityContext : option SecurityContext;
  Container_Resources : ResourceRequirements;
  Container_VolumeMounts : list VolumeMount }.

(** [corev1.Container{}] *)
Definition emptyContainer : Container := mkContainer "" "" "" [] [] None (mkResources None) [].

Definition set_args (args : list string) (c : Container) : Container :=
  mkContainer (Container_Name c) (Container_Image c) (Container_ImagePullPolicy c) args
    (Container_Ports c) (Container_SecurityContext c) (Container_Resources c)
    (Container_VolumeMounts c).

Record SecretProjection := mkSecretProjection {
  SecretProjection_Name : string;
  SecretProjection_Items : list string;
  SecretProjection_Optional : option bool }.

(** A source of a projected volume: the pointers to a secret source and to a
    service-account-token source (its path); both nil for the other kinds. *)
Record VolumeProjection := mkVolumeProjection {
  VP_Secret : option SecretProjection;
  VP_ServiceAccountToken : option string }.

(** [Projected] is the pointer to the projected source ([None] for a volume
    of any other type); the pointee is its list of sources. *)
Record Volume := mkVolume {
  Volume_Name : string;
  Volume_Projected : option (list VolumeProjection) }.

Record PodSpec := mkPodSpec {
  Volumes : list Volume;
  Containers : list Container;
  ImagePullSecrets : list string }.

Definition set_volumes (v : list Volume) (s : PodSpec) : PodSpec :=
  mkPodSpec v (Containers s) (ImagePullSecrets s).
Definition set_containers (c : list Container) (s : PodSpec) : PodSpec :=
  mkPodSpec (Volumes s) c (ImagePullSecrets s).
Definition set_pull_secrets (p : list string) (s : PodSpec) : PodSpec :=
  mkPodSpec (Volumes s) (Containers s) p.

Record Pod := mkPod { Pod_Meta : ObjectMeta; Pod_Spec : PodSpec }.

(** ** Workloads, secrets, services *)

Record Deployment := mkDeployment { Deployment_Meta : ObjectMeta }.
Record ReplicaSet := mkReplicaSet { ReplicaSet_Meta : ObjectMeta }.

(** [StatefulSet_Selector] is [Spec.Selector]. *)
Record StatefulSet := mkStatefulSet {
  StatefulSet_Meta : ObjectMeta;
  StatefulSet_Selector : option LabelSelector }.

Record Namespace_ := mkNamespace { Namespace_Meta : ObjectMeta }.

Record Secret := mkSecret {
  Secret_Meta : ObjectMeta;
  Secret_Type : string;
  Secret_Data : GoMap string;
  Secret_StringData : GoMap string }.

Record ServicePort := mkServicePort {
  ServicePort_Name : string;
  ServicePort_Port : Z;
  ServicePort_TargetPort : IntOrString }.

Record Service := mkService {
  Service_Meta : ObjectMeta;
  Service_Ports : list ServicePort;
  Service_Selector : GoMap string }.

(** ** Gateway API *)

Record ParentReference := mkParentReference {
  ParentReference_Name : string;
  ParentReference_Namespace : option string;
  ParentReference_SectionName : option string }.

Inductive PathMatchType := PathMatchExact | PathMatchPathPrefix.

Record HTTPPathMatch := mkPathMatch { PathMatch_Type : PathMatchType; PathMatch_Value : string }.

Record HTTPBackendRef := mkBackendRef { BackendRef_Name : string; BackendRef_Port : Z }.

(** [RequestRedirect] with a full-path replacement and a status code, the one
    filter the program builds. *)
Record HTTPRouteFilter := mkRedirect { Redirect_Path : string; Redirect_StatusCode : Z }.

Record HTTPRouteRule := mkRule {
  Rule_Matches : list HTTPPathMatch;
  Rule_Filters : list HTTPRouteFilter;
  Rule_BackendRefs : list HTTPBackendRef }.

Record HTTPRoute := mkHTTPRoute {
  HTTPRoute_Meta : ObjectMeta;
  HTTPRoute_ParentRefs : list ParentReference;
  HTTPRoute_Hostnames : list string;
  HTTPRoute_Rules : list HTTPRouteRule }.

#[export] Instance LabelSelectorRequirement_eq_dec : EqDecision LabelSelectorRequirement.
Proof. solve_decision. Defined.
#[export] Instance LabelSelector_eq_dec : EqDecision LabelSelector.
Proof. solve_decision. Defined.

(** The [Gateway] resource; the types of its listeners share their names with
    the types of the program's configuration. *)
Module gatewayv1.

Record SecretObjectReference := mkSecretObjectReference {
  SecretRef_Group : option string;
  SecretRef_Kind : option string;
  SecretRef_Name : string;
  SecretRef_Namespace : option string }.

Record ListenerTLSConfig := mkListenerTLSConfig {
  Mode : option string;
  CertificateRefs : list SecretObjectReference;
  Options : GoMap string }.

Record RouteNamespaces := mkRouteNamespaces {
  From : option string;
  Selector : option LabelSelector }.

Record RouteGroupKind := mkRouteGroupKind { GroupKind_Group : option string; GroupKind_Kind : string }.

Record AllowedRoutes := mkAllowedRoutes {
  AllowedNamespaces : option RouteNamespaces;
  Kinds : list RouteGroupKind }.

Record Listener := mkListener {
  Listener_Name : string;
  Hostname : option string;
  Port : Z;
  Protocol : string;
  TLS : option ListenerTLSConfig;
  Listener_AllowedRoutes : option AllowedRoutes }.

Record LocalParametersReference := mkLocalParametersReference {
  Group : string;
  Kind : string;
  ParametersName : string }.

Record GatewayInfrastructure := mkGatewayInfrastructure {
  InfrastructureAnnotations : GoMap string;
  InfrastructureLabels : GoMap string;
  ParametersRef : option LocalParametersReference }.

#[export] Instance SecretObjectReference_eq_dec : EqDecision SecretObjectReference.
Proof. solve_decision. Defined.
#[export] Instance ListenerTLSConfig_eq_dec : EqDecision ListenerTLSConfig.
Proof. solve_decision. Defined.
#[export] Instance RouteNamespaces_eq_dec : EqDecision RouteNamespaces.
Proof. solve_decision. Defined.
#[export] Instance RouteGroupKind_eq_dec : EqDecision RouteGroupKind.
Proof. solve_decision. Defined.
#[export] Instance AllowedRoutes_eq_dec : EqDecision AllowedRoutes.
Proof. solve_decision. Defined.
#[export] Instance Listener_eq_dec : EqDecision Listener.
Proof. solve_decision. Defined.
#[export] Instance LocalParametersReference_eq_dec : EqDecision LocalParametersReference.
Proof. solve_decision. Defined.
#[export] Instance GatewayInfrastructure_eq_dec : EqDecision GatewayInfrastructure.
Proof. solve_decision. Defined.

End gatewayv1.

Record GatewayResource := mkGateway {
  Gateway_Meta : ObjectMeta;
  Gateway_ClassName : string;
  Gateway_Listeners : list gatewayv1.Listener;
  Gateway_Infrastructure : option gatewayv1.GatewayInfrastructure }.

(** ** Vertical pod autoscaler *)

Record CrossVersionObjectReference := mkTargetRef { TargetRef_Kind : string; TargetRef_Name : string }.

Record ContainerResourcePolicy := mkPolicy {
  Policy_ContainerName : string;
  Policy_Mode : option string }.

(** [VPA_ResourcePolicy]: the pointer to the policy, whose content is the list
    of container policies. *)
Record VerticalPodAutoscaler := mkVPA {
  VPA_Meta : ObjectMeta;
  VPA_TargetRef : option CrossVersionObjectReference;
  VPA_ResourcePolicy : option (list ContainerResourcePolicy) }.

(** ** Decidable equality *)

#[export] Instance OwnerReference_eq_dec : EqDecision OwnerReference.
Proof. solve_decision. Defined.
#[export] Instance ObjectMeta_eq_dec : EqDecision ObjectMeta.
Proof. solve_decision. Defined.
#[export] Instance IntOrString_eq_dec : EqDecision IntOrString.
Proof. solve_decision. Defined.
#[export] Instance Quantity_eq_dec : EqDecision Quantity.
Proof. solve_decision. Defined.
#[export] Instance Resources_eq_dec : EqDecision ResourceRequirements.
Proof. solve_decision. Defined.
#[export] Instance ContainerPort_eq_dec : EqDecision ContainerPort.
Proof. solve_decision. Defined.
#[export] Instance VolumeMount_eq_dec : EqDecision VolumeMount.
Proof. solve_decision. Defined.
#[export] Instance SecurityContext_eq_dec : EqDecision SecurityContext.
Proof. solve_decision. Defined.
#[export] Instance Container_eq_dec : EqDecision Container.
Proof. solve_decision. Defined.
#[export] Instance SecretProjection_eq_dec : EqDecision SecretProjection.
Proof. solve_decision. Defined.
#[export] Instance VolumeProjection_eq_dec : EqDecision VolumeProjection.
Proof. solve_decision. Defined.
#[export] Instance Volume_eq_dec : EqDecision Volume.
Proof. solve_decision. Defined.
#[export] Instance PodSpec_eq_dec : EqDecision PodSpec.
Proof. solve_decision. Defined.
#[export] Instance Pod_eq_dec : EqDecision Pod.
Proof. solve_decision. Defined.
#[export] Instance Deployment_eq_dec : EqDecision Deployment.
Proof. solve_decision. Defined.
#[export] Instance ReplicaSet_eq_dec : EqDecision ReplicaSet.
Proof. solve_decision. Defined.
#[export] Instance StatefulSet_eq_dec : EqDecision StatefulSet.
Proof. solve_decision. Defined.
#[export] Instance Namespace_eq_dec : EqDecision Namespace_.
Proof. solve_decision. Defined.
#[export] Instance Secret_eq_dec : EqDecision Secret.
Proof. solve_decision. Defined.
#[export] Instance ServicePort_eq_dec : EqDecision ServicePort.
Proof. solve_decision. Defined.
#[export] Instance Service_eq_dec : EqDecision Service.
Proof. solve_decision. Defined.
#[export] Instance ParentReference_eq_dec : EqDecision ParentReference.
Proof. solve_decision. Defined.
#[export] Instance PathMatchType_eq_dec : EqDecision PathMatchType.
Proof. solve_decision. Defined.
#[export] Instance HTTPPathMatch_eq_dec : EqDecision HTTPPathMatch.
Proof. solve_decision. Defined.
#[export] Instance HTTPBackendRef_eq_dec : EqDecision HTTPBackendRef.
Proof. solve_decision. Defined.
#[export] Instance HTTPRouteFilter_eq_dec : EqDecision HTTPRouteFilter.
Proof. solve_decision. Defined.
#[export] Instance HTTPRouteRule_eq_dec : EqDecision HTTPRouteRule.
Proof. solve_decision. Defined.
#[export] Instance HTTPRoute_eq_dec : EqDecision HTTPRoute.
Proof. solve_decision. Defined.
#[export] Instance TargetRef_eq_dec : EqDecision CrossVersionObjectReference.
Proof. solve_decision. Defined.
#[export] Instance Policy_eq_dec : EqDecision ContainerResourcePolicy.
Proof. solve_decision. Defined.
#[export] Instance VPA_eq_dec : EqDecision VerticalPodAutoscaler.
Proof. solve_decision. Defined.

#[export] Instance Gateway_eq_dec : EqDecision GatewayResource.
Proof.
  assert (EqDecision gatewayv1.Listener) by exact gatewayv1.Listener_eq_dec.
  assert (EqDecision gatewayv1.GatewayInfrastructure) by exact gatewayv1.GatewayInfrastructure_eq_dec.
  solve_decision.
Defined.

(** [admissionregistration/v1]: a webhook of a configuration with the two
    fields the program uses, its name and the [CABundle] of its client
    configuration, and the rest of it. *)
Record MutatingWebhook := mkMutatingWebhook {
  Webhook_Name : string;
  Webhook_CABundle : string;
  Webhook_Rest : string }.

Record MutatingWebhookConfiguration := mkMutatingWebhookConfiguration {
  MutatingWebhookConfiguration_Meta : ObjectMeta;
  Webhooks : list MutatingWebhook }.

#[export] Instance MutatingWebhook_eq_dec : EqDecision MutatingWebhook.
Proof. solve_decision. Defined.
#[export] Instance MutatingWebhookConfiguration_eq_dec : EqDecision MutatingWebhookConfiguration.
Proof. solve_decision. Defined.

(** ** [client.Object]: an object of one of the API kinds *)

(** The Go struct type behind the interface ([fmt.Sprintf("%T")]). *)
Inductive Kind : Type :=
| KDeployment | KStatefulSet | KReplicaSet | KPod | KSecret | KService
| KHTTPRoute | KNamespace | KVPA | KGateway | KMutatingWebhookConfiguration.

#[export] Instance Kind_eq_dec : EqDecision Kind.
Proof. solve_decision. Defined.

Definition kobj (k : Kind) : Type :=
  match k with
  | KDeployment => Deployment
  | KStatefulSet => StatefulSet
  | KReplicaSet => ReplicaSet
  | KPod => Pod
  | KSecret => Secret
  | KService => Service
  | KHTTPRoute => HTTPRoute
  | KNamespace => Namespace_
  | KVPA => VerticalPodAutoscaler
  | KGateway => GatewayResource
  | KMutatingWebhookConfiguration => MutatingWebhookConfiguration
  end.

Definition meta_of (k : Kind) : kobj k -> ObjectMeta :=
  match k with
  | KDeployment => Deployment_Meta
  | KStatefulSet => StatefulSet_Meta
  | KReplicaSet => ReplicaSet_Meta
  | KPod => Pod_Meta
  | KSecret => Secret_Meta
  | KService => Service_Meta
  | KHTTPRoute => HTTPRoute_Meta
  | KNamespace => Namespace_Meta
  | KVPA => VPA_Meta
  | KGateway => Gateway_Meta
  | KMutatingWebhookConfiguration => MutatingWebhookConfiguration_Meta
  end.

Definition set_meta (k : Kind) : ObjectMeta -> kobj k -> kobj k :=
  match k with
  | KDeployment => fun m _ => mkDeployment m
  | KStatefulSet => fun m o => mkStatefulSet m (StatefulSet_Selector o)
  | KReplicaSet => fun m _ => mkReplicaSet m
  | KPod => fun m o => mkPod m (Pod_Spec o)
  | KSecret => fun m o => mkSecret m (Secret_Type o) (Secret_Data o) (Secret_StringData o)
  | KService => fun m o => mkService m (Service_Ports o) (Service_Selector o)
  | KHTTPRoute => fun m o =>
      mkHTTPRoute m (HTTPRoute_ParentRefs o) (HTTPRoute_Hostnames o) (HTTPRoute_Rules o)
  | KNamespace => fun m _ => mkNamespace m
  | KVPA => fun m o => mkVPA m (VPA_TargetRef o) (VPA_ResourcePolicy o)
  | KGateway => fun m o => mkGateway m (Gateway_ClassName o) (Gateway_Listeners o) (Gateway_Infrastructure o)
  | KMutatingWebhookConfiguration => fun m o => mkMutatingWebhookConfiguration m (Webhooks o)
  end.

#[export] Instance kobj_eq_dec k : EqDecision (kobj k).
Proof. destruct k; apply _. Defined.

(** The zero value of the Go struct, what [&corev1.Pod{}] allocates. *)
Definition zero_obj (k : Kind) : kobj k :=
  match k with
  | KDeployment => mkDeployment emptyMeta
  | KStatefulSet => mkStatefulSet emptyMeta None
  | KReplicaSet => mkReplicaSet emptyMeta
  | KPod => mkPod emptyMeta (mkPodSpec [] [] [])
  | KSecret => mkSecret emptyMeta "" None None
  | KService => mkService emptyMeta [] None
  | KHTTPRoute => mkHTTPRoute emptyMeta [] [] []
  | KNamespace => mkNamespace emptyMeta
  | KVPA => mkVPA emptyMeta None None
  | KGateway => mkGateway emptyMeta EmptyString [] None
  | KMutatingWebhookConfiguration => mkMutatingWebhookConfiguration emptyMeta []
  end.

(** What the API server stores of a submitted object: the write-only string
    data of a secret is merged over its data. *)
Definition stored (k : Kind) : kobj k -> kobj k :=
  match k with
  | KSecret => fun s =>
      match Secret_StringData s with
      | None => s
      | Some sd => mkSecret (Secret_Meta s) (Secret_Type s) (Some (sd ∪ map_contents (Secret_Data s))) None
      end
  | _ => fun o => o
  end.

Record Object := mkObject { obj_kind : Kind; obj_val : kobj obj_kind }.

Arguments mkObject : clear implicits.

Definition obj_meta (o : Object) : ObjectMeta := meta_of (obj_kind o) (obj_val o).
Definition GetName (o : Object) : string := Name (obj_meta o).
Definition GetNamespace (o : Object) : string := Namespace (obj_meta o).
Definition GetUID (o : Object) : string := UID (obj_meta o).
Definition GetLabels (o : Object) : GoMap string := Labels (obj_meta o).
Definition GetAnnotations (o : Object) : GoMap string := Annotations (obj_meta o).

(** [o.SetAnnotations(a)] *)
Definition SetAnnotations (a : GoMap string) (o : Object) : Object :=
  mkObject (obj_kind o) (set_meta (obj_kind o) (set_annotations a (obj_meta o)) (obj_val o)).

Definition DeploymentObject (d : Deployment) : Object := mkObject KDeployment d.
Definition StatefulSetObject (s : StatefulSet) : Object := mkObject KStatefulSet s.
Definition PodObject (p : Pod) : Object := mkObject KPod p.
Definition VPAObject (v : VerticalPodAutoscaler) : Object := mkObject KVPA v.

(** [types.NamespacedName] / [client.ObjectKey] *)
Record NamespacedName := mkNN { NN_Namespace : string; NN_Name : string }.

#[export] Instance NamespacedName_eq_dec : EqDecision NamespacedName.
Proof. solve_decision. Defined.

#[export] Instance NamespacedName_countable : Countable NamespacedName.
Proof.
  apply (inj_countable' (fun k => (NN_Namespace k, NN_Name k)) (fun p => mkNN (fst p) (snd p))).
  by intros [].
Defined.

Definition key_of (m : ObjectMeta) : NamespacedName := mkNN (Namespace m) (Name m).

Lemma meta_of_set_meta k m (o : kobj k) : meta_of k (set_meta k m o) = m.
Proof. by destruct k, o. Qed.

Lemma set_meta_set_meta k m m' (o : kobj k) : set_meta k m (set_meta k m' o) = set_meta k m o.
Proof. by destruct k, o. Qed.

Lemma meta_of_stored k (o : kobj k) : meta_of k (stored k o) = meta_of k o.
Proof. destruct k; try done. simpl. by destruct (Secret_StringData o). Qed.

Lemma stored_set_meta k m (o : kobj k) : stored k (set_meta k m o) = set_meta k m (stored k o).
Proof. destruct k; try done. by destruct o as [? ? ? [sd|]]. Qed.

Lemma stored_stored k (o : kobj k) : stored k (stored k o) = stored k o.
Proof. destruct k; try done. simpl. destruct (Secret_StringData o) eqn:E; [done|by rewrite E]. Qed.

Lemma SetAnnotations_spec a o :
  GetName (SetAnnotations a o) = GetName o /\ GetNamespace (SetAnnotations a o) = GetNamespace o /\
  GetLabels (SetAnnotations a o) = GetLabels o /\ GetAnnotations (SetAnnotations a o) = a.
Proof.
  unfold GetName, GetNamespace, GetLabels, GetAnnotations, obj_meta. simpl.
  by rewrite meta_of_set_meta.
Qed.
