(* ===== verification/Constants.v ===== *)
(** * [pkg/constants]: names shared by the webhook and the controllers *)

From S2P Require Import Prelude.

Module constants.

Definition AnnotationHostKey : string := "oidc-application-controller/host".
Definition AnnotationTargetKey : string := "oidc-application-controller/target".
Definition AnnotationKey : string := "oidc-application-controller/component".
Definition AnnotationSuffixKey : string := "oidc-application-controller/suffix".
Definition AnnotationOauth2SecretChecksumKey : string := "oidc-application-controller/oauth2-secret-checksum".
Definition NAMESPACE : string := "NAMESPACE".

Definition ContainerNameOauth2Proxy : string := "oauth2-proxy".
Definition ContainerNameKubeRbacProxy : string := "kube-rbac-proxy".
Definition SecretNameOauth2Proxy : string := "oauth2-proxy".
Definition Oauth2CookieSecretKey : string := "cookie-secret".
Definition Oauth2ClientSecretKey : string := "client_secret".
Definition Oauth2ClientSecretFile : string := "/etc/oauth2-proxy/client_secret".
Definition SecretNameResourceAttributes : string := "resource-attributes".
Definition SecretNameKubeconfig : string := "kubeconfig".
Definition SecretNameOidcCa : string := "oidc-ca".
Definition ServiceNameOauth2Service : string := "oauth2-service".
Definition HTTPRouteName : string := "oauth2-httproute".
Definition ManagedGatewayName : string := "oidc-apps-gateway".

Definition PodWebHookPath : string := "/oidc-mutate-v1-pod".
Definition VpaWebHookPath : string := "/oidc-mutate-v1-vpa".

Definition LabelKey : string := "oidc-application-controller/component".
Definition LabelValue : string := "oidc-apps".
Definition SecretLabelKey : string := "oidc-application-controller/secret".
Definition Oauth2LabelValue : string := "oauth2".
Definition RbacLabelValue : string := "rbac".
Definition OidcCa2LabelValue : string := "oidc-ca".
Definition KubeconfigLabelValue : string := "kubeconfig".
Definition RegistrySecretLabelValue : string := "registry-secret".
Definition RegistrySecretFinalizer : string := "oidc-application-controller/registry-secret".

Definition Oauth2VolumeName : string := "oauth2-proxy".
Definition KubeRbacProxyVolumeName : string := "kube-rbac-proxy".

End constants.
