(* ===== verification/Vendor.v ===== *)
(** * The third-party interface

    The functions of Kubernetes and controller-runtime packages that the
    sources call, as type classes: [Vendor] for the pure ones, [Client] for
    the API server client (and the operating system's entropy), over a world
    type [W].  The law classes state documented behaviour; theorems that
    need it take the law class, and [Reference] gives an instance of each. *)

From S2P Require Import Prelude GoStrings Kube Constants.

(** ** Pure functions *)

Class Vendor := {
  (** [metav1.LabelSelectorAsSelector]; the selector is its [Matches]. *)
  LabelSelectorAsSelector : option LabelSelector -> error + (GoMap string -> bool);
  (** [metav1.LabelSelector.Size] *)
  LabelSelector_Size : option LabelSelector -> nat;
  (** [intstr.IntOrString.String] *)
  IntOrString_String : IntOrString -> string;
  (** [resource.MustParse] (on well-formed literals), [Quantity.Cmp] and
      [ResourceList.Memory] *)
  MustParse : string -> Quantity;
  Quantity_Cmp : Quantity -> Quantity -> Z;
  ResourceList_Memory : GoMap Quantity -> Quantity;
  (** [client.IgnoreNotFound], [client.IgnoreAlreadyExists] and
      [apierrors.IsNotFound] *)
  IgnoreNotFound : error -> option error;
  IgnoreAlreadyExists : error -> option error;
  IsNotFound : error -> bool;
  (** [controllerutil.ContainsFinalizer], [RemoveFinalizer], and
      [AddFinalizer]: whether it changed the object, and the object *)
  ContainsFinalizer : ObjectMeta -> string -> bool;
  RemoveFinalizer : ObjectMeta -> string -> ObjectMeta;
  AddFinalizer : ObjectMeta -> string -> bool * ObjectMeta;
  (** [sigs.k8s.io/yaml] at [clientcmdv1.Config] *)
  ClientConfig : Type;
  yaml_Unmarshal_ClientConfig : string -> error + ClientConfig;
  yaml_Marshal_ClientConfig : ClientConfig -> string;
}.

Class VendorLaws `{Vendor} : Prop := {
  (** An empty selector has size zero, whether the pointer is nil or not. *)
  Size_nil : LabelSelector_Size None = 0;
  (** A nil selector matches nothing. *)
  AsSelector_nil : exists s, LabelSelectorAsSelector None = inr s /\ forall m, s m = false;
  (** [String] returns the string value or the decimal value of the integer. *)
  String_string : forall s, IntOrString_String (FromString s) = s;
  String_int : forall n, IntOrString_String (FromInt n) = Itoa n;
  (** The finalizer functions test, remove and append the entry of the list. *)
  ContainsFinalizer_spec : forall m f, ContainsFinalizer m f = existsb (String.eqb f) (Finalizers m);
  RemoveFinalizer_spec : forall m f,
    RemoveFinalizer m f = set_finalizers (List.filter (fun x => negb (String.eqb x f)) (Finalizers m)) m;
  AddFinalizer_spec : forall m f,
    AddFinalizer m f = if ContainsFinalizer m f then (false, m) else (true, set_finalizers (Finalizers m ++ [f]) m);
  IgnoreNotFound_spec : forall e, IgnoreNotFound e = if IsNotFound e then None else Some e;
}.

(** The environment of the process ([os.Getenv]); the empty string when unset. *)
Class OSEnv := Getenv : string -> string.

(** ** The API server client *)

Inductive OperationResult := OperationResultNone | OperationResultCreated | OperationResultUpdated.

(** [client.InNamespace] and [client.MatchingLabels(Selector)] *)
Record ListOptions := mkListOptions {
  InNamespace : option string;
  MatchingLabels : GoMap string }.

(** The objects the client's cache holds ([cacheOptions] of [RunController]):
    secrets, services, routes and gateways with the component label, pods and
    autoscalers with the configured selector, everything else.  The filters of
    gateways and autoscalers are set when these are enabled, which is when
    the program reads them. *)
Definition in_cache (selector : GoMap string -> bool) (k : Kind) (m : ObjectMeta) : bool :=
  match k with
  | KSecret | KService | KHTTPRoute | KGateway =>
      bool_decide (map_get (Labels m) constants.LabelKey = Some constants.LabelValue)
  | KPod | KVPA => selector (Labels m)
  | _ => true
  end.

Class Client (W : Type) := {
  (** [labels.Parse] of the flag [--cache-selector] *)
  cache_selector : GoMap string -> bool;
  cl_Get : forall k, NamespacedName -> M W (kobj k);
  cl_List : forall k, ListOptions -> M W (list (kobj k));
  cl_Create : forall k, kobj k -> M W unit;
  cl_Update : forall k, kobj k -> M W unit;
  cl_Delete : forall k : Kind, NamespacedName -> M W unit;
  (** [Patch] with the empty merge patch *)
  cl_PatchEmpty : forall k, kobj k -> M W unit;
  (** [controllerutil.CreateOrUpdate] with its mutate callback *)
  cl_CreateOrUpdate : forall k, kobj k -> (kobj k -> M W (kobj k)) -> M W OperationResult;
  (** [controllerutil.SetOwnerReference] *)
  cl_SetOwnerReference : Object -> forall k : Kind, kobj k -> outcome (kobj k);
  (** [c.Scheme().IsGroupRegistered] *)
  cl_IsGroupRegistered : string -> bool;
  (** [rand.Int(rand.Reader, max)] *)
  rand_Int : Z -> M W Z;
}.

(** What a read promises: it changes nothing, and returns the stored object
    or an error; a missing object is an error. *)
Class ClientReads (W : Type) `{Client W} := {
  view : W -> forall k : Kind, NamespacedName -> option (kobj k);
  get_pure : forall k key w, snd (cl_Get k key w) = w;
  get_sound : forall k key w o, fst (cl_Get k key w) = Ret o -> view w k key = Some o;
  get_no_panic : forall k key w p, fst (cl_Get k key w) <> Panic p;
}.

(** The objects that list options select: the namespace when one is given,
    and every label asked for. *)
Definition list_selects (opts : ListOptions) (m : ObjectMeta) : Prop :=
  (forall ns, InNamespace opts = Some ns -> Namespace m = ns) /\
  (forall k v, map_get (MatchingLabels opts) k = Some v -> map_get (Labels m) k = Some v).

(** Being deleted with no finalizer left. *)
Definition released (m : ObjectMeta) : bool := beingDeleted m && Nat.eqb (length (Finalizers m)) 0.

(** Everything but one object is as before. *)
Definition frame {W} `{ClientReads W} (k : Kind) (key : NamespacedName) (w w' : W) : Prop :=
  forall k' key', k' <> k \/ key' <> key -> view w' k' key' = view w k' key'.

(** What a read that falls back to [o] sees: the stored object, or [o] when
    the cache does not have one. *)
Definition seen {W} `{ClientReads W} (w : W) (k : Kind) (key : NamespacedName) (o y : kobj k) : Prop :=
  view w k key = Some y \/
  y = o /\ forall x, view w k key = Some x -> in_cache cache_selector k (meta_of k x) = false.

(** The API server, used by one client whose cache is up to date: an object
    is read under its own key and in its stored form; a list holds exactly the
    selected objects of the cache, once; an object is reported as missing only
    if it is or the cache does not hold it; a create never
    changes an existing object, an update stores what it is given or, when it
    removes the last finalizer of an object being deleted, removes it (either
    may also fail after it took effect); a successful delete removes an object without finalizers and marks
    one with finalizers; a create-or-update runs the mutation on the object it
    sees and stores the result under the same key; an
    owner reference is added and nothing else changes; the empty patch and
    drawing entropy change no object. *)
Class ClientWrites (W : Type) `{ClientReads W} `{Vendor} : Prop := {
  view_key : forall w k key o, view w k key = Some o -> key_of (meta_of k o) = key;
  view_stored : forall w k key o, view w k key = Some o -> stored k o = o;
  list_pure : forall k opts w, snd (cl_List k opts w) = w;
  list_no_panic : forall k opts w p, fst (cl_List k opts w) <> Panic p;
  list_spec : forall k opts w l, fst (cl_List k opts w) = Ret l ->
    forall o, In o l <-> (exists key, view w k key = Some o) /\ list_selects opts (meta_of k o) /\
                         in_cache cache_selector k (meta_of k o) = true;
  list_nodup : forall k opts w l, fst (cl_List k opts w) = Ret l -> NoDup l;
  get_not_found : forall k key w e, fst (cl_Get k key w) = Err e -> IsNotFound e = true ->
    forall o, view w k key = Some o -> in_cache cache_selector k (meta_of k o) = false;
  create_frame : forall k o w, frame k (key_of (meta_of k o)) w (snd (cl_Create k o w));
  create_own : forall k o w, let key := key_of (meta_of k o) in let w' := snd (cl_Create k o w) in
    view w' k key = view w k key \/ view w k key = None /\ view w' k key = Some (stored k o);
  create_done : forall k o w, fst (cl_Create k o w) = Ret tt ->
    view (snd (cl_Create k o w)) k (key_of (meta_of k o)) = Some (stored k o);
  create_exists : forall k o w e, fst (cl_Create k o w) = Err e -> IgnoreAlreadyExists e = None ->
    exists x, view w k (key_of (meta_of k o)) = Some x;
  create_no_panic : forall k o w p, fst (cl_Create k o w) <> Panic p;
  update_frame : forall k o w, frame k (key_of (meta_of k o)) w (snd (cl_Update k o w));
  update_own : forall k o w, let key := key_of (meta_of k o) in let w' := snd (cl_Update k o w) in
    view w' k key = view w k key \/
    (exists x, view w k key = Some x) /\
    view w' k key = if released (meta_of k o) then None else Some (stored k o);
  update_done : forall k o w, fst (cl_Update k o w) = Ret tt ->
    view (snd (cl_Update k o w)) k (key_of (meta_of k o)) =
    if released (meta_of k o) then None else Some (stored k o);
  update_no_panic : forall k o w p, fst (cl_Update k o w) <> Panic p;
  delete_frame : forall k key w, frame k key w (snd (cl_Delete k key w));
  delete_own : forall k key w, let w' := snd (cl_Delete k key w) in
    view w' k key = None \/ view w' k key = view w k key \/
    exists o t, view w k key = Some o /\ Finalizers (meta_of k o) <> [] /\
      view w' k key = Some (set_meta k (set_deletion_timestamp (Some t) (meta_of k o)) o);
  delete_done : forall k key w o, fst (cl_Delete k key w) = Ret tt -> view w k key = Some o ->
    Finalizers (meta_of k o) = [] -> view (snd (cl_Delete k key w)) k key = None;
  delete_not_found : forall k key w e, fst (cl_Delete k key w) = Err e -> IsNotFound e = true ->
    view w k key = None;
  delete_no_panic : forall k key w p, fst (cl_Delete k key w) <> Panic p;
  create_or_update_spec : forall k o f w r w', cl_CreateOrUpdate k o f w = (Ret r, w') ->
    let key := key_of (meta_of k o) in
    exists y x w1, seen w k key o y /\ f y w = (Ret x, w1) /\ key_of (meta_of k x) = key /\
      frame k key w1 w' /\ (beingDeleted (meta_of k x) = false -> view w' k key = Some (stored k x));
  set_owner_spec : forall owner k o o', cl_SetOwnerReference owner k o = Ret o' ->
    exists refs, o' = set_meta k (set_owner_references refs (meta_of k o)) o /\
      Exists (fun r => OwnerReference_UID r = GetUID owner) refs;
  patch_empty_view : forall k o w k' key, view (snd (cl_PatchEmpty k o w)) k' key = view w k' key;
  rand_view : forall max w k key, view (snd (rand_Int max w)) k key = view w k key;
}.

(** The entropy source returns indices in range. *)
Class Entropy (W : Type) `{Client W} : Prop := {
  rand_range : forall max w v w', rand_Int max w = (Ret v, w') -> (0 <= v < max)%Z;
  rand_no_panic : forall max w p, fst (rand_Int max w) <> Panic p;
}.
