(* ===== verification/Reference.v ===== *)
(** * A reference instance of the third-party interface

    Concrete functions for the classes of [Vendor], with the documented
    behaviour: label selectors with the four operators, and an in-memory API
    server whose stores are finite maps.  Witnesses evaluate the program's
    definitions against this instance; it also shows that the law classes
    can be satisfied. *)

From S2P Require Import Prelude GoStrings Kube Constants Vendor.

Module Ref.

(** ** Pure functions *)

Definition requirement_valid (r : LabelSelectorRequirement) : bool :=
  let op := Requirement_Operator r in
  let values := negb (Nat.eqb (length (Requirement_Values r)) 0) in
  if String.eqb op "In" || String.eqb op "NotIn" then values
  else (String.eqb op "Exists" || String.eqb op "DoesNotExist") && negb values.

Definition requirement_holds (labels : GoMap string) (r : LabelSelectorRequirement) : bool :=
  let value := map_get labels (Requirement_Key r) in
  let member := match value with
                | Some v => existsb (String.eqb v) (Requirement_Values r)
                | None => false
                end in
  let op := Requirement_Operator r in
  if String.eqb op "In" then member
  else if String.eqb op "NotIn" then negb member
  else if String.eqb op "Exists" then bool_decide (is_Some value)
  else negb (bool_decide (is_Some value)).

Definition labels_match (want labels : GoMap string) : bool :=
  forallb (fun kv => bool_decide (map_get labels kv.1 = Some kv.2)) (map_to_list (map_contents want)).

Definition as_selector (s : option LabelSelector) : error + (GoMap string -> bool) :=
  match s with
  | None => inr (fun _ => false)
  | Some s =>
      if forallb requirement_valid (MatchExpressions s) then
        inr (fun labels => labels_match (MatchLabels s) labels &&
                           forallb (requirement_holds labels) (MatchExpressions s))
      else inl (ErrorString "invalid label selector")
  end.

Definition selector_size (s : option LabelSelector) : nat :=
  match s with
  | None => 0
  | Some s => map_len (MatchLabels s) + length (MatchExpressions s)
  end.

Definition int_or_string (p : IntOrString) : string :=
  match p with FromInt n => Itoa n | FromString s => s end.

(** Quantities in mebibytes, enough for the literals of the program. *)
Definition mebibytes (q : Quantity) : Z :=
  let '(mkQuantity r) := q in default 0%Z (Atoi (TrimSuffix r "Mi")).

Definition not_found : error := StatusError "NotFound".
Definition already_exists : error := StatusError "AlreadyExists".

Definition contains_finalizer (m : ObjectMeta) (f : string) : bool := existsb (String.eqb f) (Finalizers m).

#[export] Instance vendor : Vendor := {
  LabelSelectorAsSelector := as_selector;
  LabelSelector_Size := selector_size;
  IntOrString_String := int_or_string;
  MustParse := mkQuantity;
  Quantity_Cmp := fun a b => Z.sgn (mebibytes a - mebibytes b);
  ResourceList_Memory := fun m => default (mkQuantity "0") (map_get m "memory");
  IgnoreNotFound := fun e => if bool_decide (e = not_found) then None else Some e;
  IgnoreAlreadyExists := fun e => if bool_decide (e = already_exists) then None else Some e;
  IsNotFound := fun e => bool_decide (e = not_found);
  ContainsFinalizer := contains_finalizer;
  RemoveFinalizer := fun m f => set_finalizers (List.filter (fun x => negb (String.eqb x f)) (Finalizers m)) m;
  AddFinalizer := fun m f =>
    if contains_finalizer m f then (false, m) else (true, set_finalizers (Finalizers m ++ [f]) m);
  ClientConfig := string;
  yaml_Unmarshal_ClientConfig := fun s => if HasPrefix s "{" then inr s else inl (ErrorString "yaml");
  yaml_Marshal_ClientConfig := fun c => c }.

#[export] Instance vendor_laws : VendorLaws.
Proof.
  split; [done| |done..].
  eexists. split; [done|]. done.
Qed.

(** ** The in-memory API server *)

(** The machine the controller runs on: its files (or a full disk), its clock,
    and a counter from which fresh keys are made. *)
Record machine := mkMachine {
  files : gmap string string;
  disk_full : bool;
  clock : Z;
  next_key : Z }.

Record cluster := mkCluster {
  deployments : gmap NamespacedName Deployment;
  statefulsets : gmap NamespacedName StatefulSet;
  replicasets : gmap NamespacedName ReplicaSet;
  pods : gmap NamespacedName Pod;
  secrets : gmap NamespacedName Secret;
  services : gmap NamespacedName Service;
  httproutes : gmap NamespacedName HTTPRoute;
  namespaces : gmap NamespacedName Namespace_;
  vpas : gmap NamespacedName VerticalPodAutoscaler;
  gateways : gmap NamespacedName GatewayResource;
  webhookconfigurations : gmap NamespacedName MutatingWebhookConfiguration;
  (** numbers the entropy source will return *)
  entropy : list Z;
  host : machine }.

Definition empty_cluster : cluster := mkCluster ∅ ∅ ∅ ∅ ∅ ∅ ∅ ∅ ∅ ∅ ∅ [] (mkMachine ∅ false 0 1).

Definition store (w : cluster) (k : Kind) : gmap NamespacedName (kobj k) :=
  match k with
  | KDeployment => deployments w
  | KStatefulSet => statefulsets w
  | KReplicaSet => replicasets w
  | KPod => pods w
  | KSecret => secrets w
  | KService => services w
  | KHTTPRoute => httproutes w
  | KNamespace => namespaces w
  | KVPA => vpas w
  | KGateway => gateways w
  | KMutatingWebhookConfiguration => webhookconfigurations w
  end.

Definition set_store (w : cluster) (k : Kind) : gmap NamespacedName (kobj k) -> cluster :=
  let '(mkCluster d s r p c v h n a g y e x) := w in
  match k with
  | KDeployment => fun m => mkCluster m s r p c v h n a g y e x
  | KStatefulSet => fun m => mkCluster d m r p c v h n a g y e x
  | KReplicaSet => fun m => mkCluster d s m p c v h n a g y e x
  | KPod => fun m => mkCluster d s r m c v h n a g y e x
  | KSecret => fun m => mkCluster d s r p m v h n a g y e x
  | KService => fun m => mkCluster d s r p c m h n a g y e x
  | KHTTPRoute => fun m => mkCluster d s r p c v m n a g y e x
  | KNamespace => fun m => mkCluster d s r p c v h m a g y e x
  | KVPA => fun m => mkCluster d s r p c v h n m g y e x
  | KGateway => fun m => mkCluster d s r p c v h n a m y e x
  | KMutatingWebhookConfiguration => fun m => mkCluster d s r p c v h n a g m e x
  end.

Definition with_entropy (e : list Z) (w : cluster) : cluster :=
  let '(mkCluster d s r p c v h n a g y _ x) := w in mkCluster d s r p c v h n a g y e x.

Definition with_host (x : machine) (w : cluster) : cluster :=
  let '(mkCluster d s r p c v h n a g y e _) := w in mkCluster d s r p c v h n a g y e x.

(** Adds an object under its own key (used to build example clusters). *)
Definition put (k : Kind) (o : kobj k) (w : cluster) : cluster :=
  set_store w k (<[key_of (meta_of k o) := o]> (store w k)).

(** The object stored under its own key, in its stored form. *)
Definition find (w : cluster) (k : Kind) (key : NamespacedName) : option (kobj k) :=
  match store w k !! key with
  | Some o => if decide (key_of (meta_of k o) = key) then Some (stored k o) else None
  | None => None
  end.

(** The selector of the cache selects every pod. *)
Definition cached (k : Kind) (m : ObjectMeta) : bool := in_cache (fun _ => true) k m.

(** Reads go through the cache. *)
Definition lookup (w : cluster) (k : Kind) (key : NamespacedName) : option (kobj k) :=
  match find w k key with
  | Some o => if cached k (meta_of k o) then Some o else None
  | None => None
  end.

Definition get (k : Kind) (key : NamespacedName) : M cluster (kobj k) := fun w =>
  (match lookup w k key with Some o => Ret o | None => Err not_found end, w).

Definition selected (opts : ListOptions) (m : ObjectMeta) : bool :=
  match InNamespace opts with Some ns => String.eqb ns (Namespace m) | None => true end &&
  labels_match (MatchingLabels opts) (Labels m).

Definition list_objects (k : Kind) (opts : ListOptions) : M cluster (list (kobj k)) := fun w =>
  (Ret (List.filter (fun o => selected opts (meta_of k o) && cached k (meta_of k o))
          (omap (fun kv => find w k kv.1) (map_to_list (store w k)))), w).

Definition create (k : Kind) (o : kobj k) : M cluster unit := fun w =>
  match find w k (key_of (meta_of k o)) with
  | Some _ => (Err already_exists, w)
  | None => (Ret tt, put k (stored k o) w)
  end.

Definition remove (k : Kind) (key : NamespacedName) (w : cluster) : cluster :=
  set_store w k (delete key (store w k)).

(** An update that leaves an object being deleted without finalizers removes
    it. *)
Definition update (k : Kind) (o : kobj k) : M cluster unit := fun w =>
  let key := key_of (meta_of k o) in
  match find w k key with
  | Some _ =>
      (Ret tt, if released (meta_of k o)
               then remove k key w else put k (stored k o) w)
  | None => (Err not_found, w)
  end.

Definition delete_object (k : Kind) (key : NamespacedName) : M cluster unit := fun w =>
  match find w k key with
  | Some o =>
      (Ret tt, if Nat.eqb (length (Finalizers (meta_of k o))) 0 then remove k key w
               else put k (set_meta k (set_deletion_timestamp (Some 0%Z) (meta_of k o)) o) w)
  | None => (Err not_found, w)
  end.

Definition unchanged (k : Kind) (existing : kobj k) : M cluster OperationResult := fun w =>
  (if decide (find w k (key_of (meta_of k existing)) = Some existing) then Ret OperationResultNone
   else Err not_found, w).

Definition create_or_update (k : Kind) (o : kobj k) (mutate : kobj k -> M cluster (kobj k))
  : M cluster OperationResult := fun w =>
  let key := key_of (meta_of k o) in
  let mutated x := o' ← mutate x;
    if decide (key_of (meta_of k o') = key) then mret o' else throw (ErrorString "the key was changed") in
  match lookup w k key with
  | None => (o' ← mutated o; create k o';; mret OperationResultCreated) w
  | Some existing =>
      (o' ← mutated existing;
       if decide (o' = existing) then
         unchanged k existing
       else update k o';; mret OperationResultUpdated) w
  end.

Definition kind_name (k : Kind) : string :=
  match k with
  | KDeployment => "Deployment" | KStatefulSet => "StatefulSet" | KReplicaSet => "ReplicaSet"
  | KPod => "Pod" | KSecret => "Secret" | KService => "Service" | KHTTPRoute => "HTTPRoute"
  | KNamespace => "Namespace" | KVPA => "VerticalPodAutoscaler"
  | KGateway => "Gateway"
  | KMutatingWebhookConfiguration => "MutatingWebhookConfiguration"
  end.

Definition set_owner (owner : Object) (k : Kind) (o : kobj k) : outcome (kobj k) :=
  let ref := mkOwnerReference (kind_name (obj_kind owner)) (GetName owner) (GetUID owner) in
  let others := List.filter (fun r => negb (String.eqb (OwnerReference_Kind r) (OwnerReference_Kind ref) &&
                                       String.eqb (OwnerReference_Name r) (OwnerReference_Name ref)))
                  (OwnerReferences (meta_of k o)) in
  Ret (set_meta k (set_owner_references (others ++ [ref]) (meta_of k o)) o).

Definition rand_int (max : Z) : M cluster Z := fun w =>
  if Z.leb max 0 then (Err (ErrorString "entropy"), w)
  else match entropy w with
       | v :: e => (Ret (v mod max)%Z, with_entropy e w)
       | [] => (Ret 0%Z, w)
       end.

#[export] Instance client : Client cluster := {
  cache_selector := fun _ => true;
  cl_Get := get;
  cl_List := list_objects;
  cl_Create := create;
  cl_Update := update;
  cl_Delete := delete_object;
  cl_PatchEmpty := fun k o w => (match find w k (key_of (meta_of k o)) with
                                 | Some _ => Ret tt | None => Err not_found end, w);
  cl_CreateOrUpdate := create_or_update;
  cl_SetOwnerReference := set_owner;
  cl_IsGroupRegistered := fun _ => true;
  rand_Int := rand_int }.

Lemma lookup_find w k key o : lookup w k key = Some o -> find w k key = Some o /\ cached k (meta_of k o) = true.
Proof. unfold lookup. destruct (find w k key) as [x|]; [|done]. destruct (cached k (meta_of k x)) eqn:E; [|done]. by intros [= <-]. Qed.

#[export] Instance client_reads : ClientReads cluster.
Proof.
  refine {| view := find |}; simpl; unfold get; [done| |].
  - intros k key w o. destruct (lookup w k key) eqn:E; intros [= ->]. by apply lookup_find in E as [? _].
  - intros k key w p. by destruct (lookup w k key).
Defined.

(** *** The laws of the writes *)

Lemma store_set_eq w k m : store (set_store w k m) k = m.
Proof. destruct w. by destruct k. Qed.

Lemma store_set_ne w k m k' : k' <> k -> store (set_store w k m) k' = store w k'.
Proof. destruct w. by destruct k, k'. Qed.

Lemma find_set_ne w k m k' key : k' <> k -> find (set_store w k m) k' key = find w k' key.
Proof. intros Hk. unfold find. by rewrite store_set_ne. Qed.

Lemma find_put w k o : find (put k o w) k (key_of (meta_of k o)) = Some (stored k o).
Proof. unfold find, put. rewrite store_set_eq, lookup_insert_eq. by rewrite decide_True. Qed.

Lemma find_remove w k key : find (remove k key w) k key = None.
Proof. unfold find, remove. by rewrite store_set_eq, lookup_delete_eq. Qed.

Lemma put_frame w k o k' key' :
  k' <> k \/ key' <> key_of (meta_of k o) -> find (put k o w) k' key' = find w k' key'.
Proof.
  intros [Hk|Hk]; [by apply find_set_ne|]. unfold put. destruct (decide (k' = k)) as [->|]; [|by apply find_set_ne].
  unfold find. rewrite store_set_eq. by rewrite lookup_insert_ne.
Qed.

Lemma remove_frame w k key k' key' : k' <> k \/ key' <> key -> find (remove k key w) k' key' = find w k' key'.
Proof.
  intros [Hk|Hk]; [by apply find_set_ne|]. unfold remove. destruct (decide (k' = k)) as [->|]; [|by apply find_set_ne].
  unfold find. rewrite store_set_eq. by rewrite lookup_delete_ne.
Qed.

Lemma find_key w k key o : find w k key = Some o -> key_of (meta_of k o) = key.
Proof.
  unfold find. destruct (store w k !! key); [|done]. case_decide; [|done].
  intros [= <-]. by rewrite meta_of_stored.
Qed.

Lemma find_stored w k key o : find w k key = Some o -> stored k o = o.
Proof.
  unfold find. destruct (store w k !! key); [|done]. case_decide; [|done].
  intros [= <-]. apply stored_stored.
Qed.

#[export] Instance client_entropy : Entropy cluster.
Proof.
  split; simpl; unfold rand_int; intros max w v.
  - intros w'. destruct (Z.leb_spec max 0); [done|].
    destruct (entropy w); intros [= <- <-]; [lia|]. by apply Z.mod_pos_bound.
  - destruct (Z.leb max 0); [done|]. by destruct (entropy w).
Qed.

Lemma labels_match_spec want labels :
  labels_match want labels = true <-> forall k v, map_get want k = Some v -> map_get labels k = Some v.
Proof.
  unfold labels_match. rewrite forallb_forall. split.
  - intros Hall k v Hk. rewrite map_get_contents in Hk. apply elem_of_map_to_list in Hk.
    specialize (Hall (k, v) (proj1 (list_elem_of_In _ _) Hk)). by apply bool_decide_eq_true in Hall.
  - intros Hall [k v] Hin. apply list_elem_of_In, elem_of_map_to_list in Hin.
    apply bool_decide_eq_true. apply Hall. by rewrite map_get_contents.
Qed.

Lemma selected_spec opts m : selected opts m = true <-> list_selects opts m.
Proof.
  unfold selected, list_selects. rewrite andb_true_iff, labels_match_spec.
  destruct (InNamespace opts) as [ns|]; [|naive_solver]. rewrite String.eqb_eq. naive_solver.
Qed.

Lemma list_objects_spec k opts w o l :
  fst (list_objects k opts w) = Ret l ->
  In o l <-> (exists key, find w k key = Some o) /\ list_selects opts (meta_of k o) /\ cached k (meta_of k o) = true.
Proof.
  intros [= <-]. rewrite filter_In, andb_true_iff, selected_spec. apply and_iff_compat_r.
  rewrite <- list_elem_of_In, list_elem_of_omap. split.
  - intros ([key x] & _ & Hf). by exists key.
  - intros [key Hf]. pose proof Hf as Hf'. unfold find in Hf'. destruct (store w k !! key) as [x|] eqn:E; [|done].
    exists (key, x). split; [by apply elem_of_map_to_list|done].
Qed.

Lemma found_nodup k w (l : list (NamespacedName * kobj k)) :
  NoDup (l.*1) -> NoDup (omap (fun kv => find w k kv.1) l).
Proof.
  induction l as [|[key x] l IH]; cbn; [constructor|]. inversion_clear 1 as [|? ? Hn Hd].
  destruct (find w k key) as [o|] eqn:E; [|by apply IH]. constructor; [|by apply IH].
  intros ([key' y] & Hin & Hf)%list_elem_of_omap. apply Hn. cbn in Hf.
  rewrite <- (find_key _ _ _ _ E), (find_key _ _ _ _ Hf).
  exact (list_elem_of_fmap_2 fst _ _ Hin).
Qed.

Lemma list_objects_nodup k opts w l : fst (list_objects k opts w) = Ret l -> NoDup l.
Proof.
  intros [= <-]. apply NoDup_ListNoDup, List.NoDup_filter, NoDup_ListNoDup, found_nodup, NoDup_fst_map_to_list.
Qed.

Lemma delete_object_cases k key w :
  (find w k key = None /\ delete_object k key w = (Err not_found, w)) \/
  exists o, find w k key = Some o /\ delete_object k key w =
    (Ret tt, if Nat.eqb (length (Finalizers (meta_of k o))) 0 then remove k key w
             else put k (set_meta k (set_deletion_timestamp (Some 0%Z) (meta_of k o)) o) w).
Proof. unfold delete_object. destruct (find w k key) as [o|]; [right; by exists o|by left]. Qed.

Lemma marked_key k o t : key_of (meta_of k (set_meta k (set_deletion_timestamp t (meta_of k o)) o)) = key_of (meta_of k o).
Proof. by rewrite meta_of_set_meta. Qed.

Lemma delete_object_own k key w :
  let w' := snd (delete_object k key w) in
  find w' k key = None \/ find w' k key = find w k key \/
  exists o t, find w k key = Some o /\ Finalizers (meta_of k o) <> [] /\
    find w' k key = Some (set_meta k (set_deletion_timestamp (Some t) (meta_of k o)) o).
Proof.
  cbv zeta. destruct (delete_object_cases k key w) as [[_ ->]|(o & Hf & ->)]; [auto|]. cbn [snd].
  destruct (Finalizers (meta_of k o)) eqn:Ef; cbn [length Nat.eqb]; [left; apply find_remove|].
  right. right. exists o, 0%Z. rewrite Ef. split; [done|]. split; [done|].
  rewrite <- (find_key _ _ _ _ Hf), <- (marked_key k o (Some 0%Z)), find_put.
  by rewrite stored_set_meta, (find_stored _ _ _ _ Hf).
Qed.

Lemma delete_object_frame k key w : frame k key w (snd (delete_object k key w)).
Proof.
  intros k' key' Hne. destruct (delete_object_cases k key w) as [[_ ->]|(o & Hf & ->)]; [done|]. cbn.
  destruct (Nat.eqb _ 0); [by apply remove_frame|]. apply put_frame.
  by rewrite marked_key, (find_key _ _ _ _ Hf).
Qed.

Lemma put_own w k o : find (put k (stored k o) w) k (key_of (meta_of k o)) = Some (stored k o).
Proof. rewrite <- (meta_of_stored k o) at 1. by rewrite find_put, stored_stored. Qed.

Lemma put_stored_frame w k o : frame k (key_of (meta_of k o)) w (put k (stored k o) w).
Proof. intros k' key' Hne. apply put_frame. by rewrite meta_of_stored. Qed.

Lemma update_frame_ref k o w : frame k (key_of (meta_of k o)) w (snd (update k o w)).
Proof.
  unfold update. destruct (find w k (key_of (meta_of k o))); [|done]. cbn [snd].
  destruct (released _); [|apply put_stored_frame]. intros k' key'. apply remove_frame.
Qed.

Lemma update_done_ref k o w :
  fst (update k o w) = Ret tt ->
  find (snd (update k o w)) k (key_of (meta_of k o)) = if released (meta_of k o) then None else Some (stored k o).
Proof.
  unfold update. destruct (find w k (key_of (meta_of k o))); [|done]. intros _. cbn [snd].
  destruct (released _); [apply find_remove|apply put_own].
Qed.

Lemma update_own_ref k o w :
  let key := key_of (meta_of k o) in let w' := snd (update k o w) in
  find w' k key = find w k key \/
  (exists x, find w k key = Some x) /\ find w' k key = if released (meta_of k o) then None else Some (stored k o).
Proof.
  cbv zeta. pose proof (update_done_ref k o w) as Hd. unfold update in *.
  destruct (find w k (key_of (meta_of k o))) as [x|] eqn:E; [right|left; by cbn]. split; [by exists x|by apply Hd].
Qed.

Lemma create_done_ref k o w :
  fst (create k o w) = Ret tt ->
  find w k (key_of (meta_of k o)) = None /\ snd (create k o w) = put k (stored k o) w.
Proof. unfold create. by destruct (find w k (key_of (meta_of k o))). Qed.

Lemma create_frame_ref k o w : frame k (key_of (meta_of k o)) w (snd (create k o w)).
Proof. unfold create. destruct (find w k (key_of (meta_of k o))); [done|]. apply put_stored_frame. Qed.

Lemma lookup_seen k o w :
  seen w k (key_of (meta_of k o)) o (default o (lookup w k (key_of (meta_of k o)))).
Proof.
  unfold seen, lookup. cbn [view client_reads]. destruct (find w k _) as [x|]; [|by right].
  destruct (cached k (meta_of k x)) eqn:E; [by left|right]. split; [done|]. by intros y [= <-].
Qed.

Lemma create_or_update_effect k o f w r w' :
  create_or_update k o f w = (Ret r, w') ->
  let key := key_of (meta_of k o) in
  exists y x w1, seen w k key o y /\ f y w = (Ret x, w1) /\ key_of (meta_of k x) = key /\
    frame k key w1 w' /\ (beingDeleted (meta_of k x) = false -> find w' k key = Some (stored k x)).
Proof.
  cbv zeta. pose proof (lookup_seen k o w) as Hseen. unfold create_or_update. set (key := key_of (meta_of k o)) in *.
  destruct (lookup w k key) as [ex|]; intros Hr; apply M_bind_inv in Hr as (x & w1 & Hm & Hr);
    apply M_bind_inv in Hm as (x' & w1' & Hf & Hm); destruct (decide (key_of (meta_of k x') = key)) as [Hk|]; try discriminate Hm;
    unfold mret, M_ret in Hm; injection Hm as -> ->; eexists _, x, w1; (split; [exact Hseen|]); (split; [exact Hf|]); (split; [exact Hk|]).
  - case_decide as Hu.
    + unfold unchanged in Hr. case_decide as Hfind; [|done]. injection Hr as _ <-. subst x.
      split; [done|]. intros _. by rewrite (find_stored _ _ _ _ Hfind), <- Hk.
    + apply M_bind_inv in Hr as (u & w2 & Hu2 & Hr).
      unfold mret, M_ret in Hr. injection Hr as _ <-. rewrite <- Hk.
      destruct u. pose proof (update_frame_ref k x w1) as Hfr. pose proof (update_done_ref k x w1) as Hd.
      rewrite Hu2 in Hfr, Hd. split; [exact Hfr|]. intros Hdel. specialize (Hd eq_refl).
      unfold released in Hd. by rewrite Hdel in Hd.
  - apply M_bind_inv in Hr as (u & w2 & Hu2 & Hr).
      unfold mret, M_ret in Hr. injection Hr as _ <-. rewrite <- Hk.
    destruct u. pose proof (create_frame_ref k x w1) as Hfr. pose proof (create_done_ref k x w1) as Hd.
    rewrite Hu2 in Hfr, Hd. split; [exact Hfr|]. intros _. destruct (Hd eq_refl) as [_ Hw]. cbn in Hw.
    rewrite Hw. apply put_own.
Qed.

#[export] Instance client_writes : ClientWrites cluster.
Proof.
  split; simpl.
  - intros w k key o. apply find_key.
  - intros w k key o. apply find_stored.
  - done.
  - done.
  - intros k opts w l Hl o. by apply (list_objects_spec k opts w).
  - intros k opts w l. apply list_objects_nodup.
  - intros k key w e. unfold get. destruct (lookup w k key) eqn:E; [done|]. intros _ _ o Ho.
    unfold lookup in E. rewrite Ho in E. change (cached k (meta_of k o) = false). by destruct (cached k (meta_of k o)).
  - apply create_frame_ref.
  - intros k o w. unfold create. destruct (find w k (key_of (meta_of k o))) eqn:E; [by left|right].
    split; [done|apply put_own].
  - intros k o w Hd. destruct (create_done_ref k o w Hd) as [_ ->]. apply put_own.
  - intros k o w e. unfold create. destruct (find w k (key_of (meta_of k o))) as [x|]; [by exists x|done].
  - intros k o w p. unfold create. by destruct (find w k (key_of (meta_of k o))).
  - apply update_frame_ref.
  - apply update_own_ref.
  - apply update_done_ref.
  - intros k o w p. unfold update. by destruct (find w k (key_of (meta_of k o))).
  - apply delete_object_frame.
  - apply delete_object_own.
  - intros k key w o Hd Hf Hfin. destruct (delete_object_cases k key w) as [[_ E]|(x & Hx & E)]; rewrite E in *; [done|].
    rewrite Hf in Hx. injection Hx as <-. rewrite Hfin. apply find_remove.
  - intros k key w e Hd _. destruct (delete_object_cases k key w) as [[Hn _]|(x & Hx & E)]; [done|]. by rewrite E in Hd.
  - intros k key w p. destruct (delete_object_cases k key w) as [[_ ->]|(x & Hx & ->)]; done.
  - apply create_or_update_effect.
  - intros owner k o o'. unfold set_owner. intros [= <-]. eexists. split; [done|].
    apply Exists_app. right. by constructor.
  - done.
  - intros max w k key. unfold rand_int. destruct (Z.leb max 0); [done|]. destruct (entropy w) eqn:E; [done|].
    unfold find. by destruct w, k.
Qed.

(** An environment with the controller's namespace set. *)
Definition env : OSEnv := fun name => if String.eqb name "NAMESPACE" then "oidc-system" else EmptyString.

(** ** Builders for example objects *)

Definition labels1 (k v : string) : GoMap string := Some {[ k := v ]}.

Definition meta1 (name namespace uid : string) (labels : GoMap string) : ObjectMeta :=
  mkObjectMeta name namespace uid labels None [] [] None.

End Ref.
