(* ===== verification/Crypto.v ===== *)
(** * Certificates, keys, files and the clock: the interface

    What pkg/certificates uses of crypto/rsa, crypto/x509, os, time and
    client-go, as classes over the world [W]: [Crypto] for keys and
    certificates, [Host] for the disk and the clock, [Clientset] for the
    client that exists before the manager starts, and the retry helper.  The
    law classes state documented behaviour. *)

From S2P Require Import Prelude GoStrings Kube Vendor.

(** ** [x509.Certificate]: the fields the program sets or reads *)

(** Times are nanoseconds since the epoch. *)
Record Certificate := mkCertificate {
  Raw : string;
  SerialNumber : Z;
  CommonName : string;
  Organization : list string;
  DNSNames : list string;
  NotBefore : Z;
  NotAfter : Z;
  KeyUsage : Z;
  ExtKeyUsage : list Z;
  BasicConstraintsValid : bool;
  IsCA : bool }.

#[export] Instance Certificate_eq_dec : EqDecision Certificate.
Proof. solve_decision. Defined.

Definition KeyUsageDigitalSignature : Z := 1.
Definition KeyUsageKeyEncipherment : Z := 4.
Definition KeyUsageCertSign : Z := 32.
Definition ExtKeyUsageServerAuth : Z := 1.

(** [crypto.PrivateKey], an interface: an RSA key or a key of another type. *)
Inductive PrivateKey (K : Type) := RSA (k : K) | OtherKey.
Arguments RSA {K} k.
Arguments OtherKey {K}.

Class Crypto (W : Type) := {
  rsa_PrivateKey : Type;
  rsa_PublicKey : Type;
  rsa_Public : rsa_PrivateKey -> rsa_PublicKey;
  (** [rsa.GenerateKey(rand.Reader, bits)] *)
  rsa_GenerateKey : Z -> M W rsa_PrivateKey;
  (** [x509.CreateCertificate(rand.Reader, template, parent, pub, priv)] *)
  x509_CreateCertificate : Certificate -> Certificate -> rsa_PublicKey -> PrivateKey rsa_PrivateKey -> M W string;
  x509_ParseCertificate : string -> error + Certificate;
  x509_MarshalPKCS8PrivateKey : rsa_PrivateKey -> error + string;
  x509_ParsePKCS8PrivateKey : string -> error + PrivateKey rsa_PrivateKey;
}.

Class Host (W : Type) := {
  (** [time.Now] *)
  time_Now : M W Z;
  os_ReadFile : string -> M W string;
  (** [cert.WriteCert] of client-go *)
  cert_WriteCert : string -> string -> M W unit;
}.

Class Clientset (W : Type) := {
  (** whether [kubernetes.NewForConfig] works *)
  kubernetes_NewForConfig : outcome unit;
  clientset_Get : string -> M W MutatingWebhookConfiguration;
  clientset_Update : MutatingWebhookConfiguration -> M W unit;
  IsConflict : error -> bool;
  (** [retry.RetryOnConflict] *)
  RetryOnConflict : M W unit -> M W unit;
}.

(** ** Laws *)

(** The disk and the clock as they are. *)
Class HostView (W : Type) := {
  file : W -> string -> option string;
  clock : W -> Z;
}.

(** Time may have passed; the disk and the API server are as before. *)
Definition quiet {W} `{ClientReads W, HostView W} (w w' : W) : Prop :=
  (clock w <= clock w')%Z /\ (forall p, file w' p = file w p) /\ (forall k key, view w' k key = view w k key).

#[export] Instance quiet_preorder {W} `{ClientReads W, HostView W} : PreOrder quiet.
Proof.
  split; [by intros w|]. intros w1 w2 w3 (Hc & Hf & Hv) (Hc' & Hf' & Hv').
  split; [lia|]. split; intros; [by rewrite Hf'|by rewrite Hv'].
Qed.

(** Reading the clock gives a time between its values before and after; a
    read gives the contents of the file; a write that works stores the
    contents, and touches no other file whether it works or not; drawing
    entropy touches nothing. *)
Class HostLaws (W : Type) `{ClientReads W, Host W, HostView W} : Prop := {
  now_spec : forall w, exists t, fst (time_Now w) = Ret t /\ (clock w <= t <= clock (snd (time_Now w)))%Z /\ quiet w (snd (time_Now w));
  read_pure : forall p w, snd (os_ReadFile p w) = w;
  read_sound : forall p w d, fst (os_ReadFile p w) = Ret d -> file w p = Some d;
  read_no_panic : forall p w e, fst (os_ReadFile p w) <> Panic e;
  write_clock : forall p d w, (clock w <= clock (snd (cert_WriteCert p d w)))%Z;
  write_view : forall p d w k key, view (snd (cert_WriteCert p d w)) k key = view w k key;
  write_frame : forall p d w q, q <> p -> file (snd (cert_WriteCert p d w)) q = file w q;
  write_done : forall p d w, fst (cert_WriteCert p d w) = Ret tt -> file (snd (cert_WriteCert p d w)) p = Some d;
  write_no_panic : forall p d w e, fst (cert_WriteCert p d w) <> Panic e;
  rand_quiet : forall max w, quiet w (snd (rand_Int max w));
}.

(** Times in a certificate are in seconds. *)
Definition in_seconds (t : Z) : Z := (t / 1000000000 * 1000000000)%Z.

(** What a certificate made from a template says. *)
Definition from_template (t c : Certificate) : Prop :=
  SerialNumber c = SerialNumber t /\ CommonName c = CommonName t /\ Organization c = Organization t /\
  DNSNames c = DNSNames t /\ NotBefore c = in_seconds (NotBefore t) /\ NotAfter c = in_seconds (NotAfter t) /\
  KeyUsage c = KeyUsage t /\ ExtKeyUsage c = ExtKeyUsage t /\ IsCA c = BasicConstraintsValid t && IsCA t.

(** The key a certificate is for, and whether a signature verifies under a
    key ([PublicKey] and [CheckSignature] of a certificate). *)
Class CryptoView (W : Type) `{Crypto W} := {
  cert_key : Certificate -> option rsa_PublicKey;
  verifies : Certificate -> rsa_PublicKey -> bool;
}.

(** Parsing keeps the bytes.  A certificate that was made parses, says what
    the template says, is for the public key given, is signed by the private
    key given, which is the one of the parent when the parent has a key.
    Keys survive their encoding. *)
Class CryptoLaws (W : Type) `{ClientReads W, HostView W, CryptoView W} : Prop := {
  parse_raw : forall d c, x509_ParseCertificate d = inr c -> Raw c = d;
  create_spec : forall tmpl parent pub priv w der, fst (x509_CreateCertificate tmpl parent pub priv w) = Ret der ->
    exists c k, x509_ParseCertificate der = inr c /\ from_template tmpl c /\ cert_key c = Some pub /\
      priv = RSA k /\ verifies c (rsa_Public k) = true /\ (forall p, cert_key parent = Some p -> p = rsa_Public k);
  marshal_parse : forall k d, x509_MarshalPKCS8PrivateKey k = inr d -> x509_ParsePKCS8PrivateKey d = inr (RSA k);
  generate_quiet : forall n w, quiet w (snd (rsa_GenerateKey n w));
  generate_no_panic : forall n w e, fst (rsa_GenerateKey n w) <> Panic e;
  create_quiet : forall tmpl parent pub priv w, quiet w (snd (x509_CreateCertificate tmpl parent pub priv w));
  create_cert_no_panic : forall tmpl parent pub priv w e, fst (x509_CreateCertificate tmpl parent pub priv w) <> Panic e;
}.

(** A run of a function under [RetryOnConflict]: again after a conflict. *)
Inductive retried {W} `{Clientset W} (fn : M W unit) : W -> outcome unit -> W -> Prop :=
| retried_last w r w' : fn w = (r, w') -> retried fn w r w'
| retried_again w e w1 r w' : fn w = (Err e, w1) -> IsConflict e = true -> retried fn w1 r w' -> retried fn w r w'.

(** The clientset reads and writes the objects of the API server; the client
    of the manager writes no file; a retry is a run of the function. *)
Class ClientsetLaws (W : Type) `{ClientReads W, HostView W, Clientset W} : Prop := {
  clientset_get_pure : forall n w, snd (clientset_Get n w) = w;
  clientset_get_sound : forall n w o, fst (clientset_Get n w) = Ret o -> view w KMutatingWebhookConfiguration (mkNN EmptyString n) = Some o;
  clientset_get_no_panic : forall n w p, fst (clientset_Get n w) <> Panic p;
  clientset_update_done : forall o w, fst (clientset_Update o w) = Ret tt ->
    view (snd (clientset_Update o w)) KMutatingWebhookConfiguration (key_of (MutatingWebhookConfiguration_Meta o)) =
    if released (MutatingWebhookConfiguration_Meta o) then None else Some o;
  clientset_update_frame : forall o w,
    frame KMutatingWebhookConfiguration (key_of (MutatingWebhookConfiguration_Meta o)) w (snd (clientset_Update o w));
  clientset_update_no_panic : forall o w p, fst (clientset_Update o w) <> Panic p;
  clientset_update_file : forall o w p, file (snd (clientset_Update o w)) p = file w p;
  update_file : forall k o w p, file (snd (cl_Update k o w)) p = file w p;
  update_clock : forall k o w, (clock w <= clock (snd (cl_Update k o w)))%Z;
  retry_spec : forall fn w r w', RetryOnConflict fn w = (r, w') -> retried fn w r w';
}.
