(* ===== verification/ReferenceHost.v ===== *)
(** * Reference instances of [Crypto]

    Keys are numbers; a certificate is a line of text with its fields, the
    number of its key and of the key that signed it; files are a finite map.
    The witnesses of the certificate theorems run on these. *)

From S2P Require Import Prelude GoStrings Kube Vendor Reference Crypto.

Module RefHost.

Import Ref.

(** ** Keys and certificates *)

Definition bool_text (b : bool) : string := if b then "1" else "0".

(** The encoding of a certificate: its fields, the key and the signer. *)
Definition der (c : Certificate) (key signer : Z) : string :=
  Join [Itoa (SerialNumber c); CommonName c; Join (Organization c) ","; Join (DNSNames c) ",";
        Itoa (NotBefore c); Itoa (NotAfter c); Itoa (KeyUsage c); Join (map Itoa (ExtKeyUsage c)) ",";
        bool_text (BasicConstraintsValid c); bool_text (IsCA c); Itoa key; Itoa signer] "|".

Definition list_of (s : string) : list string := if String.eqb s EmptyString then [] else Split s ",".

Definition parse_der (d : string) : option (Certificate * Z * Z) :=
  match Split d "|" with
  | [serial; cn; org; dns; nb; na; ku; eku; bcv; ca; key; signer] =>
      serial ← Atoi serial; nb ← Atoi nb; na ← Atoi na; ku ← Atoi ku; eku ← mapM Atoi (list_of eku);
      key ← Atoi key; signer ← Atoi signer;
      Some (mkCertificate d serial cn (list_of org) (list_of dns) nb na ku eku (String.eqb bcv "1") (String.eqb ca "1"), key, signer)
  | _ => None
  end.

Definition malformed : error := ErrorString "x509: malformed certificate".

Definition parse_certificate (d : string) : error + Certificate :=
  match parse_der d with Some (c, _, _) => inr c | None => inl malformed end.

Definition key_of_cert (c : Certificate) : option Z :=
  match parse_der (Raw c) with Some (_, k, _) => Some k | None => None end.

Definition signed_by (c : Certificate) (k : Z) : bool :=
  match parse_der (Raw c) with Some (_, _, s) => Z.eqb s k | None => false end.

(** The certificate a template becomes. *)
Definition issued (t : Certificate) : Certificate :=
  mkCertificate EmptyString (SerialNumber t) (CommonName t) (Organization t) (DNSNames t)
    (in_seconds (NotBefore t)) (in_seconds (NotAfter t)) (KeyUsage t) (ExtKeyUsage t)
    (BasicConstraintsValid t) (BasicConstraintsValid t && IsCA t).

Definition with_raw (d : string) (c : Certificate) : Certificate :=
  mkCertificate d (SerialNumber c) (CommonName c) (Organization c) (DNSNames c) (NotBefore c) (NotAfter c)
    (KeyUsage c) (ExtKeyUsage c) (BasicConstraintsValid c) (IsCA c).

(** A text that does not parse back is refused, and so is a private key that
    does not match the parent. *)
Definition create_certificate (t parent : Certificate) (pub : Z) (priv : PrivateKey Z) : M cluster string := fun w =>
  (match priv with
   | OtherKey => Err (ErrorString "x509: only RSA keys")
   | RSA k =>
       let d := der (issued t) pub k in
       if negb (match key_of_cert parent with Some p => Z.eqb p k | None => true end)
       then Err (ErrorString "x509: provided PrivateKey doesn't match parent's PublicKey")
       else if bool_decide (parse_der d = Some (with_raw d (issued t), pub, k)) then Ret d else Err malformed
   end, w).

Definition generate_key (_ : Z) : M cluster Z := fun w =>
  let x := host w in
  (Ret (next_key x), with_host (mkMachine (files x) (disk_full x) (clock x) (next_key x + 1)) w).

Definition key_text (k : Z) : error + string := inr ("key " +:+ Itoa k).

Definition parse_key (d : string) : error + PrivateKey Z :=
  if HasPrefix d "key " then
    match Atoi (TrimPrefix d "key ") with Some k => inr (RSA k) | None => inl (ErrorString "pkcs8") end
  else if HasPrefix d "ec " then inr OtherKey else inl (ErrorString "pkcs8").

(** As with certificates, only keys that parse back are written. *)
Definition marshal_key (k : Z) : error + string :=
  let d := "key " +:+ Itoa k in
  if bool_decide (Atoi (Itoa k) = Some k) then inr d else inl (ErrorString "pkcs8").

#[export] Instance crypto : Crypto cluster := {
  rsa_PrivateKey := Z;
  rsa_PublicKey := Z;
  rsa_Public := fun k => k;
  rsa_GenerateKey := generate_key;
  x509_CreateCertificate := create_certificate;
  x509_ParseCertificate := parse_certificate;
  x509_MarshalPKCS8PrivateKey := marshal_key;
  x509_ParsePKCS8PrivateKey := parse_key }.

(** ** Disk, clock, clientset *)

Definition read_file (p : string) : M cluster string := fun w =>
  (match files (host w) !! p with Some d => Ret d | None => Err (ErrorString "no such file or directory") end, w).

Definition write_file (p d : string) : M cluster unit := fun w =>
  let x := host w in
  if disk_full x then (Err (ErrorString "no space left on device"), w)
  else (Ret tt, with_host (mkMachine (<[p := d]> (files x)) false (clock x) (next_key x)) w).

#[export] Instance host_ops : Host cluster := {
  time_Now := fun w => (Ret (clock (host w)), w);
  os_ReadFile := read_file;
  cert_WriteCert := write_file }.

Definition conflict : error := StatusError "Conflict".

Fixpoint retry (steps : nat) (fn : M cluster unit) : M cluster unit := fun w =>
  match steps with
  | O | S O => fn w
  | S n =>
      match fn w with
      | (Err e, w') => if bool_decide (e = conflict) then retry n fn w' else (Err e, w')
      | r => r
      end
  end.

#[export] Instance clientset : Clientset cluster := {
  kubernetes_NewForConfig := Ret tt;
  clientset_Get := fun n => get KMutatingWebhookConfiguration (mkNN EmptyString n);
  clientset_Update := update KMutatingWebhookConfiguration;
  IsConflict := fun e => bool_decide (e = conflict);
  RetryOnConflict := retry 5 }.

(** ** The laws *)

#[export] Instance host_view : HostView cluster := {
  file := fun w p => files (host w) !! p;
  clock := fun w => Ref.clock (host w) }.

#[export] Instance crypto_view : CryptoView cluster := {
  cert_key := key_of_cert;
  verifies := signed_by }.

Lemma with_host_find x w k key : find (with_host x w) k key = find w k key.
Proof. unfold find. by destruct w, k. Qed.

Lemma with_host_host x w : host (with_host x w) = x.
Proof. by destruct w. Qed.

Lemma set_store_host w k m : host (set_store w k m) = host w.
Proof. by destruct w, k. Qed.

Lemma with_host_quiet x w :
  Ref.clock x = Ref.clock (host w) -> files x = files (host w) -> quiet w (with_host x w).
Proof.
  intros Hc Hf. split; [cbn; rewrite with_host_host; lia|]. split; [intros p; cbn; by rewrite with_host_host, Hf|].
  intros k key. apply with_host_find.
Qed.

#[export] Instance host_laws : HostLaws cluster.
Proof.
  split; cbn.
  - intros w. eexists. split; [done|]. split; [lia|reflexivity].
  - done.
  - intros p w d. unfold read_file. cbn. destruct (_ !! p); [by intros [= ->]|done].
  - intros p w e. unfold read_file. cbn. by destruct (_ !! p).
  - intros p d w. unfold write_file. destruct (disk_full _); cbn; [lia|]. rewrite with_host_host. cbn. lia.
  - intros p d w k key. unfold write_file. destruct (disk_full _); [done|]. apply with_host_find.
  - intros p d w q Hq. unfold write_file. destruct (disk_full _); [done|]. cbn. rewrite with_host_host. cbn. by rewrite lookup_insert_ne.
  - intros p d w. unfold write_file. destruct (disk_full _); [done|]. intros _. cbn. rewrite with_host_host. cbn. by rewrite lookup_insert_eq.
  - intros p d w e. unfold write_file. by destruct (disk_full _).
  - intros max w. unfold rand_int. destruct (Z.leb max 0); [reflexivity|]. destruct (entropy w) as [|v e]; [reflexivity|].
    split; [|split]; destruct w; cbn; [lia|done|]. intros k key. unfold find. by destruct k.
Qed.

Lemma parse_der_raw d c k s : parse_der d = Some (c, k, s) -> Raw c = d.
Proof.
  unfold parse_der. repeat (case_match; try done). intros H'.
  repeat match type of H' with (_ ≫= _) = _ => apply bind_Some in H' as (? & _ & H') end. by injection H' as <- _ _.
Qed.

#[export] Instance crypto_laws : CryptoLaws cluster.
Proof.
  split; cbn.
  - intros d c. unfold parse_certificate. destruct (parse_der d) as [[[c' k] s]|] eqn:E; [|done]. intros [= <-]. by eapply parse_der_raw.
  - intros t parent pub priv w d. unfold create_certificate. destruct priv as [k|]; [|done]. cbn.
    destruct (match key_of_cert parent with Some _ => _ | None => _ end) eqn:E1; [|done].
    destruct (bool_decide (parse_der _ = _)) eqn:E2; [|done]. cbn. intros [= <-].
    apply bool_decide_eq_true in E2. exists (with_raw (der (issued t) pub k) (issued t)), k.
    assert (Hp : forall p, key_of_cert parent = Some p -> p = k) by (intros p Hp; rewrite Hp in E1; by apply Z.eqb_eq).
    unfold parse_certificate, key_of_cert at 1, signed_by. cbn. rewrite !E2. split; [done|]. split; [by repeat split|].
    split; [done|]. split; [done|]. split; [apply Z.eqb_refl|exact Hp].
  - intros k d. unfold marshal_key. case_bool_decide as H; [|done]. intros [= <-]. unfold parse_key.
    pose proof (HasPrefix_app "key " (Itoa k)) as E1. pose proof (TrimPrefix_app "key " (Itoa k)) as E2.
    cbn [String.append] in E1, E2 |- *. by rewrite E1, E2, H.
  - intros n w. by apply with_host_quiet.
  - done.
  - intros. unfold create_certificate. reflexivity.
  - intros t parent pub priv w e. unfold create_certificate. destruct priv; [|done]. cbn. by repeat case_match.
Qed.

Lemma update_host k o w : host (snd (update k o w)) = host w.
Proof.
  unfold update. destruct (find w k _); [|done]. cbn. destruct (released _); apply set_store_host.
Qed.

Lemma retry_retried n fn w r w' : retry n fn w = (r, w') -> retried fn w r w'.
Proof.
  revert w. induction n as [|[|n] IH]; intros w; cbn [retry]; [by constructor..|].
  destruct (fn w) as [[u|e|p] w1] eqn:E; [intros [= <- <-]; by constructor| |intros [= <- <-]; by constructor].
  destruct (bool_decide (e = conflict)) eqn:Ec; [|intros [= <- <-]; by constructor].
  intros H%IH. eapply retried_again; [exact E|exact Ec|exact H].
Qed.

#[export] Instance clientset_laws : ClientsetLaws cluster.
Proof.
  split; cbn.
  - done.
  - intros n w o. unfold get. cbn. destruct (lookup w _ _) eqn:E; [|done]. intros [= ->]. by apply lookup_find in E as [? _].
  - intros n w p. unfold get. cbn. by destruct (lookup w _ _).
  - intros o w H. exact (update_done_ref KMutatingWebhookConfiguration o w H).
  - intros o w. exact (update_frame_ref KMutatingWebhookConfiguration o w).
  - intros o w p. exact (update_no_panic KMutatingWebhookConfiguration o w p).
  - intros o w p. by rewrite update_host.
  - intros k o w p. by rewrite update_host.
  - intros k o w. rewrite update_host. lia.
  - intros fn w r w'. exact (retry_retried 5 fn w r w').
Qed.

End RefHost.
