(* ===== verification/RandUtils.v ===== *)
(** * [pkg/randutils]: digests and random strings *)

From S2P Require Import Prelude GoStrings Sha256 Kube Vendor.

Definition charset : string := "abcdefghijklmnopqrstuvwxyz0123456789".

(** [charset[i]]; out of range panics. *)
Definition charset_at (i : Z) : outcome ascii :=
  if Z.ltb i 0 then Panic "index out of range"
  else match String.get (Z.to_nat i) charset with
       | Some c => Ret c
       | None => Panic "index out of range"
       end.

Section RandomString.
Context {W : Type} `{Client W}.

(** The loop of [GenerateRandomString]; [b] is the builder's contents.  An
    error of the entropy source makes the result the empty string. *)
Fixpoint random_loop (n : nat) (b : string) : M W string :=
  match n with
  | O => mret b
  | S n' =>
      r ← try_ (rand_Int (Z.of_nat (String.length charset)));
      match r with
      | inl _ => mret EmptyString
      | inr index =>
          c ← lift (charset_at index);
          random_loop n' (b +:+ String c EmptyString)
      end
  end.

Definition GenerateRandomString (length : nat) : M W string := random_loop length EmptyString.

End RandomString.

(** [GenerateSha256]: the first six hexadecimal digits.  Copying a string
    into the hash cannot fail. *)
Definition GenerateSha256 (key : string) : string :=
  let s := Sha256.hex_sha256 key in
  if Nat.ltb 6 (String.length s) then string_take 6 s else s.

Definition GenerateFullSha256 (key : string) : string := Sha256.hex_sha256 key.

(** ** Properties *)

Definition in_charset (c : ascii) : bool := is_lower c || is_digit c.

Lemma string_take_forallb p n s :
  string_forallb p s = true -> string_forallb p (string_take n s) = true.
Proof.
  revert s. induction n as [|n IH]; intros [|c s]; simpl; try done.
  intros [Hc Hs]%andb_prop. by rewrite Hc, IH.
Qed.

Lemma length_string_take n s : n <= String.length s -> String.length (string_take n s) = n.
Proof. revert s. induction n as [|n IH]; intros [|c s]; simpl; intros; try lia. rewrite IH; lia. Qed.

Lemma GenerateSha256_spec key :
  String.length (GenerateSha256 key) = 6 /\
  string_forallb Sha256.is_hex (GenerateSha256 key) = true /\
  HasPrefix (GenerateFullSha256 key) (GenerateSha256 key) = true.
Proof.
  destruct (Sha256.hex_sha256_spec key) as [Hlen Hhex].
  unfold GenerateSha256, GenerateFullSha256.
  rewrite Hlen. cbn [Nat.ltb Nat.leb]. split; [by apply length_string_take; rewrite Hlen; lia|].
  split; [by apply string_take_forallb|].
  apply HasPrefix_spec. eexists. symmetry. apply take_drop_string.
Qed.

Lemma charset_at_ok i :
  (0 <= i < 36)%Z -> exists c, charset_at i = Ret c /\ in_charset c = true.
Proof.
  intros Hi.
  assert (Hall : forallb (fun n => match charset_at (Z.of_nat n) with Ret c => in_charset c | _ => false end)
                   (seq 0 36) = true) by (vm_compute; reflexivity).
  rewrite forallb_forall in Hall. specialize (Hall (Z.to_nat i) ltac:(apply in_seq; lia)).
  rewrite Z2Nat.id in Hall by lia. destruct (charset_at i); naive_solver.
Qed.

Section RandomStringSpec.
Context {W : Type} `{Entropy W}.

Lemma random_loop_spec n b w :
  exists s w', random_loop n b w = (Ret s, w') /\
    (s = EmptyString \/
     exists r, s = b +:+ r /\ String.length r = n /\ string_forallb in_charset r = true).
Proof.
  revert b w. induction n as [|n IH]; intros b w; cbn [random_loop].
  - exists b, w. split; [done|]. right. exists EmptyString. by rewrite sapp_nil_r.
  - unfold mbind, M_bind, try_.
    destruct (rand_Int _ w) as [[v|e|p] w'] eqn:E; simpl.
    + pose proof (rand_range _ _ _ _ E) as Hv.
      destruct (charset_at_ok v Hv) as (c & Hc & Hin). rewrite Hc. simpl.
      destruct (IH (b +:+ String c EmptyString) w') as (s & w'' & Hs & Hr).
      exists s, w''. split; [done|]. destruct Hr as [->|(r & -> & Hlen & Hr)]; [by left|right].
      exists (String c r). rewrite sapp_assoc. simpl. by rewrite Hlen, Hin, Hr.
    + exists EmptyString, w'. split; [done|]. by left.
    + exfalso. apply (rand_no_panic (Z.of_nat (String.length charset)) w p). by rewrite E.
Qed.

End RandomStringSpec.
