(* ===== verification/Configuration.v ===== *)
(** * [pkg/configuration]: the configuration tree, target matching, accessors

    The types of [types.go] and [gateway.go], [Match]/[FetchTarget]/[Resolve]
    of [target.go] and [resolved.go] over the API client, and every accessor
    of [ResolvedConfig] ([general.go], [oauth2.go], [kube_rbac.go],
    [gateway.go]). *)

From S2P Require Import Prelude GoStrings Base64 RandUtils Kube Constants Vendor.

(** ** Types *)

(** [corev1.SecretReference] *)
Record SecretReference := mkSecretReference { SecretReference_Name : string }.

Record Oauth2ProxyConfig := mkOauth2ProxyConfig {
  Scope : string;
  ClientID : string;
  ClientSecret : string;
  ClientSecretRef : option SecretReference;
  RedirectURL : string;
  OidcIssuerURL : string;
  SSLInsecureSkipVerify : option bool;
  InsecureOidcSkipIssuerVerification : option bool;
  InsecureOidcSkipNonce : option bool;
  ApprovalPrompt : string;
  CookieRefresh : string;
  EmailDomain : string;
  SkipProviderButton : option bool;
  CodeChallengeMethod : string;
  ExtraArgs : list string }.

Record KubeRbacProxyConfig := mkKubeRbacProxyConfig {
  KubeConfigStr : string;
  KubeSecretRef : option SecretReference }.

Record GatewayParametersRef := mkGatewayParametersRef {
  ParametersRef_Group : string;
  ParametersRef_Kind : string;
  ParametersRef_Name : string }.

Record GatewayInfrastructure := mkGatewayInfrastructure {
  Infrastructure_Annotations : GoMap string;
  Infrastructure_Labels : GoMap string;
  Infrastructure_ParametersRef : option GatewayParametersRef }.

Record SecretObjectReference := mkSecretObjectReference {
  SOR_Group : string;
  SOR_Kind : string;
  SOR_Name : string;
  SOR_Namespace : string }.

Record ListenerTLSConfig := mkListenerTLSConfig {
  TLS_Mode : string;
  TLS_CertificateRefs : list SecretObjectReference;
  TLS_Options : GoMap string }.

Record RouteNamespaces := mkRouteNamespaces {
  RouteNamespaces_From : string;
  RouteNamespaces_Selector : option LabelSelector }.

Record RouteGroupKind := mkRouteGroupKind {
  RouteGroupKind_Group : string;
  RouteGroupKind_Kind : string }.

Record AllowedRoutes := mkAllowedRoutes {
  AllowedRoutes_Namespaces : option RouteNamespaces;
  AllowedRoutes_Kinds : list RouteGroupKind }.

Record GatewayListener := mkGatewayListener {
  Listener_Name : string;
  Listener_Hostname : string;
  Listener_Port : Z;
  Listener_Protocol : string;
  Listener_TLS : option ListenerTLSConfig;
  Listener_AllowedRoutes : option AllowedRoutes }.

Record GatewayGlobalConf := mkGatewayGlobalConf {
  Managed : bool;
  Gateway_Name : string;
  GatewayClassName : string;
  Listeners : list GatewayListener;
  Gateway_Annotations : GoMap string;
  Gateway_Labels : GoMap string;
  Infrastructure : option GatewayInfrastructure }.

Record Global := mkGlobal {
  Oauth2Proxy : option Oauth2ProxyConfig;
  KubeRbacProxy : option KubeRbacProxyConfig;
  Global_Labels : GoMap string;
  Global_Annotations : GoMap string;
  DomainName : string;
  OidcCABundle : string;
  OidcCASecretRef : option SecretReference;
  Gateway : option GatewayGlobalConf }.

Record HTTPRouteParentRef := mkHTTPRouteParentRef {
  ParentRef_Name : string;
  ParentRef_Namespace : string;
  ParentRef_SectionName : string }.

Record HTTPRouteConf := mkHTTPRouteConf {
  Create : bool;
  HostPrefix : string;
  Host : string;
  HTTPRouteConf_Annotations : GoMap string;
  HTTPRouteConf_Labels : GoMap string;
  ParentRefs : list HTTPRouteParentRef;
  DefaultPath : string }.

(** [Target] embeds a [Global] whose fields override the global ones. *)
Record Target := mkTarget {
  Target_Name : string;
  NamespaceSelector : option LabelSelector;
  Target_LabelSelector : option LabelSelector;
  TargetPort : IntOrString;
  TargetProtocol : string;
  Target_HTTPRoute : option HTTPRouteConf;
  Target_Global : Global }.

(** [client_set]: the [client] field is not nil. *)
Record OIDCAppsControllerConfig := mkConfig {
  Config_Global : Global;
  Targets : list Target;
  client_set : bool }.

Definition emptyGlobal : Global := mkGlobal None None None None "" "" None None.

(** [Target{}] *)
Definition emptyTarget : Target := mkTarget "" None None (FromInt 0) "" None emptyGlobal.

(** The snapshot of [resolved.go]: the target, the global configuration and
    the object (of which the accessors read the name and the namespace). *)
Record ResolvedConfig := mkResolvedConfig {
  rc_target : Target;
  rc_global : Global;
  rc_object : Object }.

(** ** Matching *)

Section Matching.
Context {W : Type} `{Client W} `{Vendor}.

(** [targetMatchesLabels]: errors are logged and count as "no match". *)
Definition targetMatchesLabels (c : OIDCAppsControllerConfig) (t : Target) (o : Object) : M W bool :=
  match LabelSelectorAsSelector (Target_LabelSelector t) with
  | inl _ => mret false
  | inr selector =>
      if Nat.eqb (LabelSelector_Size (NamespaceSelector t)) 0 then mret (selector (GetLabels o))
      else if negb (client_set c) then mret false
      else
        r ← try_ (cl_Get KNamespace (mkNN "" (GetNamespace o)));
        match r with
        | inl _ => mret false
        | inr namespace =>
            match LabelSelectorAsSelector (NamespaceSelector t) with
            | inl _ => mret false
            | inr namespaceSelector =>
                let nsMatches := namespaceSelector (Labels (Namespace_Meta namespace)) in
                if Nat.eqb (LabelSelector_Size (Target_LabelSelector t)) 0 then mret nsMatches
                else mret (selector (GetLabels o) && nsMatches)
            end
        end
  end.

Fixpoint match_loop (c : OIDCAppsControllerConfig) (ts : list Target) (o : Object) : M W bool :=
  match ts with
  | [] => mret false
  | t :: ts' =>
      b ← targetMatchesLabels c t o;
      if b : bool then mret true else match_loop c ts' o
  end.

(** [Match]; the receiver may be nil. *)
Definition Match (c : option OIDCAppsControllerConfig) (o : Object) : M W bool :=
  match c with
  | None => mret false
  | Some c => if Nat.eqb (length (Targets c)) 0 then mret false else match_loop c (Targets c) o
  end.

Fixpoint fetch_loop (c : OIDCAppsControllerConfig) (ts : list Target) (o : Object) : M W (list Target) :=
  match ts with
  | [] => mret []
  | t :: ts' =>
      b ← targetMatchesLabels c t o;
      targets ← fetch_loop c ts' o;
      mret (if b : bool then t :: targets else targets)
  end.

(** [FetchTarget]: the first matching target, the zero target if none. *)
Definition FetchTarget (c : OIDCAppsControllerConfig) (o : Object) : M W Target :=
  targets ← fetch_loop c (Targets c) o;
  mret (match targets with t :: _ => t | [] => emptyTarget end).

(** [Resolve] *)
Definition Resolve (c : option OIDCAppsControllerConfig) (o : Object) : M W ResolvedConfig :=
  match c with
  | None => panic "nil OIDCAppsControllerConfig"
  | Some c =>
      t ← FetchTarget c o;
      mret (mkResolvedConfig t (Config_Global c) o)
  end.

End Matching.

(** ** Accessors of the snapshot *)

Definition GetTargetLabelSelector (rc : ResolvedConfig) : option LabelSelector :=
  Target_LabelSelector (rc_target rc).

(** [p != nil && p.F != ""] *)
Definition when_set {C} (p : option C) (f : C -> string) : option string :=
  match p with
  | Some c => if String.eqb (f c) EmptyString then None else Some (f c)
  | None => None
  end.

(** [p != nil && p.F != nil], dereferenced *)
Definition when_bool {C} (p : option C) (f : C -> option bool) : option bool :=
  match p with Some c => f c | None => None end.

Definition target_oauth2 (rc : ResolvedConfig) := Oauth2Proxy (Target_Global (rc_target rc)).
Definition global_oauth2 (rc : ResolvedConfig) := Oauth2Proxy (rc_global rc).

(** [general.go] *)

Definition GetHost (rc : ResolvedConfig) : string :=
  let domain := DomainName (rc_global rc) in
  let id := GetName (rc_object rc) +:+ "-" +:+ GetNamespace (rc_object rc) in
  let prefix :=
    match when_set (Target_HTTPRoute (rc_target rc)) HostPrefix with
    | Some hostPrefix => hostPrefix +:+ "-" +:+ GenerateSha256 id
    | None => id
    end in
  let '(prefix, domain) :=
    match when_set (Target_HTTPRoute (rc_target rc)) Host with
    | Some host => let '(p, d, _) := Cut host "." in (p, d)
    | None => (prefix, domain)
    end in
  if String.eqb domain EmptyString then prefix else Join [prefix; domain] ".".

Definition GetUpstreamTarget `{Vendor} (rc : ResolvedConfig) : string :=
  let protocol := if String.eqb (TargetProtocol (rc_target rc)) "https" then "https" else "http" in
  "protocol=" +:+ protocol +:+ ", port=" +:+ IntOrString_String (TargetPort (rc_target rc)).

Definition maxDefaultPathLength : nat := 32.

(** The class [-a-zA-Z0-9/_.~] of [validDefaultPathRe]. *)
Definition path_char (c : ascii) : bool :=
  is_lower c || is_upper c || is_digit c ||
  Ascii.eqb c "-" || Ascii.eqb c "/" || Ascii.eqb c "_" || Ascii.eqb c "." || Ascii.eqb c "~".

(** [^/[-a-zA-Z0-9/_.~]+$] *)
Definition validDefaultPathRe (path : string) : bool :=
  match path with
  | String "/" (String c rest) => string_forallb path_char (String c rest)
  | _ => false
  end.

Definition isValidDefaultPath (path : string) : bool :=
  Nat.leb (String.length path) maxDefaultPathLength && validDefaultPathRe path.

(** [kube_rbac.go] *)

Definition kube_secret_ref (g : Global) : option SecretReference :=
  match KubeRbacProxy g with Some k => KubeSecretRef k | None => None end.

Definition GetKubeSecretName (rc : ResolvedConfig) : string :=
  match when_set (kube_secret_ref (Target_Global (rc_target rc))) SecretReference_Name with
  | Some n => n
  | None =>
      match when_set (kube_secret_ref (rc_global rc)) SecretReference_Name with
      | Some n => n
      | None => EmptyString
      end
  end.

Definition GetKubeConfigStr (rc : ResolvedConfig) : string :=
  match when_set (KubeRbacProxy (Target_Global (rc_target rc))) KubeConfigStr with
  | Some s => s
  | None =>
      match when_set (KubeRbacProxy (rc_global rc)) KubeConfigStr with
      | Some s => s
      | None => EmptyString
      end
  end.

(** [oauth2.go] *)

Definition GetOidcCASecretName (rc : ResolvedConfig) : string :=
  match when_set (OidcCASecretRef (Target_Global (rc_target rc))) SecretReference_Name with
  | Some n => n
  | None =>
      match when_set (OidcCASecretRef (rc_global rc)) SecretReference_Name with
      | Some n => n
      | None => EmptyString
      end
  end.

Definition GetOidcCABundle (rc : ResolvedConfig) : string :=
  let bundle := OidcCABundle (Target_Global (rc_target rc)) in
  if negb (String.eqb bundle EmptyString) then
    match Base64.DecodeString bundle with
    | None => EmptyString
    | Some decodedBytes => decodedBytes
    end
  else
    match Base64.DecodeString (OidcCABundle (rc_global rc)) with
    | None => EmptyString
    | Some decodedBytes => decodedBytes
    end.

Definition GetClientID (rc : ResolvedConfig) : string :=
  match when_set (target_oauth2 rc) ClientID with
  | Some v => v
  | None =>
      match when_set (global_oauth2 rc) ClientID with
      | Some v => v
      | None => EmptyString
      end
  end.

Definition GetClientSecret (rc : ResolvedConfig) : string :=
  match when_set (target_oauth2 rc) ClientSecret with
  | Some v => v
  | None =>
      match when_set (global_oauth2 rc) ClientSecret with
      | Some v => v
      | None => EmptyString
      end
  end.

Definition client_secret_ref (o : option Oauth2ProxyConfig) : option SecretReference :=
  match o with Some c => ClientSecretRef c | None => None end.

Definition GetClientSecretName (rc : ResolvedConfig) : string :=
  match when_set (client_secret_ref (target_oauth2 rc)) SecretReference_Name with
  | Some n => n
  | None =>
      match when_set (client_secret_ref (global_oauth2 rc)) SecretReference_Name with
      | Some n => n
      | None => EmptyString
      end
  end.

Definition GetScope (rc : ResolvedConfig) : string :=
  match when_set (target_oauth2 rc) Scope with
  | Some v => v
  | None =>
      match when_set (global_oauth2 rc) Scope with
      | Some v => v
      | None => EmptyString
      end
  end.

(** The redirect URL never comes from the global configuration. *)
Definition GetRedirectURL (rc : ResolvedConfig) : string :=
  match when_set (target_oauth2 rc) RedirectURL with
  | Some v => v
  | None => "https://" +:+ GetHost rc +:+ "/oauth2/callback"
  end.

Definition GetOidcIssuerURL (rc : ResolvedConfig) : string :=
  match when_set (target_oauth2 rc) OidcIssuerURL with
  | Some v => v
  | None =>
      match when_set (global_oauth2 rc) OidcIssuerURL with
      | Some v => v
      | None => EmptyString
      end
  end.

Definition GetSslInsecureSkipVerify (rc : ResolvedConfig) : bool :=
  match when_bool (target_oauth2 rc) SSLInsecureSkipVerify with
  | Some b => b
  | None =>
      match when_bool (global_oauth2 rc) SSLInsecureSkipVerify with
      | Some b => b
      | None => false
      end
  end.

Definition GetInsecureOidcSkipIssuerVerification (rc : ResolvedConfig) : bool :=
  match when_bool (target_oauth2 rc) InsecureOidcSkipIssuerVerification with
  | Some b => b
  | None =>
      match when_bool (global_oauth2 rc) InsecureOidcSkipIssuerVerification with
      | Some b => b
      | None => false
      end
  end.

Definition GetInsecureOidcSkipNonce (rc : ResolvedConfig) : bool :=
  match when_bool (target_oauth2 rc) InsecureOidcSkipNonce with
  | Some b => b
  | None =>
      match when_bool (global_oauth2 rc) InsecureOidcSkipNonce with
      | Some b => b
      | None => false
      end
  end.

Definition GetApprovalPrompt (rc : ResolvedConfig) : string :=
  match when_set (target_oauth2 rc) ApprovalPrompt with
  | Some v => v
  | None =>
      match when_set (global_oauth2 rc) ApprovalPrompt with
      | Some v => v
      | None => "auto"
      end
  end.

Definition GetCookieRefresh (rc : ResolvedConfig) : string :=
  match when_set (target_oauth2 rc) CookieRefresh with
  | Some v => v
  | None =>
      match when_set (global_oauth2 rc) CookieRefresh with
      | Some v => v
      | None => "3600s"
      end
  end.

Definition GetEmailDomain (rc : ResolvedConfig) : string :=
  match when_set (target_oauth2 rc) EmailDomain with
  | Some v => v
  | None =>
      match when_set (global_oauth2 rc) EmailDomain with
      | Some v => v
      | None => "*"
      end
  end.

Definition GetSkipProviderButton (rc : ResolvedConfig) : bool :=
  match when_bool (target_oauth2 rc) SkipProviderButton with
  | Some b => b
  | None =>
      match when_bool (global_oauth2 rc) SkipProviderButton with
      | Some b => b
      | None => true
      end
  end.

Definition GetCodeChallengeMethod (rc : ResolvedConfig) : string :=
  match when_set (target_oauth2 rc) CodeChallengeMethod with
  | Some v => v
  | None =>
      match when_set (global_oauth2 rc) CodeChallengeMethod with
      | Some v => v
      | None => "S256"
      end
  end.

(** [p != nil && len(p.ExtraArgs) > 0] *)
Definition extra_args (o : option Oauth2ProxyConfig) : list string :=
  match o with Some c => ExtraArgs c | None => [] end.

Definition GetExtraArgs (rc : ResolvedConfig) : list string :=
  match extra_args (target_oauth2 rc) with
  | _ :: _ => extra_args (target_oauth2 rc)
  | [] =>
      match extra_args (global_oauth2 rc) with
      | _ :: _ => extra_args (global_oauth2 rc)
      | [] => []
      end
  end.

(** [gateway.go] *)

Definition rc_isManagedGatewayEnabled (rc : ResolvedConfig) : bool :=
  match Gateway (rc_global rc) with Some g => Managed g | None => false end.

Definition ShallCreateHTTPRoute (rc : ResolvedConfig) : bool :=
  match Target_HTTPRoute (rc_target rc) with
  | Some r => Create r
  | None => false
  end.

(** [IsManagedGatewayEnabled]; the receiver may be nil. *)
Definition IsManagedGatewayEnabled (c : option OIDCAppsControllerConfig) : bool :=
  match c with
  | Some c => match Gateway (Config_Global c) with Some g => Managed g | None => false end
  | None => false
  end.

Definition GetManagedGatewayConf (c : OIDCAppsControllerConfig) : option GatewayGlobalConf :=
  Gateway (Config_Global c).

Definition GetHTTPRouteParentRefs `{OSEnv} (rc : ResolvedConfig) : list HTTPRouteParentRef :=
  let configured :=
    match Target_HTTPRoute (rc_target rc) with Some r => ParentRefs r | None => [] end in
  match configured with
  | _ :: _ => configured
  | [] =>
      match Gateway (rc_global rc) with
      | Some g =>
          if Managed g then
            let name := if String.eqb (Gateway_Name g) EmptyString then constants.ManagedGatewayName
                        else Gateway_Name g in
            [mkHTTPRouteParentRef name (Getenv constants.NAMESPACE) EmptyString]
          else []
      | None => []
      end
  end.

Definition GetHTTPRouteAnnotations (rc : ResolvedConfig) : GoMap string :=
  match Target_HTTPRoute (rc_target rc) with
  | Some r => HTTPRouteConf_Annotations r
  | None => None
  end.

Definition GetHTTPRouteLabels (rc : ResolvedConfig) : GoMap string :=
  match Target_HTTPRoute (rc_target rc) with
  | Some r => HTTPRouteConf_Labels r
  | None => None
  end.

Definition GetHTTPRouteDefaultPath (rc : ResolvedConfig) : string :=
  match Target_HTTPRoute (rc_target rc) with
  | Some r => if isValidDefaultPath (DefaultPath r) then DefaultPath r else EmptyString
  | None => EmptyString
  end.
