(* ===== verification/ConfigurationSpec.v ===== *)
(** * What the configuration promises

    Target matching ([Match] and [Resolve] agree, and select the first
    matching target), the override rule of the accessors, host names, default
    paths and CA bundles. *)

From S2P Require Import Prelude GoStrings Base64 RandUtils Kube Constants Vendor Reference.
From S2P Require Import Configuration.

(** ** Specifications *)

(** The abstract override rule: the target's value if set, else the global
    one, else the default. *)
Definition override {A} (d : A) (target global : option A) : A :=
  match target with
  | Some v => v
  | None => default d global
  end.

Section MatchingSpec.
Context {W : Type} `{ClientReads W} `{Vendor}.

(** Target [t] selects object [o] in the cluster state [w]. *)
Definition selects (w : W) (c : OIDCAppsControllerConfig) (o : Object) (t : Target) : Prop :=
  targetMatchesLabels c t o w = (Ret true, w).

Definition selectsb (w : W) (c : OIDCAppsControllerConfig) (o : Object) (t : Target) : bool :=
  match targetMatchesLabels c t o w with (Ret b, _) => b | _ => false end.

End MatchingSpec.

(** ** Lemmas *)

Section MatchingLemmas.
Context {W : Type} `{ClientReads W} `{Vendor}.

(** Matching one target reads the cluster at most once, never fails and
    changes nothing. *)
Lemma targetMatchesLabels_total w c t o :
  targetMatchesLabels c t o w = (Ret (selectsb w c o t), w).
Proof.
  assert (exists b, targetMatchesLabels c t o w = (Ret b, w)) as [b Hb].
  { unfold targetMatchesLabels.
    destruct (LabelSelectorAsSelector _) as [|sel]; [by eexists|].
    destruct (Nat.eqb _ 0); [by eexists|]. destruct (client_set c); [|by eexists]. simpl.
    unfold mbind, M_bind, try_.
    pose proof (get_pure KNamespace (mkNN "" (GetNamespace o)) w) as Hp.
    pose proof (get_no_panic KNamespace (mkNN "" (GetNamespace o)) w) as Hn.
    destruct (cl_Get KNamespace _ w) as [[ns|e|p] w']; simpl in *; subst w'.
    - destruct (LabelSelectorAsSelector (NamespaceSelector t)); [by eexists|].
      destruct (Nat.eqb _ 0); by eexists.
    - by eexists.
    - by destruct (Hn p). }
  rewrite Hb. unfold selectsb. by rewrite Hb.
Qed.

Lemma selects_selectsb w c o t : selects w c o t <-> selectsb w c o t = true.
Proof. unfold selects. rewrite targetMatchesLabels_total. split; congruence. Qed.

Lemma match_loop_existsb w c ts o :
  match_loop c ts o w = (Ret (existsb (selectsb w c o) ts), w).
Proof.
  induction ts as [|t ts IH]; [done|]. cbn [match_loop existsb].
  rewrite (M_bind_ret _ _ _ _ _ (targetMatchesLabels_total w c t o)).
  by destruct (selectsb w c o t).
Qed.

Lemma Match_existsb w c o :
  Match (Some c) o w = (Ret (existsb (selectsb w c o) (Targets c)), w).
Proof.
  unfold Match. destruct (Targets c) eqn:E; [done|]. rewrite <- E.
  replace (Nat.eqb (length (Targets c)) 0) with false by (by rewrite E).
  apply match_loop_existsb.
Qed.

Lemma fetch_loop_filter w c ts o :
  fetch_loop c ts o w = (Ret (List.filter (selectsb w c o) ts), w).
Proof.
  induction ts as [|t ts IH]; [done|]. cbn [fetch_loop].
  rewrite (M_bind_ret _ _ _ _ _ (targetMatchesLabels_total w c t o)).
  rewrite (M_bind_ret _ _ _ _ _ IH). simpl. by destruct (selectsb w c o t).
Qed.

Lemma FetchTarget_head w c o :
  FetchTarget c o w =
  (Ret (default emptyTarget (head (List.filter (selectsb w c o) (Targets c)))), w).
Proof.
  unfold FetchTarget. rewrite (M_bind_ret _ _ _ _ _ (fetch_loop_filter w c (Targets c) o)).
  by destruct (List.filter _ _).
Qed.

Lemma Resolve_total w c o :
  exists t, Resolve (Some c) o w = (Ret (mkResolvedConfig t (Config_Global c) o), w) /\
            FetchTarget c o w = (Ret t, w).
Proof.
  eexists. split; [|apply FetchTarget_head]. unfold Resolve.
  by rewrite (M_bind_ret _ _ _ _ _ (FetchTarget_head w c o)).
Qed.

End MatchingLemmas.

Lemma filter_head_split {A} (p : A -> bool) l x r :
  List.filter p l = x :: r ->
  exists before after, l = before ++ x :: after /\ p x = true /\ Forall (fun y => p y = false) before.
Proof.
  induction l as [|y l IH]; simpl; [done|]. destruct (p y) eqn:E.
  - intros [= -> _]. by exists [], l.
  - intros (before & after & -> & Hx & Hb)%IH. exists (y :: before), after.
    repeat split; [done|]. by constructor.
Qed.

Lemma existsb_filter {A} (p : A -> bool) l :
  existsb p l = match List.filter p l with [] => false | _ => true end.
Proof. induction l as [|y l IH]; simpl; [done|]. by destruct (p y). Qed.

(** ** Matching *)

(** C12. [Match] and [FetchTarget] agree and neither fails nor writes: [Match]
    is true exactly when some target selects the object, and then
    [FetchTarget] returns the first such target in configuration order; when
    [Match] is false [FetchTarget] returns the zero target and no target
    selects the object. *)
Theorem Match_FetchTarget {W} `{ClientReads W} `{Vendor} (w : W) c o :
  exists b t,
    Match (Some c) o w = (Ret b, w) /\ FetchTarget c o w = (Ret t, w) /\
    if b : bool then
      exists before after, Targets c = before ++ t :: after /\ selects w c o t /\
        Forall (fun t' => ~ selects w c o t') before
    else t = emptyTarget /\ Forall (fun t' => ~ selects w c o t') (Targets c).
Proof.
  exists (existsb (selectsb w c o) (Targets c)).
  exists (default emptyTarget (head (List.filter (selectsb w c o) (Targets c)))).
  split; [apply Match_existsb|]. split; [apply FetchTarget_head|].
  rewrite existsb_filter. destruct (List.filter _ _) as [|t r] eqn:E; simpl.
  - split; [done|]. apply Forall_forall. intros t Ht Hs%selects_selectsb.
    assert (In t []) as []. rewrite <- E. apply filter_In.
    split; [exact Ht|done].
  - apply filter_head_split in E as (before & after & -> & Ht & Hb).
    exists before, after. split; [done|]. split; [by apply selects_selectsb|].
    eapply Forall_impl; [|exact Hb]. intros t' Hf Hs%selects_selectsb. simpl in Hf. congruence.
Qed.

(** Namespace scoping: a target with a namespace selector selects an
    object only if the object's namespace exists in the cluster and its
    labels satisfy that selector; a non-empty label selector must be
    satisfied by the object as well. *)
Theorem target_match_scoped {W} `{ClientReads W} `{Vendor} (w : W) c t o :
  selects w c o t -> LabelSelector_Size (NamespaceSelector t) <> 0 ->
  exists ns sel nsel,
    view w KNamespace (mkNN "" (GetNamespace o)) = Some ns /\
    LabelSelectorAsSelector (NamespaceSelector t) = inr nsel /\
    LabelSelectorAsSelector (Target_LabelSelector t) = inr sel /\
    nsel (Labels (Namespace_Meta ns)) = true /\
    (LabelSelector_Size (Target_LabelSelector t) <> 0 -> sel (GetLabels o) = true).
Proof.
  unfold selects, targetMatchesLabels. intros Hs Hsize.
  destruct (LabelSelectorAsSelector (Target_LabelSelector t)) as [|sel]; [done|].
  apply Nat.eqb_neq in Hsize. rewrite Hsize in Hs.
  destruct (client_set c); [|done]. simpl in Hs. unfold mbind, M_bind, try_ in Hs.
  pose proof (get_sound KNamespace (mkNN "" (GetNamespace o)) w) as Hv.
  destruct (cl_Get KNamespace _ w) as [[ns|e|p] w']; simpl in *; [|done..].
  destruct (LabelSelectorAsSelector (NamespaceSelector t)) as [|nsel] eqn:En; [done|].
  exists ns, sel, nsel. split; [by apply Hv|]. split; [done|]. split; [done|].
  destruct (Nat.eqb_spec (LabelSelector_Size (Target_LabelSelector t)) 0);
    injection Hs as Hs _.
  - by split.
  - apply andb_prop in Hs as [-> ->]. done.
Qed.

(** ** Accessors *)

(** The override rule: every accessor returns the target's value when it
    is set, else the global value, else its default; only the redirect URL
    ignores the global configuration, and is built from the host instead. *)
Theorem accessors_override (rc : ResolvedConfig) :
  let t := target_oauth2 rc in
  let g := global_oauth2 rc in
  let text d F := override d (when_set t F) (when_set g F) in
  let flag d F := override d (when_bool t F) (when_bool g F) in
  (GetClientID rc = text EmptyString ClientID /\
   GetClientSecret rc = text EmptyString ClientSecret /\
   GetScope rc = text EmptyString Scope /\
   GetOidcIssuerURL rc = text EmptyString OidcIssuerURL /\
   GetApprovalPrompt rc = text "auto" ApprovalPrompt /\
   GetCookieRefresh rc = text "3600s" CookieRefresh /\
   GetEmailDomain rc = text "*" EmailDomain /\
   GetCodeChallengeMethod rc = text "S256" CodeChallengeMethod) /\
  (GetSslInsecureSkipVerify rc = flag false SSLInsecureSkipVerify /\
   GetInsecureOidcSkipIssuerVerification rc = flag false InsecureOidcSkipIssuerVerification /\
   GetInsecureOidcSkipNonce rc = flag false InsecureOidcSkipNonce /\
   GetSkipProviderButton rc = flag true SkipProviderButton) /\
  GetRedirectURL rc =
    override EmptyString (when_set t RedirectURL) (Some ("https://" +:+ GetHost rc +:+ "/oauth2/callback")) /\
  (GetClientSecretName rc =
    override EmptyString (when_set (client_secret_ref t) SecretReference_Name)
      (when_set (client_secret_ref g) SecretReference_Name) /\
   GetKubeConfigStr rc =
    override EmptyString (when_set (KubeRbacProxy (Target_Global (rc_target rc))) KubeConfigStr)
      (when_set (KubeRbacProxy (rc_global rc)) KubeConfigStr) /\
   GetKubeSecretName rc =
    override EmptyString (when_set (kube_secret_ref (Target_Global (rc_target rc))) SecretReference_Name)
      (when_set (kube_secret_ref (rc_global rc)) SecretReference_Name) /\
   GetOidcCASecretName rc =
    override EmptyString (when_set (OidcCASecretRef (Target_Global (rc_target rc))) SecretReference_Name)
      (when_set (OidcCASecretRef (rc_global rc)) SecretReference_Name)) /\
  (extra_args t <> [] -> GetExtraArgs rc = extra_args t) /\
  (extra_args t = [] -> GetExtraArgs rc = extra_args g).
Proof.
  cbv zeta. unfold override, default. repeat split; try reflexivity.
  - unfold GetExtraArgs. by destruct (extra_args (target_oauth2 rc)).
  - unfold GetExtraArgs. intros ->. by destruct (extra_args (global_oauth2 rc)).
Qed.

Lemma when_set_Some {C} (p : option C) f s :
  when_set p f = Some s -> s <> EmptyString /\ exists c, p = Some c /\ f c = s.
Proof.
  destruct p as [c|]; simpl; [|done].
  destruct (String.eqb_spec (f c) EmptyString); [done|]. intros [= <-]. eauto.
Qed.

(** Host names: an explicit host is used as it is, except that a host
    whose first dot is its last character loses that dot; otherwise the host
    is the configured prefix with the object's digest, or name and namespace,
    followed by the global domain when there is one. *)
Theorem GetHost_spec (rc : ResolvedConfig) :
  let id := GetName (rc_object rc) +:+ "-" +:+ GetNamespace (rc_object rc) in
  match when_set (Target_HTTPRoute (rc_target rc)) Host with
  | Some h =>
      GetHost rc = h \/
      exists p, no_char "." p = true /\ h = p +:+ "." /\ GetHost rc = p
  | None =>
      GetHost rc =
      match when_set (Target_HTTPRoute (rc_target rc)) HostPrefix with
      | Some p => p +:+ "-" +:+ GenerateSha256 id
      | None => id
      end +:+
      (if String.eqb (DomainName (rc_global rc)) EmptyString then EmptyString
       else "." +:+ DomainName (rc_global rc))
  end.
Proof.
  cbv zeta. unfold GetHost.
  destruct (when_set _ Host) as [h|].
  - pose proof (Cut_spec "." h) as Hc. destruct (Cut h ".") as [[p d] []].
    + destruct Hc as [-> Hp]. destruct (String.eqb_spec d EmptyString) as [->|Hd]; [right|by left].
      by exists p.
    + destruct Hc as (-> & -> & _). by left.
  - destruct (String.eqb _ EmptyString); [by rewrite sapp_nil_r|done].
Qed.

(** The shape [validDefaultPathRe] and the length bound describe. *)
Definition safe_path (p : string) : Prop :=
  exists rest, p = "/" +:+ rest /\ 1 <= String.length rest <= 31 /\ string_forallb path_char rest = true.

Lemma isValidDefaultPath_spec p : isValidDefaultPath p = true <-> safe_path p.
Proof.
  unfold isValidDefaultPath, safe_path, maxDefaultPathLength. split.
  - intros [Hl%Nat.leb_le Hp]%andb_prop.
    destruct p as [|c [|d rest]]; [done|by destruct c as [[] [] [] [] [] [] [] []]|].
    exists (String d rest). cbn in Hl.
    assert (c = "/"%char) as -> by (destruct c as [[] [] [] [] [] [] [] []]; done).
    split; [done|]. split; [cbn; lia|exact Hp].
  - intros (rest & -> & Hl & Hr). apply andb_true_intro. split.
    + apply Nat.leb_le. cbn. lia.
    + destruct rest; [cbn in Hl; lia|exact Hr].
Qed.

(** The default path of a route is either empty (no redirect) or the
    configured path, and then it is a slash followed by 1 to 31 characters of
    the allowed class; every configured path of that shape is used. *)
Theorem DefaultPath_safe (rc : ResolvedConfig) :
  match Target_HTTPRoute (rc_target rc) with
  | None => GetHTTPRouteDefaultPath rc = EmptyString
  | Some r =>
      (safe_path (DefaultPath r) /\ GetHTTPRouteDefaultPath rc = DefaultPath r) \/
      (~ safe_path (DefaultPath r) /\ GetHTTPRouteDefaultPath rc = EmptyString)
  end.
Proof.
  unfold GetHTTPRouteDefaultPath. destruct (Target_HTTPRoute _) as [r|]; [|done].
  rewrite <- isValidDefaultPath_spec.
  destruct (isValidDefaultPath (DefaultPath r)); [by left|by right].
Qed.

(** CA bundles: a bundle that is the base64 encoding of [s], wrapped by
    any line breaks, is returned as [s], from the target first and from the
    global configuration only when the target has none; a target bundle that
    does not decode yields the empty bundle, whatever the global one is. *)
Theorem GetOidcCABundle_decodes (rc : ResolvedConfig) (s : string) :
  let t := OidcCABundle (Target_Global (rc_target rc)) in
  let g := OidcCABundle (rc_global rc) in
  (t <> EmptyString -> Base64.strip_newlines t = Base64.EncodeToString s -> GetOidcCABundle rc = s) /\
  (t <> EmptyString -> Base64.DecodeString t = None -> GetOidcCABundle rc = EmptyString) /\
  (t = EmptyString -> Base64.strip_newlines g = Base64.EncodeToString s -> GetOidcCABundle rc = s).
Proof.
  cbv zeta. unfold GetOidcCABundle. split; [|split].
  - intros Ht%String.eqb_neq Hs. rewrite Ht. simpl.
    unfold Base64.DecodeString. by rewrite Hs, Base64.decode_encode.
  - intros Ht%String.eqb_neq Hs. by rewrite Ht, Hs.
  - intros Ht Hs. rewrite Ht. simpl. unfold Base64.DecodeString. by rewrite Hs, Base64.decode_encode.
Qed.

(** ** Witnesses on the reference instance *)

#[local] Existing Instances Ref.vendor Ref.client Ref.client_reads.

Module Examples.

Definition oauth2_conf (id url : string) : Oauth2ProxyConfig :=
  mkOauth2ProxyConfig "openid" id EmptyString None EmptyString url None None None
    EmptyString EmptyString EmptyString None EmptyString [].

Definition global1 : Global :=
  mkGlobal (Some (oauth2_conf "global-id" "https://issuer")) None None None "example.org"
    EmptyString None None.

Definition monitoring : Target :=
  mkTarget "grafana"
    (Some (mkLabelSelector (Ref.labels1 "name" "monitoring") []))
    (Some (mkLabelSelector (Ref.labels1 "app" "grafana") []))
    (FromInt 3000) "http" None emptyGlobal.

Definition config1 : OIDCAppsControllerConfig := mkConfig global1 [monitoring] true.

Definition grafana : Deployment :=
  mkDeployment (Ref.meta1 "grafana" "mon" "uid-1" (Ref.labels1 "app" "grafana")).

Definition cluster1 : Ref.cluster :=
  Ref.put KNamespace (mkNamespace (Ref.meta1 "mon" "" "uid-ns" (Ref.labels1 "name" "monitoring")))
    (Ref.put KDeployment grafana Ref.empty_cluster).

Definition encoded_bundle : string := "Y2Et" +:+ newline +:+ "YnVuZGxl".

Definition rc_bundle : ResolvedConfig :=
  mkResolvedConfig
    (mkTarget "t" None None (FromInt 80) "http" None
       (mkGlobal None None None None EmptyString encoded_bundle None None))
    global1 (DeploymentObject grafana).

End Examples.

Lemma Match_FetchTarget_witness :
  exists t, Match (Some Examples.config1) (DeploymentObject Examples.grafana) Examples.cluster1 =
    (Ret true, Examples.cluster1) /\ t = Examples.monitoring.
Proof.
  destruct (Match_FetchTarget Examples.cluster1 Examples.config1 (DeploymentObject Examples.grafana))
    as (b & t & Hm & _).
  assert (b = true) as -> by (vm_compute in Hm; congruence).
  exists Examples.monitoring. split; [exact Hm|reflexivity].
Defined.

Lemma target_match_scoped_witness :
  exists ns, view Examples.cluster1 KNamespace (mkNN "" "mon") = Some ns.
Proof.
  destruct (target_match_scoped Examples.cluster1 Examples.config1 Examples.monitoring
              (DeploymentObject Examples.grafana)) as (ns & _ & _ & Hv & _).
  - vm_compute. reflexivity.
  - vm_compute. congruence.
  - exists ns. exact Hv.
Defined.

Lemma GetOidcCABundle_decodes_witness : GetOidcCABundle Examples.rc_bundle = "ca-bundle".
Proof.
  apply (proj1 (GetOidcCABundle_decodes Examples.rc_bundle "ca-bundle")).
  - vm_compute. congruence.
  - vm_compute. reflexivity.
Defined.
