(* ===== verification/Templates.v ===== *)
(** * The embedded templates of [pkg/configuration]

    [oauth2-proxy-template.go]: the oauth2-proxy configuration file rendered
    from the embedded template; [resource-attributes-template.go]: the
    kube-rbac-proxy authorization file. *)

From S2P Require Import Prelude GoStrings.

(** ** oauth2-proxy.cfg *)

Record oauth2Config := mkOauth2Config {
  clientID : string;
  clientSecretFile : string;
  clientSecret : string;
  scope : string;
  redirectURL : string;
  oidcIssuerURL : string;
  sslInsecureSkipVerify : bool;
  insecureOidcSkipIssuerVerification : bool;
  insecureOidcSkipNonce : bool }.

Definition quoted (s : string) : string := dquote +:+ s +:+ dquote.

(** [templates/oauth2-proxy.cfg]; its last line has no line feed. *)
Definition oauth2 : string :=
  Join
    ["# oauth2-proxy configuration for the target oidc provider";
     "scope                                  = " +:+ quoted "openid email";
     "client_id                              = " +:+ quoted EmptyString;
     "# optionally it shall support also the client_secret setting, for the cases when PKCE is not available";
     "client_secret                          = " +:+ quoted EmptyString;
     "client_secret_file                     = " +:+ quoted "/dev/null";
     "redirect_url                           = " +:+ quoted "https://..../oauth2/callback";
     "oidc_issuer_url                        = " +:+ quoted "https://....";
     "ssl_insecure_skip_verify               = " +:+ quoted "false";
     "insecure_oidc_skip_issuer_verification = " +:+ quoted "false";
     "insecure_oidc_skip_nonce               = " +:+ quoted "false"] newline.

(** [bufio.Scanner] with [ScanLines]: lines without their line feed and
    without a final carriage return; nothing after a final line feed.  The
    64 KiB token limit is far above the template's lines. *)
Definition scan_lines (s : string) : list string :=
  let pieces := Split s "010" in
  let pieces := if String.eqb (last_elem pieces) EmptyString then removelast pieces else pieces in
  map (fun l => TrimSuffix l (String "013" EmptyString)) pieces.

(** [l + "=" + quote(value)] *)
Definition assign (l value : string) : string := l +:+ "=" +:+ quoted value.

(** The [switch] on the key [l] of a line. *)
Definition rewrite_line (o : oauth2Config) (l line : string) : string :=
  if String.eqb l "scope" then assign l (scope o)
  else if String.eqb l "client_id" then assign l (clientID o)
  else if String.eqb l "client_secret" then
    if negb (String.eqb (clientSecret o) EmptyString) then assign l (clientSecret o) else EmptyString
  else if String.eqb l "client_secret_file" then
    if String.eqb (clientSecret o) EmptyString then assign l (clientSecretFile o) else EmptyString
  else if String.eqb l "redirect_url" then assign l (redirectURL o)
  else if String.eqb l "oidc_issuer_url" then assign l (oidcIssuerURL o)
  else if String.eqb l "ssl_insecure_skip_verify" then assign l (FormatBool (sslInsecureSkipVerify o))
  else if String.eqb l "insecure_oidc_skip_issuer_verification" then
    assign l (FormatBool (insecureOidcSkipIssuerVerification o))
  else if String.eqb l "insecure_oidc_skip_nonce" then assign l (FormatBool (insecureOidcSkipNonce o))
  else line.

(** One iteration of the scanner loop: what is written to the builder. *)
Definition parse_line (o : oauth2Config) (line : string) : string :=
  if HasPrefix line "#" then EmptyString
  else
    let line :=
      if Contains line "=" then
        match SplitN2 line "=" with
        | [key; _] => rewrite_line o (TrimSpace key) line
        | _ => line
        end
      else line in
    if Nat.ltb 0 (String.length line) then line +:+ newline else EmptyString.

(** [Parse] *)
Definition Parse (o : oauth2Config) : string :=
  TrimSuffix (foldr (fun line rest => parse_line o line +:+ rest) EmptyString (scan_lines oauth2)) newline.

(** Functional options *)
Definition OptOauth2 : Type := oauth2Config -> oauth2Config.

Definition NewOAuth2Config (opts : list OptOauth2) : oauth2Config :=
  fold_left (fun cfg o => o cfg) opts
    (mkOauth2Config EmptyString EmptyString EmptyString EmptyString EmptyString EmptyString false false false).

Definition WithClientID (id : string) : OptOauth2 := fun o =>
  mkOauth2Config id (clientSecretFile o) (clientSecret o) (scope o) (redirectURL o) (oidcIssuerURL o)
    (sslInsecureSkipVerify o) (insecureOidcSkipIssuerVerification o) (insecureOidcSkipNonce o).
Definition WithRedirectURL (url : string) : OptOauth2 := fun o =>
  mkOauth2Config (clientID o) (clientSecretFile o) (clientSecret o) (scope o) url (oidcIssuerURL o)
    (sslInsecureSkipVerify o) (insecureOidcSkipIssuerVerification o) (insecureOidcSkipNonce o).
Definition WithScope (s : string) : OptOauth2 := fun o =>
  mkOauth2Config (clientID o) (clientSecretFile o) (clientSecret o) s (redirectURL o) (oidcIssuerURL o)
    (sslInsecureSkipVerify o) (insecureOidcSkipIssuerVerification o) (insecureOidcSkipNonce o).
Definition WithClientSecret (secret : string) : OptOauth2 := fun o =>
  mkOauth2Config (clientID o) (clientSecretFile o) secret (scope o) (redirectURL o) (oidcIssuerURL o)
    (sslInsecureSkipVerify o) (insecureOidcSkipIssuerVerification o) (insecureOidcSkipNonce o).
Definition WithClientSecretFile (path : string) : OptOauth2 := fun o =>
  mkOauth2Config (clientID o) path (clientSecret o) (scope o) (redirectURL o) (oidcIssuerURL o)
    (sslInsecureSkipVerify o) (insecureOidcSkipIssuerVerification o) (insecureOidcSkipNonce o).
Definition WithOidcIssuerURL (url : string) : OptOauth2 := fun o =>
  mkOauth2Config (clientID o) (clientSecretFile o) (clientSecret o) (scope o) (redirectURL o) url
    (sslInsecureSkipVerify o) (insecureOidcSkipIssuerVerification o) (insecureOidcSkipNonce o).
Definition EnableSslInsecureSkipVerify (b : bool) : OptOauth2 := fun o =>
  mkOauth2Config (clientID o) (clientSecretFile o) (clientSecret o) (scope o) (redirectURL o) (oidcIssuerURL o)
    b (insecureOidcSkipIssuerVerification o) (insecureOidcSkipNonce o).
Definition EnableInsecureOidcSkipIssuerVerification (b : bool) : OptOauth2 := fun o =>
  mkOauth2Config (clientID o) (clientSecretFile o) (clientSecret o) (scope o) (redirectURL o) (oidcIssuerURL o)
    (sslInsecureSkipVerify o) b (insecureOidcSkipNonce o).
Definition EnableInsecureOidcSkipNonce (b : bool) : OptOauth2 := fun o =>
  mkOauth2Config (clientID o) (clientSecretFile o) (clientSecret o) (scope o) (redirectURL o) (oidcIssuerURL o)
    (sslInsecureSkipVerify o) (insecureOidcSkipIssuerVerification o) b.

(** ** resource-attributes.yaml *)

Record ResourceAttributes := mkResourceAttributes {
  APIGroup : string;
  APIVersion : string;
  Resource : string;
  Subresource : string;
  ResourceAttributes_Namespace : string }.

(** gopkg.in/yaml.v3 at the type [root], whose only content is a
    [ResourceAttributes]: unmarshalling into an existing value (an error
    leaves what was decoded so far) and marshalling. *)
Class Yaml3 := {
  yaml3_Unmarshal_root : string -> ResourceAttributes -> ResourceAttributes;
  yaml3_Marshal_root : ResourceAttributes -> string }.

(** [templates/resource-attributes.yaml] *)
Definition rbac : string :=
  Join
    ["authorization:";
     "  resourceAttributes:";
     "    apiGroup: authorization.oidc-apps.io";
     "    apiVersion: v1alpha1";
     "    resource: oidc-apps";
     "    subresource: " +:+ quoted "...";
     "    namespace: " +:+ quoted "..."] newline.

Definition OptRAttributes : Type := ResourceAttributes -> ResourceAttributes.

Definition NewResourceAttributes `{Yaml3} (opt : list OptRAttributes) : ResourceAttributes :=
  fold_left (fun r o => o r) opt
    (yaml3_Unmarshal_root rbac
       (mkResourceAttributes EmptyString EmptyString EmptyString EmptyString EmptyString)).

Definition WithNamespace (namespace : string) : OptRAttributes := fun r =>
  mkResourceAttributes (APIGroup r) (APIVersion r) (Resource r) (Subresource r) namespace.
Definition WithSubresource (subresource : string) : OptRAttributes := fun r =>
  mkResourceAttributes (APIGroup r) (APIVersion r) (Resource r) subresource (ResourceAttributes_Namespace r).

(** [root.Parse] *)
Definition root_Parse `{Yaml3} (r : ResourceAttributes) : string := yaml3_Marshal_root r.

(** ** Properties of the rendered oauth2-proxy configuration *)

(** The lines a configuration renders to, in the order of the template. *)
Definition rendered_lines (o : oauth2Config) : list string :=
  [assign "scope" (scope o);
   assign "client_id" (clientID o);
   if String.eqb (clientSecret o) EmptyString
   then assign "client_secret_file" (clientSecretFile o)
   else assign "client_secret" (clientSecret o);
   assign "redirect_url" (redirectURL o);
   assign "oidc_issuer_url" (oidcIssuerURL o);
   assign "ssl_insecure_skip_verify" (FormatBool (sslInsecureSkipVerify o));
   assign "insecure_oidc_skip_issuer_verification" (FormatBool (insecureOidcSkipIssuerVerification o));
   assign "insecure_oidc_skip_nonce" (FormatBool (insecureOidcSkipNonce o))].

Lemma scan_template :
  scan_lines oauth2 =
    ["# oauth2-proxy configuration for the target oidc provider";
     "scope                                  = " +:+ quoted "openid email";
     "client_id                              = " +:+ quoted EmptyString;
     "# optionally it shall support also the client_secret setting, for the cases when PKCE is not available";
     "client_secret                          = " +:+ quoted EmptyString;
     "client_secret_file                     = " +:+ quoted "/dev/null";
     "redirect_url                           = " +:+ quoted "https://..../oauth2/callback";
     "oidc_issuer_url                        = " +:+ quoted "https://....";
     "ssl_insecure_skip_verify               = " +:+ quoted "false";
     "insecure_oidc_skip_issuer_verification = " +:+ quoted "false";
     "insecure_oidc_skip_nonce               = " +:+ quoted "false"].
Proof. vm_compute. reflexivity. Qed.

(** Joining with a separator is concatenating terminated pieces and dropping
    the last terminator. *)
Lemma Join_terminated l sep :
  l <> [] -> foldr (fun x rest => (x +:+ sep) +:+ rest) EmptyString l = Join l sep +:+ sep.
Proof.
  induction l as [|x [|y l] IH]; [done| |]; intros _.
  - simpl. by rewrite sapp_nil_r.
  - cbn [foldr Join]. cbn [foldr] in IH. rewrite IH by done. by rewrite !sapp_assoc.
Qed.

Lemma TrimSuffix_Join l sep :
  l <> [] -> TrimSuffix (foldr (fun x rest => (x +:+ sep) +:+ rest) EmptyString l) sep = Join l sep.
Proof. intros H. rewrite Join_terminated by done. apply TrimSuffix_app. Qed.

Lemma parse_lines o :
  foldr (fun line rest => parse_line o line +:+ rest) EmptyString (scan_lines oauth2) =
  foldr (fun x rest => (x +:+ newline) +:+ rest) EmptyString (rendered_lines o).
Proof. rewrite scan_template. by destruct o as [? ? [|? ?] ? ? ? ? ? ?]. Qed.

Lemma Parse_eq o : Parse o = Join (rendered_lines o) newline.
Proof. unfold Parse. rewrite parse_lines. by apply TrimSuffix_Join. Qed.

(** [Parse] renders exactly one assignment per key of the template, in
    the template's order, with the configured values; the client secret line
    and the client secret file line exclude each other: the file line is
    rendered exactly when no inline secret is configured. *)
Theorem Parse_renders (o : oauth2Config) :
  Parse o = Join (rendered_lines o) newline.
Proof. apply Parse_eq. Qed.
