(* ===== verification/WebhookModifiers.v ===== *)
(** * [pkg/webhook/modifiers.go]: the building blocks of the pod mutation

    Functions that Go applies to an object through its metadata take and
    return an [ObjectMeta]; functions that mutate a [*PodSpec] return the new
    specification.  A slice element reached through a pointer is written back
    at its index; a struct copied out of a slice is not. *)

From S2P Require Import Prelude GoStrings RandUtils Kube Constants Vendor Configuration Templates.

Definition defaultKubeRbacProxyImage : string := "ghcr.io/nickytd/oidc-apps/kube-rbac-proxy:latest".
Definition defaultOAuth2ProxyImage : string := "quay.io/oauth2-proxy/oauth2-proxy:v7.15.6".

(** ** [oauth2ProxyArgPattern]: two dashes, a name, optionally a value *)

Definition arg_name_char (c : ascii) : bool := is_lower c || is_digit c || Ascii.eqb c "-".

(** What follows the first letter: name characters, at least one of them
    ([seen]), then the end or an equals sign and text without line feed. *)
Fixpoint arg_rest (seen : bool) (s : string) : bool :=
  match s with
  | EmptyString => seen
  | String c s' =>
      if arg_name_char c then arg_rest true s'
      else Ascii.eqb c "=" && seen && no_char "010" s'
  end.

Definition oauth2ProxyArgPattern (s : string) : bool :=
  match s with
  | String "-" (String "-" (String c s')) => is_lower c && arg_rest false s'
  | _ => false
  end.

(** ** Images *)

Definition getImage `{OSEnv} (envVar defaultImage : string) : string :=
  let v := Getenv envVar in if negb (String.eqb v EmptyString) then v else defaultImage.

(** ** Annotations and labels *)

(** [fetchTargetSuffix]: the suffix annotation, set from the digest of name
    and namespace when it is missing. *)
Definition fetchTargetSuffix (target : ObjectMeta) : string * ObjectMeta :=
  let objectAnnotations := map_or_make (Annotations target) in
  match objectAnnotations !! constants.AnnotationSuffixKey with
  | Some suffix => (suffix, target)
  | None =>
      let suffix := GenerateSha256 (Name target +:+ "-" +:+ Namespace target) in
      (suffix,
       set_annotations (Some (<[constants.AnnotationSuffixKey := suffix]> objectAnnotations)) target)
  end.

Definition get2ProxySecretChecksum (rc : ResolvedConfig) : string :=
  let cfgStr :=
    if String.eqb (GetClientSecret rc) EmptyString then
      Parse (NewOAuth2Config
        [WithClientID (GetClientID rc);
         WithClientSecretFile "/dev/null";
         WithScope (GetScope rc);
         WithRedirectURL (GetRedirectURL rc);
         WithOidcIssuerURL (GetOidcIssuerURL rc);
         EnableSslInsecureSkipVerify (GetSslInsecureSkipVerify rc);
         EnableInsecureOidcSkipIssuerVerification (GetInsecureOidcSkipIssuerVerification rc);
         EnableInsecureOidcSkipNonce (GetInsecureOidcSkipNonce rc)])
    else
      Parse (NewOAuth2Config
        [WithClientID (GetClientID rc);
         WithClientSecret (GetClientSecret rc);
         WithScope (GetScope rc);
         WithRedirectURL (GetRedirectURL rc);
         WithOidcIssuerURL (GetOidcIssuerURL rc);
         EnableSslInsecureSkipVerify (GetSslInsecureSkipVerify rc);
         EnableInsecureOidcSkipIssuerVerification (GetInsecureOidcSkipIssuerVerification rc);
         EnableInsecureOidcSkipNonce (GetInsecureOidcSkipNonce rc)]) in
  GenerateFullSha256 cfgStr.

(** [addAnnotations].  While the entries are written, the target still holds
    its own map when that map is not empty (the entries are then visible in
    it), and no map otherwise; [fetchTargetSuffix] sees that target. *)
Definition addAnnotations `{Vendor} (target : ObjectMeta) (rc : ResolvedConfig) : ObjectMeta :=
  let annotations := map_or_make (Annotations target) in
  let annotations := <[constants.AnnotationKey := Name target]> annotations in
  let annotations := <[constants.AnnotationHostKey := GetHost rc]> annotations in
  let annotations := <[constants.AnnotationTargetKey := GetUpstreamTarget rc]> annotations in
  let seen := if Nat.eqb (map_len (Annotations target)) 0 then target
              else set_annotations (Some annotations) target in
  let annotations := <[constants.AnnotationSuffixKey := fst (fetchTargetSuffix seen)]> annotations in
  let annotations := <[constants.AnnotationOauth2SecretChecksumKey := get2ProxySecretChecksum rc]> annotations in
  set_annotations (Some annotations) target.

Definition addPodLabels (pod : ObjectMeta) (lbls : GoMap string) : ObjectMeta :=
  if Nat.eqb (map_len lbls) 0 then pod
  else set_labels (Some (map_copy (map_or_make (Labels pod)) lbls)) pod.

Definition addPodAnnotations (pod : ObjectMeta) (ann : GoMap string) : ObjectMeta :=
  let annotations := map_or_make (Annotations pod) in
  if Nat.eqb (map_len ann) 0 then set_annotations (Some annotations) pod
  else set_annotations (Some (map_copy annotations ann)) pod.

(** ** Image pull secrets *)

Definition addImagePullSecret (secretName : string) (podSpec : PodSpec) : PodSpec :=
  if String.eqb secretName EmptyString then podSpec
  else if Nat.eqb (length (ImagePullSecrets podSpec)) 0 then set_pull_secrets [secretName] podSpec
  else if existsb (fun s => String.eqb s secretName) (ImagePullSecrets podSpec) then podSpec
  else set_pull_secrets (ImagePullSecrets podSpec ++ [secretName]) podSpec.

(** ** Volumes *)

(** Index and value of the first volume with the given name. *)
Fixpoint find_volume (name : string) (vs : list Volume) : option (nat * Volume) :=
  match vs with
  | [] => None
  | v :: vs' =>
      if String.eqb (Volume_Name v) name then Some (0, v)
      else match find_volume name vs' with
           | Some (i, v) => Some (S i, v)
           | None => None
           end
  end.

(** The scan for a source with the secret's name.  [source.Secret.Name] with
    a source that is not a secret dereferences nil; the assignment
    [source.Secret = secret] is to the loop's copy and is lost. *)
Fixpoint scan_sources (secretName : string) (sources : list VolumeProjection) : outcome bool :=
  match sources with
  | [] => Ret false
  | source :: rest =>
      match VP_Secret source with
      | None => Panic "nil SecretProjection"
      | Some s =>
          if String.eqb (SecretProjection_Name s) secretName then Ret true
          else scan_sources secretName rest
      end
  end.

Definition secret_source (secretName : string) : VolumeProjection :=
  mkVolumeProjection (Some (mkSecretProjection secretName [] (Some false))) None.

(** [addProjectedSecretSourceVolume].  [volume] is a copy of the slice
    element; assigning its [Projected] pointer changes only the copy, while
    assigning [Projected.Sources] goes through the pointer shared with the
    element. *)
Definition addProjectedSecretSourceVolume (volumeName secretName : string) (podSpec : PodSpec)
  : outcome PodSpec :=
  let found := find_volume volumeName (Volumes podSpec) in
  let volume := match found with Some (_, v) => v | None => mkVolume volumeName None end in
  let append (v : Volume) (spec : PodSpec) : PodSpec :=
    match found with
    | Some _ => spec
    | None => set_volumes (Volumes spec ++ [v]) spec
    end in
  let write_sources (sources : list VolumeProjection) : Volume * PodSpec :=
    let v := mkVolume (Volume_Name volume) (Some sources) in
    (v, match found with
        | Some (i, _) => set_volumes (<[i := v]> (Volumes podSpec)) podSpec
        | None => podSpec
        end) in
  match Volume_Projected volume with
  | None => Ret (append (mkVolume (Volume_Name volume) (Some [secret_source secretName])) podSpec)
  | Some [] =>
      let '(v, spec) := write_sources [secret_source secretName] in Ret (append v spec)
  | Some sources =>
      present ← scan_sources secretName sources;
      if present : bool then Ret (append volume podSpec)
      else let '(v, spec) := write_sources (sources ++ [secret_source secretName]) in
           Ret (append v spec)
  end.

(** ** Containers *)

(** Removes the first element satisfying the test ([slices.Delete] and
    [break]). *)
Fixpoint remove_first {A} (p : A -> bool) (l : list A) : list A :=
  match l with
  | [] => []
  | x :: l' => if p x then l' else x :: remove_first p l'
  end.

Definition named (name : string) (c : Container) : bool := String.eqb (Container_Name c) name.

Definition addProxyContainer (name : string) (podSpec : PodSpec) (container : Container) : PodSpec :=
  set_containers (remove_first (named name) (Containers podSpec) ++ [container]) podSpec.

(** ** Secret names *)

Definition fetchKubconfigSecretName (suffix : string) (rc : ResolvedConfig) : string :=
  if negb (String.eqb (GetKubeConfigStr rc) EmptyString) then "kubeconfig-" +:+ suffix
  else if negb (String.eqb (GetKubeSecretName rc) EmptyString) then GetKubeSecretName rc
  else constants.SecretNameKubeconfig +:+ "-" +:+ suffix.

Definition fetchOidcCASecretName (suffix : string) (rc : ResolvedConfig) : string :=
  if negb (String.eqb (GetOidcCABundle rc) EmptyString) then constants.SecretNameOidcCa +:+ "-" +:+ suffix
  else GetOidcCASecretName rc.

Definition shallAddKubeConfigSecretName (rc : ResolvedConfig) : bool :=
  if negb (String.eqb (GetKubeConfigStr rc) EmptyString) then true
  else negb (String.eqb (GetKubeSecretName rc) EmptyString).

Definition shallAddOidcCaSecretName (rc : ResolvedConfig) : bool :=
  if negb (String.eqb (GetOidcCABundle rc) EmptyString) then true
  else negb (String.eqb (GetOidcCASecretName rc) EmptyString).

(** ** Upstream *)

(** First container port with the given name, container by container. *)
Fixpoint named_port (port : string) (cs : list Container) : option Z :=
  match cs with
  | [] => None
  | c :: cs' =>
      match find_first (fun p => String.eqb (ContainerPort_Name p) port) (Container_Ports c) with
      | Some p => Some (ContainerPort_Port p)
      | None => named_port port cs'
      end
  end.

Definition buildUpstreamURL (target : string) (podSpec : PodSpec) : string :=
  let '(before, after, _) := Cut target "," in
  let '(protocol, f) := CutPrefix before "protocol=" in
  let protocol := if f : bool then protocol else "http" in
  let '(port, _) := CutPrefix after " port=" in
  if Nat.eqb (String.length port) 0 then protocol +:+ "://localhost"
  else match Atoi port with
       | Some _ => protocol +:+ "://localhost" +:+ ":" +:+ port
       | None =>
           match named_port port (Containers podSpec) with
           | Some n => protocol +:+ "://localhost" +:+ ":" +:+ Itoa n
           | None => EmptyString
           end
       end.

(** ** Proxy containers *)

Section Containers.
Context `{Vendor} `{OSEnv}.

(** Requests of the proxy container: the defaults, or those of an existing
    container of that name whose memory request exceeds 100Mi. *)
Definition proxy_requests (name : string) (containers : list Container) : GoMap Quantity :=
  fold_left
    (fun (requests : GoMap Quantity) c =>
       if negb (String.eqb (Container_Name c) name) then requests
       else match Requests (Container_Resources c) with
            | None => requests
            | Some r =>
                if Z.ltb 0 (Quantity_Cmp (ResourceList_Memory (Some r)) (MustParse "100Mi"))
                then Some r else requests
            end)
    containers
    (Some (<["cpu" := MustParse "5m"]> (<["memory" := MustParse "32Mi"]> ∅))).

(** One mount per volume that projects a service account token. *)
Definition token_mounts (volumes : list Volume) : list VolumeMount :=
  omap (fun v =>
    match Volume_Projected v with
    | None => None
    | Some sources =>
        if existsb (fun s => bool_decide (is_Some (VP_ServiceAccountToken s))) sources
        then Some (mkVolumeMount (Volume_Name v) true "/var/run/secrets/kubernetes.io/serviceaccount")
        else None
    end) volumes.

Definition proxySecurityContext : SecurityContext := mkSecurityContext ["ALL"] (Some false) (Some true).

Definition getKubeRbacProxyContainer (clientID issuerURL upstream : string) (pod : option Pod)
    (rc : ResolvedConfig) : Container :=
  let image := getImage "KUBE_RBAC_PROXY_IMAGE" defaultKubeRbacProxyImage in
  match pod with
  | None => emptyContainer
  | Some pod =>
      let volumeMounts :=
        mkVolumeMount constants.KubeRbacProxyVolumeName true "/etc/kube-rbac-proxy" ::
        token_mounts (Volumes (Pod_Spec pod)) in
      let args :=
        ["--insecure-listen-address=0.0.0.0:8100";
         "--oidc-clientID=" +:+ clientID;
         "--oidc-issuer=" +:+ issuerURL;
         "--upstream=" +:+ upstream;
         "--config-file=/etc/kube-rbac-proxy/config-file.yaml"] in
      let args := if shallAddKubeConfigSecretName rc
                  then args ++ ["--kubeconfig=/etc/kube-rbac-proxy/kubeconfig"] else args in
      let args := if shallAddOidcCaSecretName rc
                  then args ++ ["--oidc-ca-file=/etc/kube-rbac-proxy/ca.crt"] else args in
      mkContainer constants.ContainerNameKubeRbacProxy image "IfNotPresent" args
        [mkContainerPort "rbac" 8100] (Some proxySecurityContext)
        (mkResources (proxy_requests constants.ContainerNameKubeRbacProxy (Containers (Pod_Spec pod))))
        volumeMounts
  end.

(** The [owner] argument of the source only serves a log line. *)
Definition getOIDCProxyContainer (pod : option PodSpec) (rc : ResolvedConfig) : Container :=
  let image := getImage "OAUTH2_PROXY_IMAGE" defaultOAuth2ProxyImage in
  match pod with
  | None => emptyContainer
  | Some pod =>
      let args :=
        ["--provider=oidc";
         "--config=/etc/oauth2-proxy/oauth2-proxy.cfg";
         "--code-challenge-method=" +:+ GetCodeChallengeMethod rc;
         "--pass-authorization-header=true";
         "--cookie-secret-file=/etc/oauth2-proxy/" +:+ constants.Oauth2CookieSecretKey;
         "--cookie-refresh=" +:+ GetCookieRefresh rc;
         "--http-address=0.0.0.0:8000";
         "--email-domain=" +:+ GetEmailDomain rc;
         "--reverse-proxy=true";
         "--skip-provider-button=" +:+ FormatBool (GetSkipProviderButton rc);
         "--skip-jwt-bearer-tokens=true";
         "--approval-prompt=" +:+ GetApprovalPrompt rc;
         "--upstream=http://127.0.0.1:8100"] in
      let args := if shallAddOidcCaSecretName rc
                  then args ++ ["--provider-ca-file=/etc/oauth2-proxy/ca.crt"] else args in
      let args := args ++ List.filter oauth2ProxyArgPattern (GetExtraArgs rc) in
      mkContainer constants.ContainerNameOauth2Proxy image "IfNotPresent" args
        [mkContainerPort "oauth2" 8000] (Some proxySecurityContext)
        (mkResources (proxy_requests constants.ContainerNameOauth2Proxy (Containers pod)))
        [mkVolumeMount constants.Oauth2VolumeName true "/etc/oauth2-proxy"]
  end.

End Containers.
