(* ===== verification/PodWebhook.v ===== *)
(** * [pkg/webhook/pod-webhook.go]: admission of pods *)

From S2P Require Import Prelude GoStrings RandUtils Kube Constants Vendor Configuration.
From S2P Require Import WebhookModifiers.

(** [PodMutator]; the client is the [Client] instance. *)
Record PodMutator := mkPodMutator {
  ImagePullSecret : string;
  PodMutator_Config : option OIDCAppsControllerConfig }.

Definition podNameLabel : string := "statefulset.kubernetes.io/pod-name".

(** ** Removing the redirect argument

    The loop ranges over the argument slice it started with while
    [slices.Delete] shifts the elements of the shared backing array and
    clears the freed last cell; [len] is the length of the container's
    current slice over that array. *)

Definition isRedirectArg (arg : string) : bool := HasPrefix arg "--redirect-url".

Definition slices_Delete (backing : list string) (len i : nat) : outcome (list string * nat) :=
  if Nat.ltb len (i + 1) then Panic "slice bounds out of range"
  else Ret (take i backing ++ drop (i + 1) (take len backing) ++ [EmptyString] ++ drop len backing,
            len - 1).

Fixpoint delete_loop (n i : nat) (backing : list string) (len : nat) : outcome (list string * nat) :=
  match n with
  | O => Ret (backing, len)
  | S n' =>
      match backing !! i with
      | None => Panic "index out of range"
      | Some arg =>
          if isRedirectArg arg then
            r ← slices_Delete backing len i;
            delete_loop n' (S i) r.1 r.2
          else delete_loop n' (S i) backing len
      end
  end.

(** The container's arguments after the loop. *)
Definition delete_redirects (args : list string) : outcome (list string) :=
  r ← delete_loop (length args) 0 args (length args);
  Ret (take r.2 r.1).

(** The loop over the containers: the first oauth2-proxy container only. *)
Fixpoint fix_redirect (host : string) (cs : list Container) : outcome (list Container) :=
  match cs with
  | [] => Ret []
  | c :: cs' =>
      if String.eqb (Container_Name c) "oauth2-proxy" then
        args ← delete_redirects (Container_Args c);
        Ret (set_args (args ++ ["--redirect-url=https://" +:+ host +:+ "/oauth2/callback"]) c :: cs')
      else
        rest ← fix_redirect host cs';
        Ret (c :: rest)
  end.

(** Host of the redirect URL of a pod of a StatefulSet: the ordinal of the
    pod's name is appended to the first label of the host. *)
Definition redirect_host (rc : ResolvedConfig) (podIndex : string) : string :=
  let hostPrefix :=
    if negb (String.eqb (GetRedirectURL rc) EmptyString)
    then TrimSuffix (TrimPrefix (GetRedirectURL rc) "https://") "/oauth2/callback"
    else GetHost rc in
  let '(host, domain, found) := Cut hostPrefix "." in
  if found : bool then host +:+ "-" +:+ last_elem (Split podIndex "-") +:+ "." +:+ domain else host.

(** [if cond { addProjectedSecretSourceVolume(...) }] *)
Definition add_volume_if (cond : bool) (volumeName secretName : string) (spec : PodSpec) : outcome PodSpec :=
  if cond then addProjectedSecretSourceVolume volumeName secretName spec else Ret spec.

(** The volumes of both proxies, in the order of [Default]. *)
Definition add_proxy_volumes (suffix : string) (rc : ResolvedConfig) (spec : PodSpec) : outcome PodSpec :=
  spec ← addProjectedSecretSourceVolume constants.Oauth2VolumeName
           (constants.SecretNameOauth2Proxy +:+ "-" +:+ suffix) spec;
  spec ← add_volume_if (shallAddOidcCaSecretName rc) constants.Oauth2VolumeName
           (fetchOidcCASecretName suffix rc) spec;
  spec ← add_volume_if (negb (String.eqb (GetClientSecretName rc) EmptyString)) constants.Oauth2VolumeName
           (GetClientSecretName rc) spec;
  spec ← addProjectedSecretSourceVolume constants.KubeRbacProxyVolumeName
           (constants.SecretNameResourceAttributes +:+ "-" +:+ suffix) spec;
  spec ← add_volume_if (shallAddKubeConfigSecretName rc) constants.KubeRbacProxyVolumeName
           (fetchKubconfigSecretName suffix rc) spec;
  add_volume_if (shallAddOidcCaSecretName rc) constants.KubeRbacProxyVolumeName
    (fetchOidcCASecretName suffix rc) spec.

Section PodWebhook.
Context {W : Type} `{Client W} `{Vendor} `{OSEnv}.

(** [isTarget]: the workload that owns the pod, and whether it is a target. *)
Fixpoint isTarget_loop (cfg : option OIDCAppsControllerConfig) (namespace : string)
    (owners : list OwnerReference) : M W (bool * option Object) :=
  match owners with
  | [] => mret (false, None)
  | o :: owners' =>
      if String.eqb (OwnerReference_Kind o) "StatefulSet" then
        r ← try_ (cl_Get KStatefulSet (mkNN namespace (OwnerReference_Name o)));
        match r with
        | inl _ => mret (false, None)
        | inr statefulset =>
            b ← Match cfg (StatefulSetObject statefulset);
            mret (b, Some (StatefulSetObject statefulset))
        end
      else if String.eqb (OwnerReference_Kind o) "ReplicaSet" then
        r ← try_ (cl_Get KReplicaSet (mkNN namespace (OwnerReference_Name o)));
        match r with
        | inl _ => mret (false, None)
        | inr replicaset =>
            match OwnerReferences (ReplicaSet_Meta replicaset) with
            | [] => mret (false, None)
            | ref :: _ =>
                if negb (String.eqb (OwnerReference_Kind ref) "Deployment") then mret (false, None)
                else
                  r ← try_ (cl_Get KDeployment (mkNN namespace (OwnerReference_Name ref)));
                  match r with
                  | inl _ => mret (false, None)
                  | inr deployment =>
                      b ← Match cfg (DeploymentObject deployment);
                      mret (b, Some (DeploymentObject deployment))
                  end
            end
        end
      else isTarget_loop cfg namespace owners'
  end.

Definition isTarget (cfg : option OIDCAppsControllerConfig) (pod : Pod) : M W (bool * option Object) :=
  isTarget_loop cfg (Namespace (Pod_Meta pod)) (OwnerReferences (Pod_Meta pod)).

(** The mutation of a target pod: everything after [Resolve]. *)
Definition mutate_pod (imagePullSecret : string) (rc : ResolvedConfig) (owner : Object) (pod : Pod)
  : outcome Pod :=
  let clientID := GetClientID rc in
  let issuerURL := GetOidcIssuerURL rc in
  let upstreamURL := buildUpstreamURL (GetUpstreamTarget rc) (Pod_Spec pod) in
  let '(suffix, _) := fetchTargetSuffix (obj_meta owner) in
  let meta := addAnnotations (Pod_Meta pod) rc in
  let meta := addPodAnnotations meta (Some {[ constants.AnnotationHostKey := GetHost rc ]}) in
  let meta := addPodLabels meta (Some {[ constants.LabelKey := "pod" ]}) in
  spec ← add_proxy_volumes suffix rc (Pod_Spec pod);
  let spec := addProxyContainer constants.ContainerNameOauth2Proxy spec
                (getOIDCProxyContainer (Some spec) rc) in
  let spec := addProxyContainer constants.ContainerNameKubeRbacProxy spec
                (getKubeRbacProxyContainer clientID issuerURL upstreamURL (Some (mkPod meta spec)) rc) in
  let spec := if Nat.ltb 0 (String.length imagePullSecret)
              then addImagePullSecret imagePullSecret spec else spec in
  match map_get (Labels meta) podNameLabel with
  | None => Ret (mkPod meta spec)
  | Some podIndex =>
      containers ← fix_redirect (redirect_host rc podIndex) (Containers spec);
      Ret (mkPod meta (set_containers containers spec))
  end.

(** [Default]; the result is the pod the API server admits. *)
Definition PodMutator_Default (p : PodMutator) (pod : Pod) : M W Pod :=
  if beingDeleted (Pod_Meta pod) then mret pod
  else
    r ← isTarget (PodMutator_Config p) pod;
    match r with
    | (true, Some owner) =>
        rc ← Resolve (PodMutator_Config p) owner;
        lift (mutate_pod (ImagePullSecret p) rc owner pod)
    | (true, None) => panic "nil owner"
    | (false, _) => mret pod
    end.

End PodWebhook.
