(* ===== verification/VpaWebhook.v ===== *)
(** * [pkg/webhook/vpa-webhook.go]: admission of vertical pod autoscalers *)

From S2P Require Import Prelude GoStrings Kube Constants Vendor Configuration.

Record VPAMutator := mkVPAMutator { VPAMutator_Config : option OIDCAppsControllerConfig }.

Definition isProxyName (name : string) : bool :=
  String.eqb name constants.ContainerNameOauth2Proxy || String.eqb name constants.ContainerNameKubeRbacProxy.

(** The policies of [Default]: those of the other containers, then the two
    proxies with their scaling off. *)
Definition vpa_policies (policies : list ContainerResourcePolicy) : list ContainerResourcePolicy :=
  List.filter (fun p => negb (String.eqb (Policy_ContainerName p) constants.ContainerNameOauth2Proxy) &&
                        negb (String.eqb (Policy_ContainerName p) constants.ContainerNameKubeRbacProxy)) policies ++
  map (fun name => mkPolicy name (Some "Off"))
    [constants.ContainerNameOauth2Proxy; constants.ContainerNameKubeRbacProxy].

Section VpaWebhook.
Context {W : Type} `{Client W} `{Vendor}.

Definition isTargetRefMatched (cfg : option OIDCAppsControllerConfig) (namespace : string)
    (ref : CrossVersionObjectReference) : M W bool :=
  if String.eqb (TargetRef_Kind ref) "Deployment" then
    r ← try_ (cl_Get KDeployment (mkNN namespace (TargetRef_Name ref)));
    match r with
    | inl _ => mret false
    | inr deployment => Match cfg (DeploymentObject deployment)
    end
  else if String.eqb (TargetRef_Kind ref) "StatefulSet" then
    r ← try_ (cl_Get KStatefulSet (mkNN namespace (TargetRef_Name ref)));
    match r with
    | inl _ => mret false
    | inr statefulset => Match cfg (StatefulSetObject statefulset)
    end
  else mret false.

(** [Default] *)
Definition VPAMutator_Default (v : VPAMutator) (vpa : VerticalPodAutoscaler) : M W VerticalPodAutoscaler :=
  if beingDeleted (VPA_Meta vpa) then mret vpa
  else
    match VPA_TargetRef vpa with
    | None => mret vpa
    | Some ref =>
        matched ← Match (VPAMutator_Config v) (VPAObject vpa);
        selected ← (if matched : bool then mret true
                    else isTargetRefMatched (VPAMutator_Config v) (Namespace (VPA_Meta vpa)) ref);
        if selected : bool then
          mret (mkVPA (VPA_Meta vpa) (VPA_TargetRef vpa)
                  (Some (vpa_policies (default [] (VPA_ResourcePolicy vpa)))))
        else mret vpa
    end.

End VpaWebhook.
