(* ===== verification/WebhookSpec.v ===== *)
(** * What the admission webhooks promise

    Volumes, arguments and containers of a mutated pod, the upstream URL, and
    the policies of a mutated autoscaler. *)

From S2P Require Import Prelude GoStrings RandUtils Kube Constants Vendor Reference Configuration.
From S2P Require Import ConfigurationSpec WebhookModifiers PodWebhook VpaWebhook.

(** ** Specifications *)

(** The projected volume [vol] of the pod has the secret [secret] as one of
    its sources. *)
Definition projects (secret : string) (source : VolumeProjection) : bool :=
  match VP_Secret source with
  | Some p => String.eqb (SecretProjection_Name p) secret
  | None => false
  end.

Definition mounts (spec : PodSpec) (vol secret : string) : bool :=
  match find_volume vol (Volumes spec) with
  | Some (_, v) => match Volume_Projected v with
                   | Some sources => existsb (projects secret) sources
                   | None => false
                   end
  | None => false
  end.

(** A pod can receive the volume [vol] if it has no volume of that name, or a
    projected one whose sources are all secrets. *)
Definition compatible (vol : string) (spec : PodSpec) : Prop :=
  match find_volume vol (Volumes spec) with
  | None => True
  | Some (_, v) => match Volume_Projected v with
                   | Some sources => Forall (fun s => is_Some (VP_Secret s)) sources
                   | None => False
                   end
  end.

(** The arguments that survive the removal of redirect arguments: the one
    after a removed argument is skipped by the loop, hence kept. *)
Fixpoint drop_redirects (args : list string) : list string :=
  match args with
  | [] => []
  | a :: rest =>
      if isRedirectArg a then
        match rest with
        | [] => []
        | b :: rest' => b :: drop_redirects rest'
        end
      else a :: drop_redirects rest
  end.

(** No redirect argument directly follows another one. *)
Fixpoint no_adjacent_redirects (args : list string) : bool :=
  match args with
  | a :: rest =>
      match rest with
      | b :: _ => negb (isRedirectArg a && isRedirectArg b)
      | [] => true
      end && no_adjacent_redirects rest
  | [] => true
  end.

Definition count_named (name : string) (cs : list Container) : nat :=
  length (List.filter (named name) cs).

(** What one step on the volumes keeps: the mounted secrets, the containers,
    the pull secrets, and the volumes outside the set [V]. *)
Definition preserves (V : list string) (spec spec' : PodSpec) : Prop :=
  (forall vol s, mounts spec vol s = true -> mounts spec' vol s = true) /\
  (forall name, name ∉ V -> find_volume name (Volumes spec') = find_volume name (Volumes spec)) /\
  Containers spec' = Containers spec /\ ImagePullSecrets spec' = ImagePullSecrets spec.

(** The volumes of the two proxies. *)
Definition proxyVolumes : list string := [constants.Oauth2VolumeName; constants.KubeRbacProxyVolumeName].

(** The secrets the two proxies need, with the volume that carries them. *)
Definition required_secrets (suffix : string) (rc : ResolvedConfig) : list (string * string) :=
  let o := constants.Oauth2VolumeName in
  let k := constants.KubeRbacProxyVolumeName in
  let ca := if shallAddOidcCaSecretName rc then [fetchOidcCASecretName suffix rc] else [] in
  (o, constants.SecretNameOauth2Proxy +:+ "-" +:+ suffix) :: map (pair o) ca ++
  (if String.eqb (GetClientSecretName rc) EmptyString then [] else [(o, GetClientSecretName rc)]) ++
  (k, constants.SecretNameResourceAttributes +:+ "-" +:+ suffix) ::
  (if shallAddKubeConfigSecretName rc then [(k, fetchKubconfigSecretName suffix rc)] else []) ++
  map (pair k) ca.

Definition volumes_ready (suffix : string) (rc : ResolvedConfig) (spec : PodSpec) : Prop :=
  Forall (fun vs => mounts spec vs.1 vs.2 = true) (required_secrets suffix rc).

(** ** Volumes *)

Lemma find_volume_app name vs ws :
  find_volume name (vs ++ ws) =
  match find_volume name vs with
  | Some r => Some r
  | None => match find_volume name ws with
            | Some (i, v) => Some (length vs + i, v)
            | None => None
            end
  end.
Proof.
  induction vs as [|v vs IH]; simpl.
  - by destruct (find_volume name ws) as [[]|].
  - destruct (String.eqb _ _); [done|]. rewrite IH.
    destruct (find_volume name vs) as [[]|]; [done|].
    by destruct (find_volume name ws) as [[]|].
Qed.

Lemma find_volume_Some name vs i v :
  find_volume name vs = Some (i, v) -> vs !! i = Some v /\ Volume_Name v = name.
Proof.
  revert i. induction vs as [|u vs IH]; intros i; simpl; [done|].
  destruct (String.eqb_spec (Volume_Name u) name).
  - by intros [= <- <-].
  - destruct (find_volume name vs) as [[j x]|]; [|done]. intros [= <- <-]. by apply IH.
Qed.

(** Replacing the volume found under [name] by one of the same name. *)
Lemma find_volume_insert name vs i v v' other :
  find_volume name vs = Some (i, v) -> Volume_Name v' = name ->
  find_volume other (<[i := v']> vs) =
  if String.eqb name other then Some (i, v') else find_volume other vs.
Proof.
  revert i. induction vs as [|u vs IH]; intros i; simpl; [done|].
  destruct (String.eqb_spec (Volume_Name u) name) as [Hu|Hu].
  - intros [= <- <-] Hv'. simpl. rewrite Hv', Hu.
    by destruct (String.eqb_spec name other).
  - destruct (find_volume name vs) as [[j x]|]; [|done]. intros [= <- <-] Hv'. simpl.
    rewrite (IH j) by done.
    destruct (String.eqb_spec (Volume_Name u) other), (String.eqb_spec name other); congruence || done.
Qed.

Lemma volume_names_insert name vs i v v' :
  find_volume name vs = Some (i, v) -> Volume_Name v' = name ->
  map Volume_Name (<[i := v']> vs) = map Volume_Name vs.
Proof.
  intros Hf Hn. apply find_volume_Some in Hf as [Hl Hv].
  change (map Volume_Name) with (fmap (M := list) Volume_Name).
  rewrite list_fmap_insert. apply list_insert_id. rewrite list_lookup_fmap, Hl. simpl. congruence.
Qed.

Lemma scan_sources_spec secret sources :
  Forall (fun s => is_Some (VP_Secret s)) sources ->
  scan_sources secret sources = Ret (existsb (projects secret) sources).
Proof.
  induction 1 as [|s sources [p Hp] _ IH]; simpl; [done|].
  unfold projects at 1. rewrite Hp. by destruct (String.eqb _ _).
Qed.

Lemma projects_secret_source secret : projects secret (secret_source secret) = true.
Proof. unfold projects. simpl. apply String.eqb_refl. Qed.

(** The effect of adding a secret to a compatible volume, on each volume. *)
Lemma add_volume_find vol secret spec :
  compatible vol spec ->
  exists spec' i sources,
    addProjectedSecretSourceVolume vol secret spec = Ret spec' /\
    (forall name, find_volume name (Volumes spec') =
       if String.eqb vol name then Some (i, mkVolume vol (Some sources))
       else find_volume name (Volumes spec)) /\
    Forall (fun s => is_Some (VP_Secret s)) sources /\
    existsb (projects secret) sources = true /\
    (forall s, mounts spec vol s = true -> existsb (projects s) sources = true) /\
    Containers spec' = Containers spec /\ ImagePullSecrets spec' = ImagePullSecrets spec /\
    map Volume_Name (Volumes spec') =
      map Volume_Name (Volumes spec) ++
      (if find_volume vol (Volumes spec) then [] else [vol]).
Proof.
  unfold compatible, addProjectedSecretSourceVolume, mounts.
  pose proof (projects_secret_source secret) as Hself.
  assert (Hsrc : is_Some (VP_Secret (secret_source secret))) by (by eexists).
  destruct (find_volume vol (Volumes spec)) as [[i [n [sources|]]]|] eqn:Hf;
    simpl; intros Hc; [|done|].
  - assert (n = vol) as -> by (by apply find_volume_Some in Hf as [_ ?]).
    assert (Hins : forall sources' name, find_volume name (<[i := mkVolume vol (Some sources')]> (Volumes spec)) =
       if String.eqb vol name then Some (i, mkVolume vol (Some sources')) else find_volume name (Volumes spec))
      by (intros; by apply find_volume_insert with (mkVolume vol (Some sources))).
    assert (Hnames : forall sources', map Volume_Name (<[i := mkVolume vol (Some sources')]> (Volumes spec)) =
       map Volume_Name (Volumes spec) ++ [])
      by (intros; rewrite app_nil_r; by eapply volume_names_insert).
    destruct sources as [|s0 sources].
    + eexists _, i, [secret_source secret]. split; [done|]. split_and!; auto; try by intros.
      * apply Hins.
      * cbn [existsb]. by rewrite Hself.
      * apply Hnames.
    + rewrite scan_sources_spec by done. unfold mbind, outcome_bind.
      destruct (existsb (projects secret) (s0 :: sources)) eqn:Hp.
      * eexists _, i, (s0 :: sources). split; [done|]. split_and!; auto.
        -- intros name. destruct (String.eqb_spec vol name) as [<-|]; [by rewrite Hf|done].
        -- by rewrite app_nil_r.
      * eexists _, i, (s0 :: sources ++ [secret_source secret]). split; [done|]. rewrite app_comm_cons.
        split_and!; auto; try (intros; rewrite existsb_app; apply orb_true_iff; by eauto).
        -- apply Hins.
        -- apply Forall_app; split; [done|by constructor].
        -- rewrite existsb_app. cbn [existsb]. by rewrite Hself, !orb_true_r.
        -- apply Hnames.
  - eexists _, (length (Volumes spec)), [secret_source secret]. split; [done|].
    split_and!; auto; try by intros.
    + intros name. simpl. rewrite find_volume_app. simpl.
      destruct (String.eqb_spec vol name) as [<-|].
      * by rewrite Hf, Nat.add_0_r.
      * by destruct (find_volume name (Volumes spec)).
    + cbn [existsb]. by rewrite Hself.
    + simpl. by rewrite map_app.
Qed.

#[export] Instance preserves_refl V : Reflexive (preserves V).
Proof. by intros spec. Qed.

#[export] Instance preserves_trans V : Transitive (preserves V).
Proof.
  intros a b c (H1 & H2 & H3 & H4) (K1 & K2 & K3 & K4). split; [by eauto|].
  split; [intros; by rewrite K2, H2|]. by rewrite K3, K4.
Qed.

Lemma add_volume_step V vol secret spec :
  Forall (fun v => compatible v spec) V -> vol ∈ V ->
  exists spec', addProjectedSecretSourceVolume vol secret spec = Ret spec' /\
    mounts spec' vol secret = true /\ preserves V spec spec' /\
    Forall (fun v => compatible v spec') V.
Proof.
  intros HV Hvol. rewrite Forall_forall in HV.
  assert (Hc : compatible vol spec) by (apply HV; by apply list_elem_of_In).
  destruct (add_volume_find vol secret spec Hc) as
    (spec' & i & sources & Hadd & Hfind & Hsec & Hself & Hold & Hcs & Hps & _).
  exists spec'. split; [done|]. split.
  { unfold mounts. by rewrite Hfind, String.eqb_refl. }
  split.
  - split; [|split; [|done]].
    + intros name s Hs. unfold mounts. rewrite Hfind.
      destruct (String.eqb_spec vol name) as [<-|]; [by apply Hold|exact Hs].
    + intros name Hname. rewrite Hfind.
      destruct (String.eqb_spec vol name) as [<-|]; done.
  - apply Forall_forall. intros v Hv. unfold compatible. rewrite Hfind.
    destruct (String.eqb vol v); [done|]. by apply HV.
Qed.

Lemma add_volume_if_step V b vol secret spec :
  Forall (fun v => compatible v spec) V -> vol ∈ V ->
  exists spec', add_volume_if b vol secret spec = Ret spec' /\
    (b = true -> mounts spec' vol secret = true) /\ preserves V spec spec' /\
    Forall (fun v => compatible v spec') V.
Proof.
  intros HV Hvol. destruct b; simpl.
  - destruct (add_volume_step V vol secret spec HV Hvol) as (spec' & ? & ? & ?). eauto.
  - by exists spec.
Qed.

Lemma add_volume_mounted vol secret spec :
  compatible vol spec -> mounts spec vol secret = true ->
  addProjectedSecretSourceVolume vol secret spec = Ret spec.
Proof.
  unfold compatible, mounts, addProjectedSecretSourceVolume.
  destruct (find_volume vol (Volumes spec)) as [[i [n [[|s sources]|]]]|]; simpl; try done.
  intros Hc Hm. change (existsb (projects secret) (s :: sources) = true) in Hm.
  pose proof (scan_sources_spec secret _ Hc) as H. rewrite Hm in H. simpl in H. by rewrite H.
Qed.

Lemma add_proxy_volumes_spec suffix rc spec :
  Forall (fun v => compatible v spec) proxyVolumes ->
  exists spec', add_proxy_volumes suffix rc spec = Ret spec' /\ preserves proxyVolumes spec spec' /\
    volumes_ready suffix rc spec' /\ Forall (fun v => compatible v spec') proxyVolumes.
Proof.
  intros H0. unfold add_proxy_volumes.
  assert (Ho : constants.Oauth2VolumeName ∈ proxyVolumes) by (unfold proxyVolumes; set_solver).
  assert (Hk : constants.KubeRbacProxyVolumeName ∈ proxyVolumes) by (unfold proxyVolumes; set_solver).
  edestruct (add_volume_step proxyVolumes) as (s1 & -> & M1 & P1 & H1); [exact H0|exact Ho|]; cbn [mbind outcome_bind].
  edestruct (add_volume_if_step proxyVolumes) as (s2 & -> & M2 & P2 & H2); [exact H1|exact Ho|]; cbn [mbind outcome_bind].
  edestruct (add_volume_if_step proxyVolumes) as (s3 & -> & M3 & P3 & H3); [exact H2|exact Ho|]; cbn [mbind outcome_bind].
  edestruct (add_volume_step proxyVolumes) as (s4 & -> & M4 & P4 & H4); [exact H3|exact Hk|]; cbn [mbind outcome_bind].
  edestruct (add_volume_if_step proxyVolumes) as (s5 & -> & M5 & P5 & H5); [exact H4|exact Hk|]; cbn [mbind outcome_bind].
  edestruct (add_volume_if_step proxyVolumes) as (s6 & E6 & M6 & P6 & H6); [exact H5|exact Hk|].
  exists s6. split; [exact E6|].
  assert (P56 := transitivity P5 P6). assert (P46 := transitivity P4 P56).
  assert (P36 := transitivity P3 P46). assert (P26 := transitivity P2 P36).
  split; [exact (transitivity P1 P26)|]. split; [|exact H6].
  unfold volumes_ready, required_secrets. constructor; [by apply P26|].
  apply Forall_app; split.
  { destruct (shallAddOidcCaSecretName rc) eqn:E; repeat constructor. by apply (proj1 P36), M2. }
  apply Forall_app; split.
  { destruct (String.eqb _ _) eqn:E; repeat constructor. apply (proj1 P46), M3. done. }
  constructor; [by apply P56|].
  apply Forall_app; split.
  { destruct (shallAddKubeConfigSecretName rc) eqn:E; repeat constructor. by apply (proj1 P6), M5. }
  destruct (shallAddOidcCaSecretName rc) eqn:E; repeat constructor. by apply M6.
Qed.

Lemma add_volume_if_mounted b vol secret spec :
  compatible vol spec -> (b = true -> mounts spec vol secret = true) ->
  add_volume_if b vol secret spec = Ret spec.
Proof. destruct b; simpl; [|done]. intros Hc Hm. by apply add_volume_mounted; [|apply Hm]. Qed.

Lemma add_proxy_volumes_ready suffix rc spec :
  Forall (fun v => compatible v spec) proxyVolumes -> volumes_ready suffix rc spec ->
  add_proxy_volumes suffix rc spec = Ret spec.
Proof.
  intros Hc Hr. unfold proxyVolumes in Hc. apply Forall_cons_1 in Hc as [Ho Hc].
  apply Forall_cons_1 in Hc as [Hk _].
  unfold volumes_ready, required_secrets in Hr.
  apply Forall_cons_1 in Hr as [H1 Hr]. apply Forall_app in Hr as [H2 Hr].
  apply Forall_app in Hr as [H3 Hr]. apply Forall_cons_1 in Hr as [H4 Hr].
  apply Forall_app in Hr as [H5 H6]. cbn [fst snd] in H1, H4.
  unfold add_proxy_volumes.
  rewrite (add_volume_mounted _ _ _ Ho H1). cbn [mbind outcome_bind].
  rewrite add_volume_if_mounted; [cbn [mbind outcome_bind]|done|].
  2: { intros E. rewrite E in H2. by inversion_clear H2. }
  rewrite add_volume_if_mounted; [cbn [mbind outcome_bind]|done|].
  2: { intros E%negb_true_iff. rewrite E in H3. by inversion_clear H3. }
  rewrite (add_volume_mounted _ _ _ Hk H4). cbn [mbind outcome_bind].
  rewrite add_volume_if_mounted; [cbn [mbind outcome_bind]|done|].
  2: { intros E. rewrite E in H5. by inversion_clear H5. }
  apply add_volume_if_mounted; [done|].
  intros E. rewrite E in H6. by inversion_clear H6.
Qed.

(** *** The redirect argument *)

Lemma isRedirectArg_empty : isRedirectArg EmptyString = false.
Proof. done. Qed.

(** Cleared cells are never removed. *)
Lemma delete_loop_cleared n kept k len :
  n <= k ->
  delete_loop n (length kept + (k - n)) (kept ++ replicate k EmptyString) len =
  Ret (kept ++ replicate k EmptyString, len).
Proof.
  induction n as [|n IH]; intros Hn; [done|]. cbn [delete_loop].
  rewrite lookup_app_r by lia. rewrite lookup_replicate_2 by lia.
  rewrite isRedirectArg_empty.
  replace (S (length kept + (k - S n))) with (length kept + (k - n)) by lia.
  apply IH. lia.
Qed.

Lemma slices_Delete_spec kept a todo k :
  slices_Delete (kept ++ (a :: todo) ++ replicate k EmptyString) (length kept + S (length todo)) (length kept) =
  Ret (kept ++ todo ++ replicate (S k) EmptyString, length kept + length todo).
Proof.
  unfold slices_Delete. rewrite (proj2 (Nat.ltb_ge _ _)) by lia.
  do 2 f_equal; [|lia]. rewrite take_app_length. f_equal.
  rewrite (app_assoc kept). set (live := kept ++ a :: todo).
  assert (Hl : length kept + S (length todo) = length live) by (unfold live; by rewrite length_app).
  rewrite Hl, take_app_length, drop_app_length. unfold live.
  by rewrite drop_app_add' by done.
Qed.

Lemma delete_loop_spec n kept todo k :
  n = length todo + k ->
  exists b, delete_loop n (length kept) (kept ++ todo ++ replicate k EmptyString) (length kept + length todo) =
    Ret b /\ take b.2 b.1 = kept ++ drop_redirects todo.
Proof.
  revert kept todo k. induction n as [n IH] using lt_wf_ind. intros kept todo k ->.
  destruct todo as [|a todo].
  - cbn [length app Nat.add]. pose proof (delete_loop_cleared k kept k (length kept + 0) (le_n k)) as H.
    rewrite Nat.sub_diag, Nat.add_0_r in H. rewrite Nat.add_0_r, H. eexists. split; [done|].
    cbn [fst snd drop_redirects]. by rewrite take_app_length, app_nil_r.
  - cbn [length Nat.add delete_loop].
    assert (Hl : (kept ++ (a :: todo) ++ replicate k EmptyString) !! length kept = Some a)
      by (by apply list_lookup_middle).
    rewrite Hl. destruct (isRedirectArg a) eqn:Ha.
    + rewrite slices_Delete_spec. cbn [mbind outcome_bind fst snd].
      cbn [drop_redirects]. rewrite Ha. destruct todo as [|b todo].
      * cbn [length app Nat.add]. pose proof (delete_loop_cleared k kept (S k) (length kept + 0) ltac:(lia)) as H.
        replace (length kept + (S k - k)) with (S (length kept)) in H by lia.
        rewrite H. eexists. split; [done|]. cbn [fst snd].
        by rewrite Nat.add_0_r, take_app_length, app_nil_r.
      * destruct (IH (length todo + S k) ltac:(cbn; lia) (kept ++ [b]) todo (S k) eq_refl) as (r & Hr & Ht).
        rewrite length_app in Hr. cbn [length] in Hr. rewrite <- app_assoc in Hr.
        exists r. rewrite Ht, <- app_assoc. split; [|done]. rewrite <- Hr.
        cbn [length app]. f_equal; lia.
    + destruct (IH (length todo + k) ltac:(cbn; lia) (kept ++ [a]) todo k eq_refl) as (r & Hr & Ht).
      rewrite length_app in Hr. cbn [length] in Hr. rewrite <- app_assoc in Hr.
      exists r. cbn [drop_redirects]. rewrite Ha, Ht, <- app_assoc. split; [|done]. rewrite <- Hr.
      cbn [length app]. f_equal; lia.
Qed.

Lemma delete_redirects_eq args : delete_redirects args = Ret (drop_redirects args).
Proof.
  unfold delete_redirects.
  destruct (delete_loop_spec (length args) [] args 0 ltac:(lia)) as (b & Hb & Ht).
  cbn [length app Nat.add replicate] in Hb. rewrite app_nil_r in Hb. rewrite Hb.
  cbn [mbind outcome_bind]. by rewrite Ht.
Qed.

Lemma drop_redirects_filter args :
  no_adjacent_redirects args = true ->
  drop_redirects args = List.filter (fun a => negb (isRedirectArg a)) args.
Proof.
  induction args as [args IH] using (induction_ltof1 _ (@length string)). unfold ltof in IH.
  destruct args as [|a [|b rest]]; [done| |].
  - intros _. simpl. by destruct (isRedirectArg a).
  - cbn [no_adjacent_redirects]. intros [Hab%negb_true_iff Hr]%andb_prop.
    cbn [drop_redirects List.filter]. destruct (isRedirectArg a) eqn:Ha.
    + simpl in Hab. rewrite Hab. simpl. f_equal. apply IH; [cbn; lia|].
      by apply andb_prop in Hr as [_ Hr].
    + cbn [negb]. f_equal. apply (IH (b :: rest)); [cbn; lia|exact Hr].
Qed.

(** ** Properties of the building blocks *)

(** Adding a secret to a compatible volume: the call returns, the secret
    is one of the sources of the volume afterwards, every secret mounted
    before is still mounted, no other volume and no container changes, the
    volume list grows by at most the volume itself, and a second call with
    the same arguments changes nothing. *)
Theorem addProjectedSecretSourceVolume_mounts (vol secret : string) (spec : PodSpec) :
  compatible vol spec ->
  exists spec', addProjectedSecretSourceVolume vol secret spec = Ret spec' /\
    mounts spec' vol secret = true /\ preserves [vol] spec spec' /\
    map Volume_Name (Volumes spec') =
      map Volume_Name (Volumes spec) ++ (if find_volume vol (Volumes spec) then [] else [vol]) /\
    addProjectedSecretSourceVolume vol secret spec' = Ret spec'.
Proof.
  intros Hc. destruct (add_volume_step [vol] vol secret spec) as (spec' & Ha & Hm & Hp & Hc');
    [repeat constructor; exact Hc|set_solver|].
  exists spec'. split; [done|]. split; [done|]. split; [done|]. split.
  - destruct (add_volume_find vol secret spec Hc) as (s & ? & ? & Hs & _ & _ & _ & _ & _ & _ & Hn).
    congruence.
  - apply add_volume_mounted; [|done]. by inversion Hc'.
Qed.

(** The two cases in which the secret does not reach the pod.  An existing
    volume of that name which is not projected: the call returns normally and
    leaves the pod as it was, without the secret.  A projected volume with a
    source that is not a secret (a config map, a service account token)
    before any source with the secret's name: the call dereferences nil. *)
Theorem addProjectedSecretSourceVolume_lost (vol secret : string) (spec : PodSpec) (i : nat) (v : Volume) :
  find_volume vol (Volumes spec) = Some (i, v) ->
  match Volume_Projected v with
  | None => addProjectedSecretSourceVolume vol secret spec = Ret spec /\ mounts spec vol secret = false
  | Some sources =>
      forall before s after, sources = before ++ s :: after -> VP_Secret s = None ->
        Forall (fun x => is_Some (VP_Secret x)) before -> existsb (projects secret) before = false ->
        exists why, addProjectedSecretSourceVolume vol secret spec = Panic why
  end.
Proof.
  unfold addProjectedSecretSourceVolume, mounts. intros ->.
  destruct v as [n [sources|]]; simpl; [|done].
  intros before s after -> Hs Hb Hn.
  assert (Hscan : exists why, scan_sources secret (before ++ s :: after) = Panic why).
  { induction Hb as [|x before [p Hp] _ IH]; simpl; [rewrite Hs; by eexists|].
    cbn [existsb] in Hn. apply orb_false_iff in Hn as [Hx Hn]. unfold projects in Hx.
    rewrite Hp in Hx |- *. rewrite Hx. by apply IH. }
  destruct Hscan as [why Hw]. destruct (before ++ s :: after) eqn:E; [by destruct before|].
  rewrite Hw. by exists why.
Qed.

(** The loop that removes the redirect arguments while ranging over them
    never panics.  It removes every redirect argument when no two of them are
    adjacent; of two adjacent ones it keeps the second. *)
Theorem delete_redirects_spec (args : list string) :
  delete_redirects args = Ret (drop_redirects args) /\
  (no_adjacent_redirects args = true ->
     drop_redirects args = List.filter (fun a => negb (isRedirectArg a)) args) /\
  (forall before a b after, args = before ++ a :: b :: after ->
     Forall (fun x => isRedirectArg x = false) before -> isRedirectArg a = true -> isRedirectArg b = true ->
     drop_redirects args = before ++ b :: drop_redirects after).
Proof.
  split; [apply delete_redirects_eq|]. split; [apply drop_redirects_filter|].
  intros before a b after -> Hb Ha _. induction Hb as [|x before Hx _ IH]; cbn [app drop_redirects].
  - by rewrite Ha.
  - by rewrite Hx, IH.
Qed.

(** ** Witnesses *)

Module VolumeExamples.

(** A pod that already projects a secret and a service account token. *)
Definition with_volume (sources : option (list VolumeProjection)) : PodSpec :=
  mkPodSpec [mkVolume "data" None; mkVolume constants.Oauth2VolumeName sources] [] [].

Definition token_source : VolumeProjection := mkVolumeProjection None (Some "token").

End VolumeExamples.

Lemma addProjectedSecretSourceVolume_mounts_witness :
  exists spec', addProjectedSecretSourceVolume constants.Oauth2VolumeName "s"
                  (VolumeExamples.with_volume (Some [secret_source "other"])) = Ret spec' /\
    mounts spec' constants.Oauth2VolumeName "s" = true /\
    mounts spec' constants.Oauth2VolumeName "other" = true.
Proof.
  destruct (addProjectedSecretSourceVolume_mounts constants.Oauth2VolumeName "s"
              (VolumeExamples.with_volume (Some [secret_source "other"])))
    as (spec' & Ha & Hm & Hp & _).
  - vm_compute. repeat constructor. by eexists.
  - exists spec'. split; [exact Ha|]. split; [exact Hm|]. by apply (proj1 Hp).
Defined.

Lemma addProjectedSecretSourceVolume_lost_witness :
  addProjectedSecretSourceVolume constants.Oauth2VolumeName "s" (VolumeExamples.with_volume None) =
    Ret (VolumeExamples.with_volume None) /\
  exists why, addProjectedSecretSourceVolume constants.Oauth2VolumeName "s"
    (VolumeExamples.with_volume (Some [secret_source "other"; VolumeExamples.token_source])) = Panic why.
Proof.
  split.
  - exact (proj1 (addProjectedSecretSourceVolume_lost constants.Oauth2VolumeName "s"
                    (VolumeExamples.with_volume None) 1 _ eq_refl)).
  - apply (addProjectedSecretSourceVolume_lost constants.Oauth2VolumeName "s"
             (VolumeExamples.with_volume (Some [secret_source "other"; VolumeExamples.token_source]))
             1 _ eq_refl [secret_source "other"] VolumeExamples.token_source []); try reflexivity.
    repeat constructor. by eexists.
Defined.

Lemma delete_redirects_spec_witness :
  delete_redirects ["--a"; "--redirect-url=x"; "--redirect-url=y"; "--b"] = Ret ["--a"; "--redirect-url=y"; "--b"].
Proof.
  destruct (delete_redirects_spec ["--a"; "--redirect-url=x"; "--redirect-url=y"; "--b"]) as (Hd & _ & H).
  transitivity (Ret (drop_redirects ["--a"; "--redirect-url=x"; "--redirect-url=y"; "--b"])); [exact Hd|].
  exact (f_equal Ret (H ["--a"] "--redirect-url=x" "--redirect-url=y" ["--b"] eq_refl
                        ltac:(repeat constructor) eq_refl eq_refl)).
Defined.
