(* ===== verification/PodWebhookSpec.v ===== *)
(** * What the pod webhook promises

    The pod that [mutate_pod] admits, as a whole: metadata, volumes,
    containers, pull secrets; re-admission changes nothing; the decision of
    [Default]; the upstream URL and the arguments of the proxies. *)

From S2P Require Import Prelude GoStrings RandUtils Kube Constants Vendor Reference Configuration.
From S2P Require Import ConfigurationSpec WebhookModifiers PodWebhook WebhookSpec.

(** ** Specifications *)

Definition is_proxy (c : Container) : bool :=
  named constants.ContainerNameOauth2Proxy c || named constants.ContainerNameKubeRbacProxy c.

(** The containers of the application. *)
Definition user_containers (cs : list Container) : list Container :=
  List.filter (fun c => negb (is_proxy c)) cs.

(** Each proxy occurs at most once, as in a fresh or an admitted pod. *)
Definition proxies_once (cs : list Container) : Prop :=
  count_named constants.ContainerNameOauth2Proxy cs <= 1 /\
  count_named constants.ContainerNameKubeRbacProxy cs <= 1.

Definition admitted_meta `{Vendor} (rc : ResolvedConfig) (m : ObjectMeta) : ObjectMeta :=
  addPodLabels
    (addPodAnnotations (addAnnotations m rc) (Some {[ constants.AnnotationHostKey := GetHost rc ]}))
    (Some {[ constants.LabelKey := "pod" ]}).

(** The suffix of the secrets mounted into the pods of [owner]. *)
Definition owner_suffix (owner : Object) : string := fst (fetchTargetSuffix (obj_meta owner)).

(** The pull secrets, with the configured one added once. *)
Definition admitted_pull_secrets (name : string) (l : list string) : list string :=
  if String.eqb name EmptyString || existsb (fun s => String.eqb s name) l then l else l ++ [name].

Section Sidecars.
Context `{Vendor} `{OSEnv}.

(** The oauth2-proxy container: a pod of a StatefulSet has its redirect
    arguments replaced by the one of its own host. *)
Definition oauth2_sidecar (rc : ResolvedConfig) (pod : Pod) (spec : PodSpec) : Container :=
  let base := getOIDCProxyContainer (Some spec) rc in
  match map_get (Labels (Pod_Meta pod)) podNameLabel with
  | None => base
  | Some podName =>
      set_args (drop_redirects (Container_Args base) ++
                ["--redirect-url=https://" +:+ redirect_host rc podName +:+ "/oauth2/callback"]) base
  end.

Definition rbac_sidecar (rc : ResolvedConfig) (pod : Pod) (spec : PodSpec) : Container :=
  getKubeRbacProxyContainer (GetClientID rc) (GetOidcIssuerURL rc)
    (buildUpstreamURL (GetUpstreamTarget rc) (Pod_Spec pod)) (Some (mkPod (Pod_Meta pod) spec)) rc.

(** The admitted pod, given the specification with its volumes in place. *)
Definition admitted_pod (pullSecret : string) (rc : ResolvedConfig) (pod : Pod) (spec : PodSpec) : Pod :=
  mkPod (admitted_meta rc (Pod_Meta pod))
    (mkPodSpec (Volumes spec)
       (user_containers (Containers (Pod_Spec pod)) ++ [oauth2_sidecar rc pod spec; rbac_sidecar rc pod spec])
       (admitted_pull_secrets pullSecret (ImagePullSecrets (Pod_Spec pod)))).

End Sidecars.

Section Metadata.
Context `{Vendor}.

(** The suffix the pod's annotation gets: the pod's own one. *)
Definition pod_suffix (m : ObjectMeta) : string :=
  default (GenerateSha256 (Name m +:+ "-" +:+ Namespace m))
    (map_get (Annotations m) constants.AnnotationSuffixKey).

Definition admitted_annotations (rc : ResolvedConfig) (m : ObjectMeta) : gmap string string :=
  <[constants.AnnotationHostKey := GetHost rc]>
  (<[constants.AnnotationOauth2SecretChecksumKey := get2ProxySecretChecksum rc]>
  (<[constants.AnnotationSuffixKey := pod_suffix m]>
  (<[constants.AnnotationTargetKey := GetUpstreamTarget rc]>
  (<[constants.AnnotationHostKey := GetHost rc]>
  (<[constants.AnnotationKey := Name m]> (map_contents (Annotations m))))))).

End Metadata.

(** The command line arguments the pattern describes: two dashes, a lower
    case letter, at least one more letter, digit or dash, and optionally an
    equals sign and a value on one line. *)
Definition well_formed_arg (s : string) : Prop :=
  exists c name value, s = "--" +:+ String c (name +:+ value) /\ is_lower c = true /\
    name <> EmptyString /\ string_forallb arg_name_char name = true /\
    (value = EmptyString \/ exists v, value = "=" +:+ v /\ no_char "010" v = true).

(** The port of the first container port with the given name. *)
Definition port_named (name : string) (spec : PodSpec) : option Z :=
  option_map ContainerPort_Port
    (find_first (fun p => String.eqb (ContainerPort_Name p) name) (flat_map Container_Ports (Containers spec))).

Definition upstream_protocol (rc : ResolvedConfig) : string :=
  if String.eqb (TargetProtocol (rc_target rc)) "https" then "https" else "http".

Section AdmissionSpec.
Context {W : Type} `{ClientReads W} `{Vendor} `{OSEnv}.

(** What a lookup finds in the cluster [w]; every failure counts as absent. *)
Definition found (w : W) (k : Kind) (namespace name : string) : option (kobj k) :=
  match fst (cl_Get k (mkNN namespace name) w) with Ret o => Some o | _ => None end.

Definition workload_kind (o : OwnerReference) : bool :=
  String.eqb (OwnerReference_Kind o) "StatefulSet" || String.eqb (OwnerReference_Kind o) "ReplicaSet".

(** The workload of a pod: its StatefulSet, or the Deployment that owns its
    ReplicaSet; only the first owner of either kind counts. *)
Definition workload (w : W) (pod : Pod) : option Object :=
  let ns := Namespace (Pod_Meta pod) in
  match find_first workload_kind (OwnerReferences (Pod_Meta pod)) with
  | None => None
  | Some o =>
      if String.eqb (OwnerReference_Kind o) "StatefulSet" then
        option_map StatefulSetObject (found w KStatefulSet ns (OwnerReference_Name o))
      else
        match found w KReplicaSet ns (OwnerReference_Name o) with
        | Some (mkReplicaSet (mkObjectMeta _ _ _ _ _ (ref :: _) _ _)) =>
            if String.eqb (OwnerReference_Kind ref) "Deployment"
            then option_map DeploymentObject (found w KDeployment ns (OwnerReference_Name ref))
            else None
        | _ => None
        end
  end.

(** The admission decision as a function of the cluster state. *)
Definition pod_admission (w : W) (p : PodMutator) (pod : Pod) : outcome Pod :=
  if beingDeleted (Pod_Meta pod) then Ret pod
  else
    match workload w pod, PodMutator_Config p with
    | Some owner, Some c =>
        match find_first (selectsb w c owner) (Targets c) with
        | Some t => mutate_pod (ImagePullSecret p) (mkResolvedConfig t (Config_Global c) owner) owner pod
        | None => Ret pod
        end
    | _, _ => Ret pod
    end.

End AdmissionSpec.

(** ** Lemmas on containers *)

Lemma remove_first_filter {A} (p : A -> bool) l :
  length (List.filter p l) <= 1 -> remove_first p l = List.filter (fun x => negb (p x)) l.
Proof.
  induction l as [|x l IH]; simpl; [done|]. destruct (p x); simpl; intros Hl.
  - assert (List.filter p l = []) as Hn by (destruct (List.filter p l); simpl in *; [done|lia]).
    clear IH Hl. induction l as [|y l IH]; simpl in *; [done|].
    destruct (p y); [done|]. simpl. f_equal. by apply IH.
  - by rewrite IH.
Qed.

Lemma filter_filter {A} (p q : A -> bool) l :
  List.filter p (List.filter q l) = List.filter (fun x => q x && p x) l.
Proof.
  induction l as [|x l IH]; simpl; [done|]. destruct (q x); simpl; [|done]. destruct (p x); by rewrite IH.
Qed.

Lemma filter_length_le {A} (p q : A -> bool) l :
  length (List.filter p (List.filter q l)) <= length (List.filter p l).
Proof.
  induction l as [|x l IH]; simpl; [lia|]. destruct (q x), (p x) eqn:E; simpl; rewrite ?E; simpl; lia.
Qed.

(** Replacing the two proxies. *)
Lemma replace_proxies cs o k :
  proxies_once cs -> Container_Name o = constants.ContainerNameOauth2Proxy ->
  remove_first (named constants.ContainerNameKubeRbacProxy)
    (remove_first (named constants.ContainerNameOauth2Proxy) cs ++ [o]) ++ [k] =
  user_containers cs ++ [o; k].
Proof.
  intros [Ho Hk] Hn. unfold count_named in *.
  assert (Hok : named constants.ContainerNameKubeRbacProxy o = false) by (unfold named; by rewrite Hn).
  rewrite (remove_first_filter (named constants.ContainerNameOauth2Proxy)) by done.
  rewrite remove_first_filter.
  - rewrite filter_app, filter_filter. cbn [List.filter]. rewrite Hok. cbn [negb].
    rewrite <- app_assoc. f_equal. unfold user_containers. apply filter_ext. intros c.
    unfold is_proxy. by rewrite negb_orb.
  - rewrite filter_app. cbn [List.filter]. rewrite Hok, app_nil_r.
    etrans; [apply filter_length_le|done].
Qed.

Lemma user_containers_app cs ds : user_containers (cs ++ ds) = user_containers cs ++ user_containers ds.
Proof. apply filter_app. Qed.

Lemma user_containers_idem cs : user_containers (user_containers cs) = user_containers cs.
Proof.
  unfold user_containers. rewrite filter_filter. apply filter_ext. intros c. by destruct (is_proxy c).
Qed.

Lemma user_not_named name cs :
  name = constants.ContainerNameOauth2Proxy \/ name = constants.ContainerNameKubeRbacProxy ->
  List.filter (named name) (user_containers cs) = [].
Proof.
  intros Hn. unfold user_containers. rewrite filter_filter.
  induction cs as [|c cs IH]; simpl; [done|]. unfold is_proxy.
  destruct Hn as [-> | ->]; destruct (named constants.ContainerNameOauth2Proxy c),
    (named constants.ContainerNameKubeRbacProxy c); done.
Qed.

Lemma fix_redirect_user host cs o rest :
  Container_Name o = constants.ContainerNameOauth2Proxy ->
  fix_redirect host (user_containers cs ++ o :: rest) =
  Ret (user_containers cs ++
       set_args (drop_redirects (Container_Args o) ++
                 ["--redirect-url=https://" +:+ host +:+ "/oauth2/callback"]) o :: rest).
Proof.
  intros Ho. induction cs as [|c cs IH].
  - cbn [user_containers List.filter app fix_redirect]. rewrite Ho. cbn [String.eqb].
    change (String.eqb constants.ContainerNameOauth2Proxy "oauth2-proxy") with true. cbv iota.
    by rewrite delete_redirects_eq.
  - change (user_containers (c :: cs)) with
      (if negb (is_proxy c) then c :: user_containers cs else user_containers cs).
    unfold is_proxy. destruct (named constants.ContainerNameOauth2Proxy c) eqn:Ec; [exact IH|].
    destruct (named constants.ContainerNameKubeRbacProxy c); [exact IH|].
    cbn [orb negb app fix_redirect]. unfold named, constants.ContainerNameOauth2Proxy in Ec.
    by rewrite Ec, IH.
Qed.

Section ProxyLemmas.
Context `{Vendor} `{OSEnv}.

(** Only the containers of the proxy's name count for its requests. *)
Lemma proxy_requests_filter name cs :
  proxy_requests name cs = proxy_requests name (List.filter (named name) cs).
Proof.
  unfold proxy_requests. generalize (Some (<["cpu" := MustParse "5m"]> (<["memory" := MustParse "32Mi"]> ∅))
    : GoMap Quantity). induction cs as [|c cs IH]; intros acc; [done|].
  cbn [List.filter fold_left]. change (named name c) with (String.eqb (Container_Name c) name).
  destruct (String.eqb (Container_Name c) name) eqn:E; cbn [negb fold_left]; rewrite ?E; apply IH.
Qed.

Lemma rbac_container_ext id url up rc m m' s s' :
  Volumes s = Volumes s' ->
  List.filter (named constants.ContainerNameKubeRbacProxy) (Containers s) =
    List.filter (named constants.ContainerNameKubeRbacProxy) (Containers s') ->
  getKubeRbacProxyContainer id url up (Some (mkPod m s)) rc =
  getKubeRbacProxyContainer id url up (Some (mkPod m' s')) rc.
Proof.
  intros Hv Hc. unfold getKubeRbacProxyContainer. cbn [Pod_Spec].
  rewrite Hv, (proxy_requests_filter _ (Containers s)), Hc, <- proxy_requests_filter. done.
Qed.

Lemma oauth2_container_ext rc s s' :
  List.filter (named constants.ContainerNameOauth2Proxy) (Containers s) =
    List.filter (named constants.ContainerNameOauth2Proxy) (Containers s') ->
  getOIDCProxyContainer (Some s) rc = getOIDCProxyContainer (Some s') rc.
Proof.
  intros Hc. unfold getOIDCProxyContainer.
  rewrite (proxy_requests_filter _ (Containers s)), Hc, <- proxy_requests_filter. done.
Qed.

Lemma addImagePullSecret_spec name spec :
  addImagePullSecret name spec = set_pull_secrets (admitted_pull_secrets name (ImagePullSecrets spec)) spec.
Proof.
  unfold addImagePullSecret, admitted_pull_secrets. destruct spec as [v c l]. cbn [ImagePullSecrets].
  destruct (String.eqb name EmptyString); [done|]. cbn [orb].
  destruct l as [|x l]; [done|]. cbn [length Nat.eqb]. by destruct (existsb _ _).
Qed.

Lemma admitted_pull_secrets_idem name l :
  admitted_pull_secrets name (admitted_pull_secrets name l) = admitted_pull_secrets name l.
Proof.
  unfold admitted_pull_secrets at 2 3. destruct (String.eqb name EmptyString || _) eqn:E.
  - unfold admitted_pull_secrets. by rewrite E.
  - unfold admitted_pull_secrets. rewrite existsb_app. cbn [existsb].
    by rewrite String.eqb_refl, !orb_true_r.
Qed.

Lemma oauth2_sidecar_name rc pod spec :
  Container_Name (oauth2_sidecar rc pod spec) = constants.ContainerNameOauth2Proxy.
Proof. unfold oauth2_sidecar. by destruct (map_get _ _). Qed.

Lemma rbac_sidecar_name rc pod spec :
  Container_Name (rbac_sidecar rc pod spec) = constants.ContainerNameKubeRbacProxy.
Proof. done. Qed.

Lemma map_get_add_label {V} (m : GoMap V) k v k' :
  k <> k' -> map_get (Some (map_copy (map_or_make m) (Some {[ k := v ]}))) k' = map_get m k'.
Proof.
  intros Hk. cbn [map_get]. unfold map_or_make. rewrite map_copy_lookup. cbn [map_get].
  rewrite lookup_singleton_ne by done. by rewrite map_get_contents.
Qed.

Lemma two_sidecars spec base k :
  proxies_once (Containers spec) -> Container_Name base = constants.ContainerNameOauth2Proxy ->
  addProxyContainer constants.ContainerNameKubeRbacProxy
    (addProxyContainer constants.ContainerNameOauth2Proxy spec base) k =
  set_containers (user_containers (Containers spec) ++ [base; k]) spec.
Proof.
  intros Honce Hb. pose proof (replace_proxies _ base k Honce Hb) as Hr.
  unfold addProxyContainer, set_containers. cbn [Containers]. by rewrite Hr.
Qed.

(** Adding the first sidecar does not change the second one. *)
Lemma rbac_after_oauth2 id url up rc m m' spec base :
  proxies_once (Containers spec) -> Container_Name base = constants.ContainerNameOauth2Proxy ->
  getKubeRbacProxyContainer id url up
    (Some (mkPod m (addProxyContainer constants.ContainerNameOauth2Proxy spec base))) rc =
  getKubeRbacProxyContainer id url up (Some (mkPod m' spec)) rc.
Proof.
  intros Honce Hb. apply rbac_container_ext; [done|]. cbn [Containers addProxyContainer set_containers].
  rewrite remove_first_filter by apply Honce.
  rewrite filter_app, filter_filter. cbn [List.filter].
  replace (named constants.ContainerNameKubeRbacProxy base) with false by (unfold named; by rewrite Hb).
  rewrite app_nil_r. apply filter_ext. intros c. unfold named.
  destruct (String.eqb_spec (Container_Name c) constants.ContainerNameOauth2Proxy) as [->|]; done.
Qed.

Lemma pull_secret_step pull spec :
  (if Nat.ltb 0 (String.length pull) then addImagePullSecret pull spec else spec) =
  set_pull_secrets (admitted_pull_secrets pull (ImagePullSecrets spec)) spec.
Proof. rewrite addImagePullSecret_spec. destruct spec. by destruct pull. Qed.

(** [mutate_pod] computes [admitted_pod] once the volumes are in place. *)
Lemma mutate_pod_eq pull rc owner pod spec :
  add_proxy_volumes (owner_suffix owner) rc (Pod_Spec pod) = Ret spec ->
  Containers spec = Containers (Pod_Spec pod) -> ImagePullSecrets spec = ImagePullSecrets (Pod_Spec pod) ->
  proxies_once (Containers (Pod_Spec pod)) ->
  mutate_pod pull rc owner pod = Ret (admitted_pod pull rc pod spec).
Proof.
  intros Hv Hc Hp Honce. unfold mutate_pod, owner_suffix in *.
  destruct (fetchTargetSuffix (obj_meta owner)) as [suffix m']. cbn [fst] in Hv.
  rewrite Hv. cbn [mbind outcome_bind]. rewrite <- Hc in Honce.
  rewrite pull_secret_step, two_sidecars, (rbac_after_oauth2 _ _ _ _ _ (Pod_Meta pod)) by done.
  change (addPodLabels _ _) with (admitted_meta rc (Pod_Meta pod)).
  change (getKubeRbacProxyContainer _ _ _ _ _) with (rbac_sidecar rc pod spec).
  cbn [ImagePullSecrets set_containers]. rewrite Hc, Hp.
  replace (map_get (Labels (admitted_meta rc (Pod_Meta pod))) podNameLabel)
    with (map_get (Labels (Pod_Meta pod)) podNameLabel) by (symmetry; by apply map_get_add_label).
  unfold admitted_pod, oauth2_sidecar.
  destruct (map_get (Labels (Pod_Meta pod)) podNameLabel); [|done].
  cbn [Containers set_pull_secrets set_containers]. by rewrite fix_redirect_user.
Qed.

End ProxyLemmas.

(** ** Lemmas on the admitted pod *)

Lemma fix_redirect_total host cs : exists cs', fix_redirect host cs = Ret cs'.
Proof.
  induction cs as [|c cs [cs' IH]]; simpl; [by eexists|].
  destruct (String.eqb _ _).
  - rewrite delete_redirects_eq. by eexists.
  - rewrite IH. by eexists.
Qed.

Section Admission.
Context `{Vendor} `{OSEnv}.

(** Whatever the pod, the mutation fails only in the volume step; metadata
    and volumes do not depend on the containers. *)
Lemma mutate_pod_volumes pull rc owner pod spec :
  add_proxy_volumes (owner_suffix owner) rc (Pod_Spec pod) = Ret spec ->
  exists pod', mutate_pod pull rc owner pod = Ret pod' /\ Volumes (Pod_Spec pod') = Volumes spec /\
    Pod_Meta pod' = admitted_meta rc (Pod_Meta pod).
Proof.
  intros Hv. unfold mutate_pod, owner_suffix in *.
  destruct (fetchTargetSuffix (obj_meta owner)) as [suffix m']. cbn [fst] in Hv.
  rewrite Hv. cbn [mbind outcome_bind]. rewrite pull_secret_step.
  destruct (map_get (Labels (addPodLabels _ _)) podNameLabel) as [podIndex|]; [|by eexists].
  match goal with |- context [fix_redirect ?h ?cs] => destruct (fix_redirect_total h cs) as [cs' ->] end.
  by eexists.
Qed.

Lemma mutate_pod_inv pull rc owner pod pod' :
  mutate_pod pull rc owner pod = Ret pod' ->
  exists spec, add_proxy_volumes (owner_suffix owner) rc (Pod_Spec pod) = Ret spec /\
    Volumes (Pod_Spec pod') = Volumes spec /\ Pod_Meta pod' = admitted_meta rc (Pod_Meta pod).
Proof.
  intros Hm. destruct (add_proxy_volumes (owner_suffix owner) rc (Pod_Spec pod)) as [spec|e|p] eqn:Hv.
  - exists spec. split; [done|]. destruct (mutate_pod_volumes pull rc owner pod spec Hv) as (q & Hq & Hvol & Hmeta).
    rewrite Hm in Hq. injection Hq as ->. split; [exact Hvol|exact Hmeta].
  - unfold mutate_pod, owner_suffix in *. destruct (fetchTargetSuffix _). cbn [fst] in Hv.
    rewrite Hv in Hm. discriminate Hm.
  - unfold mutate_pod, owner_suffix in *. destruct (fetchTargetSuffix _). cbn [fst] in Hv.
    rewrite Hv in Hm. discriminate Hm.
Qed.

Lemma mounts_volumes s s' vol secret : Volumes s = Volumes s' -> mounts s vol secret = mounts s' vol secret.
Proof. unfold mounts. by intros ->. Qed.

Lemma compatible_volumes s s' vol : Volumes s = Volumes s' -> compatible vol s -> compatible vol s'.
Proof. unfold compatible. by intros ->. Qed.

Lemma ready_volumes s s' suffix rc :
  Volumes s = Volumes s' -> volumes_ready suffix rc s -> volumes_ready suffix rc s'.
Proof.
  intros Hv. unfold volumes_ready. apply Forall_impl. intros [v x]. cbn [fst snd]. by rewrite (mounts_volumes s s' v x Hv).
Qed.

Lemma named_user_proxy name cs o k :
  Container_Name o = constants.ContainerNameOauth2Proxy ->
  Container_Name k = constants.ContainerNameKubeRbacProxy ->
  List.filter (named name) (user_containers cs ++ [o; k]) =
  List.filter (named name) (user_containers cs) ++
  (if String.eqb name constants.ContainerNameOauth2Proxy then [o] else []) ++
  (if String.eqb name constants.ContainerNameKubeRbacProxy then [k] else []).
Proof.
  intros Ho Hk. rewrite filter_app. f_equal. cbn [List.filter]. unfold named. rewrite Ho, Hk.
  rewrite !(String.eqb_sym _ name).
  destruct (String.eqb name constants.ContainerNameOauth2Proxy), (String.eqb name _); done.
Qed.

Lemma proxies_once_admitted cs o k :
  Container_Name o = constants.ContainerNameOauth2Proxy ->
  Container_Name k = constants.ContainerNameKubeRbacProxy ->
  proxies_once (user_containers cs ++ [o; k]).
Proof.
  intros Ho Hk. unfold proxies_once, count_named.
  rewrite !(named_user_proxy _ cs o k) by done. rewrite !user_not_named by auto. cbn. lia.
Qed.

Lemma user_containers_admitted cs o k :
  Container_Name o = constants.ContainerNameOauth2Proxy ->
  Container_Name k = constants.ContainerNameKubeRbacProxy ->
  user_containers (user_containers cs ++ [o; k]) = user_containers cs.
Proof.
  intros Ho Hk. rewrite user_containers_app, user_containers_idem.
  unfold user_containers at 2. cbn [List.filter]. unfold is_proxy, named. rewrite Ho, Hk. cbn.
  by rewrite app_nil_r.
Qed.

End Admission.

(** ** Lemmas on metadata *)

Lemma insert_present {V} (m : gmap string V) k v : m !! k = Some v -> <[k := v]> m = m.
Proof. apply insert_id. Qed.

Lemma map_copy_singleton {V} (m : gmap string V) k v :
  map_copy m (Some {[ k := v ]}) = <[k := v]> m.
Proof. unfold map_copy. cbn. by rewrite insert_union_singleton_l. Qed.

Section MetaLemmas.
Context `{Vendor}.

Lemma suffix_seen rc m :
  fst (fetchTargetSuffix
    (if Nat.eqb (map_len (Annotations m)) 0 then m
     else set_annotations (Some (<[constants.AnnotationTargetKey := GetUpstreamTarget rc]>
       (<[constants.AnnotationHostKey := GetHost rc]>
       (<[constants.AnnotationKey := Name m]> (map_contents (Annotations m)))))) m)) = pod_suffix m.
Proof.
  unfold fetchTargetSuffix, pod_suffix, map_or_make. rewrite map_get_contents.
  destruct (Nat.eqb_spec (map_len (Annotations m)) 0) as [E|E].
  - rewrite (map_len_zero _ E). by rewrite lookup_empty.
  - cbn [set_annotations Annotations Name Namespace map_contents default from_option id].
    rewrite !lookup_insert_ne by done.
    by destruct (map_contents (Annotations m) !! constants.AnnotationSuffixKey).
Qed.

Lemma admitted_meta_eq rc m :
  admitted_meta rc m =
  set_labels (Some (<[constants.LabelKey := "pod"]> (map_contents (Labels m))))
    (set_annotations (Some (admitted_annotations rc m)) m).
Proof.
  unfold admitted_meta, addAnnotations. cbv zeta. unfold map_or_make. rewrite suffix_seen.
  unfold addPodAnnotations, addPodLabels, map_or_make. cbn [map_len].
  rewrite map_size_singleton. cbn [Nat.eqb]. by rewrite !map_copy_singleton.
Qed.

Lemma admitted_meta_label rc m k :
  k <> constants.LabelKey -> map_get (Labels (admitted_meta rc m)) k = map_get (Labels m) k.
Proof. intros Hk. by apply map_get_add_label. Qed.

Lemma admitted_meta_idem rc m : admitted_meta rc (admitted_meta rc m) = admitted_meta rc m.
Proof.
  rewrite (admitted_meta_eq rc m), admitted_meta_eq. destruct m as [n ns u l a o f d].
  unfold set_labels, set_annotations. cbn [Name Namespace UID Labels Annotations OwnerReferences Finalizers DeletionTimestamp].
  f_equal.
  - f_equal. cbn [map_contents default from_option id]. by rewrite insert_insert_eq.
  - f_equal. set (m := mkObjectMeta n ns u l a o f d).
    unfold admitted_annotations at 1.
    cbn [Name Annotations map_contents default from_option id].
    set (A := admitted_annotations rc m).
    assert (Hs : pod_suffix {| Name := n; Namespace := ns; UID := u;
        Labels := Some (<[constants.LabelKey := "pod"]> (map_contents l)); Annotations := Some A;
        OwnerReferences := o; Finalizers := f; DeletionTimestamp := d |} = pod_suffix m).
    { unfold pod_suffix at 1. cbn [Annotations map_get Name Namespace]. unfold A, admitted_annotations.
      rewrite !lookup_insert_ne by done. by rewrite lookup_insert_eq. }
    rewrite Hs. rewrite !(insert_present A); [done|..]; unfold A, admitted_annotations;
      repeat (rewrite lookup_insert_eq || rewrite lookup_insert_ne by done); done.
Qed.

End MetaLemmas.

(** ** Lemmas on re-admission *)

Lemma named_port_app port cs ds :
  named_port port (cs ++ ds) =
  match named_port port cs with Some n => Some n | None => named_port port ds end.
Proof. induction cs as [|c cs IH]; simpl; [done|]. by destruct (find_first _ _). Qed.

(** A resolved upstream does not change when containers are appended. *)
Lemma buildUpstreamURL_app target s s' ds :
  buildUpstreamURL target s <> EmptyString -> Containers s' = Containers s ++ ds ->
  buildUpstreamURL target s' = buildUpstreamURL target s.
Proof.
  unfold buildUpstreamURL. intros Hn ->. destruct (Cut target ",") as [[before after] f].
  destruct (CutPrefix before "protocol=") as [protocol g].
  destruct (CutPrefix after " port=") as [port h].
  destruct (Nat.eqb _ 0); [done|]. destruct (Atoi port); [done|].
  rewrite named_port_app. by destruct (named_port port (Containers s)).
Qed.

Section Readmission.
Context `{Vendor} `{OSEnv}.

Lemma oauth2_container_requests rc s s' :
  proxy_requests constants.ContainerNameOauth2Proxy (Containers s) =
    proxy_requests constants.ContainerNameOauth2Proxy (Containers s') ->
  getOIDCProxyContainer (Some s) rc = getOIDCProxyContainer (Some s') rc.
Proof. intros Hr. unfold getOIDCProxyContainer. by rewrite Hr. Qed.

Lemma rbac_container_requests id url up rc m m' s s' :
  Volumes s = Volumes s' ->
  proxy_requests constants.ContainerNameKubeRbacProxy (Containers s) =
    proxy_requests constants.ContainerNameKubeRbacProxy (Containers s') ->
  getKubeRbacProxyContainer id url up (Some (mkPod m s)) rc =
  getKubeRbacProxyContainer id url up (Some (mkPod m' s')) rc.
Proof. intros Hv Hr. unfold getKubeRbacProxyContainer. cbn [Pod_Spec]. by rewrite Hv, Hr. Qed.

(** A proxy with the default requests gets the default requests again. *)
Lemma proxy_requests_fixpoint name cs cs' c :
  List.filter (named name) cs = [] -> List.filter (named name) cs' = [c] ->
  Requests (Container_Resources c) = proxy_requests name cs ->
  proxy_requests name cs' = proxy_requests name cs.
Proof.
  intros Hcs Hcs' Hr. rewrite (proxy_requests_filter name cs), Hcs in Hr |- *.
  rewrite (proxy_requests_filter name cs'), Hcs'. revert Hr.
  unfold proxy_requests. cbn [fold_left]. intros ->.
  destruct (negb _); [done|]. by match goal with |- context [Z.ltb ?a ?b] => destruct (Z.ltb a b) end.
Qed.

Lemma admitted_requests pull rc pod spec name :
  user_containers (Containers (Pod_Spec pod)) = Containers (Pod_Spec pod) ->
  Containers spec = Containers (Pod_Spec pod) ->
  name = constants.ContainerNameOauth2Proxy \/ name = constants.ContainerNameKubeRbacProxy ->
  proxy_requests name (Containers (Pod_Spec (admitted_pod pull rc pod spec))) =
  proxy_requests name (Containers spec).
Proof.
  intros Hu Hcs Hn. cbn [admitted_pod Pod_Spec Containers].
  set (o := oauth2_sidecar rc pod spec). set (k := rbac_sidecar rc pod spec).
  assert (Hf : List.filter (named name) (Containers spec) = [])
    by (rewrite Hcs, <- Hu; by apply user_not_named).
  apply (proxy_requests_fixpoint name _ _ (if String.eqb name constants.ContainerNameOauth2Proxy then o else k) Hf).
  - rewrite (named_user_proxy name _ o k) by (done || apply oauth2_sidecar_name).
    rewrite user_not_named by done. by destruct Hn as [-> | ->].
  - destruct Hn as [-> | ->]; cbn [String.eqb]; [|done].
    change (String.eqb constants.ContainerNameOauth2Proxy constants.ContainerNameOauth2Proxy) with true.
    unfold o, oauth2_sidecar. by destruct (map_get _ _).
Qed.

Lemma admitted_pod_idem pull rc pod spec :
  user_containers (Containers (Pod_Spec pod)) = Containers (Pod_Spec pod) ->
  Containers spec = Containers (Pod_Spec pod) ->
  buildUpstreamURL (GetUpstreamTarget rc) (Pod_Spec pod) <> EmptyString ->
  let pod' := admitted_pod pull rc pod spec in
  admitted_pod pull rc pod' (Pod_Spec pod') = pod'.
Proof.
  intros Hu Hcs Hup pod'.
  assert (Ho : oauth2_sidecar rc pod' (Pod_Spec pod') = oauth2_sidecar rc pod spec).
  { unfold oauth2_sidecar. rewrite (oauth2_container_requests rc (Pod_Spec pod') spec) by
      (apply admitted_requests; auto).
    change (Pod_Meta pod') with (admitted_meta rc (Pod_Meta pod)).
    by rewrite admitted_meta_label. }
  assert (Hk : rbac_sidecar rc pod' (Pod_Spec pod') = rbac_sidecar rc pod spec).
  { unfold rbac_sidecar. rewrite (buildUpstreamURL_app _ (Pod_Spec pod) (Pod_Spec pod') _ Hup)
      by (unfold pod'; cbn [admitted_pod Pod_Spec Containers]; by rewrite Hu).
    apply rbac_container_requests; [done|]. apply admitted_requests; auto. }
  unfold admitted_pod at 1. rewrite Ho, Hk. unfold pod', admitted_pod.
  cbn [Pod_Meta Pod_Spec Volumes Containers ImagePullSecrets].
  by rewrite admitted_meta_idem, admitted_pull_secrets_idem,
    (user_containers_admitted _ _ _ (oauth2_sidecar_name _ _ _) (rbac_sidecar_name _ _ _)).
Qed.

End Readmission.

(** ** Properties of the admitted pod *)

Section Properties.
Context `{Vendor} `{OSEnv}.

(** C3. Every pod whose volumes named like the proxies' are projected secrets
    (or absent) is admitted, without error or panic, and then mounts every
    secret the two proxies need under the owner's suffix: the oauth2-proxy
    secret, the resource attributes, and the CA bundle, the client secret and
    the kubeconfig when they are configured.  What the pod mounted before it
    still mounts, and its other volumes are untouched. *)
Theorem mutate_pod_secrets (pull : string) (rc : ResolvedConfig) (owner : Object) (pod : Pod) :
  Forall (fun v => compatible v (Pod_Spec pod)) proxyVolumes ->
  exists pod', mutate_pod pull rc owner pod = Ret pod' /\
    volumes_ready (owner_suffix owner) rc (Pod_Spec pod') /\
    (forall vol s, mounts (Pod_Spec pod) vol s = true -> mounts (Pod_Spec pod') vol s = true) /\
    (forall name, name ∉ proxyVolumes ->
       find_volume name (Volumes (Pod_Spec pod')) = find_volume name (Volumes (Pod_Spec pod))).
Proof.
  intros Hc. destruct (add_proxy_volumes_spec (owner_suffix owner) rc (Pod_Spec pod) Hc)
    as (spec & Hv & (Hm & Hother & _) & Hr & _).
  destruct (mutate_pod_volumes pull rc owner pod spec Hv) as (pod' & Hp & Hvol & _).
  exists pod'. split; [exact Hp|]. split; [by apply (ready_volumes spec)|]. split.
  - intros vol s Hs. rewrite (mounts_volumes _ spec vol s Hvol). by apply Hm.
  - intros name Hn. rewrite Hvol. by apply Hother.
Qed.

(** C4. The containers of an admitted pod, for a pod in which each proxy occurs
    at most once: the application's containers, all of them, unchanged and in
    their order, then exactly one oauth2-proxy and one kube-rbac-proxy built
    from the configuration.  In a pod of a StatefulSet the oauth2-proxy has
    its redirect argument replaced by the one of the pod's own host.  The
    configured pull secret is present and no other is lost. *)
Theorem mutate_pod_containers (pull : string) (rc : ResolvedConfig) (owner : Object) (pod : Pod) :
  Forall (fun v => compatible v (Pod_Spec pod)) proxyVolumes ->
  proxies_once (Containers (Pod_Spec pod)) ->
  exists pod' spec, mutate_pod pull rc owner pod = Ret pod' /\
    Volumes spec = Volumes (Pod_Spec pod') /\ Containers spec = Containers (Pod_Spec pod) /\
    Containers (Pod_Spec pod') = user_containers (Containers (Pod_Spec pod)) ++
      [oauth2_sidecar rc pod spec; rbac_sidecar rc pod spec] /\
    ImagePullSecrets (Pod_Spec pod') = admitted_pull_secrets pull (ImagePullSecrets (Pod_Spec pod)) /\
    (pull <> EmptyString -> In pull (ImagePullSecrets (Pod_Spec pod'))) /\
    incl (ImagePullSecrets (Pod_Spec pod)) (ImagePullSecrets (Pod_Spec pod')).
Proof.
  intros Hc Honce. destruct (add_proxy_volumes_spec (owner_suffix owner) rc (Pod_Spec pod) Hc)
    as (spec & Hv & (_ & _ & Hcs & Hps) & _ & _).
  exists (admitted_pod pull rc pod spec), spec.
  split; [by apply mutate_pod_eq|]. do 4 (split; [done|]).
  cbn [admitted_pod Pod_Spec ImagePullSecrets]. unfold admitted_pull_secrets.
  destruct (String.eqb_spec pull EmptyString); cbn [orb]; [by split; [|apply incl_refl]|].
  destruct (existsb _ _) eqn:E.
  - split; [|apply incl_refl]. intros _. by apply existsb_exists in E as (x & Hx & ->%String.eqb_eq).
  - split; [intros _; apply in_or_app; right; by left|]. intros x Hx. apply in_or_app. by left.
Qed.

(** C5. Re-admission (the webhook is registered with reinvocation): admitting
    an admitted pod again returns the same pod, when the pod came without
    proxies and its upstream port resolves. *)
Theorem mutate_pod_idempotent (pull : string) (rc : ResolvedConfig) (owner : Object) (pod pod' : Pod) :
  Forall (fun v => compatible v (Pod_Spec pod)) proxyVolumes ->
  user_containers (Containers (Pod_Spec pod)) = Containers (Pod_Spec pod) ->
  buildUpstreamURL (GetUpstreamTarget rc) (Pod_Spec pod) <> EmptyString ->
  mutate_pod pull rc owner pod = Ret pod' ->
  mutate_pod pull rc owner pod' = Ret pod'.
Proof.
  intros Hc Hu Hup Hm. destruct (add_proxy_volumes_spec (owner_suffix owner) rc (Pod_Spec pod) Hc)
    as (spec & Hv & (_ & _ & Hcs & Hps) & Hr & Hc').
  assert (Honce : proxies_once (Containers (Pod_Spec pod))).
  { unfold proxies_once, count_named. rewrite <- Hu, !user_not_named by auto. cbn. lia. }
  rewrite (mutate_pod_eq pull rc owner pod spec) in Hm by done. injection Hm as <-.
  set (pod' := admitted_pod pull rc pod spec). assert (Hvol : Volumes spec = Volumes (Pod_Spec pod')) by done.
  rewrite (mutate_pod_eq pull rc owner pod' (Pod_Spec pod')); [|..|done|].
  - f_equal. by apply (admitted_pod_idem pull rc pod spec).
  - apply add_proxy_volumes_ready; [|by apply (ready_volumes spec)].
    revert Hc'. apply Forall_impl. intros v. by apply compatible_volumes.
  - done.
  - apply proxies_once_admitted; [apply oauth2_sidecar_name|done].
Qed.

(** Metadata of an admitted pod.  The component label is set and all other
    labels survive; the host, target and component annotations and the
    checksum of the proxy's configuration are those of the resolved
    configuration, and foreign annotations survive.  The suffix annotation
    is the pod's own (the one it had, or the digest of its own name): it
    does not depend on the owner, whose suffix names the mounted secrets. *)
Theorem mutate_pod_metadata (pull : string) (rc : ResolvedConfig) (owner : Object) (pod pod' : Pod) :
  mutate_pod pull rc owner pod = Ret pod' ->
  let m := Pod_Meta pod in let m' := Pod_Meta pod' in
  Name m' = Name m /\ Namespace m' = Namespace m /\ OwnerReferences m' = OwnerReferences m /\
  map_get (Labels m') constants.LabelKey = Some "pod" /\
  (forall k, k <> constants.LabelKey -> map_get (Labels m') k = map_get (Labels m) k) /\
  map_get (Annotations m') constants.AnnotationKey = Some (Name m) /\
  map_get (Annotations m') constants.AnnotationHostKey = Some (GetHost rc) /\
  map_get (Annotations m') constants.AnnotationTargetKey = Some (GetUpstreamTarget rc) /\
  map_get (Annotations m') constants.AnnotationOauth2SecretChecksumKey = Some (get2ProxySecretChecksum rc) /\
  map_get (Annotations m') constants.AnnotationSuffixKey = Some (pod_suffix m) /\
  (forall k, HasPrefix k "oidc-application-controller/" = false ->
     map_get (Annotations m') k = map_get (Annotations m) k).
Proof.
  intros Hm. cbv zeta. apply mutate_pod_inv in Hm as (spec & _ & _ & ->).
  rewrite admitted_meta_eq. unfold set_labels, set_annotations, admitted_annotations.
  cbn [Name Namespace Labels Annotations OwnerReferences]. rewrite !map_get_contents.
  cbn [map_contents default from_option id].
  do 3 (split; [done|]). split; [by rewrite lookup_insert_eq|].
  split; [intros k Hk; rewrite !map_get_contents; by apply lookup_insert_ne|].
  do 5 (split; [repeat (rewrite lookup_insert_eq || rewrite lookup_insert_ne by done); done|]).
  intros k Hk. rewrite !map_get_contents. cbn [map_contents default from_option id].
  rewrite !lookup_insert_ne; [done|..]; by intros <-.
Qed.

End Properties.

(** ** Lemmas on the decision *)

Section DecisionLemmas.
Context {W : Type} `{ClientReads W} `{Vendor} `{OSEnv}.

Lemma try_get k ns name w :
  exists r, try_ (cl_Get k (mkNN ns name)) w = (Ret r, w) /\
    found w k ns name = match r with inr o => Some o | inl _ => None end.
Proof.
  unfold try_, found. pose proof (get_pure k (mkNN ns name) w) as Hp.
  pose proof (get_no_panic k (mkNN ns name) w) as Hn.
  destruct (cl_Get k (mkNN ns name) w) as [[o|e|p] w']; simpl in *; subst w'.
  - by exists (inr o).
  - by exists (inl e).
  - by destruct (Hn p).
Qed.

Lemma Match_option w cfg o :
  Match cfg o w = (Ret match cfg with Some c => existsb (selectsb w c o) (Targets c) | None => false end, w).
Proof. destruct cfg; [apply Match_existsb|done]. Qed.

Lemma isTarget_spec w cfg pod :
  isTarget cfg pod w =
  (Ret match workload w pod with
       | Some owner => (match cfg with Some c => existsb (selectsb w c owner) (Targets c) | None => false end,
                        Some owner)
       | None => (false, None)
       end, w).
Proof.
  unfold isTarget, workload. cbv zeta. generalize (Namespace (Pod_Meta pod)) as ns. intros ns.
  induction (OwnerReferences (Pod_Meta pod)) as [|o os IH]; [done|].
  cbn [isTarget_loop find_first]. unfold workload_kind at 1.
  destruct (String.eqb (OwnerReference_Kind o) "StatefulSet") eqn:Es; cbn [orb].
  - rewrite Es. destruct (try_get KStatefulSet ns (OwnerReference_Name o) w) as (r & Hr & ->).
    rewrite (M_bind_ret _ _ _ _ _ Hr). destruct r as [e|s]; [done|].
    by rewrite (M_bind_ret _ _ _ _ _ (Match_option w cfg (StatefulSetObject s))).
  - destruct (String.eqb (OwnerReference_Kind o) "ReplicaSet") eqn:Er; [|exact IH].
    rewrite Es. destruct (try_get KReplicaSet ns (OwnerReference_Name o) w) as (r & Hr & ->).
    rewrite (M_bind_ret _ _ _ _ _ Hr). destruct r as [e|[[n ns' u l a [|ref refs] f d]]]; [done..|].
    cbn [ReplicaSet_Meta OwnerReferences].
    destruct (String.eqb (OwnerReference_Kind ref) "Deployment"); cbn [negb]; [|done].
    destruct (try_get KDeployment ns (OwnerReference_Name ref) w) as (r & Hr' & ->).
    rewrite (M_bind_ret _ _ _ _ _ Hr'). destruct r as [e|d']; [done|].
    by rewrite (M_bind_ret _ _ _ _ _ (Match_option w cfg (DeploymentObject d'))).
Qed.

Lemma find_first_filter {A} (p : A -> bool) l : find_first p l = head (List.filter p l).
Proof. induction l as [|x l IH]; simpl; [done|]. by destruct (p x). Qed.

(** C6. [Default] refines [pod_admission] and never writes: a pod that is
    being deleted, that has no workload in the cluster, or whose workload no
    target selects is admitted as it is; otherwise it is mutated with the
    first target that selects the workload.  The nil-owner dereference is
    unreachable. *)
Theorem PodMutator_Default_refines (w : W) (p : PodMutator) (pod : Pod) :
  PodMutator_Default p pod w = (pod_admission w p pod, w).
Proof.
  unfold PodMutator_Default, pod_admission. destruct (beingDeleted (Pod_Meta pod)); [done|].
  rewrite (M_bind_ret _ _ _ _ _ (isTarget_spec w (PodMutator_Config p) pod)).
  destruct (workload w pod) as [owner|]; [|done].
  destruct (PodMutator_Config p) as [c|]; [|done].
  rewrite find_first_filter, existsb_filter. 
  destruct (Resolve_total w c owner) as (t & Hr & Ht). rewrite FetchTarget_head in Ht.
  destruct (List.filter (selectsb w c owner) (Targets c)) as [|t' ts]; [done|].
  rewrite (M_bind_ret _ _ _ _ _ Hr). cbn in Ht. by injection Ht as <-.
Qed.

End DecisionLemmas.

(** ** Upstream and arguments *)

Lemma named_port_flat name cs :
  named_port name cs = option_map ContainerPort_Port
    (find_first (fun p => String.eqb (ContainerPort_Name p) name) (flat_map Container_Ports cs)).
Proof.
  induction cs as [|c cs IH]; simpl; [done|]. rewrite IH.
  induction (Container_Ports c) as [|q qs IHq]; simpl; [done|]. by destruct (String.eqb _ _).
Qed.

Lemma buildUpstreamURL_port protocol port spec :
  no_char "," protocol = true ->
  buildUpstreamURL ("protocol=" +:+ protocol +:+ ", port=" +:+ port) spec =
  if String.eqb port EmptyString then protocol +:+ "://localhost"
  else match Atoi port with
       | Some _ => protocol +:+ "://localhost:" +:+ port
       | None => match port_named port spec with
                 | Some n => protocol +:+ "://localhost:" +:+ Itoa n
                 | None => EmptyString
                 end
       end.
Proof.
  intros Hp. unfold buildUpstreamURL.
  replace ("protocol=" +:+ protocol +:+ ", port=" +:+ port)
    with (("protocol=" +:+ protocol) +:+ String "," (" port=" +:+ port)) by apply sapp_assoc.
  rewrite Cut_app by (by rewrite no_char_app, Hp).
  rewrite !CutPrefix_app. rewrite named_port_flat.
  destruct port as [|c port]; [done|]. cbn [String.length Nat.eqb String.eqb].
  unfold port_named. destruct (Atoi (String c port)); [done|]. by destruct (option_map _ _).
Qed.

(** The upstream of the proxy: for a numeric port that port of localhost,
    for a named port the number of the first container port of that name in
    the pod (the empty URL when there is none), over https exactly when the
    target says so. *)
Theorem upstream_of_target `{VendorLaws} (rc : ResolvedConfig) (spec : PodSpec) :
  let url := buildUpstreamURL (GetUpstreamTarget rc) spec in
  match TargetPort (rc_target rc) with
  | FromInt n => (0 <= n < 2 ^ 31)%Z -> url = upstream_protocol rc +:+ "://localhost:" +:+ Itoa n
  | FromString name =>
      if String.eqb name EmptyString then url = upstream_protocol rc +:+ "://localhost"
      else match Atoi name, port_named name spec with
           | Some _, _ => url = upstream_protocol rc +:+ "://localhost:" +:+ name
           | None, Some n => url = upstream_protocol rc +:+ "://localhost:" +:+ Itoa n
           | None, None => url = EmptyString
           end
  end.
Proof.
  cbv zeta. unfold GetUpstreamTarget. fold (upstream_protocol rc).
  assert (Hp : no_char "," (upstream_protocol rc) = true)
    by (unfold upstream_protocol; by destruct (String.eqb _ _)).
  rewrite buildUpstreamURL_port by done.
  destruct (TargetPort (rc_target rc)) as [n|name].
  - intros Hn. rewrite String_int, Atoi_Itoa by lia.
    destruct (String.eqb_spec (Itoa n) EmptyString) as [E|]; [|done].
    assert (Hl : String.length (Itoa n) <> 0); [|by rewrite E in Hl].
    rewrite Itoa_nonneg by lia. destruct (itoa_N_cases (Z.to_N n)) as [[_ ->] | (c & s & -> & _)]; done.
  - rewrite String_string. destruct (String.eqb name EmptyString); [done|].
    by destruct (Atoi name), (port_named name spec).
Qed.

Lemma arg_rest_spec seen s :
  arg_rest seen s = true <->
  exists name value, s = name +:+ value /\ (seen = true \/ name <> EmptyString) /\
    string_forallb arg_name_char name = true /\
    (value = EmptyString \/ exists v, value = "=" +:+ v /\ no_char "010" v = true).
Proof.
  revert seen. induction s as [|c s IH]; intros seen; cbn [arg_rest].
  - split.
    + intros ->. exists EmptyString, EmptyString. auto.
    + intros (name & value & He & [->|Hn] & _); [done|]. by destruct name.
  - destruct (arg_name_char c) eqn:Hc.
    + rewrite IH. split.
      * intros (name & value & -> & _ & Hf & Hv). exists (String c name), value.
        split; [done|]. split; [by right|]. split; [|done]. cbn. by rewrite Hc.
      * intros ([|x name] & value & He & Hs & Hf & Hv).
        -- destruct Hv as [->|(v & -> & _)]; [done|]. injection He as -> _. done.
        -- injection He as -> ->. cbn in Hf. apply andb_prop in Hf as [_ Hf].
           exists name, value. auto.
    + split.
      * intros Hb. apply andb_prop in Hb as [Hb Hv]. apply andb_prop in Hb as [->%Ascii.eqb_eq ->].
        exists EmptyString, (String "=" s). split; [done|]. split; [by left|]. split; [done|].
        right. by exists s.
      * intros ([|x name] & value & He & Hs & Hf & Hv).
        -- destruct Hv as [->|(v & -> & Hv)]; [done|]. injection He as -> ->.
           destruct Hs as [->|]; [|done]. by rewrite Hv.
        -- injection He as <- _. cbn in Hf. by rewrite Hc in Hf.
Qed.

Lemma oauth2ProxyArgPattern_spec s : oauth2ProxyArgPattern s = true <-> well_formed_arg s.
Proof.
  unfold well_formed_arg. split.
  - intros Hp.
    assert (exists c rest, s = "--" +:+ String c rest /\ is_lower c && arg_rest false rest = true)
      as (c & rest & -> & Hr).
    { unfold oauth2ProxyArgPattern in Hp.
      repeat match type of Hp with (match ?x with _ => _ end) = _ => destruct x; try discriminate Hp end.
      by do 2 eexists. }
    apply andb_prop in Hr as [Hc Hr]. apply arg_rest_spec in Hr as (name & value & -> & [|Hn] & Hf & Hv); [done|].
    exists c, name, value. auto.
  - intros (c & name & value & -> & Hc & Hn & Hf & Hv).
    change (is_lower c && arg_rest false (name +:+ value) = true). rewrite Hc. cbn [andb].
    apply arg_rest_spec. exists name, value. auto.
Qed.

(** Only well-formed user arguments reach the oauth2-proxy: its command
    line is the fixed one, with the CA file when a CA is mounted, followed by
    exactly those configured extra arguments, in their order, that have the
    form of a long option with a value free of line feeds. *)
Theorem oauth2_proxy_args `{Vendor} `{OSEnv} (spec : PodSpec) (rc : ResolvedConfig) :
  exists fixed,
    Container_Args (getOIDCProxyContainer (Some spec) rc) =
      fixed ++ List.filter oauth2ProxyArgPattern (GetExtraArgs rc) /\
    length fixed = 13 + (if shallAddOidcCaSecretName rc then 1 else 0) /\
    (shallAddOidcCaSecretName rc = true <-> In "--provider-ca-file=/etc/oauth2-proxy/ca.crt" fixed) /\
    (forall arg, In arg (GetExtraArgs rc) ->
       well_formed_arg arg <-> In arg (List.filter oauth2ProxyArgPattern (GetExtraArgs rc))).
Proof.
  unfold getOIDCProxyContainer. cbv zeta. cbn [Container_Args].
  match goal with |- exists fixed, ?f ++ ?e = _ /\ _ => exists f end.
  split; [done|]. split; [by destruct (shallAddOidcCaSecretName rc)|]. split.
  - destruct (shallAddOidcCaSecretName rc).
    + split; [|done]. intros _. apply in_or_app. right. by left.
    + split; [done|]. intros Hin. exfalso. cbn [In] in Hin.
      repeat (destruct Hin as [Hin|Hin]; [discriminate Hin|]). done.
  - intros arg Hin. rewrite filter_In, oauth2ProxyArgPattern_spec. tauto.
Qed.

(** ** Witnesses on the reference instance *)

#[local] Existing Instances Ref.vendor Ref.vendor_laws Ref.client Ref.client_reads Ref.env.

Module PodExamples.

Definition app : Container :=
  mkContainer "app" "app:1" EmptyString ["--redirect-url-of-the-app"] [mkContainerPort "web" 8080] None
    (mkResources None) [].

Definition pod1 : Pod :=
  mkPod
    (mkObjectMeta "prometheus-0" "mon" "uid-p" (Some {[ podNameLabel := "prometheus-0" ]}) None
       [mkOwnerReference "StatefulSet" "prometheus" "uid-s"] [] None)
    (mkPodSpec [mkVolume "data" None] [app] []).

Definition prometheus : StatefulSet :=
  mkStatefulSet (Ref.meta1 "prometheus" "mon" "uid-s" (Ref.labels1 "app" "prometheus")) None.

Definition rc1 : ResolvedConfig :=
  mkResolvedConfig
    (mkTarget "prometheus" None (Some (mkLabelSelector (Ref.labels1 "app" "prometheus") []))
       (FromString "web") "http" None emptyGlobal)
    Examples.global1 (StatefulSetObject prometheus).

Definition rc_port : ResolvedConfig :=
  mkResolvedConfig Examples.monitoring Examples.global1 (StatefulSetObject prometheus).

Definition config2 : OIDCAppsControllerConfig := mkConfig Examples.global1 [rc_target rc1] true.

Definition cluster2 : Ref.cluster := Ref.put KStatefulSet prometheus Ref.empty_cluster.

End PodExamples.

Lemma pod1_compatible : Forall (fun v => compatible v (Pod_Spec PodExamples.pod1)) proxyVolumes.
Proof. repeat constructor. Qed.

Lemma mutate_pod_secrets_witness :
  exists pod', mutate_pod "pull" PodExamples.rc1 (StatefulSetObject PodExamples.prometheus) PodExamples.pod1 = Ret pod' /\
    find_volume "data" (Volumes (Pod_Spec pod')) = Some (0, mkVolume "data" None).
Proof.
  destruct (mutate_pod_secrets "pull" PodExamples.rc1 (StatefulSetObject PodExamples.prometheus)
              PodExamples.pod1 pod1_compatible) as (pod' & Hp & _ & _ & Hv).
  exists pod'. split; [exact Hp|]. apply (Hv "data").
  intros Hin. apply list_elem_of_In in Hin. simpl in Hin. by repeat destruct Hin as [Hin|Hin].
Defined.

Lemma mutate_pod_containers_witness :
  exists pod', mutate_pod "pull" PodExamples.rc1 (StatefulSetObject PodExamples.prometheus) PodExamples.pod1 = Ret pod' /\
    map Container_Name (Containers (Pod_Spec pod')) = ["app"; "oauth2-proxy"; "kube-rbac-proxy"] /\
    In "pull" (ImagePullSecrets (Pod_Spec pod')).
Proof.
  destruct (mutate_pod_containers "pull" PodExamples.rc1 (StatefulSetObject PodExamples.prometheus)
              PodExamples.pod1 pod1_compatible) as (pod' & spec & Hp & _ & _ & Hc & _ & Hpull & _).
  - split; vm_compute; repeat constructor.
  - exists pod'. split; [exact Hp|]. split; [|apply Hpull; done].
    rewrite Hc, map_app. cbn [map]. by rewrite oauth2_sidecar_name, rbac_sidecar_name.
Defined.

Lemma mutate_pod_metadata_witness :
  exists pod', mutate_pod EmptyString PodExamples.rc1 (StatefulSetObject PodExamples.prometheus) PodExamples.pod1 = Ret pod' /\
    map_get (Annotations (Pod_Meta pod')) constants.AnnotationSuffixKey = Some (GenerateSha256 "prometheus-0-mon") /\
    GenerateSha256 "prometheus-0-mon" <> owner_suffix (StatefulSetObject PodExamples.prometheus).
Proof.
  destruct (mutate_pod_volumes EmptyString PodExamples.rc1 (StatefulSetObject PodExamples.prometheus)
              PodExamples.pod1 _ eq_refl) as (pod' & Hp & _).
  exists pod'. split; [exact Hp|].
  destruct (mutate_pod_metadata _ _ _ _ _ Hp) as (_ & _ & _ & _ & _ & _ & _ & _ & _ & Hs & _).
  split; [exact Hs|]. vm_compute. congruence.
Defined.

Lemma mutate_pod_idempotent_witness :
  exists pod', mutate_pod "pull" PodExamples.rc1 (StatefulSetObject PodExamples.prometheus) PodExamples.pod1 = Ret pod' /\
    mutate_pod "pull" PodExamples.rc1 (StatefulSetObject PodExamples.prometheus) pod' = Ret pod'.
Proof.
  destruct (mutate_pod_volumes "pull" PodExamples.rc1 (StatefulSetObject PodExamples.prometheus)
              PodExamples.pod1 _ eq_refl) as (pod' & Hp & _).
  exists pod'. split; [exact Hp|].
  apply (mutate_pod_idempotent "pull" _ _ PodExamples.pod1).
  - exact pod1_compatible.
  - reflexivity.
  - vm_compute. congruence.
  - exact Hp.
Defined.

Lemma upstream_of_target_witness :
  buildUpstreamURL (GetUpstreamTarget PodExamples.rc_port) (Pod_Spec PodExamples.pod1) = "http://localhost:3000".
Proof.
  refine ((upstream_of_target PodExamples.rc_port (Pod_Spec PodExamples.pod1)
    : (0 <= 3000 < 2 ^ 31)%Z -> _ = "http://localhost:3000") _).
  split; [discriminate|reflexivity].
Defined.

Lemma PodMutator_Default_refines_witness :
  PodMutator_Default (mkPodMutator EmptyString (Some PodExamples.config2)) PodExamples.pod1 PodExamples.cluster2 =
  (mutate_pod EmptyString PodExamples.rc1 (StatefulSetObject PodExamples.prometheus) PodExamples.pod1,
   PodExamples.cluster2).
Proof.
  etransitivity; [apply (PodMutator_Default_refines PodExamples.cluster2
    (mkPodMutator EmptyString (Some PodExamples.config2)) PodExamples.pod1)|].
  vm_compute. reflexivity.
Defined.

Lemma oauth2_proxy_args_witness :
  exists fixed, Container_Args (getOIDCProxyContainer (Some (Pod_Spec PodExamples.pod1)) PodExamples.rc1) = fixed /\
    length fixed = 13.
Proof.
  destruct (oauth2_proxy_args (Pod_Spec PodExamples.pod1) PodExamples.rc1) as (fixed & Ha & Hl & _).
  exists fixed. split; [|exact Hl]. rewrite Ha. apply app_nil_r.
Defined.
