(* ===== verification/VpaWebhookSpec.v ===== *)
(** * What the autoscaler webhook promises

    The container policies of an admitted VerticalPodAutoscaler, the decision
    of [Default], and its stability under reinvocation. *)

From S2P Require Import Prelude GoStrings Kube Constants Vendor Reference Configuration.
From S2P Require Import ConfigurationSpec WebhookModifiers PodWebhook WebhookSpec PodWebhookSpec.
From S2P Require Import VpaWebhook.

(** ** Specifications *)

Definition off_policies : list ContainerResourcePolicy :=
  map (fun name => mkPolicy name (Some "Off"))
    [constants.ContainerNameOauth2Proxy; constants.ContainerNameKubeRbacProxy].

Definition app_policy (p : ContainerResourcePolicy) : bool := negb (isProxyName (Policy_ContainerName p)).

Definition set_policies (ps : list ContainerResourcePolicy) (vpa : VerticalPodAutoscaler) : VerticalPodAutoscaler :=
  mkVPA (VPA_Meta vpa) (VPA_TargetRef vpa) (Some ps).

Section VpaSpec.
Context {W : Type} `{ClientReads W} `{Vendor}.

Definition selected (w : W) (cfg : option OIDCAppsControllerConfig) (o : Object) : bool :=
  match cfg with Some c => existsb (selectsb w c o) (Targets c) | None => false end.

(** The workload an autoscaler refers to, if it exists. *)
Definition referenced (w : W) (ns : string) (ref : CrossVersionObjectReference) : option Object :=
  if String.eqb (TargetRef_Kind ref) "Deployment" then
    option_map DeploymentObject (found w KDeployment ns (TargetRef_Name ref))
  else if String.eqb (TargetRef_Kind ref) "StatefulSet" then
    option_map StatefulSetObject (found w KStatefulSet ns (TargetRef_Name ref))
  else None.

(** Whether the proxies of the autoscaler's target must not be scaled. *)
Definition governs (w : W) (cfg : option OIDCAppsControllerConfig) (vpa : VerticalPodAutoscaler) : bool :=
  negb (beingDeleted (VPA_Meta vpa)) &&
  match VPA_TargetRef vpa with
  | None => false
  | Some ref =>
      selected w cfg (VPAObject vpa) ||
      match referenced w (Namespace (VPA_Meta vpa)) ref with
      | Some o => selected w cfg o
      | None => false
      end
  end.

Definition vpa_admission (w : W) (cfg : option OIDCAppsControllerConfig) (vpa : VerticalPodAutoscaler)
  : VerticalPodAutoscaler :=
  if governs w cfg vpa then set_policies (vpa_policies (default [] (VPA_ResourcePolicy vpa))) vpa else vpa.

End VpaSpec.

(** ** Lemmas *)

Lemma vpa_policies_eq ps : vpa_policies ps = List.filter app_policy ps ++ off_policies.
Proof.
  unfold vpa_policies. f_equal. apply filter_ext. intros p. unfold app_policy, isProxyName.
  by rewrite negb_orb.
Qed.

Lemma vpa_policies_idem ps : vpa_policies (vpa_policies ps) = vpa_policies ps.
Proof.
  rewrite !vpa_policies_eq. f_equal. rewrite filter_app. cbn. rewrite app_nil_r, filter_filter.
  apply filter_ext. intros p. by destruct (app_policy p).
Qed.

Section VpaLemmas.
Context {W : Type} `{ClientReads W} `{Vendor}.

Lemma isTargetRefMatched_spec w cfg ns ref :
  isTargetRefMatched cfg ns ref w =
  (Ret match referenced w ns ref with Some o => selected w cfg o | None => false end, w).
Proof.
  unfold isTargetRefMatched, referenced.
  destruct (String.eqb (TargetRef_Kind ref) "Deployment");
    [|destruct (String.eqb (TargetRef_Kind ref) "StatefulSet"); [|done]].
  - destruct (try_get KDeployment ns (TargetRef_Name ref) w) as (r & Hr & ->).
    rewrite (M_bind_ret _ _ _ _ _ Hr). destruct r; [done|apply Match_option].
  - destruct (try_get KStatefulSet ns (TargetRef_Name ref) w) as (r & Hr & ->).
    rewrite (M_bind_ret _ _ _ _ _ Hr). destruct r; [done|apply Match_option].
Qed.

Lemma governs_set_policies w cfg ps vpa : governs w cfg (set_policies ps vpa) = governs w cfg vpa.
Proof. done. Qed.

Lemma VPAMutator_Default_eq w v vpa :
  VPAMutator_Default v vpa w = (Ret (vpa_admission w (VPAMutator_Config v) vpa), w).
Proof.
  unfold VPAMutator_Default, vpa_admission, governs. destruct (beingDeleted (VPA_Meta vpa)); [done|].
  cbn [negb andb]. destruct (VPA_TargetRef vpa) as [ref|] eqn:Hr; [|done].
  rewrite (M_bind_ret _ _ _ _ _ (Match_option w (VPAMutator_Config v) (VPAObject vpa))).
  fold (selected w (VPAMutator_Config v) (VPAObject vpa)).
  destruct (selected w (VPAMutator_Config v) (VPAObject vpa)); cbn [orb].
  - unfold mret, M_ret, mbind, M_bind. cbn. unfold set_policies. by rewrite Hr.
  - rewrite (M_bind_ret _ _ _ _ _ (isTargetRefMatched_spec w _ _ ref)).
    destruct (referenced _ _ _) as [o|]; [|done].
    destruct (selected w (VPAMutator_Config v) o); [|done]. unfold set_policies. by rewrite Hr.
Qed.

(** The autoscaler webhook refines [vpa_admission]: it never fails and
    never writes; it acts exactly on an autoscaler that is not being deleted
    and that a target selects, directly or through the Deployment or
    StatefulSet it refers to, and leaves every other one as it is. *)
Theorem VPAMutator_Default_refines (w : W) (v : VPAMutator) (vpa : VerticalPodAutoscaler) :
  VPAMutator_Default v vpa w = (Ret (vpa_admission w (VPAMutator_Config v) vpa), w).
Proof. apply VPAMutator_Default_eq. Qed.

(** C25. On an autoscaler it acts on, the webhook keeps every policy of another
    container, in order, and leaves exactly one policy for each proxy, with
    scaling off; metadata and target are untouched, and a reinvocation on the
    result changes nothing. *)
Theorem VPAMutator_Default_policies (w : W) (v : VPAMutator) (vpa : VerticalPodAutoscaler) :
  governs w (VPAMutator_Config v) vpa = true ->
  exists vpa' ps', VPAMutator_Default v vpa w = (Ret vpa', w) /\
    VPA_Meta vpa' = VPA_Meta vpa /\ VPA_TargetRef vpa' = VPA_TargetRef vpa /\
    VPA_ResourcePolicy vpa' = Some ps' /\
    List.filter app_policy ps' = List.filter app_policy (default [] (VPA_ResourcePolicy vpa)) /\
    List.filter (fun p => negb (app_policy p)) ps' = off_policies /\
    VPAMutator_Default v vpa' w = (Ret vpa', w).
Proof.
  intros Hg. set (ps := default [] (VPA_ResourcePolicy vpa)).
  exists (set_policies (vpa_policies ps) vpa), (vpa_policies ps).
  rewrite !VPAMutator_Default_eq. unfold vpa_admission. rewrite governs_set_policies, Hg.
  do 4 (split; [done|]). rewrite vpa_policies_eq, !filter_app, !filter_filter. split; [|split].
  - cbn. rewrite app_nil_r. apply filter_ext. intros p. by destruct (app_policy p).
  - cbn. replace (List.filter _ ps) with (@nil ContainerResourcePolicy); [done|].
    induction ps as [|p l IH]; [done|]. cbn [List.filter]. by destruct (app_policy p).
  - cbn [set_policies VPA_ResourcePolicy default from_option id].
    rewrite <- vpa_policies_eq, vpa_policies_idem. done.
Qed.

End VpaLemmas.

(** ** Witness *)

#[local] Existing Instances Ref.vendor Ref.client Ref.client_reads.

Module VpaExamples.

Definition vpa1 : VerticalPodAutoscaler :=
  mkVPA (Ref.meta1 "vpa" "mon" "uid-v" None) (Some (mkTargetRef "Deployment" "grafana"))
    (Some [mkPolicy "oauth2-proxy" (Some "Auto"); mkPolicy "*" None]).

End VpaExamples.

Lemma VPAMutator_Default_policies_witness :
  exists vpa', VPAMutator_Default (mkVPAMutator (Some Examples.config1)) VpaExamples.vpa1 Examples.cluster1 =
    (Ret vpa', Examples.cluster1) /\ VPA_TargetRef vpa' = Some (mkTargetRef "Deployment" "grafana").
Proof.
  destruct (VPAMutator_Default_policies Examples.cluster1 (mkVPAMutator (Some Examples.config1)) VpaExamples.vpa1)
    as (vpa' & _ & Hd & _ & Ht & _).
  - vm_compute. reflexivity.
  - exists vpa'. split; [exact Hd|exact Ht].
Defined.
