(* ===== verification/ControllerObjects.v ===== *)
(** * The objects the controllers maintain

    [pkg/controllers/oidc-apps-secrets.go], [oidc-apps-services.go],
    [oidc-apps-httproutes.go] and [addOptionalIndex] of [modifiers.go].  A
    [...Object] function builds the empty object under its name; a [mutate...]
    function, run on the stored or the empty object, returns the desired one. *)

From S2P Require Import Prelude GoStrings Base64 RandUtils Kube Constants Vendor Configuration.
From S2P Require Import Templates PodWebhook.

Definition digest_suffix (o : Object) : string := GenerateSha256 (GetName o +:+ "-" +:+ GetNamespace o).

(** The labels of the managed objects. *)
Definition component_labels : gmap string string := {[ constants.LabelKey := constants.LabelValue ]}.

Definition secret_labels (value : string) : gmap string string :=
  <[constants.SecretLabelKey := value]> component_labels.

(** A secret, service or route with a name and a namespace only. *)
Definition newSecret (name namespace : string) : Secret := mkSecret (nameMeta name namespace) EmptyString None None.
Definition newService (name namespace : string) : Service := mkService (nameMeta name namespace) [] None.
Definition newHTTPRoute (name namespace : string) : HTTPRoute := mkHTTPRoute (nameMeta name namespace) [] [] [].

Definition relabel (l : gmap string string) (m : ObjectMeta) : ObjectMeta := set_labels (Some l) m.

(** ** Secrets *)

Definition oauth2SecretObject (object : Object) : Secret :=
  newSecret (constants.SecretNameOauth2Proxy +:+ "-" +:+ digest_suffix object) (GetNamespace object).

Definition oauth2_opts (rc : ResolvedConfig) : list OptOauth2 :=
  [WithClientID (GetClientID rc);
   WithScope (GetScope rc);
   WithRedirectURL (GetRedirectURL rc);
   WithOidcIssuerURL (GetOidcIssuerURL rc);
   EnableSslInsecureSkipVerify (GetSslInsecureSkipVerify rc);
   EnableInsecureOidcSkipIssuerVerification (GetInsecureOidcSkipIssuerVerification rc);
   EnableInsecureOidcSkipNonce (GetInsecureOidcSkipNonce rc)] ++
  [if negb (String.eqb (GetClientSecretName rc) EmptyString)
   then WithClientSecretFile constants.Oauth2ClientSecretFile
   else if negb (String.eqb (GetClientSecret rc) EmptyString)
   then WithClientSecret (GetClientSecret rc)
   else WithClientSecretFile "/dev/null"].

Definition oauth2_cfg (rc : ResolvedConfig) : string := Parse (NewOAuth2Config (oauth2_opts rc)).

Section Secrets.
Context {W : Type} `{Client W}.

Definition mutateOauth2Secret (secret : Secret) (rc : ResolvedConfig) : M W Secret :=
  let oauth2Cfg := oauth2_cfg rc in
  let checksum := GenerateFullSha256 oauth2Cfg in
  let cookieSecret := default EmptyString (map_get (Secret_Data secret) constants.Oauth2CookieSecretKey) in
  cookieSecret ← (if Nat.eqb (String.length cookieSecret) 0 then GenerateRandomString 32
                  else mret cookieSecret);
  mret (mkSecret
    (set_annotations (Some {[ constants.AnnotationOauth2SecretChecksumKey := checksum ]})
       (relabel (secret_labels constants.Oauth2LabelValue) (Secret_Meta secret)))
    (Secret_Type secret)
    (Some (<[constants.Oauth2CookieSecretKey := cookieSecret]> {[ "oauth2-proxy.cfg" := oauth2Cfg ]}))
    (Secret_StringData secret)).

End Secrets.

Definition resourceAttributesSecretObject (object : Object) : Secret :=
  newSecret (constants.SecretNameResourceAttributes +:+ "-" +:+ digest_suffix object) (GetNamespace object).

(** A secret whose string data holds one entry. *)
Definition with_string_data (label key value : string) (secret : Secret) : Secret :=
  mkSecret (relabel (secret_labels label) (Secret_Meta secret)) (Secret_Type secret) (Secret_Data secret)
    (Some {[ key := value ]}).

Definition mutateResourceAttributesSecret `{Yaml3} (secret : Secret) (object : Object) (targetNamespace : string)
  : Secret :=
  let cfg := root_Parse (NewResourceAttributes [WithNamespace targetNamespace; WithSubresource (GetName object)]) in
  with_string_data constants.RbacLabelValue "config-file.yaml" cfg secret.

Definition kubeconfigSecretObject (object : Object) : Secret :=
  newSecret (constants.SecretNameKubeconfig +:+ "-" +:+ digest_suffix object) (GetNamespace object).

(** The error of a corrupt encoding is represented without its offset. *)
Definition CorruptInputError : error := ErrorString "illegal base64 data".

Definition mutateKubeconfigSecret `{Vendor} (secret : Secret) (rc : ResolvedConfig) : outcome Secret :=
  match Base64.DecodeString (GetKubeConfigStr rc) with
  | None => Err (Errorf "kubeconfig is not base64 encoded" CorruptInputError)
  | Some decodestr =>
      match yaml_Unmarshal_ClientConfig decodestr with
      | inl e => Err (Errorf ("kubeconfig " +:+ decodestr +:+ ", is not in the expected format") e)
      | inr kubeConfig =>
          Ret (with_string_data constants.KubeconfigLabelValue "kubeconfig"
                 (yaml_Marshal_ClientConfig kubeConfig) secret)
      end
  end.

Definition oidcCaBundleSecretObject (object : Object) : Secret :=
  newSecret (constants.SecretNameOidcCa +:+ "-" +:+ digest_suffix object) (GetNamespace object).

Definition mutateOidcCaBundleSecret (secret : Secret) (rc : ResolvedConfig) : Secret :=
  with_string_data constants.OidcCa2LabelValue "ca.crt" (GetOidcCABundle rc) secret.

Definition needsKubeconfigSecret (rc : ResolvedConfig) : bool := negb (String.eqb (GetKubeConfigStr rc) EmptyString).
Definition needsOidcCaBundleSecret (rc : ResolvedConfig) : bool := negb (String.eqb (GetOidcCABundle rc) EmptyString).

(** ** Services *)

Definition addOptionalIndex (idx : string) : string :=
  if String.eqb idx "-" then EmptyString
  else
    let '(idxStr, ok) := CutSuffix idx "-" in
    if negb ok then EmptyString
    else match ParseInt0 idxStr 32 with
         | None => EmptyString
         | Some i => Itoa i +:+ "-"
         end.

Definition fetchStrIndexIfPresent (object : Object) : string :=
  match map_get (GetLabels object) podNameLabel with
  | Some idx => last_elem (Split idx "-")
  | None => EmptyString
  end.

Definition oauth2ServiceObject (object : Object) : Service :=
  let suffix := digest_suffix object in
  let index := fetchStrIndexIfPresent object in
  newService (constants.ServiceNameOauth2Service +:+ "-" +:+ addOptionalIndex (index +:+ "-") +:+ suffix)
    (GetNamespace object).

Definition mutateOauth2Service (svc : Service) (selectors : GoMap string) : Service :=
  mkService (relabel component_labels (Service_Meta svc))
    [mkServicePort "http" 8080 (FromString "oauth2")] selectors.

(** ** Routes *)

Definition convertParentRefs (refs : list HTTPRouteParentRef) : list ParentReference :=
  let non_empty (s : string) := if negb (String.eqb s EmptyString) then Some s else None in
  map (fun ref => mkParentReference (ParentRef_Name ref) (non_empty (ParentRef_Namespace ref))
                    (non_empty (ParentRef_SectionName ref))) refs.

Definition redirectRule (defaultPath : string) : HTTPRouteRule :=
  mkRule [mkPathMatch PathMatchExact "/"] [mkRedirect defaultPath 302] [].

Definition applyHTTPRouteDefaultPathRedirect (httpRoute : HTTPRoute) (rc : ResolvedConfig) : HTTPRoute :=
  let defaultPath := GetHTTPRouteDefaultPath rc in
  if String.eqb defaultPath EmptyString then httpRoute
  else mkHTTPRoute (HTTPRoute_Meta httpRoute) (HTTPRoute_ParentRefs httpRoute) (HTTPRoute_Hostnames httpRoute)
         (redirectRule defaultPath :: HTTPRoute_Rules httpRoute).

(** The part both mutations share: labels, annotations, one rule to the
    backend, the redirect, then the configured labels over the others. *)
Definition route_with `{OSEnv} (httpRoute : HTTPRoute) (rc : ResolvedConfig) (host backend : string) : HTTPRoute :=
  let meta := relabel component_labels (HTTPRoute_Meta httpRoute) in
  let annotations := GetHTTPRouteAnnotations rc in
  let meta := if Nat.ltb 0 (map_len annotations) then set_annotations annotations meta else meta in
  let route := mkHTTPRoute meta (convertParentRefs (GetHTTPRouteParentRefs rc)) [host]
    [mkRule [mkPathMatch PathMatchPathPrefix "/"] [] [mkBackendRef backend 8080]] in
  let route := applyHTTPRouteDefaultPathRedirect route rc in
  mkHTTPRoute (relabel (map_copy component_labels (GetHTTPRouteLabels rc)) (HTTPRoute_Meta route))
    (HTTPRoute_ParentRefs route) (HTTPRoute_Hostnames route) (HTTPRoute_Rules route).

Definition httpRouteForDeploymentObject (object : Object) : HTTPRoute :=
  newHTTPRoute (constants.HTTPRouteName +:+ "-" +:+ digest_suffix object) (GetNamespace object).

Definition mutateHTTPRouteForDeployment `{OSEnv} (httpRoute : HTTPRoute) (object : Object) (rc : ResolvedConfig)
  : HTTPRoute :=
  route_with httpRoute rc (GetHost rc)
    (constants.ServiceNameOauth2Service +:+ "-" +:+ digest_suffix object).

Definition httpRouteForStatefulSetPodObject (pod : Pod) (object : Object) : HTTPRoute :=
  let suffix := digest_suffix (PodObject pod) in
  let index := fetchStrIndexIfPresent (PodObject pod) in
  newHTTPRoute (constants.HTTPRouteName +:+ "-" +:+ addOptionalIndex (index +:+ "-") +:+ suffix)
    (GetNamespace object).

Definition mutateHTTPRouteForStatefulSetPod `{OSEnv} (httpRoute : HTTPRoute) (pod : Pod) (rc : ResolvedConfig)
  : outcome HTTPRoute :=
  let suffix := digest_suffix (PodObject pod) in
  let index := fetchStrIndexIfPresent (PodObject pod) in
  match map_get (Annotations (Pod_Meta pod)) constants.AnnotationHostKey with
  | None =>
      Err (ErrorString ("host annotation not found in pod " +:+ Namespace (Pod_Meta pod) +:+ "/" +:+
                        Name (Pod_Meta pod)))
  | Some hostPrefix =>
      let '(host, domain, _) := Cut hostPrefix "." in
      let podHost := host +:+ "-" +:+ index +:+ "." +:+ domain in
      Ret (route_with httpRoute rc podHost
             (constants.ServiceNameOauth2Service +:+ "-" +:+ addOptionalIndex (index +:+ "-") +:+ suffix))
  end.
