(* ===== verification/ControllerObjectsSpec.v ===== *)
(** * What the maintained objects promise

    The secrets, services and routes of a target fit the pods the webhook
    admits: names, checksums, ports and hosts agree, the cookie secret is
    stable, a referenced client secret is never written out. *)

From S2P Require Import Prelude GoStrings Base64 RandUtils Kube Constants Vendor Reference.
From S2P Require Import Configuration ConfigurationSpec Templates WebhookModifiers PodWebhook.
From S2P Require Import WebhookSpec PodWebhookSpec ControllerObjects.

(** ** Specifications *)

(** The configuration the oauth2-proxy of a target runs with: the secret is
    read from the mounted file when it is referenced, is written into the
    configuration when it is given inline, and is empty otherwise. *)
Definition proxy_config (rc : ResolvedConfig) : oauth2Config :=
  let '(file, secret) :=
    if negb (String.eqb (GetClientSecretName rc) EmptyString) then (constants.Oauth2ClientSecretFile, EmptyString)
    else if negb (String.eqb (GetClientSecret rc) EmptyString) then (EmptyString, GetClientSecret rc)
    else ("/dev/null", EmptyString) in
  mkOauth2Config (GetClientID rc) file secret (GetScope rc) (GetRedirectURL rc) (GetOidcIssuerURL rc)
    (GetSslInsecureSkipVerify rc) (GetInsecureOidcSkipIssuerVerification rc) (GetInsecureOidcSkipNonce rc).

(** The names of the secrets of a target: those the controller writes, and
    those the configuration refers to. *)
Definition kubeconfig_secret_name (owner : Object) (rc : ResolvedConfig) : string :=
  if needsKubeconfigSecret rc then Name (Secret_Meta (kubeconfigSecretObject owner)) else GetKubeSecretName rc.

Definition ca_secret_name (owner : Object) (rc : ResolvedConfig) : string :=
  if needsOidcCaBundleSecret rc then Name (Secret_Meta (oidcCaBundleSecretObject owner)) else GetOidcCASecretName rc.

Definition maintained_secrets (owner : Object) (rc : ResolvedConfig) : list (string * string) :=
  let o := constants.Oauth2VolumeName in
  let k := constants.KubeRbacProxyVolumeName in
  let ca := if String.eqb (ca_secret_name owner rc) EmptyString then [] else [ca_secret_name owner rc] in
  (o, Name (Secret_Meta (oauth2SecretObject owner))) :: map (pair o) ca ++
  (if String.eqb (GetClientSecretName rc) EmptyString then [] else [(o, GetClientSecretName rc)]) ++
  (k, Name (Secret_Meta (resourceAttributesSecretObject owner))) ::
  (if String.eqb (kubeconfig_secret_name owner rc) EmptyString then [] else [(k, kubeconfig_secret_name owner rc)]) ++
  map (pair k) ca.

Definition cookie_of (secret : Secret) : string :=
  default EmptyString (map_get (Secret_Data secret) constants.Oauth2CookieSecretKey).

(** The secret the controller writes, given its cookie. *)
Definition written_secret (secret : Secret) (rc : ResolvedConfig) (cookie : string) : Secret :=
  let cfg := Join (rendered_lines (proxy_config rc)) newline in
  mkSecret
    (set_annotations (Some {[ constants.AnnotationOauth2SecretChecksumKey := GenerateFullSha256 cfg ]})
       (relabel (secret_labels constants.Oauth2LabelValue) (Secret_Meta secret)))
    (Secret_Type secret)
    (Some (<[constants.Oauth2CookieSecretKey := cookie]> {[ "oauth2-proxy.cfg" := cfg ]}))
    (Secret_StringData secret).

(** The name of the pod of a StatefulSet with the given ordinal. *)
Definition ordinal_pod (set : string) (n : Z) (pod : Pod) : Prop :=
  (0 <= n < 2 ^ 31)%Z /\ map_get (Labels (Pod_Meta pod)) podNameLabel = Some (set +:+ "-" +:+ Itoa n).

(** What the redirect URL of a pod is made from: the host of the target's own
    redirect URL when it has one, and the host of the workload otherwise. *)
Definition redirect_target (rc : ResolvedConfig) : string :=
  match when_set (target_oauth2 rc) RedirectURL with
  | Some url => TrimSuffix (TrimPrefix url "https://") "/oauth2/callback"
  | None => GetHost rc
  end.

(** The ordinal behind the first label of a host with a domain. *)
Definition with_ordinal (n : Z) (host : string) : string :=
  let '(label, domain, found) := Cut host "." in
  if found then label +:+ "-" +:+ Itoa n +:+ "." +:+ domain else host.

(** A host, with a dot at least at its end. *)
Definition dotted (host : string) : string := if no_char "." host then host +:+ "." else host.

Definition backend_refs (r : HTTPRoute) : list HTTPBackendRef := flat_map Rule_BackendRefs (HTTPRoute_Rules r).

(** ** Lemmas on strings *)

Lemma sapp_inj_r a b c : a +:+ c = b +:+ c -> a = b.
Proof.
  revert b. induction a as [|x a IH]; intros [|y b]; simpl; [done| | |].
  - intros E. apply (f_equal String.length) in E. simpl in E. rewrite slength_app in E. lia.
  - intros E. apply (f_equal String.length) in E. simpl in E. rewrite slength_app in E. lia.
  - intros [= -> E]. f_equal. by apply IH.
Qed.

Lemma Itoa_no_char c n : is_digit c = false -> (0 <= n)%Z -> no_char c (Itoa n) = true.
Proof. intros Hc Hn. rewrite Itoa_nonneg by done. by apply itoa_N_no_char. Qed.

(** ** Lemmas on the secrets *)

Lemma oauth2_cfg_eq rc : oauth2_cfg rc = Join (rendered_lines (proxy_config rc)) newline.
Proof.
  unfold oauth2_cfg. rewrite Parse_eq. f_equal. f_equal. unfold oauth2_opts, proxy_config, NewOAuth2Config.
  destruct (negb (String.eqb (GetClientSecretName rc) EmptyString)); [done|].
  by destruct (negb (String.eqb (GetClientSecret rc) EmptyString)).
Qed.

(** The configuration the webhook's checksum covers. *)
Lemma webhook_checksum_eq rc :
  exists o, get2ProxySecretChecksum rc = GenerateFullSha256 (Join (rendered_lines o) newline) /\
    o = mkOauth2Config (GetClientID rc)
          (if String.eqb (GetClientSecret rc) EmptyString then "/dev/null" else EmptyString) (GetClientSecret rc)
          (GetScope rc) (GetRedirectURL rc) (GetOidcIssuerURL rc)
          (GetSslInsecureSkipVerify rc) (GetInsecureOidcSkipIssuerVerification rc) (GetInsecureOidcSkipNonce rc).
Proof.
  eexists. split; [|done]. unfold get2ProxySecretChecksum.
  destruct (String.eqb_spec (GetClientSecret rc) EmptyString) as [->|]; by rewrite Parse_eq.
Qed.

(** Two configurations that differ only in the secret line render to
    different files exactly when that line differs. *)
Lemma rendered_secret_line o o' :
  scope o = scope o' -> clientID o = clientID o' -> redirectURL o = redirectURL o' ->
  oidcIssuerURL o = oidcIssuerURL o' -> sslInsecureSkipVerify o = sslInsecureSkipVerify o' ->
  insecureOidcSkipIssuerVerification o = insecureOidcSkipIssuerVerification o' ->
  insecureOidcSkipNonce o = insecureOidcSkipNonce o' ->
  Join (rendered_lines o) newline = Join (rendered_lines o') newline ->
  nth 2 (rendered_lines o) EmptyString = nth 2 (rendered_lines o') EmptyString.
Proof.
  intros E1 E2 E3 E4 E5 E6 E7. unfold rendered_lines. rewrite E1, E2, E3, E4, E5, E6, E7.
  cbn [Join nth]. intros E. do 4 apply sapp_inj_l in E. by apply sapp_inj_r in E.
Qed.

Lemma owner_suffix_digest owner :
  map_get (GetAnnotations owner) constants.AnnotationSuffixKey = None ->
  owner_suffix owner = digest_suffix owner.
Proof.
  unfold owner_suffix, fetchTargetSuffix, map_or_make. unfold GetAnnotations.
  rewrite map_get_contents. by intros ->.
Qed.

Lemma named_eqb p s : String.eqb (p +:+ "-" +:+ s) EmptyString = false.
Proof. by destruct p. Qed.

Lemma kubeconfig_name_spec owner rc :
  shallAddKubeConfigSecretName rc = negb (String.eqb (kubeconfig_secret_name owner rc) EmptyString) /\
  (shallAddKubeConfigSecretName rc = true ->
     fetchKubconfigSecretName (digest_suffix owner) rc = kubeconfig_secret_name owner rc).
Proof.
  unfold shallAddKubeConfigSecretName, fetchKubconfigSecretName, kubeconfig_secret_name, needsKubeconfigSecret.
  destruct (String.eqb (GetKubeConfigStr rc) EmptyString); [|done]. cbn [negb].
  split; [done|]. by intros ->.
Qed.

Lemma ca_name_spec owner rc :
  shallAddOidcCaSecretName rc = negb (String.eqb (ca_secret_name owner rc) EmptyString) /\
  fetchOidcCASecretName (digest_suffix owner) rc = ca_secret_name owner rc.
Proof.
  unfold shallAddOidcCaSecretName, fetchOidcCASecretName, ca_secret_name, needsOidcCaBundleSecret.
  by destruct (String.eqb (GetOidcCABundle rc) EmptyString).
Qed.

Lemma cookie_written secret rc c : cookie_of (written_secret secret rc c) = c.
Proof. unfold cookie_of, written_secret. cbn [Secret_Data map_get]. by rewrite lookup_insert_eq. Qed.

Lemma mutateOauth2Secret_keep {W} `{Client W} (w : W) secret rc :
  cookie_of secret <> EmptyString ->
  mutateOauth2Secret secret rc w = (Ret (written_secret secret rc (cookie_of secret)), w).
Proof.
  intros Hc. unfold mutateOauth2Secret, written_secret. fold (cookie_of secret). rewrite oauth2_cfg_eq.
  destruct (cookie_of secret); [done|]. done.
Qed.

Lemma mutateOauth2Secret_new {W} `{Entropy W} (w : W) secret rc :
  cookie_of secret = EmptyString ->
  exists c w', mutateOauth2Secret secret rc w = (Ret (written_secret secret rc c), w') /\
    (c = EmptyString \/ (String.length c = 32 /\ string_forallb in_charset c = true)).
Proof.
  intros Hc. unfold mutateOauth2Secret, written_secret. fold (cookie_of secret). rewrite oauth2_cfg_eq, Hc.
  destruct (random_loop_spec 32 EmptyString w) as (s & w' & Hs & Hcases). cbn [String.length Nat.eqb].
  exists s, w'. split; [by rewrite (M_bind_ret _ _ _ _ _ Hs)|].
  destruct Hcases as [->|(r & -> & Hr)]; [by left|by right].
Qed.

Lemma required_maintained owner rc :
  map_get (GetAnnotations owner) constants.AnnotationSuffixKey = None ->
  required_secrets (owner_suffix owner) rc = maintained_secrets owner rc.
Proof.
  intros Ha. rewrite owner_suffix_digest by done. unfold required_secrets, maintained_secrets.
  destruct (kubeconfig_name_spec owner rc) as [Hk Hkn]. destruct (ca_name_spec owner rc) as [Hc Hcn].
  rewrite Hcn, Hc. rewrite Hk in Hkn |- *.
  destruct (String.eqb (ca_secret_name owner rc) EmptyString), (String.eqb (kubeconfig_secret_name owner rc) EmptyString);
    cbn [negb] in *; rewrite ?Hkn by done; done.
Qed.

(** Where the name of a required secret comes from. *)
Lemma maintained_cases owner rc vol name :
  In (vol, name) (maintained_secrets owner rc) ->
  name = Name (Secret_Meta (oauth2SecretObject owner)) \/
  name = Name (Secret_Meta (resourceAttributesSecretObject owner)) \/
  name = GetClientSecretName rc \/ name = kubeconfig_secret_name owner rc \/ name = ca_secret_name owner rc.
Proof.
  set (ca := if String.eqb (ca_secret_name owner rc) EmptyString then [] else [ca_secret_name owner rc]).
  assert (Hca : forall v, In (vol, name) (map (pair v) ca) -> name = ca_secret_name owner rc).
  { intros v (x & Hx & Hin)%in_map_iff. injection Hx as _ <-. revert Hin. unfold ca.
    destruct (String.eqb _ EmptyString); [by intros []|]. by intros [<-|[]]. }
  unfold maintained_secrets. fold ca. intros [Hx|Hin]; [injection Hx as _ <-; tauto|].
  apply in_app_or in Hin as [Hin|Hin]; [apply Hca in Hin; tauto|].
  apply in_app_or in Hin as [Hin|[Hx|Hin]]; [|injection Hx as _ <-; tauto|].
  - destruct (String.eqb (GetClientSecretName rc) EmptyString); [by destruct Hin|].
    destruct Hin as [Hx|[]]. injection Hx as _ <-. tauto.
  - apply in_app_or in Hin as [Hin|Hin]; [|apply Hca in Hin; tauto].
    destruct (String.eqb (kubeconfig_secret_name owner rc) EmptyString); [by destruct Hin|].
    destruct Hin as [Hx|[]]. injection Hx as _ <-. tauto.
Qed.

(** ** Properties *)

(** C10. Webhook and controller agree on the secrets: for a workload without a
    suffix annotation the secrets the webhook mounts into its pods are, one
    by one and volume by volume, the secrets the controller writes for that
    workload or the configuration refers to. *)
Theorem mounted_secrets_maintained (owner : Object) (rc : ResolvedConfig) :
  map_get (GetAnnotations owner) constants.AnnotationSuffixKey = None ->
  required_secrets (owner_suffix owner) rc = maintained_secrets owner rc.
Proof. apply required_maintained. Qed.

(** C11. The cookie secret is generated once: a stored one is kept and nothing
    random is drawn; otherwise the new one has 32 characters of the charset
    (or is empty when the entropy source fails, to be generated again).  The
    rest is a function of the configuration alone, so reconciling a secret
    that has its cookie a second time changes nothing. *)
Theorem mutateOauth2Secret_stable {W} `{Entropy W} (w : W) (secret : Secret) (rc : ResolvedConfig) :
  exists secret' w', mutateOauth2Secret secret rc w = (Ret secret', w') /\
    (cookie_of secret <> EmptyString -> cookie_of secret' = cookie_of secret /\ w' = w) /\
    (cookie_of secret = EmptyString -> cookie_of secret' = EmptyString \/
       (String.length (cookie_of secret') = 32 /\ string_forallb in_charset (cookie_of secret') = true)) /\
    map_get (Secret_Data secret') "oauth2-proxy.cfg" = Some (Join (rendered_lines (proxy_config rc)) newline) /\
    map_get (Annotations (Secret_Meta secret')) constants.AnnotationOauth2SecretChecksumKey =
      Some (GenerateFullSha256 (Join (rendered_lines (proxy_config rc)) newline)) /\
    Name (Secret_Meta secret') = Name (Secret_Meta secret) /\
    (cookie_of secret' <> EmptyString -> forall w2, mutateOauth2Secret secret' rc w2 = (Ret secret', w2)).
Proof.
  assert (Hw : forall c, let s' := written_secret secret rc c in
    map_get (Secret_Data s') "oauth2-proxy.cfg" = Some (Join (rendered_lines (proxy_config rc)) newline) /\
    map_get (Annotations (Secret_Meta s')) constants.AnnotationOauth2SecretChecksumKey =
      Some (GenerateFullSha256 (Join (rendered_lines (proxy_config rc)) newline)) /\
    Name (Secret_Meta s') = Name (Secret_Meta secret) /\
    (cookie_of s' <> EmptyString -> forall w2, mutateOauth2Secret s' rc w2 = (Ret s', w2))).
  { intros c. cbv zeta. cbn [written_secret Secret_Data Secret_Meta Annotations set_annotations map_get].
    split; [by rewrite lookup_insert_ne, lookup_singleton_eq|]. split; [by rewrite lookup_singleton_eq|].
    split; [done|]. intros Hc w2. rewrite mutateOauth2Secret_keep by done. by rewrite cookie_written. }
  destruct (String.eqb_spec (cookie_of secret) EmptyString) as [E|E].
  - destruct (mutateOauth2Secret_new w secret rc E) as (c & w' & Hm & Hc).
    exists (written_secret secret rc c), w'. rewrite cookie_written in *.
    split; [done|]. split; [done|]. split; [done|]. apply Hw.
  - exists (written_secret secret rc (cookie_of secret)), w. rewrite cookie_written.
    split; [by apply mutateOauth2Secret_keep|]. split; [done|]. split; [done|]. apply Hw.
Qed.

(** A referenced client secret is never written out: with a client secret
    reference the configuration names the mounted file and is the same
    whatever inline secret is configured beside it; an inline secret is
    written only without a reference, and with neither the proxy runs
    without secret. *)
Theorem client_secret_never_inlined (rc : ResolvedConfig) :
  let line := nth 2 (rendered_lines (proxy_config rc)) EmptyString in
  oauth2_cfg rc = Join (rendered_lines (proxy_config rc)) newline /\
  line =
    (if negb (String.eqb (GetClientSecretName rc) EmptyString)
     then assign "client_secret_file" constants.Oauth2ClientSecretFile
     else if negb (String.eqb (GetClientSecret rc) EmptyString)
     then assign "client_secret" (GetClientSecret rc)
     else assign "client_secret_file" "/dev/null") /\
  (forall rc', GetClientSecretName rc <> EmptyString -> GetClientSecretName rc' <> EmptyString ->
     GetClientID rc' = GetClientID rc -> GetScope rc' = GetScope rc -> GetRedirectURL rc' = GetRedirectURL rc ->
     GetOidcIssuerURL rc' = GetOidcIssuerURL rc ->
     GetSslInsecureSkipVerify rc' = GetSslInsecureSkipVerify rc ->
     GetInsecureOidcSkipIssuerVerification rc' = GetInsecureOidcSkipIssuerVerification rc ->
     GetInsecureOidcSkipNonce rc' = GetInsecureOidcSkipNonce rc ->
     oauth2_cfg rc' = oauth2_cfg rc).
Proof.
  cbv zeta. split; [apply oauth2_cfg_eq|]. split.
  - unfold proxy_config. destruct (String.eqb (GetClientSecretName rc) EmptyString); cbn [negb]; [|done].
    destruct (String.eqb (GetClientSecret rc) EmptyString) eqn:E; cbn [negb]; [done|].
    cbn [rendered_lines nth clientSecret]. by rewrite E.
  - intros rc' Hn%String.eqb_neq Hn'%String.eqb_neq E1 E2 E3 E4 E5 E6 E7. rewrite !oauth2_cfg_eq.
    unfold proxy_config. rewrite Hn, Hn'. cbn [negb]. by rewrite E1, E2, E3, E4, E5, E6, E7.
Qed.

(** The checksum annotation of the pods and that of the secret: without a
    client secret reference they are the digest of the same file.  With a
    reference they are not: the webhook's checksum covers a different file,
    in which the reference is ignored. *)
Theorem checksum_agreement (rc : ResolvedConfig) :
  (GetClientSecretName rc = EmptyString -> get2ProxySecretChecksum rc = GenerateFullSha256 (oauth2_cfg rc)) /\
  (GetClientSecretName rc <> EmptyString ->
     exists cfg, get2ProxySecretChecksum rc = GenerateFullSha256 cfg /\ cfg <> oauth2_cfg rc).
Proof.
  destruct (webhook_checksum_eq rc) as (o & -> & Ho). rewrite oauth2_cfg_eq. split; intros Hn.
  - rewrite Ho. unfold proxy_config. rewrite Hn. cbn [String.eqb negb].
    by destruct (String.eqb_spec (GetClientSecret rc) EmptyString) as [->|].
  - exists (Join (rendered_lines o) newline). split; [done|].
    apply String.eqb_neq in Hn. intros E. apply rendered_secret_line in E;
      [|by rewrite Ho; unfold proxy_config; rewrite Hn..].
    rewrite Ho in E. unfold proxy_config in E. rewrite Hn in E.
    destruct (String.eqb_spec (GetClientSecret rc) EmptyString) as [Es|Es];
      cbn [rendered_lines nth clientSecret clientSecretFile negb] in E.
    + rewrite Es in E. by vm_compute in E.
    + apply String.eqb_neq in Es. rewrite Es in E. discriminate E.
Qed.

Lemma addOptionalIndex_ordinal n :
  (0 <= n)%Z -> addOptionalIndex (Itoa n +:+ "-") = if decide (n < 2 ^ 31)%Z then Itoa n +:+ "-" else EmptyString.
Proof.
  intros Hn. unfold addOptionalIndex.
  assert (Hne : String.eqb (Itoa n +:+ "-") "-" = false).
  { apply String.eqb_neq. intros E. rewrite Itoa_nonneg in E by done.
    destruct (itoa_N_cases (Z.to_N n)) as [[_ Hi]|(c & s & Hi & Hc & _)]; rewrite Hi in E; [done|].
    injection E as -> Es. by destruct s. }
  rewrite Hne, CutSuffix_app. cbn [negb]. rewrite ParseInt0_Itoa by done. by case_decide.
Qed.

Lemma fetchStrIndex_ordinal set n pod :
  ordinal_pod set n pod -> fetchStrIndexIfPresent (PodObject pod) = Itoa n.
Proof.
  intros [Hn Hl]. unfold fetchStrIndexIfPresent, GetLabels, obj_meta. cbn [PodObject obj_kind obj_val meta_of].
  rewrite Hl. apply (last_Split_index "-" set (Itoa n)). apply Itoa_no_char; [done|lia].
Qed.

Lemma ordinal_service_name set n pod :
  ordinal_pod set n pod ->
  Name (Service_Meta (oauth2ServiceObject (PodObject pod))) =
  constants.ServiceNameOauth2Service +:+ "-" +:+ Itoa n +:+ "-" +:+ digest_suffix (PodObject pod).
Proof.
  intros Hp. unfold oauth2ServiceObject. rewrite (fetchStrIndex_ordinal set n pod Hp).
  destruct Hp as [Hn _]. rewrite addOptionalIndex_ordinal by lia. rewrite decide_True by lia.
  cbn [Service_Meta newService nameMeta Name]. by rewrite !sapp_assoc.
Qed.

Lemma ordinal_route_name set n pod owner :
  ordinal_pod set n pod ->
  Name (HTTPRoute_Meta (httpRouteForStatefulSetPodObject pod owner)) =
  constants.HTTPRouteName +:+ "-" +:+ Itoa n +:+ "-" +:+ digest_suffix (PodObject pod).
Proof.
  intros Hp. unfold httpRouteForStatefulSetPodObject. rewrite (fetchStrIndex_ordinal set n pod Hp).
  destruct Hp as [Hn _]. rewrite addOptionalIndex_ordinal by lia. rewrite decide_True by lia.
  cbn [HTTPRoute_Meta newHTTPRoute nameMeta Name]. by rewrite !sapp_assoc.
Qed.

Lemma Itoa_dash_inj n m a b :
  (0 <= n < 2 ^ 31)%Z -> (0 <= m < 2 ^ 31)%Z -> Itoa n +:+ "-" +:+ a = Itoa m +:+ "-" +:+ b -> n = m.
Proof.
  intros Hn Hm E. apply (f_equal (fun s => fst (fst (Cut s "-")))) in E.
  change ("-" +:+ a) with (String "-" a) in E. change ("-" +:+ b) with (String "-" b) in E.
  rewrite !Cut_app in E by (apply Itoa_no_char; [done|lia]). cbn in E.
  apply (f_equal Atoi) in E. rewrite !Atoi_Itoa in E by lia. congruence.
Qed.

(** The pods of StatefulSets never share a service or a route: the names
    carry the pod's ordinal, so pods with different ordinals have services
    and routes of different names even if the digests of their names
    collide. *)
Theorem ordinals_separate (set set' : string) (n m : Z) (pod pod' : Pod) (owner owner' : Object) :
  ordinal_pod set n pod -> ordinal_pod set' m pod' -> n <> m ->
  Name (Service_Meta (oauth2ServiceObject (PodObject pod))) <>
    Name (Service_Meta (oauth2ServiceObject (PodObject pod'))) /\
  Name (HTTPRoute_Meta (httpRouteForStatefulSetPodObject pod owner)) <>
    Name (HTTPRoute_Meta (httpRouteForStatefulSetPodObject pod' owner')).
Proof.
  intros Hp Hp' Hne.
  rewrite (ordinal_service_name _ _ _ Hp), (ordinal_service_name _ _ _ Hp').
  rewrite (ordinal_route_name _ _ _ _ Hp), (ordinal_route_name _ _ _ _ Hp').
  destruct Hp as [Hn _], Hp' as [Hm _].
  split; intros E; do 2 apply sapp_inj_l in E; by apply Itoa_dash_inj in E.
Qed.

Lemma route_with_rules `{OSEnv} r rc host backend :
  HTTPRoute_Hostnames (route_with r rc host backend) = [host] /\
  HTTPRoute_Rules (route_with r rc host backend) =
    (if String.eqb (GetHTTPRouteDefaultPath rc) EmptyString then []
     else [redirectRule (GetHTTPRouteDefaultPath rc)]) ++
    [mkRule [mkPathMatch PathMatchPathPrefix "/"] [] [mkBackendRef backend 8080]].
Proof.
  unfold route_with, applyHTTPRouteDefaultPathRedirect.
  by destruct (String.eqb (GetHTTPRouteDefaultPath rc) EmptyString).
Qed.

Lemma route_with_backends `{OSEnv} r rc host backend :
  backend_refs (route_with r rc host backend) = [mkBackendRef backend 8080].
Proof.
  unfold backend_refs. rewrite (proj2 (route_with_rules r rc host backend)).
  by destruct (String.eqb (GetHTTPRouteDefaultPath rc) EmptyString).
Qed.

(** Routes lead to the proxy.  The only backend of a route is the service
    the controller maintains for the same object, at that service's port,
    and the service targets the port the oauth2-proxy container declares:
    for the pods of a StatefulSet always, for a Deployment when it does not
    carry the pod name label of a StatefulSet. *)
Theorem route_backend_is_service `{Vendor} `{OSEnv} (rc : ResolvedConfig) (route : HTTPRoute)
    (selectors : GoMap string) (object : Object) (pod : Pod) (spec : PodSpec) :
  let service o := mutateOauth2Service (oauth2ServiceObject o) selectors in
  let reaches r o := backend_refs r = map (fun p => mkBackendRef (Name (Service_Meta (service o))) (ServicePort_Port p))
                                        (Service_Ports (service o)) in
  (map_get (GetLabels object) podNameLabel = None ->
     reaches (mutateHTTPRouteForDeployment route object rc) object) /\
  (forall route', mutateHTTPRouteForStatefulSetPod route pod rc = Ret route' -> reaches route' (PodObject pod)) /\
  map (fun p => FromString (ContainerPort_Name p)) (Container_Ports (getOIDCProxyContainer (Some spec) rc)) =
    map ServicePort_TargetPort (Service_Ports (service object)).
Proof.
  cbv zeta. split; [|split; [|done]].
  - intros Hl. unfold mutateHTTPRouteForDeployment. rewrite route_with_backends.
    unfold oauth2ServiceObject, fetchStrIndexIfPresent. by rewrite Hl.
  - intros route'. unfold mutateHTTPRouteForStatefulSetPod.
    destruct (map_get _ constants.AnnotationHostKey) as [hp|]; [|done].
    destruct (Cut hp ".") as [[host domain] f]. intros [= <-]. by rewrite route_with_backends.
Qed.

Lemma with_ordinal_cut n s :
  (let '(host, domain, found) := Cut s "." in if found then host +:+ "-" +:+ Itoa n +:+ "." +:+ domain else host) =
  with_ordinal n s.
Proof.
  unfold with_ordinal. pose proof (Cut_spec "." s) as Hc. destruct (Cut s ".") as [[h d] []]; [done|apply Hc].
Qed.

Lemma redirect_host_ordinal rc set n :
  (0 <= n)%Z -> redirect_host rc (set +:+ "-" +:+ Itoa n) = with_ordinal n (redirect_target rc).
Proof.
  intros Hn. rewrite <- with_ordinal_cut. unfold redirect_host.
  change (set +:+ "-" +:+ Itoa n) with (set +:+ String "-" (Itoa n)).
  rewrite last_Split_index by by apply Itoa_no_char.
  unfold redirect_target, GetRedirectURL. destruct (when_set (target_oauth2 rc) RedirectURL) as [u|] eqn:Eu.
  - assert (Hu : String.eqb u EmptyString = false); [|by rewrite Hu].
    unfold when_set in Eu. destruct (target_oauth2 rc) as [v|]; [|done].
    destruct (String.eqb (RedirectURL v) EmptyString) eqn:Ee; congruence.
  - by rewrite TrimPrefix_app, TrimSuffix_app.
Qed.

Lemma Cut_dotted host : exists label domain,
  dotted host = label +:+ "." +:+ domain /\ no_char "." label = true /\ Cut (dotted host) "." = (label, domain, true) /\
  fst (Cut host ".") = (label, domain).
Proof.
  unfold dotted. pose proof (Cut_spec "." host) as Hc. destruct (Cut host ".") as [[l d] []] eqn:E.
  - destruct Hc as [-> Hd]. rewrite no_char_app. cbn [no_char string_forallb]. rewrite Ascii.eqb_refl.
    cbn [negb andb]. rewrite andb_false_r. by exists l, d.
  - destruct Hc as (-> & -> & Hd). rewrite Hd. exists host, EmptyString. repeat split; [done|].
    by rewrite (Cut_app "." host EmptyString Hd).
Qed.

(** The ordinal is put into a host with a dot without loss. *)
Lemma with_ordinal_inj n a b :
  (0 <= n)%Z -> with_ordinal n a = with_ordinal n (dotted b) <-> a = dotted b.
Proof.
  intros Hn. split; [|by intros ->]. unfold with_ordinal.
  destruct (Cut_dotted b) as (l & d & Eb & Hl & -> & _). rewrite Eb. pose proof (Cut_spec "." a) as Hc.
  assert (Hno : forall x, no_char "." x = true -> no_char "." (x +:+ "-" +:+ Itoa n) = true).
  { intros x Hx. rewrite !no_char_app, Hx. cbn. apply Itoa_no_char; done. }
  assert (Hcut : forall x y, no_char "." x = true ->
            Cut (x +:+ "-" +:+ Itoa n +:+ "." +:+ y) "." = (x +:+ "-" +:+ Itoa n, y, true)).
  { intros x y Hx. replace (x +:+ "-" +:+ Itoa n +:+ "." +:+ y) with ((x +:+ "-" +:+ Itoa n) +:+ "." +:+ y)
      by (by rewrite !sapp_assoc). by apply (Cut_app "." _ y), Hno. }
  destruct (Cut a ".") as [[h e] []] eqn:Ea; intros E; apply (f_equal (fun s => Cut s ".")) in E; rewrite (Hcut l d Hl) in E.
  - destruct Hc as [-> Hh]. rewrite (Hcut h e Hh) in E. injection E as Eh ->. by apply sapp_inj_r in Eh as ->.
  - congruence.
Qed.

(** C14. The redirect URL of a pod of a StatefulSet and the pod's route.  For a
    pod with the webhook's host annotation, the redirect host is the target's
    redirect URL without scheme and path, or without one the host of the
    workload, and the hostname of the route is the host of the workload; both
    get the ordinal of the pod behind the first label (the route also when
    there is no domain: then the ordinal and a dot are added).  So the
    redirect leads back to the pod's own route exactly when the redirect
    target is the host with its dot: always, when there is no redirect URL of
    the target and the host has a domain; never, when there is no redirect URL
    and no domain; and with a redirect URL, only if it names that host. *)
Theorem redirect_matches_route `{OSEnv} (rc : ResolvedConfig) (set : string) (n : Z) (pod : Pod) (route : HTTPRoute) :
  ordinal_pod set n pod ->
  map_get (Annotations (Pod_Meta pod)) constants.AnnotationHostKey = Some (GetHost rc) ->
  let redirect := redirect_host rc (set +:+ "-" +:+ Itoa n) in
  redirect = with_ordinal n (redirect_target rc) /\
  exists route', mutateHTTPRouteForStatefulSetPod route pod rc = Ret route' /\
    HTTPRoute_Hostnames route' = [with_ordinal n (dotted (GetHost rc))] /\
    (HTTPRoute_Hostnames route' = [redirect] <-> redirect_target rc = dotted (GetHost rc)) /\
    (when_set (target_oauth2 rc) RedirectURL = None ->
       if no_char "." (GetHost rc) then
         HTTPRoute_Hostnames route' = [GetHost rc +:+ "-" +:+ Itoa n +:+ "."] /\ redirect = GetHost rc
       else HTTPRoute_Hostnames route' = [redirect]).
Proof.
  intros Hp Ha. cbv zeta. pose proof (proj1 (proj1 Hp)) as Hn. rewrite (redirect_host_ordinal rc set n Hn).
  split; [done|]. unfold mutateHTTPRouteForStatefulSetPod. rewrite Ha, (fetchStrIndex_ordinal set n pod Hp).
  destruct (Cut_dotted (GetHost rc)) as (l & d & Ed & Hl & Ec & Eh).
  destruct (Cut (GetHost rc) ".") as [[h e] f] eqn:Eg. injection Eh as -> ->.
  assert (Ew : with_ordinal n (dotted (GetHost rc)) = l +:+ "-" +:+ Itoa n +:+ "." +:+ d)
    by (unfold with_ordinal; by rewrite Ec).
  eexists. split; [done|]. rewrite (proj1 (route_with_rules _ _ _ _)), <- Ew. split; [done|]. split.
  - split; [intros E; injection E as E|intros E; f_equal; symmetry in E]; [symmetry in E|symmetry]; by apply (with_ordinal_inj n _ _ Hn).
  - intros Hr. unfold redirect_target. rewrite Hr. unfold with_ordinal, dotted. rewrite Eg.
    pose proof (Cut_spec "." (GetHost rc)) as Hc. rewrite Eg in Hc. destruct f; destruct (no_char "." (GetHost rc)) eqn:En.
    + destruct Hc as [Hc _]. rewrite Hc, no_char_app in En. cbn in En. by rewrite andb_false_r in En.
    + by rewrite Eg.
    + destruct Hc as (-> & -> & _). split; [|done]. by rewrite (Cut_app "." _ EmptyString En).
    + destruct Hc as (_ & _ & Hc). congruence.
Qed.

(** The default path redirect: a route starts with a redirect rule exactly
    when the configured default path is safe, and then redirects the root
    path, and only it, to that path; since the path is longer than the root
    the redirect never applies to its own target.  The rule to the backend
    follows in every case. *)
Theorem default_path_redirect `{OSEnv} (rc : ResolvedConfig) (route : HTTPRoute) (object : Object) :
  let backend := mkRule [mkPathMatch PathMatchPathPrefix "/"] []
                   [mkBackendRef (constants.ServiceNameOauth2Service +:+ "-" +:+ digest_suffix object) 8080] in
  let rules := HTTPRoute_Rules (mutateHTTPRouteForDeployment route object rc) in
  let configured := match Target_HTTPRoute (rc_target rc) with Some r => DefaultPath r | None => EmptyString end in
  (safe_path configured ->
     rules = [redirectRule configured; backend] /\
     Rule_Matches (redirectRule configured) = [mkPathMatch PathMatchExact "/"] /\ configured <> "/") /\
  (~ safe_path configured -> rules = [backend]).
Proof.
  cbv zeta. unfold mutateHTTPRouteForDeployment. rewrite (proj2 (route_with_rules _ _ _ _)).
  unfold GetHTTPRouteDefaultPath.
  destruct (Target_HTTPRoute (rc_target rc)) as [r|]; rewrite <- ?isValidDefaultPath_spec.
  - split.
    + intros Hs. rewrite Hs. apply isValidDefaultPath_spec in Hs as (rest & Hd & Hl & _). rewrite Hd.
      split; [done|]. split; [done|]. intros E. injection E as ->. cbn in Hl. lia.
    + intros Hs%not_true_is_false. by rewrite Hs.
  - by split; [discriminate|].
Qed.

(** ** Witnesses on the reference instance *)

#[local] Existing Instances Ref.vendor Ref.client Ref.client_entropy Ref.env.

Module ObjectExamples.

Definition with_pod_name (name : string) : Pod :=
  mkPod (mkObjectMeta name "mon" "uid-p" (Some {[ podNameLabel := name ]})
           (Some {[ constants.AnnotationHostKey := "prometheus-mon.example.org" ]}) [] [] None)
    (mkPodSpec [] [PodExamples.app] []).

Definition secret_ref (name : string) : Oauth2ProxyConfig :=
  mkOauth2ProxyConfig "openid" "id" "inline" (Some (mkSecretReference name)) EmptyString "https://issuer"
    None None None EmptyString EmptyString EmptyString None EmptyString [].

Definition rc_ref : ResolvedConfig :=
  mkResolvedConfig Examples.monitoring
    (mkGlobal (Some (secret_ref "client")) None None None "example.org" EmptyString None None)
    (DeploymentObject Examples.grafana).

Definition rc_path : ResolvedConfig :=
  mkResolvedConfig
    (mkTarget "t" None None (FromInt 80) "http"
       (Some (mkHTTPRouteConf true EmptyString EmptyString None None [] "/ui")) emptyGlobal)
    Examples.global1 (DeploymentObject Examples.grafana).

(** A target with a redirect URL of its own. *)
Definition rc_custom : ResolvedConfig :=
  mkResolvedConfig
    (mkTarget "prometheus" None None (FromString "web") "http" None
       (mkGlobal
          (Some (mkOauth2ProxyConfig "" "" "" None "https://custom.redirect.url/oauth2/callback" "" None None None "" "" ""
                   None "" []))
          None None None "" "" None None))
    Examples.global1 (StatefulSetObject PodExamples.prometheus).

Definition with_cookie : Secret :=
  mkSecret (nameMeta "oauth2-proxy-x" "mon") EmptyString (Some {[ constants.Oauth2CookieSecretKey := "cookie" ]}) None.

End ObjectExamples.

Lemma mounted_secrets_maintained_witness :
  required_secrets (owner_suffix (DeploymentObject Examples.grafana)) ObjectExamples.rc_ref =
  maintained_secrets (DeploymentObject Examples.grafana) ObjectExamples.rc_ref /\
  In (constants.Oauth2VolumeName, "client") (maintained_secrets (DeploymentObject Examples.grafana) ObjectExamples.rc_ref).
Proof.
  split; [|vm_compute; tauto].
  apply (mounted_secrets_maintained (DeploymentObject Examples.grafana) ObjectExamples.rc_ref). reflexivity.
Defined.

Lemma mutateOauth2Secret_stable_witness :
  exists secret', mutateOauth2Secret ObjectExamples.with_cookie ObjectExamples.rc_ref Ref.empty_cluster =
    (Ret secret', Ref.empty_cluster) /\ cookie_of secret' = "cookie".
Proof.
  destruct (mutateOauth2Secret_stable Ref.empty_cluster ObjectExamples.with_cookie ObjectExamples.rc_ref)
    as (secret' & w' & Hm & Hk & _).
  destruct Hk as [Hc ->]; [vm_compute; congruence|].
  exists secret'. split; [exact Hm|exact Hc].
Defined.

Lemma client_secret_never_inlined_witness :
  nth 2 (rendered_lines (proxy_config ObjectExamples.rc_ref)) EmptyString =
  assign "client_secret_file" constants.Oauth2ClientSecretFile.
Proof.
  destruct (client_secret_never_inlined ObjectExamples.rc_ref) as (_ & Hl & _). exact Hl.
Defined.

Lemma checksum_agreement_witness :
  get2ProxySecretChecksum PodExamples.rc1 = GenerateFullSha256 (oauth2_cfg PodExamples.rc1) /\
  get2ProxySecretChecksum ObjectExamples.rc_ref <> GenerateFullSha256 (oauth2_cfg ObjectExamples.rc_ref).
Proof.
  split.
  - apply (proj1 (checksum_agreement PodExamples.rc1)). reflexivity.
  - vm_compute. congruence.
Defined.

Lemma ordinals_separate_witness :
  Name (Service_Meta (oauth2ServiceObject (PodObject (ObjectExamples.with_pod_name "prometheus-0")))) <>
  Name (Service_Meta (oauth2ServiceObject (PodObject (ObjectExamples.with_pod_name "prometheus-10")))).
Proof.
  refine (proj1 (ordinals_separate "prometheus" "prometheus" 0 10 (ObjectExamples.with_pod_name "prometheus-0")
            (ObjectExamples.with_pod_name "prometheus-10")
            (StatefulSetObject PodExamples.prometheus) (StatefulSetObject PodExamples.prometheus) _ _ _));
    [split; [lia|reflexivity]|split; [lia|reflexivity]|lia].
Defined.

Lemma route_backend_is_service_witness :
  backend_refs (mutateHTTPRouteForDeployment (newHTTPRoute "r" "mon") (DeploymentObject Examples.grafana) ObjectExamples.rc_path) =
  [mkBackendRef (Name (Service_Meta (oauth2ServiceObject (DeploymentObject Examples.grafana)))) 8080].
Proof.
  destruct (route_backend_is_service ObjectExamples.rc_path (newHTTPRoute "r" "mon") None
              (DeploymentObject Examples.grafana) PodExamples.pod1 (Pod_Spec PodExamples.pod1)) as [H _].
  exact (H eq_refl).
Defined.

(** The route is the same for both targets, the redirect host is not. *)
Lemma redirect_matches_route_witness :
  let pod := ObjectExamples.with_pod_name "prometheus-3" in
  let leads_to rc host := exists route', mutateHTTPRouteForStatefulSetPod (newHTTPRoute "r" "mon") pod rc = Ret route' /\
    HTTPRoute_Hostnames route' = ["prometheus-mon-3.example.org"] /\ redirect_host rc "prometheus-3" = host in
  leads_to PodExamples.rc1 "prometheus-mon-3.example.org" /\
  leads_to ObjectExamples.rc_custom "custom-3.redirect.url".
Proof.
  cbv zeta. split.
  - destruct (redirect_matches_route PodExamples.rc1 "prometheus" 3 (ObjectExamples.with_pod_name "prometheus-3")
                (newHTTPRoute "r" "mon")) as (Hr & route' & Hm & Hh & _); [split; [lia|reflexivity]|reflexivity|].
    exists route'. split; [exact Hm|]. split; [exact Hh|exact Hr].
  - destruct (redirect_matches_route ObjectExamples.rc_custom "prometheus" 3 (ObjectExamples.with_pod_name "prometheus-3")
                (newHTTPRoute "r" "mon")) as (Hr & route' & Hm & Hh & _); [split; [lia|reflexivity]|reflexivity|].
    exists route'. split; [exact Hm|]. split; [exact Hh|exact Hr].
Defined.

Lemma default_path_redirect_witness :
  map Rule_Filters (HTTPRoute_Rules
    (mutateHTTPRouteForDeployment (newHTTPRoute "r" "mon") (DeploymentObject Examples.grafana) ObjectExamples.rc_path)) =
  [[mkRedirect "/ui" 302]; []].
Proof.
  destruct (default_path_redirect ObjectExamples.rc_path (newHTTPRoute "r" "mon") (DeploymentObject Examples.grafana))
    as [H _].
  rewrite (proj1 (H ltac:(exists "ui"; repeat split; simpl; lia))). reflexivity.
Defined.
