(* ===== verification/NamesSpec.v ===== *)
(** * The names of the maintained objects

    Every name the controllers make up is one the API server accepts for its
    kind, whatever the owner is called and labelled with. *)

From S2P Require Import Prelude GoStrings Sha256 RandUtils Kube Constants ControllerObjects.

(** ** Names of Kubernetes *)

Definition name_char (c : ascii) : bool := is_lower c || is_digit c || Ascii.eqb c "-".

Fixpoint last_char (s : string) : option ascii :=
  match s with
  | EmptyString => None
  | String c EmptyString => Some c
  | String _ s' => last_char s'
  end.

(** A label of RFC 1035: at most 63 lower case letters, digits and dashes,
    the first one a letter and the last one not a dash.  Services need one,
    and it is a valid name of a secret or a route too. *)
Definition dns1035_label (s : string) : bool :=
  match s with
  | EmptyString => false
  | String c _ =>
      is_lower c && string_forallb name_char s &&
      match last_char s with Some d => negb (Ascii.eqb d "-") | None => false end &&
      Nat.leb (String.length s) 63
  end.

(** ** Lemmas *)

Lemma last_char_app a b : b <> EmptyString -> last_char (a +:+ b) = last_char b.
Proof.
  intros Hb. induction a as [|c a IH]; [done|].
  change (String c a +:+ b) with (String c (a +:+ b)). cbn [last_char].
  destruct (a +:+ b) as [|d s] eqn:E; [|exact IH]. by destruct a, b.
Qed.

Lemma last_char_forallb p s c : string_forallb p s = true -> last_char s = Some c -> p c = true.
Proof.
  induction s as [|d s IH]; [done|]. cbn [string_forallb]. intros [Hd Hs]%andb_prop.
  destruct s as [|e s]; [by intros [= <-]|]. by apply IH.
Qed.

Lemma last_char_some s : s <> EmptyString -> exists c, last_char s = Some c.
Proof.
  induction s as [|c s IH]; [done|]. intros _. destruct s as [|d s]; [by eexists|]. by apply IH.
Qed.

Lemma is_hex_name c : Sha256.is_hex c = true -> name_char c = true /\ c <> "-"%char.
Proof.
  intros H. assert (E : name_char c && negb (Ascii.eqb c "-") = true).
  { destruct c as [[] [] [] [] [] [] [] []]; (discriminate H || reflexivity). }
  apply andb_prop in E as [Hn Hd]. split; [done|]. intros ->. discriminate Hd.
Qed.

Lemma is_digit_name c : is_digit c = true -> name_char c = true.
Proof. unfold name_char. intros ->. by rewrite orb_true_r. Qed.

Lemma itoa_go_length k fuel n acc :
  (n < 10 ^ N.of_nat (S k))%N -> String.length (itoa_go fuel n acc) <= S k + String.length acc.
Proof.
  revert fuel n acc. induction k as [|k IH]; intros [|f] n acc Hn; cbn [itoa_go]; try lia.
  - rewrite N.div_small by (change (10 ^ N.of_nat 1)%N with 10%N in Hn; lia). cbn. lia.
  - destruct (N.eqb_spec (n / 10) 0); [cbn; lia|].
    assert (Hd : (n / 10 < 10 ^ N.of_nat (S k))%N).
    { apply N.Div0.div_lt_upper_bound. rewrite <- N.pow_succ_r', <- Nat2N.inj_succ. exact Hn. }
    pose proof (IH f (n / 10)%N (String (digit_char (n mod 10)) acc) Hd) as Hl. cbn in *. lia.
Qed.

(** An integer of 32 bits is written with at most eleven characters. *)
Lemma Itoa_name z :
  (- 2 ^ 31 <= z < 2 ^ 31)%Z -> string_forallb name_char (Itoa z) = true /\ String.length (Itoa z) <= 11.
Proof.
  change (2 ^ 31)%Z with 2147483648%Z. intros Hz. assert (Hn : forall n, (n <= 2147483648)%N ->
    string_forallb name_char (itoa_N n) = true /\ String.length (itoa_N n) <= 10).
  { intros n Hb. split; [apply (string_forallb_impl is_digit); [apply is_digit_name|apply itoa_N_digits]|].
    unfold itoa_N. rewrite <- (Nat.add_0_r 10). apply (itoa_go_length 9).
    change (n < 10000000000)%N. lia. }
  destruct z as [|p|p]; cbn [Itoa].
  - split; [reflexivity|by apply Nat.leb_le].
  - destruct (Hn (Z.to_N (Zpos p))) as [? ?]; [lia|]. split; [done|lia].
  - destruct (Hn (Npos p)) as [Hf Hl]; [lia|]. rewrite string_forallb_app, slength_app.
    change (String.length "-") with 1. split; [exact Hf|lia].
Qed.

Lemma signed_range bits parse s z :
  (0 < bits)%Z -> signed bits parse s = Some z -> (- 2 ^ (bits - 1) <= z < 2 ^ (bits - 1))%Z.
Proof.
  intros Hb. pose proof (Z.pow_pos_nonneg 2 (bits - 1) ltac:(lia) ltac:(lia)) as Hp. unfold signed.
  destruct (match s with String "+" s' => _ | String "-" s' => _ | _ => _ end) as [neg u].
  destruct (parse u) as [n|]; [|done]. cbn [mbind option_bind]. destruct neg.
  - destruct (Z.ltb_spec (2 ^ (bits - 1)) (Z.of_N n)); [done|]. intros [= <-]. lia.
  - destruct (Z.leb_spec (2 ^ (bits - 1)) (Z.of_N n)); [done|]. intros [= <-]. lia.
Qed.

(** The optional index is empty or an integer of 32 bits and a dash. *)
Lemma addOptionalIndex_name idx :
  string_forallb name_char (addOptionalIndex idx) = true /\ String.length (addOptionalIndex idx) <= 12.
Proof.
  unfold addOptionalIndex. destruct (String.eqb idx "-"); [cbn; split; [done|lia]|].
  destruct (CutSuffix idx "-") as [idxStr []]; cbn [negb]; [|cbn; split; [done|lia]].
  destruct (ParseInt0 idxStr 32) as [i|] eqn:E; [|cbn; split; [done|lia]].
  apply signed_range in E; [|lia]. destruct (Itoa_name i E) as [Hf Hl].
  rewrite string_forallb_app, Hf, slength_app. cbn. split; [done|lia].
Qed.

Lemma digest_suffix_name o :
  string_forallb name_char (digest_suffix o) = true /\ String.length (digest_suffix o) = 6 /\
  exists c, last_char (digest_suffix o) = Some c /\ c <> "-"%char.
Proof.
  unfold digest_suffix. destruct (GenerateSha256_spec (GetName o +:+ "-" +:+ GetNamespace o)) as (Hl & Hh & _).
  set (d := GenerateSha256 _) in *. split; [|split; [done|]].
  - apply (string_forallb_impl Sha256.is_hex); [|done]. intros c Hc. by apply is_hex_name.
  - assert (Hne : d <> EmptyString) by (intros E; by rewrite E in Hl).
    destruct (last_char_some d Hne) as [c Hc]. exists c. split; [done|].
    apply (is_hex_name c). by apply (last_char_forallb _ d).
Qed.

(** A lower case word, a dash, the optional index, and the digest *)
Lemma name_valid c word idx o :
  is_lower c = true -> string_forallb name_char (String c word) = true -> String.length (String c word) <= 44 ->
  dns1035_label (String c word +:+ "-" +:+ addOptionalIndex idx +:+ digest_suffix o) = true.
Proof.
  intros Hc Hw Hl. destruct (addOptionalIndex_name idx) as [Hi Hli].
  destruct (digest_suffix_name o) as (Hd & Hld & e & He & Hne).
  set (n := String c word +:+ _). unfold dns1035_label.
  assert (E : exists rest, n = String c rest) by (by eexists). destruct E as [rest E]. rewrite E, <- E.
  unfold n. rewrite Hc, !string_forallb_app, Hw, Hi, Hd. cbn [andb].
  assert (Hnd : digest_suffix o <> EmptyString) by (intros E'; by rewrite E' in Hld).
  rewrite !last_char_app, He; [|done..| |].
  - apply Ascii.eqb_neq in Hne. rewrite Hne. cbn [negb andb]. apply Nat.leb_le. rewrite !slength_app, Hld. cbn in *. lia.
  - intros E'. apply (f_equal String.length) in E'. rewrite slength_app, Hld in E'. cbn in E'. lia.
  - done.
Qed.

(** The names of what is maintained for an owner, and for a pod of a
    StatefulSet *)
Definition secret_names (o : Object) : list string :=
  map (fun s => Name (Secret_Meta s))
    [oauth2SecretObject o; resourceAttributesSecretObject o; kubeconfigSecretObject o; oidcCaBundleSecretObject o].

Definition service_names (o : Object) (pod : Pod) : list string :=
  map (fun s => Name (Service_Meta s)) [oauth2ServiceObject o; oauth2ServiceObject (PodObject pod)].

Definition route_names (o : Object) (pod : Pod) : list string :=
  map (fun r => Name (HTTPRoute_Meta r)) [httpRouteForDeploymentObject o; httpRouteForStatefulSetPodObject pod o].

Lemma name_valid_plain c word o :
  is_lower c = true -> string_forallb name_char (String c word) = true -> String.length (String c word) <= 44 ->
  dns1035_label (String c word +:+ "-" +:+ digest_suffix o) = true.
Proof. exact (name_valid c word "-" o). Qed.

Ltac by_shape valid := apply valid; [reflexivity|reflexivity|by apply Nat.leb_le].

(** C13. The made-up names are well formed: whatever the names, namespaces,
    labels and pod indices of the owner and the pod are, every secret, service
    and route is given a name of at most 63 lower case letters, digits and
    dashes that starts with a letter and does not end with a dash, which the
    API server accepts for each of these kinds; and the names of one kind for
    one owner differ. *)
Theorem maintained_names_valid (o : Object) (pod : Pod) :
  Forall (fun n => dns1035_label n = true) (secret_names o ++ service_names o pod ++ route_names o pod) /\
  NoDup (secret_names o).
Proof.
  split.
  - unfold secret_names, service_names, route_names. cbn [map app].
    pose (plain c word := String c word +:+ "-" +:+ digest_suffix o).
    pose (indexed word p := String "o" word +:+ "-" +:+ addOptionalIndex (fetchStrIndexIfPresent p +:+ "-") +:+ digest_suffix p).
    change (Forall (fun n => dns1035_label n = true)
      [plain "o"%char "auth2-proxy"; plain "r"%char "esource-attributes"; plain "k"%char "ubeconfig"; plain "o"%char "idc-ca";
       indexed "auth2-service" o; indexed "auth2-service" (PodObject pod);
       plain "o"%char "auth2-httproute"; indexed "auth2-httproute" (PodObject pod)]).
    do 4 (apply Forall_cons_2; [by_shape name_valid_plain|]). do 2 (apply Forall_cons_2; [by_shape name_valid|]).
    apply Forall_cons_2; [by_shape name_valid_plain|]. apply Forall_cons_2; [by_shape name_valid|]. apply Forall_nil_2.
  - apply (NoDup_fmap_1 (string_take 2)). cbv [secret_names map fmap list_fmap].
    change (NoDup ["oa"; "re"; "ku"; "oi"]). repeat constructor; set_solver.
Qed.
