(* ===== verification/Controllers.v ===== *)
(** * The reconcilers

    [pkg/controllers]: [modifiers.go], [owned.go], [registry-secret.go],
    [image-pull-secret-reconciler.go], [deployment-reconciler.go] and
    [statefulset-reconciler.go], as programs over the API client.  Logging is
    left out; the [context.Context] argument is not modelled. *)

From S2P Require Import Prelude GoStrings RandUtils Kube Constants Vendor Configuration Templates.
From S2P Require Import PodWebhook ControllerObjects.

(** ** Pure helpers *)

(** [isAnOwnedResource] on the metadata of two non-nil objects. *)
Definition isAnOwnedResource (owner : Object) (owned : ObjectMeta) : bool :=
  existsb (fun ref => String.eqb (OwnerReference_UID ref) (GetUID owner)) (OwnerReferences owned).

Definition isOidcAppPod (pod : Pod) : bool :=
  existsb (fun c => String.eqb (Container_Name c) constants.ContainerNameOauth2Proxy ||
                    String.eqb (Container_Name c) constants.ContainerNameKubeRbacProxy)
    (Containers (Pod_Spec pod)).

(** [isSameObject]: the Go type is the kind. *)
Definition isSameObject (a b : Object) : bool :=
  bool_decide (obj_kind a = obj_kind b) && String.eqb (GetNamespace a) (GetNamespace b) &&
  String.eqb (GetName a) (GetName b).

Definition metaForRegistrySecretCopy (name namespace : string) : ObjectMeta :=
  set_labels (Some (secret_labels constants.RegistrySecretLabelValue)) (nameMeta name namespace).

Definition registry_selector : GoMap string := Some (secret_labels constants.RegistrySecretLabelValue).

Definition fetchResourceAttributesNamespace (object : Object) : string := GetNamespace object.

Definition set_secret_meta (m : ObjectMeta) (s : Secret) : Secret := set_meta KSecret m s.

Section Controllers.
Context {W : Type} `{Client W} `{Vendor} `{OSEnv} `{Yaml3}.

(** [for _, x := range xs { body }] with an early return on error *)
Fixpoint for_each {A} (xs : list A) (body : A -> M W unit) : M W unit :=
  match xs with
  | [] => mret tt
  | x :: xs' => body x;; for_each xs' body
  end.

(** [x, err := m(); if client.IgnoreNotFound(err) != nil { return err }] with
    the zero value when not found. *)
Definition or_not_found {A} (zero : A) (m : M W A) : M W A :=
  r ← try_ m;
  match r with
  | inr x => mret x
  | inl e => match IgnoreNotFound e with None => mret zero | Some e' => throw e' end
  end.

(** [if err := m(); client.IgnoreNotFound(err) != nil { return fmt.Errorf(msg, err) }] *)
Definition unless_not_found (msg : string) (m : M W unit) : M W unit :=
  r ← try_ m;
  match r with
  | inr _ => mret tt
  | inl e => match IgnoreNotFound e with None => mret tt | Some _ => throw (Errorf msg e) end
  end.

(** ** [modifiers.go]: owned resources *)

Definition reconcileOwnedResource (owner : Object) (k : Kind) (obj : kobj k) (mutate : kobj k -> M W (kobj k))
  : M W unit :=
  cl_CreateOrUpdate k obj (fun o => o' ← mutate o; lift (cl_SetOwnerReference owner k o'));;
  mret tt.

(** [fetchOidcAppsServices], [fetchOidcAppsHTTPRoutes] and
    [fetchOidcAppsSecrets] differ in the kind and the selector. *)
Definition fetch_owned (k : Kind) (selector : gmap string string) (object : Object) : M W (list (kobj k)) :=
  items ← or_not_found [] (cl_List k (mkListOptions (Some (GetNamespace object)) (Some selector)));
  mret (List.filter (fun o => isAnOwnedResource object (meta_of k o)) items).

Definition fetchOidcAppsServices (object : Object) : M W (list Service) :=
  fetch_owned KService component_labels object.

Definition fetchOidcAppsHTTPRoutes (object : Object) : M W (list HTTPRoute) :=
  fetch_owned KHTTPRoute component_labels object.

Definition fetchOidcAppsSecrets (object : Object) : M W (list Secret) :=
  fetch_owned KSecret (secret_labels constants.Oauth2LabelValue) object.

(** ** [owned.go] *)

Definition qualified (m : ObjectMeta) : string := Namespace m +:+ "/" +:+ Name m.

Definition delete_all (k : Kind) (what : string) (items : list (kobj k)) : M W unit :=
  for_each items (fun s =>
    unless_not_found ("failed to delete " +:+ what +:+ " " +:+ qualified (meta_of k s))
      (cl_Delete k (key_of (meta_of k s)))).

Definition deleteOwnedResources (object : Object) : M W unit :=
  secrets ← fetchOidcAppsSecrets object;
  delete_all KSecret "secret" secrets;;
  httpRoutes ← fetchOidcAppsHTTPRoutes object;
  delete_all KHTTPRoute "httproute" httpRoutes;;
  services ← fetchOidcAppsServices object;
  delete_all KService "service" services.

(** ** [modifiers.go]: dependencies of a workload *)

Definition patchVpa (rc : ResolvedConfig) (object : Object) : M W unit :=
  match GetTargetLabelSelector rc with
  | None => panic "nil LabelSelector"
  | Some targetLabels =>
      vpas ← wrap "failed to list vpas"
               (cl_List KVPA (mkListOptions (Some (GetNamespace object)) (MatchLabels targetLabels)));
      for_each vpas (fun v =>
        match VPA_ResourcePolicy v with
        | None => panic "nil PodResourcePolicy"
        | Some containerPolicies =>
            for_each containerPolicies (fun policy =>
              if String.eqb (Policy_ContainerName policy) constants.ContainerNameOauth2Proxy ||
                 String.eqb (Policy_ContainerName policy) constants.ContainerNameKubeRbacProxy
              then mret tt
              else wrap "failed to patch vpa" (cl_PatchEmpty KVPA v))
        end)
  end.

Definition reconcileHTTPRouteForDeployment (rc : ResolvedConfig) (object : Object) : M W unit :=
  if negb (ShallCreateHTTPRoute rc) then mret tt
  else wrap "failed to reconcile oauth2 httproute"
         (reconcileOwnedResource object KHTTPRoute (httpRouteForDeploymentObject object)
            (fun r => mret (mutateHTTPRouteForDeployment r object rc))).

Definition reconcileHTTPRouteForStatefulSetPod (rc : ResolvedConfig) (pod : Pod) (object : Object) : M W unit :=
  if negb (ShallCreateHTTPRoute rc) then mret tt
  else wrap "failed to reconcile oauth2 httproute"
         (reconcileOwnedResource (PodObject pod) KHTTPRoute (httpRouteForStatefulSetPodObject pod object)
            (fun r => lift (mutateHTTPRouteForStatefulSetPod r pod rc))).

Definition reconcile_oauth2_secret (rc : ResolvedConfig) (object : Object) : M W unit :=
  wrap "failed to reconcile oauth2 secret"
    (reconcileOwnedResource object KSecret (oauth2SecretObject object) (fun s => mutateOauth2Secret s rc)).

(** What follows the services in both dependency functions: the resource
    attributes and the two optional secrets. *)
Definition reconcile_other_secrets (rc : ResolvedConfig) (object : Object) : M W unit :=
  let ns := fetchResourceAttributesNamespace object in
  wrap "failed to reconcile resource attributes secret"
    (reconcileOwnedResource object KSecret (resourceAttributesSecretObject object)
       (fun s => mret (mutateResourceAttributesSecret s object ns)));;
  (if needsKubeconfigSecret rc then
     wrap "failed to reconcile kubeconfig secret"
       (reconcileOwnedResource object KSecret (kubeconfigSecretObject object)
          (fun s => lift (mutateKubeconfigSecret s rc)))
   else mret tt);;
  (if needsOidcCaBundleSecret rc then
     wrap "failed to reconcile oidc ca bundle secret"
       (reconcileOwnedResource object KSecret (oidcCaBundleSecretObject object)
          (fun s => mret (mutateOidcCaBundleSecret s rc)))
   else mret tt).

Definition patch_vpa_if_registered (rc : ResolvedConfig) (object : Object) : M W unit :=
  if cl_IsGroupRegistered "autoscaling.k8s.io" then patchVpa rc object else mret tt.

Definition reconcileDeploymentDependencies (cfg : option OIDCAppsControllerConfig) (d : Deployment) : M W unit :=
  let object := DeploymentObject d in
  if beingDeleted (obj_meta object) then mret tt
  else
    rc ← Resolve cfg object;
    reconcile_oauth2_secret rc object;;
    wrap "failed to reconcile oauth2 service"
      (reconcileOwnedResource object KService (oauth2ServiceObject object)
         (fun svc => match GetTargetLabelSelector rc with
                     | None => panic "nil LabelSelector"
                     | Some selectors => mret (mutateOauth2Service svc (MatchLabels selectors))
                     end));;
    reconcile_other_secrets rc object;;
    reconcileHTTPRouteForDeployment rc object;;
    patch_vpa_if_registered rc object.

(** The service selector of a pod of a StatefulSet. *)
Definition pod_selectors (rcPod : ResolvedConfig) (pod : Pod) : GoMap string :=
  match map_get (Labels (Pod_Meta pod)) podNameLabel with
  | Some statefulSetPodNameLabel => Some {[ podNameLabel := statefulSetPodNameLabel ]}
  | None =>
      match GetTargetLabelSelector rcPod with
      | Some s => MatchLabels s
      | None => Some ∅
      end
  end.

Definition reconcile_pod (cfg : option OIDCAppsControllerConfig) (rc : ResolvedConfig) (object : Object) (pod : Pod)
  : M W unit :=
  match map_get (Annotations (Pod_Meta pod)) constants.AnnotationHostKey with
  | None => mret tt
  | Some _ =>
      rcPod ← Resolve cfg (PodObject pod);
      wrap "failed to reconcile oauth2 service"
        (reconcileOwnedResource (PodObject pod) KService (oauth2ServiceObject (PodObject pod))
           (fun svc => mret (mutateOauth2Service svc (pod_selectors rcPod pod))));;
      reconcileHTTPRouteForStatefulSetPod rc pod object
  end.

Definition reconcileStatefulSetDependencies (cfg : option OIDCAppsControllerConfig) (s : StatefulSet) : M W unit :=
  let object := StatefulSetObject s in
  if beingDeleted (obj_meta object) then mret tt
  else
    rc ← Resolve cfg object;
    reconcile_oauth2_secret rc object;;
    match StatefulSet_Selector s with
    | None => panic "nil LabelSelector"
    | Some selector =>
        pods ← wrap "failed to list pods"
                 (cl_List KPod (mkListOptions (Some (GetNamespace object)) (MatchLabels selector)));
        for_each pods (reconcile_pod cfg rc object)
    end;;
    reconcile_other_secrets rc object;;
    patch_vpa_if_registered rc object.

(** [hasOidcAppsPods].  [None] from the inner loop: go on with the next pod. *)
Fixpoint owner_refs_loop (object : Object) (refs : list OwnerReference) : M W (option bool) :=
  match refs with
  | [] => mret None
  | ref :: refs' =>
      if String.eqb (OwnerReference_Kind ref) "StatefulSet" then
        if String.eqb (OwnerReference_UID ref) (GetUID object) then mret (Some true)
        else owner_refs_loop object refs'
      else if String.eqb (OwnerReference_Kind ref) "ReplicaSet" then
        r ← try_ (or_not_found (zero_obj KReplicaSet)
                    (cl_Get KReplicaSet (mkNN (GetNamespace object) (OwnerReference_Name ref))));
        match r with
        | inl _ => mret (Some false)
        | inr rs =>
            if existsb (fun d => String.eqb (OwnerReference_Kind d) "Deployment" &&
                                 String.eqb (OwnerReference_UID d) (GetUID object))
                 (OwnerReferences (ReplicaSet_Meta rs))
            then mret (Some true)
            else owner_refs_loop object refs'
        end
      else owner_refs_loop object refs'
  end.

Fixpoint pods_loop (object : Object) (pods : list Pod) : M W bool :=
  match pods with
  | [] => mret false
  | pod :: pods' =>
      if negb (isOidcAppPod pod) then pods_loop object pods'
      else
        r ← owner_refs_loop object (OwnerReferences (Pod_Meta pod));
        match r with
        | Some b => mret b
        | None => pods_loop object pods'
        end
  end.

Definition hasOidcAppsPods (object : Object) : M W bool :=
  r ← try_ (cl_List KPod (mkListOptions (Some (GetNamespace object)) None));
  match r with
  | inl _ => mret false
  | inr pods => pods_loop object pods
  end.

(** ** [registry-secret.go] *)

Definition ensureRegistrySecret (registrySecretName controllerNamespace targetNamespace : string) : M W unit :=
  if String.eqb registrySecretName EmptyString || String.eqb targetNamespace controllerNamespace then mret tt
  else
    r ← try_ (cl_Get KSecret (mkNN targetNamespace registrySecretName));
    match r with
    | inr _ => mret tt
    | inl err =>
        match IgnoreNotFound err with
        | Some _ =>
            throw (Errorf ("failed to check for existing registry secret in " +:+ targetNamespace) err)
        | None =>
            r ← try_ (cl_Get KSecret (mkNN controllerNamespace registrySecretName));
            match r with
            | inl err =>
                let msg := "failed to get source registry secret " +:+ controllerNamespace +:+ "/" +:+
                           registrySecretName in
                throw (match IgnoreNotFound err with
                       | Some e => Errorf msg e
                       | None => ErrorString (msg +:+ ": %!w(<nil>)")
                       end)
            | inr source =>
                let copied := mkSecret (metaForRegistrySecretCopy registrySecretName targetNamespace)
                                (Secret_Type source) (Secret_Data source) None in
                r ← try_ (cl_Create KSecret copied);
                match r with
                | inr _ => mret tt
                | inl err =>
                    match IgnoreAlreadyExists err with
                    | None => mret tt
                    | Some _ =>
                        throw (Errorf ("failed to create registry secret copy in " +:+ targetNamespace) err)
                    end
                end
            end
        end
    end.

(** The loop over the listed objects of one kind. *)
Fixpoint any_other_match (cfg : option OIDCAppsControllerConfig) (removed : Object) (os : list Object) : M W bool :=
  match os with
  | [] => mret false
  | o :: os' =>
      if isSameObject o removed then any_other_match cfg removed os'
      else
        b ← Match cfg o;
        if b : bool then mret true else any_other_match cfg removed os'
  end.

Definition hasMatchedTargetInNamespace (cfg : option OIDCAppsControllerConfig) (namespace : string)
    (removed : Object) : M W bool :=
  deployments ← wrap ("failed to list deployments in " +:+ namespace)
                  (cl_List KDeployment (mkListOptions (Some namespace) None));
  b ← any_other_match cfg removed (map DeploymentObject deployments);
  if b : bool then mret true
  else
    statefulsets ← wrap ("failed to list statefulsets in " +:+ namespace)
                     (cl_List KStatefulSet (mkListOptions (Some namespace) None));
    any_other_match cfg removed (map StatefulSetObject statefulsets).

Definition cleanupRegistrySecretIfLastTarget (cfg : option OIDCAppsControllerConfig)
    (registrySecretName controllerNamespace : string) (removedTarget : Object) : M W unit :=
  let namespace := GetNamespace removedTarget in
  if String.eqb registrySecretName EmptyString || String.eqb namespace controllerNamespace then mret tt
  else
    remaining ← hasMatchedTargetInNamespace cfg namespace removedTarget;
    if remaining : bool then mret tt
    else
      unless_not_found ("failed to delete registry secret copy in " +:+ namespace)
        (cl_Delete KSecret (mkNN namespace registrySecretName)).

(** ** The workload reconcilers *)

(** [DeploymentReconciler] and [StatefulSetReconciler] have the same fields;
    the client is the [Client] instance. *)
Record WorkloadReconciler := mkWorkloadReconciler {
  Reconciler_Config : option OIDCAppsControllerConfig;
  RegistrySecretName : string;
  ControllerNamespace : string }.

(** What both do once the workload is read. *)
Definition reconcile_workload (d : WorkloadReconciler) (object : Object) (dependencies : M W unit) : M W unit :=
  let cleanup := cleanupRegistrySecretIfLastTarget (Reconciler_Config d) (RegistrySecretName d)
                   (ControllerNamespace d) object in
  if String.eqb (GetName object) EmptyString && String.eqb (GetNamespace object) EmptyString then mret tt
  else
    matched ← Match (Reconciler_Config d) object;
    if negb matched then deleteOwnedResources object;; cleanup
    else if beingDeleted (obj_meta object) then cleanup
    else
      b ← hasOidcAppsPods object;
      if negb b then mret tt
      else
        ensureRegistrySecret (RegistrySecretName d) (ControllerNamespace d) (GetNamespace object);;
        dependencies.

Definition DeploymentReconciler_Reconcile (d : WorkloadReconciler) (request : NamespacedName) : M W unit :=
  reconciledDeployment ← or_not_found (zero_obj KDeployment) (cl_Get KDeployment request);
  reconcile_workload d (DeploymentObject reconciledDeployment)
    (reconcileDeploymentDependencies (Reconciler_Config d) reconciledDeployment).

Definition StatefulSetReconciler_Reconcile (d : WorkloadReconciler) (request : NamespacedName) : M W unit :=
  reconciledStatefulSet ← or_not_found (zero_obj KStatefulSet) (cl_Get KStatefulSet request);
  reconcile_workload d (StatefulSetObject reconciledStatefulSet)
    (reconcileStatefulSetDependencies (Reconciler_Config d) reconciledStatefulSet).

(** ** [image-pull-secret-reconciler.go] *)

Definition DOCKERCONFIGJSON : string := ".dockerconfigjson".

Record ImagePullSecretReconciler := mkImagePullSecretReconciler { SecretName : string }.

Definition deletePropagatedSecrets (sourceNamespace : string) : M W unit :=
  items ← wrap "failed to list propagated image pull secrets"
            (cl_List KSecret (mkListOptions None registry_selector));
  for_each items (fun target : Secret =>
    if String.eqb (Namespace (Secret_Meta target)) sourceNamespace then mret tt
    else unless_not_found ("failed to delete propagated image pull secret " +:+ qualified (Secret_Meta target))
           (cl_Delete KSecret (key_of (Secret_Meta target)))).

(** The copy with the source's registry credentials; a missing key reads as a
    nil slice, which is stored as an empty value. *)
Definition refreshed (target secret : Secret) : Secret :=
  mkSecret (Secret_Meta target) (Secret_Type target)
    (Some (<[DOCKERCONFIGJSON := default EmptyString (map_get (Secret_Data secret) DOCKERCONFIGJSON)]>
             (map_contents (Secret_Data target))))
    (Secret_StringData target).

Definition ImagePullSecretReconciler_Reconcile (r : ImagePullSecretReconciler) (request : NamespacedName) : M W unit :=
  secret ← or_not_found (zero_obj KSecret) (cl_Get KSecret request);
  let meta := Secret_Meta secret in
  if negb (String.eqb (Name meta) (SecretName r)) then mret tt
  else if beingDeleted meta then
    if negb (ContainsFinalizer meta constants.RegistrySecretFinalizer) then mret tt
    else
      deletePropagatedSecrets (Namespace meta);;
      wrap "failed to remove finalizer"
        (cl_Update KSecret (set_secret_meta (RemoveFinalizer meta constants.RegistrySecretFinalizer) secret))
  else
    let '(added, meta) := AddFinalizer meta constants.RegistrySecretFinalizer in
    let secret := set_secret_meta meta secret in
    (if added : bool then wrap "failed to add finalizer" (cl_Update KSecret secret) else mret tt);;
    items ← cl_List KSecret (mkListOptions None registry_selector);
    for_each items (fun target : Secret => r ← try_ (cl_Update KSecret (refreshed target secret)); mret tt).

End Controllers.
