(* ===== verification/ControllersSpec.v ===== *)
(** * What the reconcilers promise

    Over any API server that obeys [ClientWrites]: pruning removes exactly
    the owned objects, reconciling a Deployment establishes every object its
    pods need, and what the controller writes stays in its cache. *)

From S2P Require Import Prelude GoStrings RandUtils Kube Constants Vendor Reference.
From S2P Require Import Configuration ConfigurationSpec Templates WebhookModifiers PodWebhook.
From S2P Require Import WebhookSpec PodWebhookSpec ControllerObjects ControllerObjectsSpec Controllers.

(** ** Specifications *)

(** The labels by which pruning finds the objects of a kind. *)
Definition prune_selector (k : Kind) : option (gmap string string) :=
  match k with
  | KSecret => Some (secret_labels constants.Oauth2LabelValue)
  | KHTTPRoute | KService => Some component_labels
  | _ => None
  end.

(** The objects that pruning is to remove: owned by the workload, in its
    namespace, and carrying the labels. *)
Definition prunable (object : Object) (k : Kind) (o : kobj k) : Prop :=
  exists sel, prune_selector k = Some sel /\
    list_selects (mkListOptions (Some (GetNamespace object)) (Some sel)) (meta_of k o) /\
    isAnOwnedResource object (meta_of k o) = true.

(** An object with a deletion timestamp. *)
Definition mark (k : Kind) (t : Z) (o : kobj k) : kobj k :=
  set_meta k (set_deletion_timestamp (Some t) (meta_of k o)) o.

(** What may become of an object that is deleted: it goes, or it is marked
    because a finalizer holds it. *)
Definition deleted (k : Kind) (o : kobj k) (r : option (kobj k)) : Prop :=
  r = None \/ exists t, Finalizers (meta_of k o) <> [] /\ r = Some (mark k t o).

Section Evolution.
Context {W : Type} `{ClientReads W}.

(** Between the two states only objects satisfying [Q] have been deleted, and
    nothing else has changed. *)
Definition evolves (Q : forall k, kobj k -> Prop) (w w' : W) : Prop :=
  forall k key, view w' k key = view w k key \/
    exists o, view w k key = Some o /\ Q k o /\ deleted k o (view w' k key).

(** Nothing has been created. *)
Definition decays (w w' : W) : Prop := evolves (fun _ _ => True) w w'.

(** A list is never reported as missing: the kinds are installed. *)
Definition lists_found `{Vendor} : Prop :=
  forall k opts (w : W) e, fst (cl_List k opts w) = Err e -> IsNotFound e = false.

End Evolution.

Section Readiness.
Context {W : Type} `{ClientReads W}.

(** Only objects under the listed keys have changed. *)
Definition touches (L : list (Kind * NamespacedName)) (w w' : W) : Prop :=
  forall k key, ~ In (k, key) L -> view w' k key = view w k key.

(** The object maintained under the key of [obj] exists, is owned by
    [owner] and satisfies [P]. *)
Definition maintained (w : W) (owner : Object) (k : Kind) (obj : kobj k) (P : kobj k -> Prop) : Prop :=
  exists o, view w k (key_of (meta_of k obj)) = Some o /\ isAnOwnedResource owner (meta_of k o) = true /\ P o.

(** The entry of a secret. *)
Definition has_entry (name value : string) (s : Secret) : Prop := map_get (Secret_Data s) name = Some value.

Definition kubeconfig_ready `{Vendor} (rc : ResolvedConfig) (object : Object) (w : W) : Prop :=
  maintained w object KSecret (kubeconfigSecretObject object)
    (fun s => exists text cfg, Base64.Base64.DecodeString (GetKubeConfigStr rc) = Some text /\
       yaml_Unmarshal_ClientConfig text = inr cfg /\ has_entry "kubeconfig" (yaml_Marshal_ClientConfig cfg) s).

Definition ca_ready (rc : ResolvedConfig) (object : Object) (w : W) : Prop :=
  maintained w object KSecret (oidcCaBundleSecretObject object) (has_entry "ca.crt" (GetOidcCABundle rc)).

(** The secrets of a workload, apart from the one of the oauth2-proxy. *)
Definition other_secrets_ready `{Vendor} `{Yaml3} (w : W) (rc : ResolvedConfig) (object : Object) : Prop :=
  maintained w object KSecret (resourceAttributesSecretObject object)
    (has_entry "config-file.yaml"
       (root_Parse (NewResourceAttributes [WithNamespace (GetNamespace object); WithSubresource (GetName object)]))) /\
  (needsKubeconfigSecret rc = true -> kubeconfig_ready rc object w) /\
  (needsOidcCaBundleSecret rc = true -> ca_ready rc object w).

Definition service_ready (rc : ResolvedConfig) (object : Object) (w : W) : Prop :=
  maintained w object KService (oauth2ServiceObject object)
    (fun svc => Service_Ports svc = [mkServicePort "http" 8080 (FromString "oauth2")] /\
       exists sel, GetTargetLabelSelector rc = Some sel /\ Service_Selector svc = MatchLabels sel).

Definition route_ready (rc : ResolvedConfig) (object : Object) (w : W) : Prop :=
  maintained w object KHTTPRoute (httpRouteForDeploymentObject object)
    (fun r => HTTPRoute_Hostnames r = [GetHost rc] /\
       backend_refs r = [mkBackendRef (constants.ServiceNameOauth2Service +:+ "-" +:+ digest_suffix object) 8080]).

(** Everything the pods of a Deployment need. *)
Definition deployment_ready `{Vendor} `{OSEnv} `{Yaml3} (w : W) (rc : ResolvedConfig) (object : Object) : Prop :=
  maintained w object KSecret (oauth2SecretObject object)
    (fun s => has_entry "oauth2-proxy.cfg" (oauth2_cfg rc) s /\
       is_Some (map_get (Secret_Data s) constants.Oauth2CookieSecretKey)) /\
  service_ready rc object w /\
  other_secrets_ready w rc object /\
  (ShallCreateHTTPRoute rc = true -> route_ready rc object w).

(** The keys a reconcile of a Deployment may write. *)
Definition secret_keys (object : Object) : list (Kind * NamespacedName) :=
  [(KSecret, key_of (Secret_Meta (resourceAttributesSecretObject object)));
   (KSecret, key_of (Secret_Meta (kubeconfigSecretObject object)));
   (KSecret, key_of (Secret_Meta (oidcCaBundleSecretObject object)))].

Definition deployment_keys (object : Object) : list (Kind * NamespacedName) :=
  [(KSecret, key_of (Secret_Meta (oauth2SecretObject object)));
   (KService, key_of (Service_Meta (oauth2ServiceObject object)))] ++ secret_keys object ++
  [(KHTTPRoute, key_of (HTTPRoute_Meta (httpRouteForDeploymentObject object)))].

(** None of these objects is being deleted. *)
Definition none_deleted (w : W) (L : list (Kind * NamespacedName)) : Prop :=
  forall k key o, In (k, key) L -> view w k key = Some o -> beingDeleted (meta_of k o) = false.

End Readiness.

(** ** Lemmas on deletion *)

Lemma mark_mark k t t' (o : kobj k) : mark k t' (mark k t o) = mark k t' o.
Proof. unfold mark. by rewrite meta_of_set_meta, set_meta_set_meta. Qed.

Lemma key_of_mark k t (o : kobj k) : key_of (meta_of k (mark k t o)) = key_of (meta_of k o).
Proof. unfold mark. by rewrite meta_of_set_meta. Qed.

Section Pruning.
Context {W : Type} `{ClientWrites W} `{!VendorLaws}.

Lemma evolves_refl Q (w : W) : evolves Q w w.
Proof. by left. Qed.

Lemma evolves_trans Q P (w0 w w' : W) :
  evolves Q w0 w -> evolves P w w' ->
  (forall k key x x0, view w k key = Some x -> P k x -> view w0 k key = Some x0 -> Q k x0) ->
  evolves Q w0 w'.
Proof.
  intros E1 E2 HPQ k key. destruct (E2 k key) as [->|(x & Hx & HP & Hr)]; [apply E1|].
  right. destruct (E1 k key) as [Heq|(x0 & Hx0 & HQ & Hr0)].
  - rewrite Hx in Heq. exists x. symmetry in Heq. split; [done|]. split; [by eapply HPQ|done].
  - exists x0. split; [done|]. split; [done|].
    destruct Hr0 as [Hn|(t & Hf & Hs)]; [congruence|].
    rewrite Hx in Hs. injection Hs as ->.
    destruct Hr as [Hn|(t' & Hf' & Hs')]; [by left|]. right. exists t'.
    rewrite mark_mark in Hs'. by split.
Qed.

Lemma decays_none (w w' : W) k key : decays w w' -> view w k key = None -> view w' k key = None.
Proof. intros E Hn. destruct (E k key) as [->|(o & Ho & _)]; [done|congruence]. Qed.

(** A deletion touches only the object under its key. *)
Lemma delete_evolves k key (w : W) :
  evolves (fun k' o => k' = k /\ key_of (meta_of k' o) = key) w (snd (cl_Delete k key w)).
Proof.
  intros k' key'. destruct (decide (k' = k /\ key' = key)) as [[-> ->]|Hne].
  - destruct (delete_own k key w) as [Hn|[Heq|(o & t & Ho & Hf & Hs)]]; [|by left|].
    + destruct (view w k key) as [o|] eqn:Ho; [right|by left]. exists o. split; [done|].
      split; [split; [done|by eapply view_key]|by left].
    + right. exists o. split; [done|]. split; [split; [done|by eapply view_key]|].
      right. by exists t.
  - left. apply delete_frame. destruct (decide (k' = k)); [right|left]; naive_solver.
Qed.

(** One deletion that tolerates a missing object. *)
Lemma unless_not_found_delete msg k key (w : W) :
  exists r, unless_not_found msg (cl_Delete k key) w = (r, snd (cl_Delete k key w)) /\
    (forall p, r <> Panic p) /\
    (r = Ret tt -> forall o, view w k key = Some o -> Finalizers (meta_of k o) = [] ->
       view (snd (cl_Delete k key w)) k key = None).
Proof.
  unfold unless_not_found, mbind, M_bind, try_.
  pose proof (delete_done k key w) as Hd. pose proof (delete_not_found k key w) as Hn.
  pose proof (delete_no_panic k key w) as Hp.
  destruct (cl_Delete k key w) as [[[]|e|p] w']; cbn [fst snd] in *.
  - exists (Ret tt). split; [done|]. split; [done|]. intros _ o. by apply Hd.
  - rewrite IgnoreNotFound_spec. specialize (Hn e eq_refl). destruct (IsNotFound e) eqn:E.
    + exists (Ret tt). split; [done|]. split; [done|]. intros _ o Ho. rewrite Hn in Ho by done. done.
    + eexists. split; [done|]. split; done.
  - by destruct (Hp p).
Qed.

(** Deleting a list of objects, each of which is still what it was in [wl] or
    has been deleted since. *)
Lemma delete_each_spec k (msg : kobj k -> string) items (wl w : W) :
  Forall (fun o => view wl k (key_of (meta_of k o)) = Some o) items -> decays wl w ->
  exists r w', for_each items (fun o => unless_not_found (msg o) (cl_Delete k (key_of (meta_of k o)))) w = (r, w') /\ (forall p, r <> Panic p) /\
    evolves (fun k' o => k' = k /\ exists i, In i items /\ key_of (meta_of k' o) = key_of (meta_of k i)) w w' /\
    (r = Ret tt -> forall i, In i items -> Finalizers (meta_of k i) = [] ->
       view w' k (key_of (meta_of k i)) = None).
Proof.
  revert w. induction items as [|o items IH]; intros w Hall Hw.
  - exists (Ret tt), w. split; [done|]. split; [done|]. split; [apply evolves_refl|]. by intros _ i [].
  - inversion_clear Hall as [|? ? Ho Hall']. cbn [for_each].
    destruct (unless_not_found_delete (msg o) k (key_of (meta_of k o)) w) as (r & Hr & Hp & Hdone).
    pose proof (delete_evolves k (key_of (meta_of k o)) w) as Hev.
    set (w1 := snd (cl_Delete k (key_of (meta_of k o)) w)) in *.
    unfold mbind at 1, M_bind at 1. rewrite Hr. destruct r as [[]|e|p]; [| |by destruct (Hp p)].
    + assert (Hw1 : decays wl w1) by (by eapply evolves_trans).
      destruct (IH w1 Hall' Hw1) as (r & w' & Hgo & Hp' & Hev' & Hdone').
      exists r, w'. split; [exact Hgo|]. split; [done|]. split.
      * eapply evolves_trans; [|exact Hev'|].
        -- eapply evolves_trans; [apply evolves_refl|exact Hev|]. cbn.
           intros k' key x x0 Hx [-> Hk] Hx0. rewrite Hx in Hx0. injection Hx0 as <-.
           split; [done|]. exists o. split; [by left|done].
        -- cbn. intros k' key x x0 Hx (-> & i & Hi & Hk) Hx0. split; [done|]. exists i.
           split; [by right|]. rewrite (view_key _ _ _ _ Hx0). by rewrite <- (view_key _ _ _ _ Hx).
      * intros Hret i [<-|Hi] Hf; [|by apply Hdone'].
        assert (Hdec : decays w1 w') by (eapply evolves_trans; [apply evolves_refl|exact Hev'|done]).
        apply (decays_none w1); [exact Hdec|].
        destruct (Hw k (key_of (meta_of k o))) as [Heq|(x & Hx & _ & Hdel)].
        -- rewrite Ho in Heq. by apply (Hdone eq_refl o).
        -- rewrite Ho in Hx. injection Hx as <-. destruct Hdel as [Hn|(t & Hf' & _)]; [|done].
           apply (decays_none w); [|exact Hn]. eapply evolves_trans; [apply evolves_refl|exact Hev|done].
    + exists (Err e), w1. split; [done|]. split; [done|]. split; [|done].
      eapply evolves_trans; [apply evolves_refl|exact Hev|]. cbn.
      intros k' key x x0 Hx [-> Hk] Hx0. rewrite Hx in Hx0. injection Hx0 as <-.
      split; [done|]. exists o. split; [by left|done].
Qed.

Lemma delete_all_spec k what items (wl w : W) :
  Forall (fun o => view wl k (key_of (meta_of k o)) = Some o) items -> decays wl w ->
  exists r w', delete_all k what items w = (r, w') /\ (forall p, r <> Panic p) /\
    evolves (fun k' o => k' = k /\ exists i, In i items /\ key_of (meta_of k' o) = key_of (meta_of k i)) w w' /\
    (r = Ret tt -> forall i, In i items -> Finalizers (meta_of k i) = [] ->
       view w' k (key_of (meta_of k i)) = None).
Proof. apply (delete_each_spec k (fun o => "failed to delete " +:+ what +:+ " " +:+ qualified (meta_of k o))). Qed.

(** Listing the owned objects of a kind reads the state once; a list that is
    reported as missing counts as empty. *)
Lemma fetch_owned_spec k sel object (w : W) :
  exists r, fetch_owned k sel object w = (r, w) /\ (forall p, r <> Panic p) /\
    forall l, r = Ret l ->
      (forall o, In o l -> view w k (key_of (meta_of k o)) = Some o /\ isAnOwnedResource object (meta_of k o) = true /\
         list_selects (mkListOptions (Some (GetNamespace object)) (Some sel)) (meta_of k o)) /\
      (lists_found -> forall key o, view w k key = Some o -> isAnOwnedResource object (meta_of k o) = true ->
         list_selects (mkListOptions (Some (GetNamespace object)) (Some sel)) (meta_of k o) ->
         in_cache cache_selector k (meta_of k o) = true -> In o l).
Proof.
  unfold fetch_owned, or_not_found, mbind, M_bind, try_.
  set (opts := mkListOptions (Some (GetNamespace object)) (Some sel)).
  pose proof (list_pure k opts w) as Hp. pose proof (list_no_panic k opts w) as Hn.
  pose proof (list_spec k opts w) as Hs. unfold lists_found.
  pose proof (fun F : forall k opts w e, fst (cl_List k opts w) = Err e -> IsNotFound e = false => F k opts w) as Hf.
  destruct (cl_List k opts w) as [[l|e|p] w']; cbn [fst snd] in *; subst w'; [| |by destruct (Hn p)].
  - eexists. split; [done|]. split; [done|]. intros l' [= <-]. specialize (Hs l eq_refl). split.
    + intros o [Ho Hown]%filter_In. apply Hs in Ho as ([key Hv] & Hsel & _).
      by rewrite (view_key _ _ _ _ Hv).
    + intros _ key o Hv Hown Hsel Hc. apply filter_In. split; [|done]. apply Hs. split; [by exists key|done].
  - rewrite IgnoreNotFound_spec. destruct (IsNotFound e) eqn:E.
    + eexists. split; [done|]. split; [done|]. intros l' [= <-]. split; [by intros o []|].
      intros F. specialize (Hf F e eq_refl). congruence.
    + eexists. split; [done|]. split; [done|]. done.
Qed.

Lemma prunable_mark object k t o : prunable object k (mark k t o) <-> prunable object k o.
Proof. unfold prunable, mark. by rewrite meta_of_set_meta. Qed.

(** Every label by which pruning looks is one the cache asks for. *)
Lemma prune_selector_cached k sel ns (m : ObjectMeta) :
  prune_selector k = Some sel -> list_selects (mkListOptions ns (Some sel)) m -> in_cache cache_selector k m = true.
Proof. intros Hk [_ Hl]. by destruct k; try discriminate Hk; injection Hk as <-; apply bool_decide_eq_true, Hl. Qed.

(** Pruning one kind, after other deletions. *)
Lemma prune_kind k sel what object (w0 w : W) :
  prune_selector k = Some sel -> evolves (prunable object) w0 w ->
  exists r w', (items ← fetch_owned k sel object; delete_all k what items) w = (r, w') /\
    (forall p, r <> Panic p) /\ evolves (prunable object) w0 w' /\ decays w w' /\
    (r = Ret tt -> lists_found -> forall key o, view w0 k key = Some o -> prunable object k o ->
       Finalizers (meta_of k o) = [] -> view w' k key = None).
Proof.
  intros Hk Hev. destruct (fetch_owned_spec k sel object w) as (r & Hr & Hp & Hl).
  unfold mbind at 1, M_bind at 1. rewrite Hr.
  destruct r as [l|e|p]; [| |by destruct (Hp p)].
  2: { exists (Err e), w. do 3 (split; [done|]). by split; [apply evolves_refl|]. }
  specialize (Hl l eq_refl) as [Hsound Hcomplete].
  assert (Hall : Forall (fun o => view w k (key_of (meta_of k o)) = Some o) l)
    by (apply Forall_forall; intros o Ho; by apply Hsound).
  destruct (delete_all_spec k what l w w Hall (evolves_refl _ w)) as (r & w' & Hd & Hp' & Hev' & Hdone).
  exists r, w'. split; [exact Hd|]. split; [done|].
  assert (Hdec : decays w w') by (eapply evolves_trans; [apply evolves_refl|exact Hev'|done]).
  split; [|split; [exact Hdec|]].
  - eapply evolves_trans; [exact Hev|exact Hev'|]. cbn. intros k' key x x0 Hx (-> & i & Hi & Hkey) Hx0.
    destruct (Hsound i Hi) as (Hvi & Hown & Hsel). rewrite <- Hkey, (view_key _ _ _ _ Hx), Hx in Hvi.
    injection Hvi as ->. assert (Hpr : prunable object k i) by (by exists sel).
    destruct (Hev k key) as [Heq|(y & Hy & HQ & _)]; [congruence|]. rewrite Hx0 in Hy. by injection Hy as ->.
  - intros Hret F key o Ho (sel' & Hsel' & Hselo & Hown) Hf. rewrite Hk in Hsel'. injection Hsel' as <-.
    destruct (Hev k key) as [Heq|(y & Hy & HQ & Hdel)].
    + rewrite Ho in Heq. rewrite <- (view_key _ _ _ _ Ho). apply Hdone; [done| |done].
      apply (Hcomplete F key); [done..|]. by eapply prune_selector_cached.
    + rewrite Ho in Hy. injection Hy as <-. destruct Hdel as [Hn|(t & Hf' & _)]; [|done].
      by apply (decays_none w).
Qed.

End Pruning.

Section PruningTheorem.
Context {W : Type} `{ClientWrites W} `{!VendorLaws}.

Lemma deleteOwnedResources_steps object (w : W) :
  exists r w', deleteOwnedResources object w = (r, w') /\ (forall p, r <> Panic p) /\
    evolves (prunable object) w w' /\
    (r = Ret tt -> lists_found -> forall k key o, view w k key = Some o -> prunable object k o ->
       Finalizers (meta_of k o) = [] -> view w' k key = None).
Proof.
  unfold deleteOwnedResources, fetchOidcAppsSecrets, fetchOidcAppsHTTPRoutes, fetchOidcAppsServices.
  rewrite <- M_bind_assoc.
  destruct (prune_kind KSecret _ "secret" object w w eq_refl (evolves_refl _ w))
    as (r1 & w1 & E1 & P1 & Ev1 & D1 & C1).
  rewrite (M_bind_case _ _ _ _ _ E1). destruct r1 as [[]|e|p]; [|by exists (Err e), w1|by destruct (P1 p)].
  rewrite <- M_bind_assoc.
  destruct (prune_kind KHTTPRoute _ "httproute" object w w1 eq_refl Ev1) as (r2 & w2 & E2 & P2 & Ev2 & D2 & C2).
  rewrite (M_bind_case _ _ _ _ _ E2). destruct r2 as [[]|e|p]; [|by exists (Err e), w2|by destruct (P2 p)].
  destruct (prune_kind KService _ "service" object w w2 eq_refl Ev2) as (r3 & w3 & E3 & P3 & Ev3 & D3 & C3).
  exists r3, w3. split; [exact E3|]. split; [done|]. split; [done|].
  intros Hret F k key o Ho Hpr Hf. pose proof Hpr as (sel & Hsel & _).
  destruct k; try discriminate Hsel.
  - apply (decays_none w2); [done|]. apply (decays_none w1); [done|]. by eapply C1.
  - by eapply C3.
  - apply (decays_none w2); [done|]. by eapply C2.
Qed.

(** C9. Pruning is safe and complete.  Whatever happens, an error included,
    [deleteOwnedResources] never panics and the only objects it removes (or
    marks for deletion) are oauth2 secrets, routes and services in the
    workload's namespace that carry the component label and an owner
    reference to the workload; nothing else changes.  When it succeeds, and
    the kinds are installed, every such object without a finalizer is
    gone. *)
Theorem deleteOwnedResources_prunes (object : Object) (w : W) :
  exists r w', deleteOwnedResources object w = (r, w') /\ (forall p, r <> Panic p) /\
    (forall k key, view w' k key = view w k key \/
       exists o, view w k key = Some o /\ prunable object k o /\ deleted k o (view w' k key)) /\
    (r = Ret tt -> lists_found -> forall k key o, view w k key = Some o -> prunable object k o ->
       Finalizers (meta_of k o) = [] -> view w' k key = None).
Proof. apply deleteOwnedResources_steps. Qed.

End PruningTheorem.

(** ** Lemmas on owned resources *)

Section Owned.
Context {W : Type} `{ClientWrites W}.

(** What a successful [reconcileOwnedResource] leaves behind. *)
Lemma reconcileOwned_spec owner k (obj : kobj k) mutate (w w' : W) :
  reconcileOwnedResource owner k obj mutate w = (Ret tt, w') ->
  let key := key_of (meta_of k obj) in
  exists y x refs w1, seen w k key obj y /\ mutate y w = (Ret x, w1) /\ frame k key w1 w' /\
    Exists (fun r => OwnerReference_UID r = GetUID owner) refs /\
    (beingDeleted (meta_of k x) = false ->
       view w' k key = Some (stored k (set_meta k (set_owner_references refs (meta_of k x)) x))).
Proof.
  cbv zeta. unfold reconcileOwnedResource. intros Hr. apply M_bind_inv in Hr as (res & w2 & Hc & Hr).
  unfold mret, M_ret in Hr. injection Hr as ->.
  apply create_or_update_spec in Hc as (z & y & w1 & Hseen & Hm & Hkey & Hfr & Hst).
  apply M_bind_inv in Hm as (x & w1' & Hm & Hset). unfold lift in Hset. injection Hset as Hset ->.
  apply set_owner_spec in Hset as (refs & -> & Hex).
  exists z, x, refs, w1. do 4 (split; [done|]).
  intros Hd. apply Hst. rewrite meta_of_set_meta. exact Hd.
Qed.

Lemma touches_refl L (w : W) : touches L w w.
Proof. done. Qed.

Lemma touches_trans L L' (w w1 w' : W) : touches L w w1 -> touches L' w1 w' -> touches (L ++ L') w w'.
Proof. intros T T' k key Hn. rewrite in_app_iff in Hn. rewrite T', T; tauto. Qed.

Lemma touches_mono L L' (w w' : W) : incl L L' -> touches L w w' -> touches L' w w'.
Proof. intros Hi T k key Hn. apply T. intros Hin. by apply Hn, Hi. Qed.

Lemma touches_same L (w w' : W) : (forall k key, view w' k key = view w k key) -> touches L w w'.
Proof. by intros E k key _. Qed.

Lemma maintained_touches L owner k obj P (w w' : W) :
  maintained w owner k obj P -> touches L w w' -> ~ In (k, key_of (meta_of k obj)) L ->
  maintained w' owner k obj P.
Proof. intros (o & Ho & HP) T Hn. exists o. by rewrite (T _ _ Hn). Qed.

Lemma none_deleted_touches L L' (w w' : W) :
  none_deleted w L -> touches L' w w' -> (forall x, In x L -> ~ In x L') -> none_deleted w' L.
Proof. intros N T Hd k key o Hin Ho. rewrite (T k key (Hd _ Hin)) in Ho. by eapply N. Qed.

Lemma owned_stored owner k refs (x : kobj k) :
  Exists (fun r => OwnerReference_UID r = GetUID owner) refs ->
  isAnOwnedResource owner (meta_of k (stored k (set_meta k (set_owner_references refs (meta_of k x)) x))) = true.
Proof.
  intros He. rewrite meta_of_stored, meta_of_set_meta. unfold isAnOwnedResource.
  cbn [OwnerReferences set_owner_references]. apply existsb_exists.
  apply Exists_exists in He as (r & Hr & Hu). exists r. split; [done|]. by apply String.eqb_eq.
Qed.

(** A successful step maintains its object and touches nothing else, if the
    mutation keeps the deletion timestamp and leaves the cluster alone. *)
Lemma reconcileOwned_maintains owner k (obj : kobj k) mutate (P : kobj k -> Prop) (w w' : W) :
  reconcileOwnedResource owner k obj mutate w = (Ret tt, w') ->
  beingDeleted (meta_of k obj) = false -> none_deleted w [(k, key_of (meta_of k obj))] ->
  stored k obj = obj ->
  (forall y x w1, mutate y w = (Ret x, w1) -> stored k y = y ->
     beingDeleted (meta_of k x) = beingDeleted (meta_of k y) /\
     (forall k' key', view w1 k' key' = view w k' key') /\
     forall m, P (stored k (set_meta k m x))) ->
  maintained w' owner k obj P /\ touches [(k, key_of (meta_of k obj))] w w'.
Proof.
  intros Hr Hd Hnd Hso Hm. apply reconcileOwned_spec in Hr as (y & x & refs & w1 & Hseen & Hx & Hfr & Hex & Hst).
  assert (Hy : stored k y = y /\ beingDeleted (meta_of k y) = false).
  { destruct Hseen as [Hv|[-> _]]; [|done]. split; [by eapply view_stored|]. by eapply Hnd; [left|]. }
  destruct Hy as [Hsy Hdy]. destruct (Hm _ _ _ Hx Hsy) as (Hdel & Hview & HP). split.
  - eexists. split; [apply Hst; congruence|]. split; [by apply owned_stored|apply HP].
  - intros k' key' Hn. rewrite Hfr; [apply Hview|].
    destruct (decide (k' = k)) as [->|]; [right|by left]. intros ->. apply Hn. by left.
Qed.

End Owned.

(** ** The steps of a reconcile *)

Section Steps.
Context {W : Type} `{ClientWrites W} `{OSEnv} `{Yaml3}.

Lemma random_loop_view n b (w : W) k key : view (snd (random_loop n b w)) k key = view w k key.
Proof.
  revert b w. induction n as [|n IH]; intros b w; [done|]. cbn [random_loop].
  unfold mbind, M_bind, try_. pose proof (rand_view (Z.of_nat (String.length charset)) w k key) as Hv.
  destruct (rand_Int _ w) as [[v|e|p] w']; cbn [snd] in *; [|exact Hv..].
  unfold lift. destruct (charset_at v); [|exact Hv..]. by rewrite IH.
Qed.

Lemma mutateOauth2Secret_inv secret rc x (w w' : W) :
  mutateOauth2Secret secret rc w = (Ret x, w') ->
  (exists c, x = written_secret secret rc c) /\ forall k key, view w' k key = view w k key.
Proof.
  unfold mutateOauth2Secret. fold (cookie_of secret). rewrite oauth2_cfg_eq. intros Hm.
  apply M_bind_inv in Hm as (c & w1 & Hc & Hm). unfold mret, M_ret in Hm. injection Hm as <- <-.
  split; [by exists c|]. intros k key. destruct (Nat.eqb _ 0).
  - unfold GenerateRandomString in Hc. pose proof (random_loop_view 32 EmptyString w k key) as Hv. by rewrite Hc in Hv.
  - unfold mret, M_ret in Hc. by injection Hc as _ <-.
Qed.

Lemma stored_secret_no_string_data (y : Secret) : stored KSecret y = y -> Secret_StringData y = None.
Proof. destruct y as [m t d [sd|]]; [|done]. intros E. discriminate E. Qed.

Lemma reconcile_oauth2_secret_spec rc object (w w' : W) :
  reconcile_oauth2_secret rc object w = (Ret tt, w') ->
  none_deleted w [(KSecret, key_of (Secret_Meta (oauth2SecretObject object)))] ->
  maintained w' object KSecret (oauth2SecretObject object)
    (fun s => has_entry "oauth2-proxy.cfg" (oauth2_cfg rc) s /\
       is_Some (map_get (Secret_Data s) constants.Oauth2CookieSecretKey)) /\
  touches [(KSecret, key_of (Secret_Meta (oauth2SecretObject object)))] w w'.
Proof.
  intros Hr%wrap_inv Hnd. eapply (reconcileOwned_maintains _ KSecret); [exact Hr|done|exact Hnd|done|].
  intros y x w1 Hm Hy. apply mutateOauth2Secret_inv in Hm as [[c ->] Hv].
  split; [done|]. split; [done|]. intros m. unfold has_entry. rewrite oauth2_cfg_eq.
  apply stored_secret_no_string_data in Hy.
  cbn [stored set_meta Secret_StringData written_secret]. rewrite Hy.
  cbn [Secret_Data written_secret map_get].
  rewrite lookup_insert_ne, lookup_singleton_eq by done. rewrite lookup_insert_eq. by split.
Qed.

(** A secret written through its string data. *)
Lemma string_data_entry label key value y m :
  has_entry key value (stored KSecret (set_meta KSecret m (with_string_data label key value y))).
Proof.
  unfold has_entry, with_string_data. cbn [stored set_meta Secret_StringData Secret_Data map_get].
  apply lookup_union_Some_l, lookup_singleton_eq.
Qed.

Lemma string_data_step owner (obj : Secret) mutate P (w w' : W) msg :
  wrap msg (reconcileOwnedResource owner KSecret obj mutate) w = (Ret tt, w') ->
  beingDeleted (Secret_Meta obj) = false -> stored KSecret obj = obj ->
  none_deleted w [(KSecret, key_of (Secret_Meta obj))] ->
  (forall y x w1, mutate y w = (Ret x, w1) -> w1 = w /\ exists label key value,
     x = with_string_data label key value y /\ forall s, has_entry key value s -> P s) ->
  maintained w' owner KSecret obj P /\ touches [(KSecret, key_of (Secret_Meta obj))] w w'.
Proof.
  intros Hr%wrap_inv Hd Hs Hnd Hm.
  eapply (reconcileOwned_maintains _ KSecret); [exact Hr|exact Hd|exact Hnd|exact Hs|].
  intros y x w1 Hx _. destruct (Hm _ _ _ Hx) as (-> & label & key & value & -> & HP).
  split; [done|]. split; [done|]. intros m. apply HP, string_data_entry.
Qed.

Lemma mret_inv {A} (a b : A) (w w' : W) : (mret a : M W A) w = (Ret b, w') -> b = a /\ w' = w.
Proof. unfold mret, M_ret. intros [= <- <-]. done. Qed.

Lemma lift_inv {A} (o : outcome A) b (w w' : W) : lift o w = (Ret b, w') -> o = Ret b /\ w' = w.
Proof. unfold lift. intros [= -> <-]. done. Qed.

Lemma mutateKubeconfigSecret_inv rc y x :
  mutateKubeconfigSecret y rc = Ret x ->
  exists text cfg, Base64.Base64.DecodeString (GetKubeConfigStr rc) = Some text /\
    yaml_Unmarshal_ClientConfig text = inr cfg /\
    x = with_string_data constants.KubeconfigLabelValue "kubeconfig" (yaml_Marshal_ClientConfig cfg) y.
Proof.
  unfold mutateKubeconfigSecret. destruct (Base64.Base64.DecodeString _) as [text|]; [|done].
  destruct (yaml_Unmarshal_ClientConfig text) as [|cfg] eqn:E; [done|]. intros [= <-].
  by exists text, cfg.
Qed.

Lemma none_deleted_incl L L' (w : W) : incl L' L -> none_deleted w L -> none_deleted w L'.
Proof. intros Hi N k key o Hin. apply N. by apply Hi. Qed.

(** Two different objects of a list of keys: by kind or by the literal head
    of their names. *)
Local Ltac not_there :=
  cbn [In app secret_keys deployment_keys]; let H := fresh in intros H;
  repeat match type of H with _ \/ _ => destruct H as [H|H] end;
  try discriminate H; try (by destruct H).

Local Ltac sub_keys :=
  let x := fresh in let H := fresh in
  intros x H; cbn [In app secret_keys deployment_keys] in H; repeat match type of H with _ \/ _ => destruct H as [H|H] end;
  try (by destruct H); subst; cbn [In app secret_keys deployment_keys]; tauto.

Lemma optional_step (b : bool) (step : M W unit) (P : W -> Prop) L (w w' : W) :
  (if b then step else mret tt) w = (Ret tt, w') ->
  (step w = (Ret tt, w') -> P w' /\ touches L w w') ->
  (b = true -> P w') /\ touches L w w'.
Proof.
  intros Hs Hstep. destruct b; [destruct (Hstep Hs); by split|]. apply mret_inv in Hs as [_ ->]. by split.
Qed.

(** The three steps, each for its own secret. *)
Lemma resource_attributes_step object (w w' : W) :
  wrap "failed to reconcile resource attributes secret"
    (reconcileOwnedResource object KSecret (resourceAttributesSecretObject object)
       (fun s => mret (mutateResourceAttributesSecret s object (fetchResourceAttributesNamespace object)))) w = (Ret tt, w') ->
  none_deleted w [(KSecret, key_of (Secret_Meta (resourceAttributesSecretObject object)))] ->
  maintained w' object KSecret (resourceAttributesSecretObject object)
    (has_entry "config-file.yaml" (root_Parse (NewResourceAttributes
       [WithNamespace (GetNamespace object); WithSubresource (GetName object)]))) /\
  touches [(KSecret, key_of (Secret_Meta (resourceAttributesSecretObject object)))] w w'.
Proof.
  intros Hs Hnd. eapply string_data_step; [exact Hs|done|done|exact Hnd|].
  intros y x w0 [-> ->]%mret_inv. split; [done|]. by do 3 eexists.
Qed.

Lemma kubeconfig_step rc object (w w' : W) :
  wrap "failed to reconcile kubeconfig secret"
    (reconcileOwnedResource object KSecret (kubeconfigSecretObject object)
       (fun s => lift (mutateKubeconfigSecret s rc))) w = (Ret tt, w') ->
  none_deleted w [(KSecret, key_of (Secret_Meta (kubeconfigSecretObject object)))] ->
  kubeconfig_ready rc object w' /\
  touches [(KSecret, key_of (Secret_Meta (kubeconfigSecretObject object)))] w w'.
Proof.
  intros Hs Hnd. eapply string_data_step; [exact Hs|done|done|exact Hnd|].
  intros y x w0 [Hx ->]%lift_inv. split; [done|].
  apply mutateKubeconfigSecret_inv in Hx as (text & cfg & E1 & E2 & ->).
  do 3 eexists. split; [done|]. intros s Hentry. by exists text, cfg.
Qed.

Lemma ca_step rc object (w w' : W) :
  wrap "failed to reconcile oidc ca bundle secret"
    (reconcileOwnedResource object KSecret (oidcCaBundleSecretObject object)
       (fun s => mret (mutateOidcCaBundleSecret s rc))) w = (Ret tt, w') ->
  none_deleted w [(KSecret, key_of (Secret_Meta (oidcCaBundleSecretObject object)))] ->
  ca_ready rc object w' /\
  touches [(KSecret, key_of (Secret_Meta (oidcCaBundleSecretObject object)))] w w'.
Proof.
  intros Hs Hnd. eapply string_data_step; [exact Hs|done|done|exact Hnd|].
  intros y x w0 [-> ->]%mret_inv. split; [done|]. by do 3 eexists.
Qed.

(** The steps before touched other keys. *)
Lemma none_deleted_later L L' k key (w w' : W) :
  none_deleted w L -> In (k, key) L -> touches L' w w' -> ~ In (k, key) L' -> none_deleted w' [(k, key)].
Proof.
  intros N Hin T Hn. eapply none_deleted_touches; [|exact T|by intros x [<-|[]]].
  eapply none_deleted_incl; [|exact N]. by intros x [<-|[]].
Qed.

Lemma other_secrets_spec rc object (w w' : W) :
  reconcile_other_secrets rc object w = (Ret tt, w') -> none_deleted w (secret_keys object) ->
  other_secrets_ready w' rc object /\ touches (secret_keys object) w w'.
Proof.
  unfold reconcile_other_secrets. intros Hr Hnd.
  apply M_bind_inv in Hr as ([] & w1 & Hs1 & Hr). apply M_bind_inv in Hr as ([] & w2 & Hs2 & Hs3).
  apply resource_attributes_step in Hs1 as [M1 T1]; [|by eapply none_deleted_incl; [|exact Hnd]; sub_keys].
  edestruct (optional_step _ _ (kubeconfig_ready rc object)
    [(KSecret, key_of (Secret_Meta (kubeconfigSecretObject object)))] _ _ Hs2) as [M2 T2].
  { intros Hk. apply (kubeconfig_step _ _ _ _ Hk).
    eapply none_deleted_later; [exact Hnd|by right; left|exact T1|not_there]. }
  pose proof (touches_trans _ _ _ _ _ T1 T2) as T12.
  edestruct (optional_step _ _ (ca_ready rc object)
    [(KSecret, key_of (Secret_Meta (oidcCaBundleSecretObject object)))] _ _ Hs3) as [M3 T3].
  { intros Hk. apply (ca_step _ _ _ _ Hk).
    eapply none_deleted_later; [exact Hnd|by right; right; left|exact T12|not_there]. }
  split; [|exact (touches_trans _ _ _ _ _ T12 T3)]. split; [|split; [|exact M3]].
  - eapply maintained_touches; [exact M1|exact (touches_trans _ _ _ _ _ T2 T3)|not_there].
  - intros Hk. eapply maintained_touches; [exact (M2 Hk)|exact T3|not_there].
Qed.

Lemma service_step rc object (w w' : W) :
  wrap "failed to reconcile oauth2 service"
    (reconcileOwnedResource object KService (oauth2ServiceObject object)
       (fun svc => match GetTargetLabelSelector rc with
                   | None => panic "nil LabelSelector"
                   | Some selectors => mret (mutateOauth2Service svc (MatchLabels selectors))
                   end)) w = (Ret tt, w') ->
  none_deleted w [(KService, key_of (Service_Meta (oauth2ServiceObject object)))] ->
  service_ready rc object w' /\ touches [(KService, key_of (Service_Meta (oauth2ServiceObject object)))] w w'.
Proof.
  intros Hs%wrap_inv Hnd. eapply (reconcileOwned_maintains _ KService); [exact Hs|done|exact Hnd|done|].
  intros y x w0 Hx _. destruct (GetTargetLabelSelector rc) as [sel|]; [|done].
  apply mret_inv in Hx as [-> ->]. split; [done|]. split; [done|]. intros m. split; [done|]. by exists sel.
Qed.

Lemma route_step rc object (w w' : W) :
  wrap "failed to reconcile oauth2 httproute"
    (reconcileOwnedResource object KHTTPRoute (httpRouteForDeploymentObject object)
       (fun r => mret (mutateHTTPRouteForDeployment r object rc))) w = (Ret tt, w') ->
  none_deleted w [(KHTTPRoute, key_of (HTTPRoute_Meta (httpRouteForDeploymentObject object)))] ->
  route_ready rc object w' /\
  touches [(KHTTPRoute, key_of (HTTPRoute_Meta (httpRouteForDeploymentObject object)))] w w'.
Proof.
  intros Hs%wrap_inv Hnd. eapply (reconcileOwned_maintains _ KHTTPRoute); [exact Hs|done|exact Hnd|done|].
  intros y x w0 [-> ->]%mret_inv _. split; [|split; [done|]].
  - unfold mutateHTTPRouteForDeployment, route_with, applyHTTPRouteDefaultPathRedirect.
    by destruct (Nat.ltb _ _), (String.eqb _ EmptyString).
  - intros m. unfold mutateHTTPRouteForDeployment. cbn [stored]. split.
    + apply (route_with_rules y rc).
    + apply (route_with_backends y rc).
Qed.

Lemma for_each_view {A} (xs : list A) body :
  (forall x (w : W) k key, view (snd (body x w)) k key = view w k key) ->
  forall (w : W) k key, view (snd (for_each xs body w)) k key = view w k key.
Proof.
  intros Hb. induction xs as [|x xs IH]; intros w k key; [done|]. cbn [for_each].
  unfold mbind, M_bind. pose proof (Hb x w k key) as Hv.
  destruct (body x w) as [[]]; cbn [snd] in *; [by rewrite IH|done..].
Qed.

Lemma wrap_view {A} msg (m : M W A) (w : W) : snd (wrap msg m w) = snd (m w).
Proof. unfold wrap. by destruct (m w) as [[] ?]. Qed.

(** Patching the autoscalers changes no object. *)
Lemma patchVpa_view rc object (w : W) k key : view (snd (patchVpa rc object w)) k key = view w k key.
Proof.
  unfold patchVpa. destruct (GetTargetLabelSelector rc) as [sel|]; [|done].
  unfold mbind, M_bind at 1, wrap at 1. set (opts := mkListOptions _ _).
  pose proof (list_pure KVPA opts w) as Hp.
  destruct (cl_List KVPA opts w) as [[l|e|p] w']; cbn [snd] in *; subst w'; [|done..].
  apply for_each_view. intros v w0 k0 key0. destruct (VPA_ResourcePolicy v) as [ps|]; [|done].
  apply for_each_view. intros policy w1 k1 key1. destruct (_ || _); [done|].
  rewrite wrap_view. apply patch_empty_view.
Qed.

Lemma patch_vpa_view rc object (w : W) k key :
  view (snd (patch_vpa_if_registered rc object w)) k key = view w k key.
Proof. unfold patch_vpa_if_registered. destruct (cl_IsGroupRegistered _); [apply patchVpa_view|done]. Qed.

Lemma deployment_steps rc object (w w' : W) :
  none_deleted w (deployment_keys object) ->
  (reconcile_oauth2_secret rc object;;
   wrap "failed to reconcile oauth2 service"
     (reconcileOwnedResource object KService (oauth2ServiceObject object)
        (fun svc => match GetTargetLabelSelector rc with
                    | None => panic "nil LabelSelector"
                    | Some selectors => mret (mutateOauth2Service svc (MatchLabels selectors))
                    end));;
   reconcile_other_secrets rc object;;
   reconcileHTTPRouteForDeployment rc object;;
   patch_vpa_if_registered rc object) w = (Ret tt, w') ->
  deployment_ready w' rc object /\ touches (deployment_keys object) w w'.
Proof.
  intros Hnd Hr.
  apply M_bind_inv in Hr as ([] & w1 & Hs1 & Hr). apply M_bind_inv in Hr as ([] & w2 & Hs2 & Hr).
  apply M_bind_inv in Hr as ([] & w3 & Hs3 & Hr). apply M_bind_inv in Hr as ([] & w4 & Hs4 & Hs5).
  apply reconcile_oauth2_secret_spec in Hs1 as [M1 T1];
    [|by eapply none_deleted_incl; [|exact Hnd]; sub_keys].
  apply service_step in Hs2 as [M2 T2];
    [|by eapply none_deleted_later; [exact Hnd|right; left|exact T1|not_there]].
  pose proof (touches_trans _ _ _ _ _ T1 T2) as T12.
  apply other_secrets_spec in Hs3 as [M3 T3];
    [|eapply none_deleted_touches; [eapply none_deleted_incl; [|exact Hnd]; sub_keys|exact T12|]].
  2: { intros x Hx. cbn [In secret_keys] in Hx.
       repeat match type of Hx with _ \/ _ => destruct Hx as [<-|Hx] end; [..|by destruct Hx]; not_there. }
  pose proof (touches_trans _ _ _ _ _ T12 T3) as T123.
  unfold reconcileHTTPRouteForDeployment in Hs4.
  rewrite <- if_negb, negb_involutive in Hs4.
  destruct (optional_step _ _ (route_ready rc object)
    [(KHTTPRoute, key_of (HTTPRoute_Meta (httpRouteForDeploymentObject object)))] _ _ Hs4) as [M4 T4].
  { intros Hk. apply (route_step _ _ _ _ Hk).
    eapply none_deleted_later; [exact Hnd|cbn; tauto|exact T123|not_there]. }
  assert (T5 : touches [] w4 w').
  { apply touches_same. intros k key. pose proof (patch_vpa_view rc object w4 k key) as Hv. by rewrite Hs5 in Hv. }
  pose proof (touches_trans _ _ _ _ _ T4 T5) as T45. split.
  - split; [|split; [|split]].
    + eapply maintained_touches; [exact M1|exact (touches_trans _ _ _ _ _ T2 (touches_trans _ _ _ _ _ T3 T45))|not_there].
    + eapply maintained_touches; [exact M2|exact (touches_trans _ _ _ _ _ T3 T45)|not_there].
    + destruct M3 as (M3 & Mk & Mc). split; [|split; [intros Hk; specialize (Mk Hk)|intros Hc; specialize (Mc Hc)]];
        (eapply maintained_touches; [eassumption|exact T45|not_there]).
    + intros Hc. eapply maintained_touches; [exact (M4 Hc)|exact T5|by intros []].
  - eapply touches_mono; [|exact (touches_trans _ _ _ _ _ T123 T45)].
    intros x. unfold deployment_keys. cbn [In app secret_keys]. tauto.
Qed.

End Steps.

(** ** What a successful reconcile of a Deployment establishes *)

Section DeploymentTheorems.
Context {W : Type} `{ClientWrites W} `{OSEnv} `{Yaml3}.

Lemma reconcileDeployment_ready c d (w w' : W) :
  beingDeleted (Deployment_Meta d) = false -> none_deleted w (deployment_keys (DeploymentObject d)) ->
  reconcileDeploymentDependencies (Some c) d w = (Ret tt, w') ->
  exists rc : ResolvedConfig, Resolve (W := W) (Some c) (DeploymentObject d) w = (Ret rc, w) /\
    deployment_ready w' rc (DeploymentObject d) /\ touches (deployment_keys (DeploymentObject d)) w w'.
Proof.
  intros Hd Hnd Hr. destruct (Resolve_total w c (DeploymentObject d)) as (t & Hres & _).
  eexists. split; [exact Hres|]. unfold reconcileDeploymentDependencies in Hr.
  change (beingDeleted (obj_meta (DeploymentObject d))) with (beingDeleted (Deployment_Meta d)) in Hr.
  cbv zeta in Hr. rewrite Hd, (M_bind_ret _ _ _ _ _ Hres) in Hr. by apply deployment_steps.
Qed.

(** C7. A successful reconcile of a Deployment leaves everything its pods need:
    the oauth2 secret with the rendered configuration and a cookie, the
    service on the proxy's port with the target's labels, the resource
    attributes, the kubeconfig and the CA bundle when they are configured,
    and the route when one is asked for; each owned by the Deployment.  It
    changes no other object of the cluster. *)
Theorem reconcileDeployment_establishes (c : OIDCAppsControllerConfig) (d : Deployment) (w w' : W) :
  beingDeleted (Deployment_Meta d) = false ->
  none_deleted w (deployment_keys (DeploymentObject d)) ->
  reconcileDeploymentDependencies (Some c) d w = (Ret tt, w') ->
  exists rc : ResolvedConfig, Resolve (W := W) (Some c) (DeploymentObject d) w = (Ret rc, w) /\
    deployment_ready w' rc (DeploymentObject d) /\
    (forall k key, ~ In (k, key) (deployment_keys (DeploymentObject d)) -> view w' k key = view w k key).
Proof. apply reconcileDeployment_ready. Qed.

(** End to end: after a successful reconcile of a Deployment without a
    suffix annotation, every secret the webhook mounts into its pods exists
    in their namespace, except those the configuration merely refers to (the
    client secret, and a kubeconfig or CA secret given by name). *)
Theorem mounted_secrets_exist (c : OIDCAppsControllerConfig) (d : Deployment) (w w' : W) :
  beingDeleted (Deployment_Meta d) = false ->
  none_deleted w (deployment_keys (DeploymentObject d)) ->
  map_get (Annotations (Deployment_Meta d)) constants.AnnotationSuffixKey = None ->
  reconcileDeploymentDependencies (Some c) d w = (Ret tt, w') ->
  exists rc : ResolvedConfig, Resolve (W := W) (Some c) (DeploymentObject d) w = (Ret rc, w) /\
    forall vol name, In (vol, name) (required_secrets (owner_suffix (DeploymentObject d)) rc) ->
      (exists s, view w' KSecret (mkNN (Namespace (Deployment_Meta d)) name) = Some s) \/
      name = GetClientSecretName rc \/
      (needsKubeconfigSecret rc = false /\ name = GetKubeSecretName rc) \/
      (needsOidcCaBundleSecret rc = false /\ name = GetOidcCASecretName rc).
Proof.
  intros Hd Hnd Ha Hr. destruct (reconcileDeployment_ready c d w w' Hd Hnd Hr) as (rc & Hres & Hready & _).
  exists rc. split; [exact Hres|]. intros vol name Hin.
  rewrite required_maintained in Hin by exact Ha.
  destruct Hready as ((so & Ho & _) & _ & ((sr & Hra & _) & Hk & Hc) & _).
  destruct (maintained_cases _ _ _ _ Hin) as [->|[->|[->|[->| ->]]]]; [by left; exists so|by left; exists sr|by right; left|..].
  - unfold kubeconfig_secret_name. destruct (needsKubeconfigSecret rc); [|tauto].
    left. destruct (Hk eq_refl) as (s & Hs & _). by exists s.
  - unfold ca_secret_name. destruct (needsOidcCaBundleSecret rc); [|tauto].
    left. destruct (Hc eq_refl) as (s & Hs & _). by exists s.
Qed.

End DeploymentTheorems.

(** ** Witnesses on the reference instance *)

#[local] Existing Instances Ref.vendor Ref.vendor_laws Ref.client Ref.client_reads Ref.client_writes Ref.env.

Module ControllerExamples.

(** A concrete marshaller: the fields one after the other. *)
#[export] Instance yaml3 : Yaml3 := {
  yaml3_Unmarshal_root := fun _ r => r;
  yaml3_Marshal_root := fun r =>
    Join [APIGroup r; APIVersion r; Resource r; Subresource r; ResourceAttributes_Namespace r] newline }.

Definition target : Target :=
  mkTarget "grafana" None (Some (mkLabelSelector (Ref.labels1 "app" "grafana") [])) (FromInt 3000) "http"
    (Some (mkHTTPRouteConf true EmptyString EmptyString None None [] "/ui")) emptyGlobal.

Definition config : OIDCAppsControllerConfig := mkConfig Examples.global1 [target] true.

Definition owned (name : string) (labels : gmap string string) (refs : list OwnerReference) : Secret :=
  mkSecret (mkObjectMeta name "mon" "uid-x" (Some labels) None refs [] None) EmptyString None None.

Definition stale : Secret :=
  owned "oauth2-proxy-old" (secret_labels constants.Oauth2LabelValue)
    [mkOwnerReference "Deployment" "grafana" "uid-1"].

Definition foreign : Secret :=
  owned "oauth2-proxy-other" (secret_labels constants.Oauth2LabelValue)
    [mkOwnerReference "Deployment" "other" "uid-2"].

Definition cluster_stale : Ref.cluster := Ref.put KSecret stale (Ref.put KSecret foreign Examples.cluster1).

Definition reconciled : outcome unit * Ref.cluster :=
  reconcileDeploymentDependencies (Some config) Examples.grafana Examples.cluster1.

End ControllerExamples.

#[local] Existing Instance ControllerExamples.yaml3.

Lemma deleteOwnedResources_prunes_witness :
  exists w', deleteOwnedResources (DeploymentObject Examples.grafana) ControllerExamples.cluster_stale = (Ret tt, w') /\
    view w' KSecret (mkNN "mon" "oauth2-proxy-old") = None.
Proof.
  destruct (deleteOwnedResources_prunes (DeploymentObject Examples.grafana) ControllerExamples.cluster_stale)
    as (r & w' & Hr & _ & _ & Hdone).
  assert (r = Ret tt) as -> by (apply (f_equal fst) in Hr; vm_compute in Hr; congruence).
  exists w'. split; [exact Hr|].
  apply (Hdone eq_refl ltac:(by intros k opts w e [=]) KSecret _ ControllerExamples.stale);
    [vm_compute; reflexivity| |reflexivity].
  eexists. split; [reflexivity|]. split; [apply Ref.selected_spec; vm_compute; reflexivity|vm_compute; reflexivity].
Defined.

Lemma grafana_none_deleted : none_deleted Examples.cluster1 (deployment_keys (DeploymentObject Examples.grafana)).
Proof.
  intros k key o Hin. cbn [In app secret_keys deployment_keys] in Hin.
  repeat match type of Hin with _ \/ _ => destruct Hin as [[= <- <-]|Hin] end; done.
Qed.

Lemma reconciled_ok : ControllerExamples.reconciled = (Ret tt, snd ControllerExamples.reconciled).
Proof.
  rewrite (surjective_pairing ControllerExamples.reconciled) at 1. apply (f_equal2 pair); [|done].
  vm_compute. reflexivity.
Qed.

Lemma reconcileDeployment_establishes_witness :
  exists s, view (snd ControllerExamples.reconciled) KSecret
      (key_of (Secret_Meta (oauth2SecretObject (DeploymentObject Examples.grafana)))) = Some s /\
    isAnOwnedResource (DeploymentObject Examples.grafana) (Secret_Meta s) = true.
Proof.
  destruct (reconcileDeployment_establishes ControllerExamples.config Examples.grafana Examples.cluster1
              (snd ControllerExamples.reconciled)) as (rc & _ & ((s & Hs & Ho & _) & _) & _).
  - reflexivity.
  - exact grafana_none_deleted.
  - exact reconciled_ok.
  - exists s. by split.
Defined.

Lemma mounted_secrets_exist_witness :
  exists rc : ResolvedConfig, Resolve (W := Ref.cluster) (Some ControllerExamples.config)
      (DeploymentObject Examples.grafana) Examples.cluster1 = (Ret rc, Examples.cluster1) /\
    GetUpstreamTarget rc = "protocol=http, port=3000".
Proof.
  destruct (mounted_secrets_exist ControllerExamples.config Examples.grafana Examples.cluster1
              (snd ControllerExamples.reconciled)) as (rc & Hrc & _).
  - reflexivity.
  - exact grafana_none_deleted.
  - reflexivity.
  - exact reconciled_ok.
  - exists rc. split; [exact Hrc|]. assert (Hr := f_equal fst Hrc). vm_compute in Hr. injection Hr as <-.
    vm_compute. reflexivity.
Defined.
