(* ===== verification/RegistrySpec.v ===== *)
(** * The propagated registry secret

    [registry-secret.go] and [image-pull-secret-reconciler.go]: the copy of
    the private registry secret in the namespaces of targets is created
    without overwriting, removed with the last target, refreshed with its
    source and removed with it. *)

From S2P Require Import Prelude GoStrings RandUtils Kube Constants Vendor Reference.
From S2P Require Import Configuration ConfigurationSpec Templates PodWebhook ControllerObjects Controllers.
From S2P Require Import ControllersSpec.

(** ** Specifications *)

(** The copy of a registry secret in a namespace. *)
Definition registry_copy (name namespace : string) (source : Secret) : Secret :=
  mkSecret (metaForRegistrySecretCopy name namespace) (Secret_Type source) (Secret_Data source) None.

(** A stored Deployment or StatefulSet. *)
Inductive workload {W} `{ClientReads W} (w : W) : Object -> Prop :=
| workload_deployment key d : view w KDeployment key = Some d -> workload w (DeploymentObject d)
| workload_statefulset key s : view w KStatefulSet key = Some s -> workload w (StatefulSetObject s).

(** Another workload of the namespace that some target selects. *)
Definition other_target {W} `{ClientReads W} `{Vendor} (w : W) (c : OIDCAppsControllerConfig) (removed o : Object)
  : Prop :=
  workload w o /\ GetNamespace o = GetNamespace removed /\ isSameObject o removed = false /\
  exists t, In t (Targets c) /\ selects w c o t.

(** What [ensureRegistrySecret] may do to the cluster, and what its result
    means. *)
Definition propagation {W} `{ClientReads W} (name controller ns : string) (w : W) (r : outcome unit) (w' : W) : Prop :=
  let key := mkNN ns name in
  (forall p, r <> Panic p) /\ frame KSecret key w w' /\
  (view w' KSecret key = view w KSecret key \/
   view w KSecret key = None /\ exists source, view w KSecret (mkNN controller name) = Some source /\
     view w' KSecret key = Some (registry_copy name ns source)) /\
  (r = Ret tt -> name <> EmptyString -> ns <> controller -> exists s, view w' KSecret key = Some s) /\
  (name = EmptyString \/ ns = controller -> r = Ret tt /\ w' = w).

(** ** Lemmas on reads *)

Section Registry.
Context {W : Type} `{ClientWrites W} `{!VendorLaws}.

Lemma get_cases k key (w : W) :
  (exists o, cl_Get k key w = (Ret o, w) /\ view w k key = Some o) \/
  (exists e, cl_Get k key w = (Err e, w) /\
     (IsNotFound e = true -> forall o, view w k key = Some o -> in_cache cache_selector k (meta_of k o) = false)).
Proof.
  pose proof (get_pure k key w) as Hp. pose proof (get_sound k key w) as Hs.
  pose proof (get_not_found k key w) as Hn. pose proof (get_no_panic k key w) as Hnp.
  destruct (cl_Get k key w) as [[o|e|p] w']; cbn [fst snd] in *; subst w'.
  - left. exists o. split; [done|by apply Hs].
  - right. exists e. split; [done|]. intros He. by apply (Hn e).
  - by destruct (Hnp p).
Qed.

Lemma list_cases k opts (w : W) :
  (exists l, cl_List k opts w = (Ret l, w) /\
     forall o, In o l <-> (exists key, view w k key = Some o) /\ list_selects opts (meta_of k o) /\
                          in_cache cache_selector k (meta_of k o) = true) \/
  (exists e, cl_List k opts w = (Err e, w)).
Proof.
  pose proof (list_pure k opts w) as Hp. pose proof (list_spec k opts w) as Hs.
  pose proof (list_no_panic k opts w) as Hnp.
  destruct (cl_List k opts w) as [[l|e|p] w']; cbn [fst snd] in *; subst w'.
  - left. exists l. split; [done|by apply Hs].
  - right. by exists e.
  - by destruct (Hnp p).
Qed.

Lemma try_case {A} (m : M W A) r (w w' : W) :
  m w = (r, w') ->
  try_ m w = (match r with Ret a => Ret (inr a) | Err e => Ret (inl e) | Panic p => Panic p end, w').
Proof. intros E. unfold try_. rewrite E. by destruct r. Qed.

Lemma wrap_case {A} msg (m : M W A) r (w w' : W) :
  m w = (r, w') ->
  wrap msg m w = (match r with Err e => Err (Errorf msg e) | _ => r end, w').
Proof. intros E. unfold wrap. rewrite E. by destruct r. Qed.

Lemma IgnoreNotFound_None e : IgnoreNotFound e = None -> IsNotFound e = true.
Proof. rewrite IgnoreNotFound_spec. by destruct (IsNotFound e). Qed.

(** ** Creating the copy *)

Lemma propagation_skip name controller ns (w : W) :
  name = EmptyString \/ ns = controller -> propagation name controller ns w (Ret tt) w.
Proof. intros Hs. split; [done|]. split; [done|]. split; [by left|]. split; [by destruct Hs|done]. Qed.

Lemma propagation_stay name controller ns r (w : W) :
  name <> EmptyString -> ns <> controller -> (forall p, r <> Panic p) ->
  (r = Ret tt -> exists s, view w KSecret (mkNN ns name) = Some s) ->
  propagation name controller ns w r w.
Proof. intros Hn Hc Hp Hr. split; [done|]. split; [done|]. split; [by left|]. split; [by intros E _ _; apply Hr|]. by intros [?|?]. Qed.

(** The call of [Create]. *)
Lemma propagation_create name controller ns source rc (w w' : W) :
  name <> EmptyString -> ns <> controller -> view w KSecret (mkNN controller name) = Some source ->
  cl_Create KSecret (registry_copy name ns source) w = (rc, w') ->
  propagation name controller ns w
    match rc with
    | Ret _ => Ret tt
    | Err e => match IgnoreAlreadyExists e with
               | None => Ret tt
               | Some _ => Err (Errorf ("failed to create registry secret copy in " +:+ ns) e)
               end
    | Panic p => Panic p
    end w'.
Proof.
  intros Hn Hc Hsource Ec. pose proof (create_frame KSecret (registry_copy name ns source) w) as Cf.
  pose proof (create_own KSecret (registry_copy name ns source) w) as Co.
  pose proof (create_done KSecret (registry_copy name ns source) w) as Cd.
  pose proof (create_exists KSecret (registry_copy name ns source) w) as Ce.
  pose proof (create_no_panic KSecret (registry_copy name ns source) w) as Cp.
  change (key_of (meta_of KSecret (registry_copy name ns source))) with (mkNN ns name) in *. cbv zeta in Co.
  rewrite Ec in *. cbn [fst snd] in *.
  split; [|split; [exact Cf|split; [|split; [|by intros [?|?]]]]].
  - destruct rc as [|e|p]; [done| |by destruct (Cp p)]. by destruct (IgnoreAlreadyExists e).
  - destruct Co as [Co|[Co1 Co2]]; [by left|]. right. split; [done|]. by exists source.
  - destruct rc as [[]|e|p]; [intros _ _ _; rewrite (Cd eq_refl); by eexists| |done].
    destruct (IgnoreAlreadyExists e) eqn:Ea; [done|]. intros _ _ _. destruct (Ce e eq_refl Ea) as [x Hx].
    destruct Co as [->|[? _]]; [by exists x|congruence].
Qed.

Lemma ensureRegistrySecret_steps name controller ns (w : W) :
  exists r w', ensureRegistrySecret name controller ns w = (r, w') /\ propagation name controller ns w r w'.
Proof.
  unfold ensureRegistrySecret.
  destruct (String.eqb_spec name EmptyString) as [|Hne]; cbn [orb];
    [by exists (Ret tt), w; split; [done|apply propagation_skip; left]|].
  destruct (String.eqb_spec ns controller) as [|Hns];
    [by exists (Ret tt), w; split; [done|apply propagation_skip; right]|].
  destruct (get_cases KSecret (mkNN ns name) w) as [(s & Hg & Hv)|(e & Hg & Hv)];
    rewrite (M_bind_case _ _ _ _ _ (try_case _ _ _ _ Hg)).
  { exists (Ret tt), w. split; [done|]. apply propagation_stay; try done. intros _. by exists s. }
  destruct (IgnoreNotFound e) as [e'|] eqn:Ei;
    [by eexists (Err _), w; split; [done|apply propagation_stay]|].
  destruct (get_cases KSecret (mkNN controller name) w) as [(source & Hg2 & Hv2)|(e2 & Hg2 & Hv2)];
    rewrite (M_bind_case _ _ _ _ _ (try_case _ _ _ _ Hg2));
    [|by eexists (Err _), w; split; [done|apply propagation_stay]].
  fold (registry_copy name ns source).
  destruct (cl_Create KSecret (registry_copy name ns source) w) as [rc w'] eqn:Ec.
  rewrite (M_bind_case _ _ _ _ _ (try_case _ _ _ _ Ec)).
  pose proof (propagation_create name controller ns source rc w w' Hne Hns Hv2 Ec) as Hprop.
  destruct rc as [[]|e3|p]; [by exists (Ret tt), w'| |by exists (Panic p), w'].
  eexists _, w'. split; [|exact Hprop]. by destruct (IgnoreAlreadyExists e3).
Qed.

(** ** Removing the copy *)

Lemma any_other_match_existsb c removed os (w : W) :
  any_other_match (Some c) removed os w =
  (Ret (existsb (fun o => negb (isSameObject o removed) && existsb (selectsb w c o) (Targets c)) os), w).
Proof.
  induction os as [|o os IH]; [done|]. cbn [any_other_match existsb].
  destruct (isSameObject o removed); [exact IH|]. cbn [negb andb].
  rewrite (M_bind_ret _ _ _ _ _ (Match_existsb w c o)).
  destruct (existsb (selectsb w c o) (Targets c)); [done|exact IH].
Qed.

Lemma selectsb_exists c o (w : W) :
  existsb (selectsb w c o) (Targets c) = true <-> exists t, In t (Targets c) /\ selects w c o t.
Proof.
  rewrite existsb_exists. split; intros (t & Ht & Hs); exists t; (split; [done|]); by apply selects_selectsb.
Qed.

Lemma list_selects_all opts m ns :
  opts = mkListOptions (Some ns) None -> list_selects opts m <-> Namespace m = ns.
Proof. intros ->. unfold list_selects. cbn. naive_solver. Qed.

Lemma hasMatchedTarget_spec c removed (w : W) :
  exists r, hasMatchedTargetInNamespace (Some c) (GetNamespace removed) removed w = (r, w) /\
    (forall p, r <> Panic p) /\
    forall b, r = Ret b -> (b = true <-> exists o, other_target w c removed o).
Proof.
  unfold hasMatchedTargetInNamespace.
  set (opts := mkListOptions (Some (GetNamespace removed)) None).
  destruct (list_cases KDeployment opts w) as [(ds & El & Hds)|(e & El)];
    rewrite (M_bind_case _ _ _ _ _ (wrap_case _ _ _ _ _ El)); [|by eexists (Err _); repeat split].
  rewrite (M_bind_ret _ _ _ _ _ (any_other_match_existsb c removed _ w)).
  destruct (existsb _ (map DeploymentObject ds)) eqn:Ed.
  - eexists (Ret true). split; [done|]. split; [done|]. intros b [= <-]. split; [intros _|done].
    apply existsb_exists in Ed as (o & Ho & [Hs Ht]%andb_prop). apply in_map_iff in Ho as (d & <- & Hd).
    apply Hds in Hd as ([key Hv] & Hsel & _). apply (list_selects_all opts _ _ eq_refl) in Hsel.
    exists (DeploymentObject d). split; [by econstructor|]. split; [done|]. split; [by apply negb_true_iff|].
    by apply selectsb_exists.
  - destruct (list_cases KStatefulSet opts w) as [(ss & El2 & Hss)|(e & El2)];
      rewrite (M_bind_case _ _ _ _ _ (wrap_case _ _ _ _ _ El2)); [|by eexists (Err _); repeat split].
    rewrite any_other_match_existsb. eexists (Ret _). split; [done|]. split; [done|]. intros b [= <-].
    rewrite existsb_exists. split.
    + intros (o & Ho & [Hs Ht]%andb_prop). apply in_map_iff in Ho as (s & <- & Hin).
      apply Hss in Hin as ([key Hv] & Hsel & _). apply (list_selects_all opts _ _ eq_refl) in Hsel.
      exists (StatefulSetObject s). split; [by econstructor|]. split; [done|]. split; [by apply negb_true_iff|].
      by apply selectsb_exists.
    + intros (o & Hw & Hns & Hs & Ht%selectsb_exists). destruct Hw as [key d Hv|key s Hv].
      * exfalso. assert (Hin : In d ds).
        { apply Hds. split; [by exists key|]. split; [by apply (list_selects_all opts _ _ eq_refl)|done]. }
        rewrite <- not_true_iff_false in Ed. apply Ed, existsb_exists. exists (DeploymentObject d).
        split; [by apply in_map|]. by rewrite Hs, Ht.
      * exists (StatefulSetObject s). split; [|by rewrite Hs, Ht]. apply in_map, Hss.
        split; [by exists key|]. split; [by apply (list_selects_all opts _ _ eq_refl)|done].
Qed.

Lemma cleanup_steps c name controller removed (w : W) :
  let key := mkNN (GetNamespace removed) name in
  exists r w', cleanupRegistrySecretIfLastTarget (Some c) name controller removed w = (r, w') /\
    (forall p, r <> Panic p) /\
    evolves (fun k o => k = KSecret /\ key_of (meta_of k o) = key) w w' /\
    (name = EmptyString \/ GetNamespace removed = controller \/ (exists o, other_target w c removed o) -> w' = w) /\
    (r = Ret tt -> name <> EmptyString -> GetNamespace removed <> controller ->
     ~ (exists o, other_target w c removed o) -> forall s, view w KSecret key = Some s -> Finalizers (Secret_Meta s) = [] -> view w' KSecret key = None).
Proof.
  cbv zeta. unfold cleanupRegistrySecretIfLastTarget.
  destruct (String.eqb_spec name EmptyString) as [|Hne]; cbn [orb];
    [by exists (Ret tt), w; repeat split; [|by left|..]|].
  destruct (String.eqb_spec (GetNamespace removed) controller) as [|Hns];
    [by exists (Ret tt), w; repeat split; [|by left|..]|].
  destruct (hasMatchedTarget_spec c removed w) as (r & Hr & Hp & Hb).
  rewrite (M_bind_case _ _ _ _ _ Hr). destruct r as [b|e|p]; [| |by destruct (Hp p)].
  2: { exists (Err e), w. repeat split; [done|by left|done..]. }
  specialize (Hb b eq_refl). destruct b.
  - exists (Ret tt), w. repeat split; [done|by left|]. intros _ _ _ Hno. by destruct Hno; apply Hb.
  - set (key := mkNN (GetNamespace removed) name).
    destruct (unless_not_found_delete ("failed to delete registry secret copy in " +:+ GetNamespace removed)
                KSecret key w) as (r & Hd & Hp' & Hdone).
    exists r, (snd (cl_Delete KSecret key w)). split; [exact Hd|]. split; [exact Hp'|].
    split; [apply delete_evolves|]. split.
    + intros [?|[?|Ho]]; [done..|]. by apply Hb in Ho.
    + intros Hret _ _ _. by apply Hdone.
Qed.

End Registry.

Section RegistryTheorems.
Context {W : Type} `{ClientWrites W} `{!VendorLaws}.

(** Propagating the registry secret is safe and sufficient.  It never
    panics and changes at most the copy in the target's namespace: an
    existing secret of that name is never overwritten, and a new one has the
    type and the data of the source.  On success the namespace has the
    secret.  Without a configured name, or in the controller's own namespace,
    nothing happens. *)
Theorem ensureRegistrySecret_propagates (name controller ns : string) (w : W) :
  let key := mkNN ns name in
  exists r w', ensureRegistrySecret name controller ns w = (r, w') /\ (forall p, r <> Panic p) /\
    frame KSecret key w w' /\
    (view w' KSecret key = view w KSecret key \/
     view w KSecret key = None /\ exists source, view w KSecret (mkNN controller name) = Some source /\
       view w' KSecret key = Some (registry_copy name ns source)) /\
    (r = Ret tt -> name <> EmptyString -> ns <> controller -> exists s, view w' KSecret key = Some s) /\
    (name = EmptyString \/ ns = controller -> r = Ret tt /\ w' = w).
Proof. apply ensureRegistrySecret_steps. Qed.

(** C16. The copy goes with the last target.  Cleaning up never panics and
    changes at most the secret of that name in the removed workload's
    namespace, and only by deleting it; while another Deployment or
    StatefulSet of the namespace is selected by some target nothing is
    changed.  When it succeeds and no other target is left, a secret without
    a finalizer is gone. *)
Theorem cleanupRegistrySecret_last (c : OIDCAppsControllerConfig) (name controller : string) (removed : Object) (w : W) :
  let key := mkNN (GetNamespace removed) name in
  exists r w', cleanupRegistrySecretIfLastTarget (Some c) name controller removed w = (r, w') /\
    (forall p, r <> Panic p) /\
    evolves (fun k o => k = KSecret /\ key_of (meta_of k o) = key) w w' /\
    (name = EmptyString \/ GetNamespace removed = controller \/ (exists o, other_target w c removed o) -> w' = w) /\
    (r = Ret tt -> name <> EmptyString -> GetNamespace removed <> controller ->
     ~ (exists o, other_target w c removed o) -> forall s, view w KSecret key = Some s -> Finalizers (Secret_Meta s) = [] -> view w' KSecret key = None).
Proof. apply cleanup_steps. Qed.

End RegistryTheorems.

(** ** The source secret *)

(** A propagated copy: a secret with the registry labels outside the
    namespace of the source. *)
Definition propagated (source : ObjectMeta) (s : Secret) : Prop :=
  list_selects (mkListOptions None registry_selector) (Secret_Meta s) /\ Namespace (Secret_Meta s) <> Namespace source.

(** What an update leaves under the key of an object. *)
Definition updated (k : Kind) (o : kobj k) : option (kobj k) :=
  if released (meta_of k o) then None else Some (stored k o).

(** Updates of existing secrets succeed. *)
Definition updates_succeed {W} `{ClientReads W} : Prop :=
  forall (o x : Secret) (w : W), view w KSecret (key_of (Secret_Meta o)) = Some x ->
    fst (cl_Update KSecret o w) = Ret tt.

Section ImagePull.
Context {W : Type} `{ClientWrites W} `{!VendorLaws}.

Lemma deletePropagated_delete_all ns (items : list Secret) (w : W) :
  for_each items (fun target : Secret =>
    if String.eqb (Namespace (Secret_Meta target)) ns then mret tt
    else unless_not_found ("failed to delete propagated image pull secret " +:+ qualified (Secret_Meta target))
           (cl_Delete KSecret (key_of (Secret_Meta target)))) w =
  delete_all KSecret "propagated image pull secret"
    (List.filter (fun t : Secret => negb (String.eqb (Namespace (Secret_Meta t)) ns)) items) w.
Proof.
  revert w. induction items as [|t items IH]; intros w; [done|]. cbn [for_each List.filter].
  destruct (String.eqb _ ns); cbn [negb]; [exact (IH w)|].
  unfold delete_all in *. cbn [for_each]. unfold mbind at 1 2, M_bind at 1 2.
  change (unless_not_found ("failed to delete " +:+ "propagated image pull secret" +:+ " " +:+ qualified (meta_of KSecret t))
    (cl_Delete KSecret (key_of (meta_of KSecret t)))) with
    (unless_not_found ("failed to delete propagated image pull secret " +:+ qualified (Secret_Meta t))
           (cl_Delete KSecret (key_of (Secret_Meta t)))).
  destruct (unless_not_found _ _ w) as [[[]|e|p] w1]; [apply IH|done..].
Qed.

Lemma registry_selected_cached ns (m : ObjectMeta) :
  list_selects (mkListOptions ns registry_selector) m -> in_cache cache_selector KSecret m = true.
Proof. intros [_ Hl]. by apply bool_decide_eq_true, Hl. Qed.

Lemma deletePropagatedSecrets_spec (m : ObjectMeta) (w : W) :
  exists r w', deletePropagatedSecrets (Namespace m) w = (r, w') /\ (forall p, r <> Panic p) /\
    (forall k key, k <> KSecret -> view w' k key = view w k key) /\
    (forall key, view w' KSecret key = view w KSecret key \/
       exists s : Secret, view w KSecret key = Some s /\ propagated m s /\ deleted KSecret s (view w' KSecret key)) /\
    (r = Ret tt -> forall key s, view w KSecret key = Some s -> propagated m s ->
       Finalizers (Secret_Meta s) = [] -> view w' KSecret key = None).
Proof.
  unfold deletePropagatedSecrets.
  destruct (list_cases KSecret (mkListOptions None registry_selector) w) as [(l & El & Hl)|(e & El)];
    rewrite (M_bind_case _ _ _ _ _ (wrap_case _ _ _ _ _ El)).
  2: { eexists (Err _), w. do 3 (split; [done|]). by split; [by left|]. }
  rewrite deletePropagated_delete_all. match goal with |- context [delete_all _ _ ?x] => set (items := x) end.
  assert (Hitems : forall s, In s items <-> (exists key, view w KSecret key = Some s) /\ propagated m s).
  { intros s. unfold items, propagated. rewrite filter_In, Hl, negb_true_iff, String.eqb_neq.
    pose proof (registry_selected_cached None (Secret_Meta s)). change (meta_of KSecret s) with (Secret_Meta s). tauto. }
  assert (Hall : Forall (fun o => view w KSecret (key_of (meta_of KSecret o)) = Some o) items).
  { apply Forall_forall. intros s Hs. apply Hitems in Hs as [[key Hv] _].
    pose proof (view_key _ _ _ _ Hv) as Hk. by rewrite Hk. }
  destruct (delete_all_spec KSecret "propagated image pull secret" items w w Hall (evolves_refl _ w))
    as (r & w' & Hd & Hp & Hev & Hdone).
  exists r, w'. split; [exact Hd|]. split; [done|]. split; [|split].
  - intros k key Hk. by destruct (Hev k key) as [|(o & _ & (? & _) & _)].
  - intros key. destruct (Hev KSecret key) as [|(o & Ho & (_ & s & Hs & Hkey) & Hdel)]; [by left|right].
    exists o. split; [done|]. split; [|done]. pose proof (proj1 (Forall_forall _ _) Hall s Hs) as Hv.
    cbn beta in Hv. rewrite <- Hkey, (view_key _ _ _ _ Ho), Ho in Hv. injection Hv as ->.
    by apply Hitems in Hs as [_ ?].
  - intros Hret key s Hv Hpr Hf. rewrite <- (view_key _ _ _ _ Hv). apply Hdone; [done| |done].
    apply Hitems. split; [by exists key|done].
Qed.

Lemma update_case (o : Secret) (w : W) :
  exists r w', cl_Update KSecret o w = (r, w') /\ (forall p, r <> Panic p) /\
    frame KSecret (key_of (Secret_Meta o)) w w' /\
    (view w' KSecret (key_of (Secret_Meta o)) = view w KSecret (key_of (Secret_Meta o)) \/
     view w' KSecret (key_of (Secret_Meta o)) = updated KSecret o) /\
    (r = Ret tt -> view w' KSecret (key_of (Secret_Meta o)) = updated KSecret o).
Proof.
  pose proof (update_frame KSecret o w) as Hf. pose proof (update_own KSecret o w) as Ho.
  pose proof (update_done KSecret o w) as Hd. pose proof (update_no_panic KSecret o w) as Hp.
  cbv zeta in Ho. change (meta_of KSecret o) with (Secret_Meta o) in *.
  destruct (cl_Update KSecret o w) as [r w']; cbn [fst snd] in *.
  exists r, w'. do 3 (split; [done|]). split; [|done]. destruct Ho as [|[_ ?]]; [by left|by right].
Qed.

Lemma AddFinalizer_contains m f : ContainsFinalizer (AddFinalizer m f).2 f = true.
Proof.
  rewrite AddFinalizer_spec. destruct (ContainsFinalizer m f) eqn:E; [done|].
  rewrite ContainsFinalizer_spec. cbn [snd Finalizers set_finalizers]. rewrite existsb_app. cbn.
  by rewrite String.eqb_refl, orb_true_r.
Qed.

(** The loop that refreshes the copies goes on after an error. *)
Lemma refresh_loop (f : NamespacedName -> option Secret) (s : Secret) items :
  Forall (fun t => f (key_of (Secret_Meta t)) = Some t) items -> forall w : W,
  exists w', for_each items (fun t : Secret => r ← try_ (cl_Update KSecret (refreshed t s)); mret tt) w = (Ret tt, w') /\
    (forall k key, k <> KSecret -> view w' k key = view w k key) /\
    (forall key, view w' KSecret key = view w KSecret key \/
       exists t, In t items /\ key_of (Secret_Meta t) = key /\ view w' KSecret key = updated KSecret (refreshed t s)) /\
    (updates_succeed (W := W) -> forall t, In t items ->
       (exists x, view w KSecret (key_of (Secret_Meta t)) = Some x) \/
       view w KSecret (key_of (Secret_Meta t)) = updated KSecret (refreshed t s) ->
       view w' KSecret (key_of (Secret_Meta t)) = updated KSecret (refreshed t s)).
Proof.
  induction 1 as [|t items Ht Hall IH]; intros w.
  { exists w. split; [done|]. split; [done|]. split; [by left|]. by intros _ t []. }
  cbn [for_each]. destruct (update_case (refreshed t s) w) as (r & w1 & Eu & Hp & Hfr & Hown & Hdone).
  change (key_of (Secret_Meta (refreshed t s))) with (key_of (Secret_Meta t)) in *.
  destruct (IH w1) as (w' & Eloop & Hk & Hchg & Hsucc). exists w'.
  assert (Hsame : forall u, In u items -> key_of (Secret_Meta u) = key_of (Secret_Meta t) -> u = t).
  { intros u Hu Hkey. pose proof (proj1 (Forall_forall _ _) Hall u Hu) as Hfu. cbn beta in Hfu. rewrite Hkey in Hfu. congruence. }
  assert (Hhead : updates_succeed (W := W) -> (exists x, view w KSecret (key_of (Secret_Meta t)) = Some x) \/
       view w KSecret (key_of (Secret_Meta t)) = updated KSecret (refreshed t s) ->
       view w1 KSecret (key_of (Secret_Meta t)) = updated KSecret (refreshed t s)).
  { intros Hs [[x Hx]|Hu]; [|by destruct Hown as [->|]].
    apply Hdone. pose proof (Hs (refreshed t s) x w Hx) as Hok. by rewrite Eu in Hok. }
  split; [|split; [|split]].
  - rewrite M_bind_assoc, (M_bind_case _ _ _ _ _ (try_case _ _ _ _ Eu)).
    destruct r as [[]|e|p]; [exact Eloop..|by destruct (Hp p)].
  - intros k key Hne. rewrite Hk by done. apply Hfr. by left.
  - intros key. destruct (Hchg key) as [Heq|(u & Hu & Hkey & Hv)]; [|right; exists u; split; [by right|done]].
    destruct (decide (key = key_of (Secret_Meta t))) as [->|Hne].
    + rewrite Heq. destruct Hown as [Hown|Hown]; [by left|right]. exists t. split; [by left|done].
    + left. rewrite Heq. apply Hfr. by right.
  - intros Hs u [<-|Hu] Hpre.
    + destruct (Hchg (key_of (Secret_Meta t))) as [->|(u & Hu & Hkey & Hv)]; [by apply Hhead|].
      by rewrite (Hsame u Hu Hkey) in Hv.
    + apply (Hsucc Hs u Hu). destruct (decide (key_of (Secret_Meta u) = key_of (Secret_Meta t))) as [Hkey|Hne].
      * rewrite (Hsame u Hu Hkey) in *. right. by apply Hhead.
      * rewrite Hfr by (by right). exact Hpre.
Qed.

(** The two ways a reconcile of the source goes. *)
Lemma ImagePull_deletion r (s : Secret) request (w : W) :
  Name (Secret_Meta s) = SecretName r -> beingDeleted (Secret_Meta s) = true ->
  ContainsFinalizer (Secret_Meta s) constants.RegistrySecretFinalizer = true ->
  cl_Get KSecret request w = (Ret s, w) ->
  ImagePullSecretReconciler_Reconcile r request w =
  (deletePropagatedSecrets (Namespace (Secret_Meta s));;
   wrap "failed to remove finalizer"
     (cl_Update KSecret
        (set_secret_meta (RemoveFinalizer (Secret_Meta s) constants.RegistrySecretFinalizer) s))) w.
Proof.
  intros Hn Hd Hf Hg. unfold ImagePullSecretReconciler_Reconcile, or_not_found. rewrite M_bind_assoc.
  rewrite (M_bind_case _ _ _ _ _ (try_case _ _ _ _ Hg)). cbv zeta beta.
  by rewrite (M_bind_ret _ (mret s) w s w eq_refl), Hn, String.eqb_refl, Hd, Hf.
Qed.

End ImagePull.

Section ImagePullTheorems.
Context {W : Type} `{ClientWrites W} `{!VendorLaws}.

(** An object of the cache is not reported as missing. *)
Lemma cached_found k key e (o : kobj k) (w : W) :
  view w k key = Some o -> in_cache cache_selector k (meta_of k o) = true ->
  (IsNotFound e = true -> forall o, view w k key = Some o -> in_cache cache_selector k (meta_of k o) = false) ->
  IsNotFound e = false.
Proof. intros Hv Hc He. destruct (IsNotFound e); [|done]. by rewrite (He eq_refl o Hv) in Hc. Qed.

Lemma ImagePull_get_error r request e (w : W) :
  cl_Get KSecret request w = (Err e, w) -> IsNotFound e = false ->
  ImagePullSecretReconciler_Reconcile r request w = (Err e, w).
Proof.
  intros Hg He. unfold ImagePullSecretReconciler_Reconcile, or_not_found. rewrite M_bind_assoc.
  rewrite (M_bind_case _ _ _ _ _ (try_case _ _ _ _ Hg)). by rewrite IgnoreNotFound_spec, He.
Qed.

Lemma ImagePull_refresh r (s : Secret) request (w : W) :
  Name (Secret_Meta s) = SecretName r -> beingDeleted (Secret_Meta s) = false ->
  cl_Get KSecret request w = (Ret s, w) ->
  let added := AddFinalizer (Secret_Meta s) constants.RegistrySecretFinalizer in
  let source := set_secret_meta added.2 s in
  ImagePullSecretReconciler_Reconcile r request w =
  ((if added.1 then wrap "failed to add finalizer" (cl_Update KSecret source) else mret tt);;
   items ← cl_List KSecret (mkListOptions None registry_selector);
   for_each items (fun t : Secret => r ← try_ (cl_Update KSecret (refreshed t source)); mret tt)) w.
Proof.
  intros Hn Hd Hg. cbv zeta. unfold ImagePullSecretReconciler_Reconcile, or_not_found. rewrite M_bind_assoc.
  rewrite (M_bind_case _ _ _ _ _ (try_case _ _ _ _ Hg)). cbv zeta beta.
  rewrite (M_bind_ret _ (mret s) w s w eq_refl), Hn, String.eqb_refl, Hd. cbn [negb].
  by destruct (AddFinalizer _ _) as [[] m].
Qed.

(** The first step of the refresh: the source carries the finalizer. *)
Lemma add_finalizer_step (s : Secret) request (w : W) :
  view w KSecret request = Some s -> beingDeleted (Secret_Meta s) = false ->
  let added := AddFinalizer (Secret_Meta s) constants.RegistrySecretFinalizer in
  let source := set_secret_meta added.2 s in
  exists r w', (if added.1 then wrap "failed to add finalizer" (cl_Update KSecret source) else mret tt) w = (r, w') /\
    (forall p, r <> Panic p) /\ frame KSecret request w w' /\
    (r = Ret tt -> exists s', view w' KSecret request = Some s' /\
       ContainsFinalizer (Secret_Meta s') constants.RegistrySecretFinalizer = true /\
       beingDeleted (Secret_Meta s') = false).
Proof.
  intros Hv Hd. cbv zeta. pose proof (AddFinalizer_contains (Secret_Meta s) constants.RegistrySecretFinalizer) as Hc.
  assert (Hdel : beingDeleted (AddFinalizer (Secret_Meta s) constants.RegistrySecretFinalizer).2 = false)
    by (rewrite AddFinalizer_spec; destruct (ContainsFinalizer (Secret_Meta s) _); exact Hd).
  assert (Hkey : key_of (AddFinalizer (Secret_Meta s) constants.RegistrySecretFinalizer).2 = request).
  { rewrite <- (view_key _ _ _ _ Hv). rewrite AddFinalizer_spec. by destruct (ContainsFinalizer (Secret_Meta s) _). }
  destruct (AddFinalizer (Secret_Meta s) constants.RegistrySecretFinalizer) as [[] m] eqn:E; cbn [fst snd] in *.
  - destruct (update_case (set_secret_meta m s) w) as (r & w1 & Eu & Hp & Hfr & _ & Hdone).
    change (Secret_Meta (set_secret_meta m s)) with m in *. rewrite Hkey in *.
    rewrite (wrap_case _ _ _ _ _ Eu). eexists _, w1. split; [done|]. split; [by destruct r|]. split; [done|].
    intros Hr. rewrite Hdone by (by destruct r). unfold updated, released.
    change (meta_of KSecret (set_secret_meta m s)) with m. rewrite Hdel. cbn [andb]. eexists. split; [done|].
    change Secret_Meta with (meta_of KSecret). rewrite meta_of_stored. by split.
  - exists (Ret tt), w. split; [done|]. split; [done|]. split; [done|]. intros _. exists s. split; [done|].
    rewrite AddFinalizer_spec in E.
    destruct (ContainsFinalizer (Secret_Meta s) constants.RegistrySecretFinalizer) eqn:Ec; [|done]. by split.
Qed.

(** C15. Deleting the source secret.  The reconcile never panics.  Copies in
    other namespaces are deleted, and besides them only the source changes;
    the source loses its finalizer only after every copy without a finalizer
    is gone, and has lost it when the reconcile succeeds. *)
Theorem source_deletion (r : ImagePullSecretReconciler) (s : Secret) (request : NamespacedName) (w : W) :
  view w KSecret request = Some s -> in_cache cache_selector KSecret (Secret_Meta s) = true ->
  Name (Secret_Meta s) = SecretName r -> beingDeleted (Secret_Meta s) = true ->
  ContainsFinalizer (Secret_Meta s) constants.RegistrySecretFinalizer = true ->
  let unheld := set_secret_meta (RemoveFinalizer (Secret_Meta s) constants.RegistrySecretFinalizer) s in
  exists res w', ImagePullSecretReconciler_Reconcile r request w = (res, w') /\ (forall p, res <> Panic p) /\
    (forall k key, k <> KSecret -> view w' k key = view w k key) /\
    (forall key, key <> request -> view w' KSecret key = view w KSecret key \/
       exists t, view w KSecret key = Some t /\ propagated (Secret_Meta s) t /\ deleted KSecret t (view w' KSecret key)) /\
    (view w' KSecret request = Some s \/
     view w' KSecret request = updated KSecret unheld /\
     forall key t, view w KSecret key = Some t -> propagated (Secret_Meta s) t ->
       Finalizers (Secret_Meta t) = [] -> view w' KSecret key = None) /\
    (res = Ret tt -> view w' KSecret request = updated KSecret unheld).
Proof.
  intros Hv Hcached Hn Hd Hf unheld. pose proof (view_key _ _ _ _ Hv) as Hkey. change (meta_of KSecret s) with (Secret_Meta s) in Hkey.
  destruct (get_cases KSecret request w) as [(s' & Hg & Hv')|(e & Hg & He)].
  2: { exists (Err e), w. rewrite (ImagePull_get_error r request e w Hg) by exact (cached_found KSecret request e s w Hv Hcached He).
       do 3 (split; [done|]). split; [by left|]. split; [by left|done]. }
  rewrite Hv in Hv'. injection Hv' as <-. rewrite (ImagePull_deletion r s request w Hn Hd Hf Hg).
  destruct (deletePropagatedSecrets_spec (Secret_Meta s) w) as (rd & w1 & Ed & Hp & Hk & Hs & Hdone).
  assert (Hrequest : view w1 KSecret request = Some s).
  { destruct (Hs request) as [->|(t & Ht & [_ Hns] & _)]; [done|]. rewrite Hv in Ht. by injection Ht as <-. }
  rewrite (M_bind_case _ _ _ _ _ Ed). destruct rd as [[]|e|p]; [| |by destruct (Hp p)].
  2: { exists (Err e), w1. do 3 (split; [done|]). split; [by auto|]. split; [by left|done]. }
  destruct (update_case unheld w1) as (ru & w2 & Eu & Hpu & Hfr & Hown & Hret).
  assert (Hkey' : key_of (Secret_Meta unheld) = request)
    by (rewrite <- Hkey; unfold unheld; cbn [set_secret_meta set_meta Secret_Meta]; by rewrite RemoveFinalizer_spec).
  rewrite Hkey' in *.
  rewrite (wrap_case _ _ _ _ _ Eu). eexists _, w2. split; [done|]. split; [by destruct ru|]. split; [|split; [|split]].
  - intros k key Hne. rewrite Hfr by (by left). by apply Hk.
  - intros key Hne. rewrite Hfr by (by right). apply Hs.
  - destruct Hown as [->| ->]; [by left|right]. split; [done|]. intros key t Ht Hpr Hfin.
    rewrite Hfr; [by eapply Hdone|]. right. intros ->. rewrite Hv in Ht. injection Ht as <-. by destruct Hpr.
  - intros E. apply Hret. by destruct ru.
Qed.

(** Refreshing the copies.  The reconcile of the live source never
    panics and changes nothing but the source and the labelled secrets, each
    of which gets the registry credentials of the source and keeps its other
    data.  On success the source carries the finalizer that
    [source_deletion] relies on, and where updates succeed every labelled
    secret has been refreshed. *)
Theorem source_refresh (r : ImagePullSecretReconciler) (s : Secret) (request : NamespacedName) (w : W) :
  view w KSecret request = Some s -> in_cache cache_selector KSecret (Secret_Meta s) = true ->
  Name (Secret_Meta s) = SecretName r -> beingDeleted (Secret_Meta s) = false ->
  exists res w', ImagePullSecretReconciler_Reconcile r request w = (res, w') /\ (forall p, res <> Panic p) /\
    (forall k key, k <> KSecret -> view w' k key = view w k key) /\
    (forall key, key <> request -> view w' KSecret key = view w KSecret key \/
       exists t, view w KSecret key = Some t /\ list_selects (mkListOptions None registry_selector) (Secret_Meta t) /\
         view w' KSecret key = updated KSecret (refreshed t s)) /\
    (res = Ret tt -> exists s', view w' KSecret request = Some s' /\
       ContainsFinalizer (Secret_Meta s') constants.RegistrySecretFinalizer = true) /\
    (res = Ret tt -> updates_succeed (W := W) -> forall key t, key <> request -> view w KSecret key = Some t ->
       list_selects (mkListOptions None registry_selector) (Secret_Meta t) ->
       view w' KSecret key = updated KSecret (refreshed t s)).
Proof.
  intros Hv Hcached Hn Hd.
  destruct (get_cases KSecret request w) as [(s' & Hg & Hv')|(e & Hg & He)].
  2: { exists (Err e), w. rewrite (ImagePull_get_error r request e w Hg) by exact (cached_found KSecret request e s w Hv Hcached He).
       do 3 (split; [done|]). split; [by left|]. by split. }
  rewrite Hv in Hv'. injection Hv' as <-. rewrite (ImagePull_refresh r s request w Hn Hd Hg).
  destruct (add_finalizer_step s request w Hv Hd) as (ra & w1 & Ea & Hp & Hfr & Hfin).
  rewrite (M_bind_case _ _ _ _ _ Ea). destruct ra as [[]|e|p]; [| |by destruct (Hp p)].
  2: { exists (Err e), w1. do 2 (split; [done|]). split; [intros k key Hk; apply Hfr; by left|].
       split; [intros key Hk; left; apply Hfr; by right|]. by split. }
  specialize (Hfin eq_refl) as (s1 & Hs1 & Hc1 & Hd1).
  destruct (list_cases KSecret (mkListOptions None registry_selector) w1) as [(l & El & Hl)|(e & El)];
    rewrite (M_bind_case _ _ _ _ _ El).
  2: { exists (Err e), w1. do 2 (split; [done|]). split; [intros k key Hk; apply Hfr; by left|].
       split; [intros key Hk; left; apply Hfr; by right|]. by split. }
  destruct (refresh_loop (fun key => view w1 KSecret key) (set_secret_meta (AddFinalizer (Secret_Meta s) constants.RegistrySecretFinalizer).2 s) l)
    with (w := w1) as (w' & Eloop & Hk & Hchg & Hsucc).
  { apply Forall_forall. intros t ([key Ht] & _)%Hl. pose proof (view_key _ _ _ _ Ht) as Hkt.
    change (meta_of KSecret t) with (Secret_Meta t) in Hkt. by rewrite Hkt. }
  assert (Hitem : forall t, In t l -> view w1 KSecret (key_of (Secret_Meta t)) = Some t /\
     list_selects (mkListOptions None registry_selector) (Secret_Meta t)).
  { intros t ([key Ht] & Hsel & _)%Hl. pose proof (view_key _ _ _ _ Ht) as Hkt.
    change (meta_of KSecret t) with (Secret_Meta t) in *. by rewrite Hkt. }
  exists (Ret tt), w'. split; [exact Eloop|]. split; [done|]. split; [|split; [|split]].
  - intros k key Hne. rewrite Hk by done. apply Hfr. by left.
  - intros key Hne. rewrite <- (Hfr KSecret key) by (by right). destruct (Hchg key) as [->|(t & Ht & <- & ->)]; [by left|right].
    destruct (Hitem t Ht). by exists t.
  - intros _. destruct (Hchg request) as [->|(t & Ht & Hkt & ->)]; [by exists s1|].
    destruct (Hitem t Ht) as [Ht1 _]. rewrite Hkt, Hs1 in Ht1. injection Ht1 as <-.
    unfold updated, released. change (meta_of KSecret (refreshed s1 _)) with (Secret_Meta s1). rewrite Hd1. cbn [andb].
    eexists. split; [done|]. change Secret_Meta with (meta_of KSecret) at 1. by rewrite meta_of_stored.
  - intros _ Hup key t Hne Ht Hsel. rewrite <- (Hfr KSecret key) in Ht by (by right).
    pose proof (view_key _ _ _ _ Ht) as Hkt. rewrite <- Hkt. apply Hsucc; [done| |].
    + apply Hl. split; [by exists key|]. split; [done|]. by apply (registry_selected_cached None).
    + left. exists t. change (key_of (Secret_Meta t)) with (key_of (meta_of KSecret t)). by rewrite Hkt.
Qed.

End ImagePullTheorems.

(** ** Witnesses on the reference instance *)

#[local] Existing Instances Ref.vendor Ref.vendor_laws Ref.client Ref.client_reads Ref.client_writes.

Module RegistryExamples.

Definition source : Secret :=
  mkSecret (Ref.meta1 "regcred" "oidc-system" "uid-r" (Ref.labels1 constants.LabelKey constants.LabelValue)) "kubernetes.io/dockerconfigjson"
    (Some {[ DOCKERCONFIGJSON := "new" ]}) None.

Definition leaving : Secret :=
  mkSecret (set_deletion_timestamp (Some 7%Z)
      (set_finalizers [constants.RegistrySecretFinalizer] (Secret_Meta source)))
    (Secret_Type source) (Secret_Data source) None.

Definition copy : Secret :=
  mkSecret (metaForRegistrySecretCopy "regcred" "mon") "kubernetes.io/dockerconfigjson"
    (Some {[ DOCKERCONFIGJSON := "old" ]}) None.

Definition before : Ref.cluster := Ref.put KSecret source Examples.cluster1.
Definition after : Ref.cluster := Ref.put KSecret copy before.
Definition removing : Ref.cluster := Ref.put KSecret copy (Ref.put KSecret leaving Ref.empty_cluster).

Definition reconciler : ImagePullSecretReconciler := mkImagePullSecretReconciler "regcred".

End RegistryExamples.

Lemma ensureRegistrySecret_propagates_witness :
  exists w', ensureRegistrySecret "regcred" "oidc-system" "mon" RegistryExamples.before = (Ret tt, w') /\
    exists s, view w' KSecret (mkNN "mon" "regcred") = Some s.
Proof.
  destruct (ensureRegistrySecret_propagates "regcred" "oidc-system" "mon" RegistryExamples.before)
    as (r & w' & Hr & _ & _ & _ & Hok & _).
  assert (r = Ret tt) as -> by (apply (f_equal fst) in Hr; vm_compute in Hr; congruence).
  exists w'. split; [exact Hr|]. by apply Hok.
Defined.

Lemma cleanupRegistrySecret_last_witness :
  exists w', cleanupRegistrySecretIfLastTarget (Some Examples.config1) "regcred" "oidc-system"
      (DeploymentObject Examples.grafana) RegistryExamples.after = (Ret tt, w') /\
    forall s, view RegistryExamples.after KSecret (mkNN "mon" "regcred") = Some s ->
      ~ (exists o, other_target RegistryExamples.after Examples.config1 (DeploymentObject Examples.grafana) o) ->
      view w' KSecret (mkNN "mon" "regcred") = None.
Proof.
  destruct (cleanupRegistrySecret_last Examples.config1 "regcred" "oidc-system" (DeploymentObject Examples.grafana)
              RegistryExamples.after) as (r & w' & Hr & _ & _ & _ & Hgone).
  assert (r = Ret tt) as -> by (apply (f_equal fst) in Hr; vm_compute in Hr; congruence).
  exists w'. split; [exact Hr|]. intros s Hs Hno.
  apply (Hgone eq_refl ltac:(done) ltac:(done) Hno s Hs).
  vm_compute in Hs. by injection Hs as <-.
Defined.

Lemma source_deletion_witness :
  exists w', ImagePullSecretReconciler_Reconcile RegistryExamples.reconciler (mkNN "oidc-system" "regcred")
      RegistryExamples.removing = (Ret tt, w') /\
    view w' KSecret (mkNN "oidc-system" "regcred") = None.
Proof.
  destruct (source_deletion RegistryExamples.reconciler RegistryExamples.leaving (mkNN "oidc-system" "regcred")
              RegistryExamples.removing) as (r & w' & Hr & _ & _ & _ & _ & Hdone);
    [vm_compute; reflexivity..|].
  assert (r = Ret tt) as -> by (apply (f_equal fst) in Hr; vm_compute in Hr; congruence).
  exists w'. split; [exact Hr|]. exact (Hdone eq_refl).
Defined.

Lemma updates_succeed_reference : updates_succeed (W := Ref.cluster).
Proof.
  intros o x w Hx. cbn in Hx |- *. unfold Ref.update. change (key_of (meta_of KSecret o)) with (key_of (Secret_Meta o)).
  by rewrite Hx.
Qed.

Lemma source_refresh_witness :
  exists w', ImagePullSecretReconciler_Reconcile RegistryExamples.reconciler (mkNN "oidc-system" "regcred")
      RegistryExamples.after = (Ret tt, w') /\
    (s ← view w' KSecret (mkNN "mon" "regcred"); map_get (Secret_Data s) DOCKERCONFIGJSON) = Some "new".
Proof.
  destruct (source_refresh RegistryExamples.reconciler RegistryExamples.source (mkNN "oidc-system" "regcred")
              RegistryExamples.after) as (r & w' & Hr & _ & _ & _ & _ & Hdone);
    [vm_compute; reflexivity..|].
  assert (r = Ret tt) as -> by (apply (f_equal fst) in Hr; vm_compute in Hr; congruence).
  exists w'. split; [exact Hr|].
  rewrite (Hdone eq_refl updates_succeed_reference (mkNN "mon" "regcred") RegistryExamples.copy);
    [vm_compute; reflexivity|done|vm_compute; reflexivity|].
  apply Ref.selected_spec. vm_compute. reflexivity.
Defined.
