(* ===== verification/WorkloadSpec.v ===== *)
(** * The workload reconcilers

    [deployment-reconciler.go], [statefulset-reconciler.go] and
    [hasOidcAppsPods] of [modifiers.go]: when a reconcile creates anything,
    what it may delete otherwise, and what a successful reconcile of a
    StatefulSet establishes for each of its pods. *)

From S2P Require Import Prelude GoStrings RandUtils Kube Constants Vendor Reference.
From S2P Require Import Configuration ConfigurationSpec Templates WebhookModifiers PodWebhook.
From S2P Require Import WebhookSpec PodWebhookSpec ControllerObjects ControllerObjectsSpec Controllers.
From S2P Require Import ControllersSpec RegistrySpec.

(** ** Specifications *)

(** The webhook has handled the pod. *)
Definition annotated (p : Pod) : Prop := is_Some (map_get (Annotations (Pod_Meta p)) constants.AnnotationHostKey).

(** The hostname of the route of a pod: the first label of the annotation
    gets the ordinal. *)
Definition pod_hostname (p : Pod) : string :=
  let '(host, domain, _) := Cut (default EmptyString (map_get (Annotations (Pod_Meta p)) constants.AnnotationHostKey)) "." in
  host +:+ "-" +:+ fetchStrIndexIfPresent (PodObject p) +:+ "." +:+ domain.

Definition pod_route (object : Object) (p : Pod) : HTTPRoute := httpRouteForStatefulSetPodObject p object.
Definition pod_service (p : Pod) : Service := oauth2ServiceObject (PodObject p).

(** The keys a reconcile of a StatefulSet may write for a pod. *)
Definition pod_keys (object : Object) (p : Pod) : list (Kind * NamespacedName) :=
  [(KService, key_of (Service_Meta (pod_service p))); (KHTTPRoute, key_of (HTTPRoute_Meta (pod_route object p)))].

(** The objects of a reconciled kind in a namespace are not being deleted. *)
Definition calm {W} `{ClientReads W} (w : W) (ns : string) : Prop :=
  forall k key o, In k [KSecret; KService; KHTTPRoute] -> NN_Namespace key = ns -> view w k key = Some o ->
    beingDeleted (meta_of k o) = false.

(** The service and the route of a pod. *)
Definition pod_ready {W} `{ClientReads W} `{OSEnv} (w : W) (rc : ResolvedConfig) (object : Object) (p : Pod) : Prop :=
  maintained w (PodObject p) KService (pod_service p)
    (fun svc => Service_Ports svc = [mkServicePort "http" 8080 (FromString "oauth2")] /\
       forall name, map_get (Labels (Pod_Meta p)) podNameLabel = Some name ->
         Service_Selector svc = Some {[ podNameLabel := name ]}) /\
  (ShallCreateHTTPRoute rc = true ->
     maintained w (PodObject p) KHTTPRoute (pod_route object p)
       (fun r => HTTPRoute_Hostnames r = [pod_hostname p] /\
          backend_refs r = [mkBackendRef (Name (Service_Meta (pod_service p))) 8080])).

(** ** Lemmas on the pods of a StatefulSet *)

Section Pods.
Context {W : Type} `{ClientWrites W} `{OSEnv} `{Yaml3}.

Lemma pod_service_step p rcp (w w' : W) :
  wrap "failed to reconcile oauth2 service"
    (reconcileOwnedResource (PodObject p) KService (oauth2ServiceObject (PodObject p))
       (fun svc => mret (mutateOauth2Service svc (pod_selectors rcp p)))) w = (Ret tt, w') ->
  none_deleted w [(KService, key_of (Service_Meta (pod_service p)))] ->
  maintained w' (PodObject p) KService (pod_service p)
    (fun svc => Service_Ports svc = [mkServicePort "http" 8080 (FromString "oauth2")] /\
       forall name, map_get (Labels (Pod_Meta p)) podNameLabel = Some name ->
         Service_Selector svc = Some {[ podNameLabel := name ]}) /\
  touches [(KService, key_of (Service_Meta (pod_service p)))] w w'.
Proof.
  intros Hs%wrap_inv Hnd. eapply (reconcileOwned_maintains _ KService); [exact Hs|done|exact Hnd|done|].
  intros y x w0 [-> ->]%mret_inv _. split; [done|]. split; [done|]. intros m. split; [done|].
  intros name Hname. cbn. unfold pod_selectors. by rewrite Hname.
Qed.

Lemma pod_route_mutation route p rc x :
  mutateHTTPRouteForStatefulSetPod route p rc = Ret x ->
  beingDeleted (HTTPRoute_Meta x) = beingDeleted (HTTPRoute_Meta route) /\
  HTTPRoute_Hostnames x = [pod_hostname p] /\
  backend_refs x = [mkBackendRef (Name (Service_Meta (pod_service p))) 8080].
Proof.
  unfold mutateHTTPRouteForStatefulSetPod, pod_hostname.
  destruct (map_get _ constants.AnnotationHostKey) as [hp|]; [|done]. change (default EmptyString (Some hp)) with hp.
  destruct (Cut hp ".") as [[host domain] f]. intros [= <-]. split; [|split].
  - unfold route_with, applyHTTPRouteDefaultPathRedirect. by destruct (Nat.ltb _ _), (String.eqb _ EmptyString).
  - apply route_with_rules.
  - by rewrite route_with_backends.
Qed.

Lemma pod_route_step object p rc (w w' : W) :
  wrap "failed to reconcile oauth2 httproute"
    (reconcileOwnedResource (PodObject p) KHTTPRoute (httpRouteForStatefulSetPodObject p object)
       (fun r => lift (mutateHTTPRouteForStatefulSetPod r p rc))) w = (Ret tt, w') ->
  none_deleted w [(KHTTPRoute, key_of (HTTPRoute_Meta (pod_route object p)))] ->
  maintained w' (PodObject p) KHTTPRoute (pod_route object p)
    (fun r => HTTPRoute_Hostnames r = [pod_hostname p] /\
       backend_refs r = [mkBackendRef (Name (Service_Meta (pod_service p))) 8080]) /\
  touches [(KHTTPRoute, key_of (HTTPRoute_Meta (pod_route object p)))] w w'.
Proof.
  intros Hs%wrap_inv Hnd. eapply (reconcileOwned_maintains _ KHTTPRoute); [exact Hs|done|exact Hnd|done|].
  intros y x w0 [Hx ->]%lift_inv _. destruct (pod_route_mutation y p rc x Hx) as (Hd & Hh & Hb).
  split; [exact Hd|]. split; [done|]. intros m. by split.
Qed.

Lemma reconcile_pod_spec c rc object p (w w' : W) :
  reconcile_pod (Some c) rc object p w = (Ret tt, w') -> none_deleted w (pod_keys object p) ->
  (annotated p -> pod_ready w' rc object p) /\ touches (pod_keys object p) w w'.
Proof.
  unfold reconcile_pod, annotated. intros Hr Hnd.
  destruct (map_get _ constants.AnnotationHostKey) as [hp|] eqn:Ea.
  2: { apply mret_inv in Hr as [_ ->]. split; [by intros []|done]. }
  apply M_bind_inv in Hr as (rcp & w0 & Hres & Hr).
  assert (w0 = w) as -> by (destruct (Resolve_total w c (PodObject p)) as (t & Ht & _); rewrite Ht in Hres; by injection Hres as _ <-).
  apply M_bind_inv in Hr as ([] & w1 & Hs1 & Hs2).
  apply pod_service_step in Hs1 as [M1 T1]; [|eapply none_deleted_incl; [|exact Hnd]; by intros x [<-|[]]; left].
  unfold reconcileHTTPRouteForStatefulSetPod in Hs2. rewrite <- if_negb, negb_involutive in Hs2.
  destruct (optional_step _ _ (fun w2 => maintained w2 (PodObject p) KHTTPRoute (pod_route object p)
       (fun r => HTTPRoute_Hostnames r = [pod_hostname p] /\
          backend_refs r = [mkBackendRef (Name (Service_Meta (pod_service p))) 8080]))
    [(KHTTPRoute, key_of (HTTPRoute_Meta (pod_route object p)))] _ _ Hs2) as [M2 T2].
  { intros Hk. apply (pod_route_step _ _ _ _ _ Hk).
    eapply none_deleted_later; [exact Hnd|by right; left|exact T1|]. by intros [[=]|[]]. }
  split; [|exact (touches_trans _ _ _ _ _ T1 T2)]. intros _. split; [|exact M2].
  eapply maintained_touches; [exact M1|exact T2|]. by intros [[=]|[]].
Qed.

Lemma pod_ready_touches L rc object p (w w' : W) :
  pod_ready w rc object p -> touches L w w' -> (forall x, In x (pod_keys object p) -> ~ In x L) ->
  pod_ready w' rc object p.
Proof.
  intros [Hs Hr] T Hd. split; [|intros Hc; specialize (Hr Hc)]; eapply maintained_touches; try eassumption; apply Hd.
  - by left.
  - by right; left.
Qed.

(** Pods that share no key are handled independently. *)
Lemma pods_loop_ready c rc object pods (w w' : W) :
  for_each pods (reconcile_pod (Some c) rc object) w = (Ret tt, w') ->
  NoDup pods ->
  (forall p q x, In p pods -> In q pods -> p <> q -> In x (pod_keys object p) -> ~ In x (pod_keys object q)) ->
  none_deleted w (flat_map (pod_keys object) pods) ->
  (forall p, In p pods -> annotated p -> pod_ready w' rc object p) /\
  touches (flat_map (pod_keys object) pods) w w'.
Proof.
  revert w. induction pods as [|p pods IH]; cbn [for_each flat_map]; intros w Hr Hnodup Hsep Hnd.
  { apply mret_inv in Hr as [_ ->]. by split. }
  apply M_bind_inv in Hr as ([] & w1 & Hs1 & Hr). inversion_clear Hnodup as [|? ? Hp Hnodup'].
  apply reconcile_pod_spec in Hs1 as [M1 T1];
    [|eapply none_deleted_incl; [|exact Hnd]; intros x Hx; apply in_app_iff; by left].
  assert (Hdisj : forall x, In x (flat_map (pod_keys object) pods) -> ~ In x (pod_keys object p)).
  { intros x (q & Hq & Hx)%in_flat_map. apply (Hsep q p x); [by right|by left| |done].
    intros ->. by apply Hp, list_elem_of_In. }
  destruct (IH w1 Hr Hnodup') as [M2 T2].
  - intros q q' x Hq Hq'. apply Hsep; by right.
  - eapply none_deleted_touches; [|exact T1|exact Hdisj].
    eapply none_deleted_incl; [|exact Hnd]. intros x Hx. apply in_app_iff. by right.
  - split; [|exact (touches_trans _ _ _ _ _ T1 T2)]. intros q [<-|Hq] Ha; [|by apply M2].
    eapply pod_ready_touches; [by apply M1|exact T2|]. intros x Hx Hx'. by apply (Hdisj x).
Qed.

End Pods.

(** ** What a successful reconcile of a StatefulSet establishes *)

(** A pod of the StatefulSet: in its namespace, with its labels, and in the
    cache. *)
Definition child {W} `{ClientReads W} (w : W) (s : StatefulSet) (selector : LabelSelector) (p : Pod) : Prop :=
  (exists key, view w KPod key = Some p) /\
  list_selects (mkListOptions (Some (Namespace (StatefulSet_Meta s))) (MatchLabels selector)) (Pod_Meta p) /\
  in_cache cache_selector KPod (Pod_Meta p) = true.

(** The pod is the one the StatefulSet controller created for an ordinal. *)
Definition ordinal_child (s : StatefulSet) (p : Pod) : Prop :=
  exists n, ordinal_pod (Name (StatefulSet_Meta s)) n p /\
    Name (Pod_Meta p) = Name (StatefulSet_Meta s) +:+ "-" +:+ Itoa n.

Section StatefulSets.
Context {W : Type} `{ClientWrites W} `{!VendorLaws} `{OSEnv} `{Yaml3}.

Lemma pod_keys_separate s p q x object :
  ordinal_child s p -> ordinal_child s q -> Namespace (Pod_Meta p) = Namespace (Pod_Meta q) ->
  key_of (Pod_Meta p) <> key_of (Pod_Meta q) ->
  In x (pod_keys object p) -> ~ In x (pod_keys object q).
Proof.
  intros (n & Hp & Np) (m & Hq & Nq) Hns Hkey.
  assert (Hne : n <> m) by (intros ->; apply Hkey; unfold key_of; congruence).
  assert (Hs : Name (Service_Meta (pod_service p)) <> Name (Service_Meta (pod_service q))).
  { unfold pod_service. rewrite (ordinal_service_name _ _ _ Hp), (ordinal_service_name _ _ _ Hq).
    intros E. do 2 apply sapp_inj_l in E. destruct Hp as [? _], Hq as [? _]. by apply Itoa_dash_inj in E. }
  assert (Hr : Name (HTTPRoute_Meta (pod_route object p)) <> Name (HTTPRoute_Meta (pod_route object q))).
  { unfold pod_route. rewrite (ordinal_route_name _ _ _ _ Hp), (ordinal_route_name _ _ _ _ Hq).
    intros E. do 2 apply sapp_inj_l in E. destruct Hp as [? _], Hq as [? _]. by apply Itoa_dash_inj in E. }
  intros [<-|[<-|[]]] [E|[E|[]]]; try discriminate E;
    apply (f_equal (fun x : Kind * NamespacedName => NN_Name x.2)) in E; symmetry in E; [exact (Hs E)|exact (Hr E)].
Qed.

Lemma calm_none_deleted (w : W) ns L :
  calm w ns -> (forall k key, In (k, key) L -> In k [KSecret; KService; KHTTPRoute] /\ NN_Namespace key = ns) ->
  none_deleted w L.
Proof. intros Hc HL k key o Hin Ho. destruct (HL k key Hin). by eapply Hc. Qed.

Lemma pod_keys_in_namespace s pods k key :
  Forall (fun p => Namespace (Pod_Meta p) = Namespace (StatefulSet_Meta s)) pods ->
  In (k, key) (flat_map (pod_keys (StatefulSetObject s)) pods) ->
  (k = KService \/ k = KHTTPRoute) /\ NN_Namespace key = Namespace (StatefulSet_Meta s).
Proof.
  intros Hall (p & Hp & Hin)%in_flat_map. pose proof (proj1 (Forall_forall _ _) Hall p Hp) as Hns. cbn beta in Hns.
  destruct Hin as [[= <- <-]|[[= <- <-]|[]]]; (split; [tauto|]); [exact Hns|done].
Qed.

Lemma list_child (s : StatefulSet) (selector : LabelSelector) l (w w1 : W) :
  cl_List KPod (mkListOptions (Some (GetNamespace (StatefulSetObject s))) (MatchLabels selector)) w1 = (Ret l, w1) ->
  (forall key, view w1 KPod key = view w KPod key) ->
  NoDup l /\ (forall p, In p l <-> child w s selector p) /\
  Forall (fun p => Namespace (Pod_Meta p) = Namespace (StatefulSet_Meta s)) l /\
  (forall p q, In p l -> In q l -> p <> q -> key_of (Pod_Meta p) <> key_of (Pod_Meta q)).
Proof.
  set (opts := mkListOptions (Some (GetNamespace (StatefulSetObject s))) (MatchLabels selector)).
  intros Hl Hv. pose proof (list_nodup KPod opts w1 l) as Hn. pose proof (list_spec KPod opts w1 l) as Hs.
  rewrite Hl in Hn, Hs. specialize (Hn eq_refl). specialize (Hs eq_refl).
  assert (Hchild : forall p, In p l <-> child w s selector p).
  { intros p. rewrite Hs. unfold child. setoid_rewrite Hv. done. }
  split; [done|]. split; [done|]. split.
  - apply Forall_forall. intros p (_ & [Hns _] & _)%Hchild. by apply Hns.
  - intros p q [[kp Hp] _]%Hchild [[kq Hq] _]%Hchild Hne Hk. apply Hne.
    pose proof (view_key _ _ _ _ Hp) as Ep. pose proof (view_key _ _ _ _ Hq) as Eq.
    change (key_of (Pod_Meta p) = kp) in Ep. change (key_of (Pod_Meta q) = kq) in Eq. congruence.
Qed.

(** The pods are handled after the oauth2 secret; only services and routes
    change. *)
Lemma statefulset_pods c rc s selector key (w w1 w2 : W) :
  calm w (Namespace (StatefulSet_Meta s)) -> (forall p, child w s selector p -> ordinal_child s p) ->
  touches [(KSecret, key)] w w1 ->
  (pods ← wrap "failed to list pods"
            (cl_List KPod (mkListOptions (Some (GetNamespace (StatefulSetObject s))) (MatchLabels selector)));
   for_each pods (reconcile_pod (Some c) rc (StatefulSetObject s))) w1 = (Ret tt, w2) ->
  exists L, (forall k key, In (k, key) L -> k = KService \/ k = KHTTPRoute) /\ touches L w1 w2 /\
    (forall p, child w s selector p -> annotated p -> pod_ready w2 rc (StatefulSetObject s) p).
Proof.
  intros Hcalm Hord T1 Hr. apply M_bind_inv in Hr as (l & w1' & Hlist%wrap_inv & Hs2).
  set (opts := mkListOptions _ _) in Hlist.
  assert (w1' = w1) as -> by (pose proof (list_pure KPod opts w1) as Hp; by rewrite Hlist in Hp).
  destruct (list_child s selector l w w1 Hlist) as (Hn & Hchild & Hns & Hkeys).
  { intros key'. apply T1. by intros [[=]|[]]. }
  assert (Hpods : forall k key, In (k, key) (flat_map (pod_keys (StatefulSetObject s)) l) ->
    (k = KService \/ k = KHTTPRoute) /\ NN_Namespace key = Namespace (StatefulSet_Meta s)).
  { intros k key'. by apply pod_keys_in_namespace. }
  exists (flat_map (pod_keys (StatefulSetObject s)) l). split; [intros k key' Hin; by apply (Hpods k key')|].
  apply pods_loop_ready in Hs2 as [M2 T2]; [|done|..].
  - split; [exact T2|]. intros p Hp. apply M2. by apply Hchild.
  - intros p q x Hp Hq Hne. apply (pod_keys_separate s); [by apply Hord, Hchild..| |by apply Hkeys].
    pose proof (proj1 (Forall_forall _ _) Hns p Hp) as Ep. pose proof (proj1 (Forall_forall _ _) Hns q Hq) as Eq.
    cbn beta in Ep, Eq. congruence.
  - eapply none_deleted_touches; [|exact T1|by intros [k key'] [[->| ->] _]%Hpods [[=]|[]]].
    apply (calm_none_deleted _ _ _ Hcalm). intros k key' [[->| ->] Hk]%Hpods; split; cbn; tauto.
Qed.

Lemma secret_keys_calm s (w w2 : W) L :
  calm w (Namespace (StatefulSet_Meta s)) -> touches L w w2 ->
  (forall k key, In (k, key) L -> (k, key) = (KSecret, key_of (Secret_Meta (oauth2SecretObject (StatefulSetObject s)))) \/
     k = KService \/ k = KHTTPRoute) ->
  none_deleted w2 (secret_keys (StatefulSetObject s)).
Proof.
  intros Hcalm T HL. eapply none_deleted_touches; [|exact T|].
  - apply (calm_none_deleted _ _ _ Hcalm). intros k key.
    intros [[= <- <-]|[[= <- <-]|[[= <- <-]|[]]]]; (split; [by left|done]).
  - intros [k key] Hin [[= -> ->]|[->| ->]]%HL; by destruct Hin as [[=]|[[=]|[[=]|[]]]].
Qed.

(** The secrets a reconcile of a StatefulSet may write. *)
Definition statefulset_secret_keys (object : Object) : list (Kind * NamespacedName) :=
  (KSecret, key_of (Secret_Meta (oauth2SecretObject object))) :: secret_keys object.

Lemma reconcileStatefulSet_steps c s (w w' : W) :
  beingDeleted (StatefulSet_Meta s) = false -> calm w (Namespace (StatefulSet_Meta s)) ->
  (forall selector p, StatefulSet_Selector s = Some selector -> child w s selector p -> ordinal_child s p) ->
  reconcileStatefulSetDependencies (Some c) s w = (Ret tt, w') ->
  exists (rc : ResolvedConfig) selector, Resolve (W := W) (Some c) (StatefulSetObject s) w = (Ret rc, w) /\
    StatefulSet_Selector s = Some selector /\
    maintained w' (StatefulSetObject s) KSecret (oauth2SecretObject (StatefulSetObject s))
      (fun x => has_entry "oauth2-proxy.cfg" (oauth2_cfg rc) x /\
         is_Some (map_get (Secret_Data x) constants.Oauth2CookieSecretKey)) /\
    other_secrets_ready w' rc (StatefulSetObject s) /\
    (forall p, child w s selector p -> annotated p -> pod_ready w' rc (StatefulSetObject s) p) /\
    exists L, touches L w w' /\
      forall k key, In (k, key) L -> In (k, key) (statefulset_secret_keys (StatefulSetObject s)) \/ k = KService \/ k = KHTTPRoute.
Proof.
  intros Hd Hcalm Hord Hr. destruct (Resolve_total w c (StatefulSetObject s)) as (t & Hres & _).
  unfold reconcileStatefulSetDependencies in Hr.
  change (beingDeleted (obj_meta (StatefulSetObject s))) with (beingDeleted (StatefulSet_Meta s)) in Hr.
  cbv zeta in Hr. rewrite Hd, (M_bind_ret _ _ _ _ _ Hres) in Hr. set (rc := mkResolvedConfig _ _ _) in *.
  apply M_bind_inv in Hr as ([] & w1 & Hs1 & Hr). apply M_bind_inv in Hr as ([] & w2 & Hs2 & Hr).
  apply M_bind_inv in Hr as ([] & w3 & Hs3 & Hs4).
  destruct (StatefulSet_Selector s) as [selector|]; [|done].
  exists rc, selector. split; [done|]. split; [done|].
  apply reconcile_oauth2_secret_spec in Hs1 as [M1 T1].
  2: { apply (calm_none_deleted _ _ _ Hcalm). intros k key [[= <- <-]|[]]. by split; [left|]. }
  destruct (statefulset_pods c rc s selector _ w w1 w2 Hcalm (fun p => Hord selector p eq_refl) T1 Hs2)
    as (L & HL & T2 & M2).
  apply other_secrets_spec in Hs3 as [M3 T3].
  2: { apply (secret_keys_calm s w _ _ Hcalm (touches_trans _ _ _ _ _ T1 T2)).
       intros k key [[Hx|[]]|Hx]%in_app_iff; [by left|right; by eapply HL]. }
  assert (T4 : touches [] w3 w').
  { apply touches_same. intros k key. pose proof (patch_vpa_view rc (StatefulSetObject s) w3 k key) as Hv. by rewrite Hs4 in Hv. }
  pose proof (touches_trans _ _ _ _ _ T3 T4) as T34. rewrite app_nil_r in T34. split; [|split; [|split]].
  - eapply maintained_touches; [exact M1|exact (touches_trans _ _ _ _ _ T2 T34)|].
    intros [Hx%HL|Hx]%in_app_iff; [by destruct Hx|]. by destruct Hx as [[=]|[[=]|[[=]|[]]]].
  - destruct M3 as (M3 & Mk & Mc). split; [|split; [intros Hk; specialize (Mk Hk)|intros Hc; specialize (Mc Hc)]];
      (eapply maintained_touches; [eassumption|exact T4|by intros []]).
  - intros p Hp Ha. eapply pod_ready_touches; [by apply M2|exact T34|].
    intros [k key] Hin Hx. destruct Hin as [[= <- <-]|[[= <- <-]|[]]]; by destruct Hx as [[=]|[[=]|[[=]|[]]]].
  - exists ([(KSecret, key_of (Secret_Meta (oauth2SecretObject (StatefulSetObject s))))] ++ L ++ secret_keys (StatefulSetObject s)).
    split; [exact (touches_trans _ _ _ _ _ T1 (touches_trans _ _ _ _ _ T2 T34))|].
    intros k key [[Hx|[]]|[Hx|Hx]%in_app_iff]%in_app_iff; [left; by left|right; by eapply HL|left; by right].
Qed.

(** A successful reconcile of a StatefulSet leaves everything its pods
    need: the oauth2 secret and the other secrets, owned by the StatefulSet;
    and for every pod that the webhook has handled a service of its own that
    selects exactly that pod, and, when routes are asked for, a route of its
    own with the pod's hostname and that service behind it, owned by the
    pod.  The pods are those the StatefulSet controller creates. *)
Theorem reconcileStatefulSet_establishes (c : OIDCAppsControllerConfig) (s : StatefulSet) (w w' : W) :
  beingDeleted (StatefulSet_Meta s) = false -> calm w (Namespace (StatefulSet_Meta s)) ->
  (forall selector p, StatefulSet_Selector s = Some selector -> child w s selector p -> ordinal_child s p) ->
  reconcileStatefulSetDependencies (Some c) s w = (Ret tt, w') ->
  exists (rc : ResolvedConfig) selector, Resolve (W := W) (Some c) (StatefulSetObject s) w = (Ret rc, w) /\
    StatefulSet_Selector s = Some selector /\
    maintained w' (StatefulSetObject s) KSecret (oauth2SecretObject (StatefulSetObject s))
      (fun x => has_entry "oauth2-proxy.cfg" (oauth2_cfg rc) x /\
         is_Some (map_get (Secret_Data x) constants.Oauth2CookieSecretKey)) /\
    other_secrets_ready w' rc (StatefulSetObject s) /\
    (forall p, child w s selector p -> annotated p -> pod_ready w' rc (StatefulSetObject s) p).
Proof.
  intros Hd Hcalm Hord Hr. destruct (reconcileStatefulSet_steps c s w w' Hd Hcalm Hord Hr) as (rc & sel & ? & ? & ? & ? & ? & _).
  by exists rc, sel.
Qed.

End StatefulSets.

(** ** The pods that make a workload wait for its objects *)

(** The owner reference leads to the workload: directly for a StatefulSet,
    through a stored ReplicaSet for a Deployment. *)
Definition leads_to {W} `{ClientReads W} (w : W) (object : Object) (ref : OwnerReference) : Prop :=
  (OwnerReference_Kind ref = "StatefulSet" /\ OwnerReference_UID ref = GetUID object) \/
  (OwnerReference_Kind ref = "ReplicaSet" /\ exists rs d,
     view w KReplicaSet (mkNN (GetNamespace object) (OwnerReference_Name ref)) = Some rs /\
     In d (OwnerReferences (ReplicaSet_Meta rs)) /\
     OwnerReference_Kind d = "Deployment" /\ OwnerReference_UID d = GetUID object).

(** A pod of the workload with an injected proxy, in the cache. *)
Definition sidecar_pod {W} `{ClientReads W} (w : W) (object : Object) (p : Pod) : Prop :=
  (exists key, view w KPod key = Some p) /\ in_cache cache_selector KPod (Pod_Meta p) = true /\
  Namespace (Pod_Meta p) = GetNamespace object /\ isOidcAppPod p = true /\ exists ref, In ref (OwnerReferences (Pod_Meta p)) /\ leads_to w object ref.

(** Reads that fail report a missing object. *)
Definition reads_reliable {W} `{ClientReads W} `{Vendor} (w : W) : Prop :=
  (forall k key e, fst (cl_Get k key w) = Err e -> IsNotFound e = true) /\
  (forall k opts e, fst (cl_List k opts w) <> Err e).

Section OidcPods.
Context {W : Type} `{ClientWrites W} `{!VendorLaws}.

Lemma or_not_found_get k key (w : W) :
  exists r, or_not_found (zero_obj k) (cl_Get k key) w = (r, w) /\ (forall p, r <> Panic p) /\
    (forall o, r = Ret o -> view w k key = Some o \/
       o = zero_obj k /\ forall x, view w k key = Some x -> in_cache cache_selector k (meta_of k x) = false) /\
    (reads_reliable w -> exists o, r = Ret o).
Proof.
  unfold or_not_found. destruct (get_cases k key w) as [(o & Hg & Hv)|(e & Hg & Hn)];
    rewrite (M_bind_case _ _ _ _ _ (try_case _ _ _ _ Hg)).
  - exists (Ret o). split; [done|]. split; [done|]. split; [intros ? [= <-]; by left|]. intros _. by exists o.
  - destruct (IgnoreNotFound e) as [e'|] eqn:Ei.
    + exists (Err e'). split; [done|]. split; [done|]. split; [done|]. intros [Hr _].
      pose proof (Hr k key e) as He. rewrite Hg in He. specialize (He eq_refl).
      rewrite IgnoreNotFound_spec, He in Ei. done.
    + apply IgnoreNotFound_None in Ei. exists (Ret (zero_obj k)). split; [done|]. split; [done|].
      split; [intros ? [= <-]; right; by auto|]. intros _. by eexists.
Qed.

Lemma deployment_owner_spec object (rs : ReplicaSet) :
  existsb (fun d => String.eqb (OwnerReference_Kind d) "Deployment" && String.eqb (OwnerReference_UID d) (GetUID object))
    (OwnerReferences (ReplicaSet_Meta rs)) = true <->
  exists d, In d (OwnerReferences (ReplicaSet_Meta rs)) /\ OwnerReference_Kind d = "Deployment" /\
    OwnerReference_UID d = GetUID object.
Proof. rewrite existsb_exists. by setoid_rewrite andb_true_iff; setoid_rewrite String.eqb_eq. Qed.

Lemma owner_refs_loop_spec object refs (w : W) :
  exists r, owner_refs_loop object refs w = (Ret r, w) /\
    (r = Some true -> exists ref, In ref refs /\ leads_to w object ref) /\
    (reads_reliable w -> r <> Some true -> r = None /\ forall ref, In ref refs -> ~ leads_to w object ref).
Proof.
  induction refs as [|ref refs (r & Er & Hs & Hc)].
  { exists None. split; [done|]. split; [done|]. intros _ _. split; [done|]. by intros ref []. }
  assert (Hskip : ~ leads_to w object ref -> exists r, owner_refs_loop object refs w = (Ret r, w) /\
    (r = Some true -> exists x, In x (ref :: refs) /\ leads_to w object x) /\
    (reads_reliable w -> r <> Some true -> r = None /\ forall x, In x (ref :: refs) -> ~ leads_to w object x)).
  { intros Hn. exists r. split; [done|]. split.
    - intros E. destruct (Hs E) as (x & Hx & Hl). exists x. by split; [right|].
    - intros R E. destruct (Hc R E) as [-> Hall]. split; [done|]. intros x [<-|Hx]; [done|by apply Hall]. }
  assert (Hhit : leads_to w object ref -> exists r, (Ret (Some true), w) = (Ret r, w) /\
    (r = Some true -> exists x, In x (ref :: refs) /\ leads_to w object x) /\
    (reads_reliable w -> r <> Some true -> r = None /\ forall x, In x (ref :: refs) -> ~ leads_to w object x)).
  { intros Hl. exists (Some true). split; [done|]. split; [|done]. intros _. exists ref. by split; [left|]. }
  cbn [owner_refs_loop]. destruct (String.eqb_spec (OwnerReference_Kind ref) "StatefulSet") as [Hk|Hk].
  { destruct (String.eqb_spec (OwnerReference_UID ref) (GetUID object)) as [Hu|Hu].
    - apply Hhit. by left.
    - apply Hskip. unfold leads_to. rewrite Hk. by intros [[_ ?]|[? _]]. }
  destruct (String.eqb_spec (OwnerReference_Kind ref) "ReplicaSet") as [Hk2|Hk2].
  2: { apply Hskip. by intros [[? _]|[? _]]. }
  destruct (or_not_found_get KReplicaSet (mkNN (GetNamespace object) (OwnerReference_Name ref)) w)
    as (g & Eg & Hp & Hv & Hr).
  rewrite (M_bind_case _ _ _ _ _ (try_case _ _ _ _ Eg)). destruct g as [rs|e|p]; [| |by destruct (Hp p)].
  2: { exists (Some false). split; [done|]. split; [done|]. intros R. by destruct (Hr R). }
  destruct (existsb _ (OwnerReferences (ReplicaSet_Meta rs))) eqn:Ex.
  - apply Hhit. right. split; [done|]. apply deployment_owner_spec in Ex as (d & Hd & Hdk & Hdu).
    destruct (Hv rs eq_refl) as [Hrs|[-> _]]; [|by destruct Hd]. by exists rs, d.
  - apply Hskip. intros [[E _]|(_ & rs' & d & Hrs & Hd)]; [congruence|].
    destruct (Hv rs eq_refl) as [Hrs2|[_ Hn]]; [|discriminate (Hn _ Hrs)]. rewrite Hrs in Hrs2. injection Hrs2 as ->.
    apply not_true_iff_false in Ex. apply Ex, deployment_owner_spec. by exists d.
Qed.

Lemma pods_loop_spec object pods (w : W) :
  exists b, pods_loop object pods w = (Ret b, w) /\
    let hit p := isOidcAppPod p = true /\ exists ref, In ref (OwnerReferences (Pod_Meta p)) /\ leads_to w object ref in
    (b = true -> exists p, In p pods /\ hit p) /\
    (reads_reliable w -> b = false -> forall p, In p pods -> ~ hit p).
Proof.
  cbv zeta. induction pods as [|p pods (b & Eb & Hs & Hc)]; cbn [pods_loop].
  { exists false. split; [done|]. split; [done|]. by intros _ _ p []. }
  destruct (isOidcAppPod p) eqn:Ep; cbn [negb].
  2: { exists b. split; [done|]. split.
       - intros E. destruct (Hs E) as (q & Hq & Hh). exists q. by split; [right|].
       - intros R E q [<-|Hq]; [intros [? _]; congruence|by apply (Hc R E)]. }
  destruct (owner_refs_loop_spec object (OwnerReferences (Pod_Meta p)) w) as (r & Er & Hrs & Hrc).
  rewrite (M_bind_ret _ _ _ _ _ Er). destruct r as [[]|].
  - exists true. split; [done|]. split; [|done]. intros _. exists p. split; [by left|]. split; [done|by apply Hrs].
  - exists false. split; [done|]. split; [done|]. intros R. by destruct (Hrc R) as [? _].
  - exists b. split; [done|]. split.
    + intros E. destruct (Hs E) as (q & Hq & Hh). exists q. by split; [right|].
    + intros R E q [<-|Hq]; [|by apply (Hc R E)]. intros [_ (ref & Href & Hl)].
      destruct (Hrc R) as [_ Hall]; [done|]. by apply (Hall ref).
Qed.

Lemma hasOidcAppsPods_steps object (w : W) :
  exists b, hasOidcAppsPods object w = (Ret b, w) /\
    (b = true -> exists p, sidecar_pod w object p) /\
    (reads_reliable w -> b = false -> ~ exists p, sidecar_pod w object p).
Proof.
  unfold hasOidcAppsPods. set (opts := mkListOptions (Some (GetNamespace object)) None).
  destruct (list_cases KPod opts w) as [(l & El & Hl)|(e & El)];
    rewrite (M_bind_case _ _ _ _ _ (try_case _ _ _ _ El)).
  - destruct (pods_loop_spec object l w) as (b & Eb & Hs & Hc). exists b. split; [done|]. split.
    + intros E. destruct (Hs E) as (p & Hp & Hi & Href). apply Hl in Hp as (Hv & Hsel & Hc2).
      exists p. do 2 (split; [done|]). split; [|done]. by apply (list_selects_all opts _ _ eq_refl) in Hsel.
    + intros R E (p & Hv & Hc2 & Hns & Hi & Href). apply (Hc R E p); [|done]. apply Hl. split; [done|].
      split; [by apply (list_selects_all opts _ _ eq_refl)|done].
  - exists false. split; [done|]. split; [done|]. intros [_ R]. pose proof (R KPod opts e) as He. by rewrite El in He.
Qed.

(** [hasOidcAppsPods] is the question it is named after.  It never fails
    and changes nothing; when it answers yes there is a pod in the
    workload's namespace with an injected proxy whose owners lead to the
    workload, and when it answers no, and no read failed, there is none. *)
Theorem hasOidcAppsPods_spec (object : Object) (w : W) :
  exists b, hasOidcAppsPods object w = (Ret b, w) /\
    (b = true -> exists p, sidecar_pod w object p) /\
    (reads_reliable w -> b = false -> ~ exists p, sidecar_pod w object p).
Proof. apply hasOidcAppsPods_steps. Qed.

End OidcPods.

(** ** When a reconcile creates anything *)

(** The workload is selected, alive and has pods with injected proxies. *)
Definition needs_objects {W} `{ClientReads W} `{Vendor} (w : W) (c : OIDCAppsControllerConfig) (o : Object) : Prop :=
  (exists t, In t (Targets c) /\ selects w c o t) /\ beingDeleted (obj_meta o) = false /\
  exists p, sidecar_pod w o p.

(** What a reconcile may remove: the owned objects of a workload that no
    target selects, and the propagated registry secret. *)
Definition removable {W} `{ClientReads W} `{Vendor} (w : W) (c : OIDCAppsControllerConfig) (d : WorkloadReconciler)
    (object : Object) (k : Kind) (o : kobj k) : Prop :=
  (prunable object k o /\ ~ exists t, In t (Targets c) /\ selects w c object t) \/
  (k = KSecret /\ key_of (meta_of k o) = mkNN (GetNamespace object) (RegistrySecretName d) /\
   RegistrySecretName d <> EmptyString /\ GetNamespace object <> ControllerNamespace d).

Section Scope.
Context {W : Type} `{ClientWrites W} `{!VendorLaws} `{OSEnv} `{Yaml3}.

(** The removal of the registry secret, as part of a reconcile. *)
Lemma cleanup_removable c d object (w0 w : W) :
  evolves (removable w0 c d object) w0 w ->
  exists r w', cleanupRegistrySecretIfLastTarget (Some c) (RegistrySecretName d) (ControllerNamespace d) object w = (r, w') /\
    (forall p, r <> Panic p) /\ evolves (removable w0 c d object) w0 w'.
Proof.
  intros E0. destruct (cleanup_steps c (RegistrySecretName d) (ControllerNamespace d) object w)
    as (r & w' & Hr & Hp & Hev & Hskip & _).
  exists r, w'. split; [done|]. split; [done|].
  destruct (decide (RegistrySecretName d = EmptyString)) as [Hn|Hn]; [by rewrite Hskip by tauto|].
  destruct (decide (GetNamespace object = ControllerNamespace d)) as [Hc|Hc]; [by rewrite Hskip by tauto|].
  eapply evolves_trans; [exact E0|exact Hev|]. cbn. intros k key x x0 Hx [-> Hkey] Hx0. right.
  split; [done|]. split; [|done]. rewrite (view_key _ _ _ _ Hx0). by rewrite <- (view_key _ _ _ _ Hx).
Qed.

Lemma reconcile_workload_scope c d object dependencies (w : W) :
  Reconciler_Config d = Some c ->
  exists r w', reconcile_workload d object dependencies w = (r, w') /\
    (needs_objects w c object \/ (forall p, r <> Panic p) /\ evolves (removable w c d object) w w').
Proof.
  intros Hcfg. unfold reconcile_workload. rewrite Hcfg.
  destruct (_ && _); [exists (Ret tt), w; split; [done|right]; split; [done|apply evolves_refl]|].
  rewrite (M_bind_ret _ _ _ _ _ (Match_existsb w c object)).
  destruct (existsb (selectsb w c object) (Targets c)) eqn:Em; cbn [negb].
  - apply selectsb_exists in Em. destruct (beingDeleted (obj_meta object)) eqn:Ed.
    + destruct (cleanup_removable c d object w w (evolves_refl _ w)) as (r & w' & Hr & Hp & Hev).
      exists r, w'. split; [exact Hr|]. by right.
    + destruct (hasOidcAppsPods_steps object w) as (b & Hb & Hpods & _).
      rewrite (M_bind_ret _ _ _ _ _ Hb). destruct b; cbn [negb].
      * rewrite (surjective_pairing (_ w)). do 2 eexists. split; [done|left]. split; [done|]. split; [done|by apply Hpods].
      * exists (Ret tt), w. split; [done|right]. split; [done|apply evolves_refl].
  - assert (Hno : ~ exists t, In t (Targets c) /\ selects w c object t) by (rewrite <- selectsb_exists, Em; done).
    destruct (deleteOwnedResources_steps object w) as (r1 & w1 & Hr1 & Hp1 & Hev1 & _).
    assert (E1 : evolves (removable w c d object) w w1).
    { intros k key. destruct (Hev1 k key) as [|(o & Ho & Hpr & Hdel)]; [by left|right]. exists o. split; [done|].
      split; [by left|done]. }
    rewrite (M_bind_case _ _ _ _ _ Hr1). destruct r1 as [[]|e|p]; [| |by destruct (Hp1 p)].
    + destruct (cleanup_removable c d object w w1 E1) as (r & w' & Hr & Hp & Hev).
      exists r, w'. split; [exact Hr|]. by right.
    + exists (Err e), w1. split; [done|]. by right.
Qed.

Lemma reconcile_request_scope k request (wrapo : kobj k -> Object) c d deps (w : W) :
  Reconciler_Config d = Some c -> GetName (wrapo (zero_obj k)) = EmptyString ->
  GetNamespace (wrapo (zero_obj k)) = EmptyString ->
  exists r w', (x ← or_not_found (zero_obj k) (cl_Get k request); reconcile_workload d (wrapo x) (deps x)) w = (r, w') /\
    ((exists x, view w k request = Some x /\ needs_objects w c (wrapo x)) \/
     (forall p, r <> Panic p) /\
     evolves (fun k' o => exists x, view w k request = Some x /\ removable w c d (wrapo x) k' o) w w').
Proof.
  intros Hcfg Hn Hns. destruct (or_not_found_get k request w) as (g & Eg & Hp & Hv & _).
  rewrite (M_bind_case _ _ _ _ _ Eg). destruct g as [x|e|p]; [| |by destruct (Hp p)].
  2: { exists (Err e), w. split; [done|right]. split; [done|apply evolves_refl]. }
  destruct (Hv x eq_refl) as [Hx|[-> _]].
  - destruct (reconcile_workload_scope c d (wrapo x) (deps x) w Hcfg) as (r & w' & Hr & [Hneed|[Hnp Hev]]);
      exists r, w'; (split; [exact Hr|]); [left; by exists x|right]. split; [done|].
    intros k' key. destruct (Hev k' key) as [|(o & Ho & Hq & Hdel)]; [by left|right].
    exists o. split; [done|]. split; [by exists x|done].
  - exists (Ret tt), w. unfold reconcile_workload. rewrite Hn, Hns. split; [done|right]. split; [done|apply evolves_refl].
Qed.

(** C8. A reconcile creates or updates objects only for a stored Deployment
    (StatefulSet) that some target selects, that is not being deleted and
    that has a pod with an injected proxy.  In every other case, a missing
    workload and failing reads included, it does not panic, and all it does
    is remove: the owned objects when no target selects the workload, and
    the propagated registry secret outside the controller's namespace. *)
Theorem Reconcile_scope (c : OIDCAppsControllerConfig) (d : WorkloadReconciler) (request : NamespacedName) (w : W) :
  Reconciler_Config d = Some c ->
  (exists r w', DeploymentReconciler_Reconcile d request w = (r, w') /\
    ((exists x, view w KDeployment request = Some x /\ needs_objects w c (DeploymentObject x)) \/
     (forall p, r <> Panic p) /\
     evolves (fun k o => exists x, view w KDeployment request = Some x /\ removable w c d (DeploymentObject x) k o) w w')) /\
  (exists r w', StatefulSetReconciler_Reconcile d request w = (r, w') /\
    ((exists x, view w KStatefulSet request = Some x /\ needs_objects w c (StatefulSetObject x)) \/
     (forall p, r <> Panic p) /\
     evolves (fun k o => exists x, view w KStatefulSet request = Some x /\ removable w c d (StatefulSetObject x) k o) w w')).
Proof.
  intros Hcfg. split.
  - by apply (reconcile_request_scope KDeployment request DeploymentObject).
  - by apply (reconcile_request_scope KStatefulSet request StatefulSetObject).
Qed.

(** The path of [reconcile_workload] that establishes the objects. *)
Lemma reconcile_workload_establishes c d object dependencies (w : W) :
  Reconciler_Config d = Some c -> reads_reliable w -> needs_objects w c object -> GetName object <> EmptyString ->
  reconcile_workload d object dependencies w =
  (ensureRegistrySecret (RegistrySecretName d) (ControllerNamespace d) (GetNamespace object);; dependencies) w.
Proof.
  intros Hcfg Hrel (Hm%selectsb_exists & Hd & Hp) Hn. unfold reconcile_workload. rewrite Hcfg.
  destruct (String.eqb_spec (GetName object) EmptyString); [done|]. cbn [andb].
  rewrite (M_bind_ret _ _ _ _ _ (Match_existsb w c object)), Hm, Hd. cbn [negb].
  destruct (hasOidcAppsPods_steps object w) as (b & Hb & _ & Hno). rewrite (M_bind_ret _ _ _ _ _ Hb).
  destruct b; [done|]. by destruct (Hno Hrel eq_refl).
Qed.

Lemma deployment_reconciled (c : OIDCAppsControllerConfig) (d : WorkloadReconciler)
    (request : NamespacedName) (x : Deployment) (w w' : W) :
  let object := DeploymentObject x in
  let registry := mkNN (GetNamespace object) (RegistrySecretName d) in
  Reconciler_Config d = Some c -> reads_reliable w ->
  view w KDeployment request = Some x -> GetName object <> EmptyString -> needs_objects w c object ->
  none_deleted w (deployment_keys object) -> ~ In (KSecret, registry) (deployment_keys object) ->
  DeploymentReconciler_Reconcile d request w = (Ret tt, w') ->
  exists (rc : ResolvedConfig) w1, touches [(KSecret, registry)] w w1 /\ Resolve (W := W) (Some c) object w1 = (Ret rc, w1) /\
    deployment_ready w' rc object /\
    (RegistrySecretName d <> EmptyString -> GetNamespace object <> ControllerNamespace d ->
     exists s, view w' KSecret registry = Some s).
Proof.
  cbv zeta. intros Hcfg Hrel Hx Hn Hneed Hnd Hreg Hr. unfold DeploymentReconciler_Reconcile in Hr.
  destruct (or_not_found_get KDeployment request w) as (g & Eg & _ & Hv & Hret).
  destruct (Hret Hrel) as [x' ->]. rewrite (M_bind_ret _ _ _ _ _ Eg) in Hr.
  destruct (Hv x' eq_refl) as [Hx'|[_ Ho]]; [|discriminate (Ho _ Hx)]. rewrite Hx in Hx'. injection Hx' as <-.
  rewrite (reconcile_workload_establishes c d _ _ w Hcfg Hrel Hneed Hn) in Hr.
  destruct (ensureRegistrySecret_steps (RegistrySecretName d) (ControllerNamespace d) (GetNamespace (DeploymentObject x)) w)
    as (r & w1 & Er & _ & Hfr & _ & Hs & _).
  rewrite (M_bind_case _ _ _ _ _ Er) in Hr. destruct r as [[]|e|p]; try done. specialize (Hs eq_refl).
  rewrite Hcfg in Hr.
  assert (T : touches [(KSecret, mkNN (GetNamespace (DeploymentObject x)) (RegistrySecretName d))] w w1).
  { intros k key Hk. apply Hfr. destruct (decide (k = KSecret)) as [->|]; [right|by left].
    intros ->. apply Hk. by left. }
  destruct (reconcileDeployment_ready c x w1 w') as (rc & Hres & Hready & Ht).
  - by destruct Hneed as (_ & ? & _).
  - eapply none_deleted_touches; [exact Hnd|exact T|]. by intros y Hy [<-|[]].
  - exact Hr.
  - exists rc, w1. split; [exact T|]. split; [exact Hres|]. split; [exact Hready|]. intros Hne Hns. destruct (Hs Hne Hns) as [s0 Hs0]. exists s0.
    by rewrite Ht.
Qed.

(** The reconcile of a Deployment that needs its objects ends with all of
    them in place: when it succeeds, and reads did not fail, the Deployment
    is ready and, where a registry secret is configured, its namespace has
    one. *)
Theorem Deployment_Reconcile_complete (c : OIDCAppsControllerConfig) (d : WorkloadReconciler)
    (request : NamespacedName) (x : Deployment) (w w' : W) :
  let object := DeploymentObject x in
  let registry := mkNN (GetNamespace object) (RegistrySecretName d) in
  Reconciler_Config d = Some c -> reads_reliable w ->
  view w KDeployment request = Some x -> GetName object <> EmptyString -> needs_objects w c object ->
  none_deleted w (deployment_keys object) -> ~ In (KSecret, registry) (deployment_keys object) ->
  DeploymentReconciler_Reconcile d request w = (Ret tt, w') ->
  exists rc : ResolvedConfig, deployment_ready w' rc object /\
    (RegistrySecretName d <> EmptyString -> GetNamespace object <> ControllerNamespace d ->
     exists s, view w' KSecret registry = Some s).
Proof.
  cbv zeta. intros Hcfg Hrel Hx Hn Hneed Hnd Hreg Hr.
  destruct (deployment_reconciled c d request x w w' Hcfg Hrel Hx Hn Hneed Hnd Hreg Hr) as (rc & _ & _ & _ & Hready & Hs).
  exists rc. by split.
Qed.

End Scope.

(** ** Witnesses on the reference instance *)

#[local] Existing Instances Ref.vendor Ref.vendor_laws Ref.client Ref.client_reads Ref.client_writes Ref.env.
#[local] Existing Instance ControllerExamples.yaml3.

Module WorkloadExamples.

(** A Deployment with its ReplicaSet and a pod with a proxy. *)
Definition replicaset : ReplicaSet :=
  mkReplicaSet (mkObjectMeta "grafana-1" "mon" "uid-rs" None None [mkOwnerReference "Deployment" "grafana" "uid-1"] [] None).

Definition proxy : Container :=
  mkContainer constants.ContainerNameOauth2Proxy "proxy:1" EmptyString [] [] None (mkResources None) [].

Definition grafana_pod : Pod :=
  mkPod (mkObjectMeta "grafana-1-x" "mon" "uid-gp" None None [mkOwnerReference "ReplicaSet" "grafana-1" "uid-rs"] [] None)
    (mkPodSpec [] [PodExamples.app; proxy] []).

Definition cluster : Ref.cluster :=
  Ref.put KReplicaSet replicaset (Ref.put KPod grafana_pod RegistryExamples.before).

Definition reconciler : WorkloadReconciler :=
  mkWorkloadReconciler (Some ControllerExamples.config) "regcred" "oidc-system".

Definition request : NamespacedName := mkNN "mon" "grafana".

(** A StatefulSet with two pods. *)
Definition labels : LabelSelector := mkLabelSelector (Ref.labels1 "app" "prometheus") [].

Definition prometheus : StatefulSet :=
  mkStatefulSet (Ref.meta1 "prometheus" "mon" "uid-s" (Ref.labels1 "app" "prometheus")) (Some labels).

Definition pod (name : string) : Pod :=
  mkPod (mkObjectMeta name "mon" ("uid-" +:+ name)
           (Some (<[ podNameLabel := name ]> {[ "app" := "prometheus" ]}))
           (Some {[ constants.AnnotationHostKey := "prometheus-mon.example.org" ]}) [] [] None)
    (mkPodSpec [] [PodExamples.app] []).

Definition sts_config : OIDCAppsControllerConfig :=
  mkConfig Examples.global1
    [mkTarget "prometheus" None (Some labels) (FromInt 9090) "http"
       (Some (mkHTTPRouteConf true EmptyString EmptyString None None [] EmptyString)) emptyGlobal] true.

Definition sts_cluster : Ref.cluster :=
  Ref.put KStatefulSet prometheus (Ref.put KPod (pod "prometheus-0") (Ref.put KPod (pod "prometheus-1") Ref.empty_cluster)).

Definition sts_reconciled : outcome unit * Ref.cluster :=
  reconcileStatefulSetDependencies (Some sts_config) prometheus sts_cluster.

End WorkloadExamples.

Lemma reads_reliable_reference w : reads_reliable (W := Ref.cluster) w.
Proof.
  split; [|done]. intros k key e. cbn. unfold Ref.get. destruct (Ref.lookup w k key); [done|]. intros [= <-]. reflexivity.
Qed.

Lemma hasOidcAppsPods_spec_witness :
  hasOidcAppsPods (DeploymentObject Examples.grafana) WorkloadExamples.cluster = (Ret true, WorkloadExamples.cluster) /\
  exists p, sidecar_pod WorkloadExamples.cluster (DeploymentObject Examples.grafana) p.
Proof.
  destruct (hasOidcAppsPods_spec (DeploymentObject Examples.grafana) WorkloadExamples.cluster) as (b & Hb & Hyes & _).
  assert (b = true) as -> by (apply (f_equal fst) in Hb; vm_compute in Hb; congruence).
  split; [exact Hb|exact (Hyes eq_refl)].
Defined.

Lemma Reconcile_scope_witness :
  exists w', DeploymentReconciler_Reconcile WorkloadExamples.reconciler (mkNN "mon" "absent") WorkloadExamples.cluster =
    (Ret tt, w') /\ view w' KSecret (mkNN "mon" "regcred") = None.
Proof.
  destruct (proj1 (Reconcile_scope ControllerExamples.config WorkloadExamples.reconciler (mkNN "mon" "absent")
                     WorkloadExamples.cluster eq_refl)) as (r & w' & Hr & [(x & Hx & _)|[_ Hev]]).
  - vm_compute in Hx. discriminate Hx.
  - assert (r = Ret tt) as -> by (apply (f_equal fst) in Hr; vm_compute in Hr; congruence).
    exists w'. split; [exact Hr|]. destruct (Hev KSecret (mkNN "mon" "regcred")) as [->|(o & Ho & _)];
      [vm_compute; reflexivity|]. vm_compute in Ho. discriminate Ho.
Defined.

Lemma grafana_needs_objects :
  needs_objects WorkloadExamples.cluster ControllerExamples.config (DeploymentObject Examples.grafana).
Proof.
  split; [|split; [reflexivity|]].
  - apply selectsb_exists. vm_compute. reflexivity.
  - destruct (hasOidcAppsPods_steps (DeploymentObject Examples.grafana) WorkloadExamples.cluster) as (b & Hb & Hyes & _).
    apply Hyes. apply (f_equal fst) in Hb. vm_compute in Hb. congruence.
Qed.

Lemma grafana_keys_fresh : none_deleted WorkloadExamples.cluster (deployment_keys (DeploymentObject Examples.grafana)).
Proof.
  intros k key o Hin. cbn [In app secret_keys deployment_keys] in Hin.
  repeat match type of Hin with _ \/ _ => destruct Hin as [[= <- <-]|Hin] end; try done;
    vm_compute; intros E; discriminate E.
Qed.

Lemma Deployment_Reconcile_complete_witness :
  exists s, view (snd (DeploymentReconciler_Reconcile WorkloadExamples.reconciler WorkloadExamples.request
                         WorkloadExamples.cluster)) KSecret (mkNN "mon" "regcred") = Some s.
Proof.
  destruct (Deployment_Reconcile_complete ControllerExamples.config WorkloadExamples.reconciler
              WorkloadExamples.request Examples.grafana WorkloadExamples.cluster
              (snd (DeploymentReconciler_Reconcile WorkloadExamples.reconciler WorkloadExamples.request
                      WorkloadExamples.cluster))) as (rc & _ & Hreg).
  - reflexivity.
  - apply reads_reliable_reference.
  - vm_compute. reflexivity.
  - vm_compute. congruence.
  - exact grafana_needs_objects.
  - exact grafana_keys_fresh.
  - cbn [In app secret_keys deployment_keys]. intros Hin.
    repeat match type of Hin with _ \/ _ => destruct Hin as [Hin|Hin] end; try discriminate Hin. destruct Hin.
  - rewrite (surjective_pairing (DeploymentReconciler_Reconcile _ _ _)) at 1. apply (f_equal2 pair); [|done].
    vm_compute. reflexivity.
  - apply Hreg; vm_compute; congruence.
Defined.

Lemma sts_reconciled_ok : WorkloadExamples.sts_reconciled = (Ret tt, snd WorkloadExamples.sts_reconciled).
Proof.
  rewrite (surjective_pairing WorkloadExamples.sts_reconciled) at 1. apply (f_equal2 pair); [|done].
  vm_compute. reflexivity.
Qed.

Lemma sts_pods key p :
  view WorkloadExamples.sts_cluster KPod key = Some p ->
  p = WorkloadExamples.pod "prometheus-0" \/ p = WorkloadExamples.pod "prometheus-1".
Proof.
  cbn. unfold Ref.find, WorkloadExamples.sts_cluster, Ref.put. cbn [Ref.store Ref.set_store Ref.pods Ref.statefulsets Ref.empty_cluster meta_of].
  destruct (_ !! key) as [x|] eqn:E; [|done]. case_decide; [|done]. intros [= <-]. cbn [stored].
  apply lookup_insert_Some in E as [[_ <-]|[_ E]]; [by left|].
  apply lookup_insert_Some in E as [[_ <-]|[_ E]]; [by right|]. by rewrite lookup_empty in E.
Qed.

Lemma reconcileStatefulSet_establishes_witness :
  exists svc, view (snd WorkloadExamples.sts_reconciled) KService
      (key_of (Service_Meta (pod_service (WorkloadExamples.pod "prometheus-1")))) = Some svc /\
    Service_Selector svc = Some {[ podNameLabel := "prometheus-1" ]}.
Proof.
  destruct (reconcileStatefulSet_establishes WorkloadExamples.sts_config WorkloadExamples.prometheus
              WorkloadExamples.sts_cluster (snd WorkloadExamples.sts_reconciled))
    as (rc & selector & _ & [= <-] & _ & _ & Hpods).
  - reflexivity.
  - intros k key o Hk _. destruct Hk as [<-|[<-|[<-|[]]]]; done.
  - intros selector p _ [[key Hp] _]. apply sts_pods in Hp as [->| ->].
    + exists 0%Z. split; [split; [lia|reflexivity]|reflexivity].
    + exists 1%Z. split; [split; [lia|reflexivity]|reflexivity].
  - exact sts_reconciled_ok.
  - destruct (Hpods (WorkloadExamples.pod "prometheus-1")) as [(svc & Hsvc & _ & _ & Hsel) _].
    + split; [exists (mkNN "mon" "prometheus-1"); vm_compute; reflexivity|].
      split; [apply Ref.selected_spec; vm_compute; reflexivity|reflexivity].
    + vm_compute. by eexists.
    + exists svc. split; [exact Hsvc|]. apply Hsel. vm_compute. reflexivity.
Defined.
