(* ===== verification/System.v ===== *)
(** * The webhook and the reconcilers together

    The two sides of the controller never talk to each other.  What a pod is
    given by the webhook is what the reconcile of its Deployment leaves in the
    cluster: every secret its proxies mount and every pull secret it was given
    exists in its namespace. *)

From S2P Require Import Prelude GoStrings RandUtils Kube Constants Vendor Reference Configuration ConfigurationSpec Templates.
From S2P Require Import WebhookModifiers WebhookSpec PodWebhook PodWebhookSpec ControllerObjects ControllerObjectsSpec.
From S2P Require Import Controllers ControllersSpec RegistrySpec WorkloadSpec.

(** ** Nothing else is mounted *)

Lemma projects_self secret s : projects s (secret_source secret) = true -> s = secret.
Proof. unfold projects. cbn. by intros ->%String.eqb_eq. Qed.

Lemma add_volume_only vol secret spec spec' v s :
  addProjectedSecretSourceVolume vol secret spec = Ret spec' -> mounts spec' v s = true ->
  mounts spec v s = true \/ (v = vol /\ s = secret).
Proof.
  unfold addProjectedSecretSourceVolume.
  destruct (find_volume vol (Volumes spec)) as [[i [n [[|s0 sources]|]]]|] eqn:Hf; cbn [Volume_Projected Volume_Name].
  - pose proof (proj2 (find_volume_Some _ _ _ _ Hf)) as Hn. cbn in Hn. subst n.
    intros [= <-]. unfold mounts. cbn [Volumes set_volumes]. rewrite (find_volume_insert _ _ _ _ _ v Hf) by done.
    destruct (String.eqb_spec vol v) as [<-|]; [|by left]. cbn. rewrite orb_false_r. intros ->%projects_self. by right.
  - pose proof (proj2 (find_volume_Some _ _ _ _ Hf)) as Hn. cbn in Hn. subst n.
    destruct (scan_sources secret (s0 :: sources)) as [[]|e|p]; cbn [mbind outcome_bind]; [intros [= <-]; by left| |done|done].
    intros [= <-]. unfold mounts. cbn [Volumes set_volumes]. rewrite (find_volume_insert _ _ _ _ _ v Hf) by done.
    destruct (String.eqb_spec vol v) as [<-|]; [|by left]. cbn [Volume_Projected]. rewrite Hf. cbn [Volume_Projected].
    change (s0 :: sources ++ [secret_source secret]) with ((s0 :: sources) ++ [secret_source secret]).
    rewrite existsb_app. intros [Hold|Hnew]%orb_true_iff; [by left|]. cbn [existsb] in Hnew. rewrite orb_false_r in Hnew.
    apply projects_self in Hnew as ->. by right.
  - intros [= <-]. by left.
  - intros [= <-]. unfold mounts. cbn [Volumes set_volumes]. rewrite find_volume_app.
    destruct (find_volume v (Volumes spec)) as [[j x]|] eqn:Hv; [by left|]. cbn.
    destruct (String.eqb_spec vol v) as [<-|]; [|done]. cbn. rewrite orb_false_r. intros ->%projects_self. by right.
Qed.

Lemma add_volume_if_only b vol secret spec spec' v s :
  add_volume_if b vol secret spec = Ret spec' -> mounts spec' v s = true ->
  mounts spec v s = true \/ (b = true /\ v = vol /\ s = secret).
Proof.
  destruct b; cbn.
  - intros Ha Hm. destruct (add_volume_only _ _ _ _ _ _ Ha Hm); tauto.
  - intros [= <-]. by left.
Qed.

(** The webhook mounts the required secrets and nothing else. *)
Lemma add_proxy_volumes_only suffix rc spec spec' v s :
  add_proxy_volumes suffix rc spec = Ret spec' -> mounts spec' v s = true ->
  mounts spec v s = true \/ In (v, s) (required_secrets suffix rc).
Proof.
  intros E Hm. unfold add_proxy_volumes in E.
  apply outcome_bind_inv in E as (s1 & E1 & E). apply outcome_bind_inv in E as (s2 & E2 & E).
  apply outcome_bind_inv in E as (s3 & E3 & E). apply outcome_bind_inv in E as (s4 & E4 & E).
  apply outcome_bind_inv in E as (s5 & E5 & E6). unfold required_secrets. cbn [In]. rewrite !in_app_iff. cbn [In]. rewrite !in_app_iff.
  destruct (add_volume_if_only _ _ _ _ _ _ _ E6 Hm) as [Hm5|(-> & -> & ->)]; [|cbn; tauto].
  destruct (add_volume_if_only _ _ _ _ _ _ _ E5 Hm5) as [Hm4|(-> & -> & ->)]; [|cbn; tauto].
  destruct (add_volume_only _ _ _ _ _ _ E4 Hm4) as [Hm3|(-> & ->)]; [|tauto].
  destruct (add_volume_if_only _ _ _ _ _ _ _ E3 Hm3) as [Hm2|(Hb & -> & ->)].
  - destruct (add_volume_if_only _ _ _ _ _ _ _ E2 Hm2) as [Hm1|(-> & -> & ->)]; [|cbn; tauto].
    destruct (add_volume_only _ _ _ _ _ _ E1 Hm1) as [|(-> & ->)]; tauto.
  - destruct (String.eqb _ _); [done|]. cbn. tauto.
Qed.

(** ** Pull secrets *)

Lemma mutate_pod_pull_secrets `{Vendor} `{OSEnv} pull rc owner pod pod' spec :
  add_proxy_volumes (owner_suffix owner) rc (Pod_Spec pod) = Ret spec -> mutate_pod pull rc owner pod = Ret pod' ->
  ImagePullSecrets (Pod_Spec pod') = admitted_pull_secrets pull (ImagePullSecrets spec).
Proof.
  intros Hv Hm. unfold mutate_pod, owner_suffix in *.
  destruct (fetchTargetSuffix (obj_meta owner)) as [suffix m']. cbn [fst] in Hv.
  rewrite Hv in Hm. cbn [mbind outcome_bind] in Hm. rewrite pull_secret_step in Hm.
  destruct (map_get (Labels (addPodLabels _ _)) podNameLabel) as [podIndex|]; [|by injection Hm as <-].
  destruct (fix_redirect _ _) as [cs| |]; cbn [mbind outcome_bind] in Hm; [by injection Hm as <-|done|done].
Qed.

Lemma admitted_pull_secrets_in pull l name :
  In name (admitted_pull_secrets pull l) -> In name l \/ (name = pull /\ pull <> EmptyString).
Proof.
  unfold admitted_pull_secrets. destruct (String.eqb_spec pull EmptyString) as [|Hp]; cbn [orb]; [by left|].
  destruct (existsb _ _); [by left|]. rewrite in_app_iff. intros [Hin|[<-|[]]]; [by left|by right].
Qed.

Section System.
Context {W : Type} `{ClientWrites W} `{!VendorLaws} `{OSEnv} `{Yaml3}.

(** ** The same target on both sides *)

Definition reliable : Prop := forall u : W, reads_reliable u.

Lemma namespace_read (u : W) key :
  reliable -> fst (cl_Get KNamespace key u) = match view u KNamespace key with Some o => Ret o | None => fst (cl_Get KNamespace key u) end /\
  (view u KNamespace key = None -> exists e, fst (cl_Get KNamespace key u) = Err e).
Proof.
  intros Hrel. destruct (get_cases KNamespace key u) as [(o & Hg & Hv)|(e & Hg & Hn)]; rewrite Hg; cbn [fst].
  - rewrite Hv. by split.
  - assert (Hnone : view u KNamespace key = None).
    { destruct (view u KNamespace key) as [o|] eqn:Hv; [|done]. pose proof (proj1 (Hrel u) KNamespace key e) as He.
      rewrite Hg in He. by specialize (Hn (He eq_refl) o eq_refl). }
    rewrite Hnone. split; [done|]. intros _. by exists e.
Qed.

(** Whether a target selects an object depends on the namespaces alone. *)
Lemma selectsb_namespaces (u v : W) c o t :
  reliable -> (forall key, view u KNamespace key = view v KNamespace key) -> selectsb u c o t = selectsb v c o t.
Proof.
  intros Hrel Hns. unfold selectsb, targetMatchesLabels.
  destruct (LabelSelectorAsSelector (Target_LabelSelector t)) as [|sel]; [done|].
  destruct (Nat.eqb _ 0); [done|]. destruct (client_set c); [|done]. cbn [negb].
  set (key := mkNN "" (GetNamespace o)).
  destruct (namespace_read u key Hrel) as [Hu Hu0], (namespace_read v key Hrel) as [Hv Hv0].
  pose proof (get_pure KNamespace key u) as Pu. pose proof (get_pure KNamespace key v) as Pv.
  unfold mbind, M_bind, try_. rewrite Hns in Hu, Hu0.
  destruct (cl_Get KNamespace key u) as [ru u'], (cl_Get KNamespace key v) as [rv v']. cbn [fst snd] in *. subst u' v'.
  destruct (view v KNamespace key) as [n|].
  - rewrite Hu, Hv. destruct (LabelSelectorAsSelector (NamespaceSelector t)); [done|]. by destruct (Nat.eqb _ 0).
  - destruct (Hu0 eq_refl) as [e1 ->], (Hv0 eq_refl) as [e2 ->]. done.
Qed.

Lemma Resolve_first (u : W) c o rc :
  Resolve (Some c) o u = (Ret rc, u) -> rc = mkResolvedConfig (default emptyTarget (find_first (selectsb u c o) (Targets c))) (Config_Global c) o.
Proof.
  cbn [Resolve]. rewrite (M_bind_ret _ _ _ _ _ (FetchTarget_head u c o)), find_first_filter. by intros [= <-].
Qed.

Lemma find_first_ext {A} (p q : A -> bool) l : (forall x, p x = q x) -> find_first p l = find_first q l.
Proof. intros Hpq. induction l as [|x l IH]; cbn; [done|]. by rewrite Hpq, IH. Qed.

(** The namespace of the workload of a pod is the pod's. *)
Lemma workload_namespace (u : W) pod object :
  PodWebhookSpec.workload u pod = Some object -> GetNamespace object = Namespace (Pod_Meta pod).
Proof.
  assert (Hf : forall k ns name x, found u k ns name = Some x -> Namespace (meta_of k x) = ns).
  { intros k ns name x. unfold found. destruct (fst (cl_Get k _ u)) as [d| |] eqn:Hg; try done. intros [= <-].
    apply get_sound, view_key in Hg. by injection Hg as <-. }
  unfold PodWebhookSpec.workload. destruct (find_first workload_kind _) as [o|]; [|done]. destruct (String.eqb _ _).
  { destruct (found u KStatefulSet _ _) as [x|] eqn:E; [|done]. intros [= <-]. exact (Hf _ _ _ _ E). }
  destruct (found u KReplicaSet _ _) as [[[n ns uid l a [|ref refs] f t]]|]; try done. destruct (String.eqb _ _); [|done].
  destruct (found u KDeployment _ _) as [x|] eqn:E; [|done]. intros [= <-]. exact (Hf _ _ _ _ E).
Qed.

(** ** The theorem *)

(** The secrets the configuration refers to by name; nobody creates them. *)
Definition referred (rc : ResolvedConfig) (name : string) : Prop :=
  name = GetClientSecretName rc \/ (needsKubeconfigSecret rc = false /\ name = GetKubeSecretName rc) \/
  (needsOidcCaBundleSecret rc = false /\ name = GetOidcCASecretName rc).

Definition stored_secret (u : W) (ns name : string) : Prop := exists s, view u KSecret (mkNN ns name) = Some s.

(** The secrets of a workload, all of them *)
Definition secrets_ready (u : W) (rc : ResolvedConfig) (object : Object) : Prop :=
  maintained u object KSecret (oauth2SecretObject object)
    (fun s => has_entry "oauth2-proxy.cfg" (oauth2_cfg rc) s /\
       is_Some (map_get (Secret_Data s) constants.Oauth2CookieSecretKey)) /\
  other_secrets_ready u rc object.

(** They are the ones the pods of the workload are required to mount. *)
Lemma ready_required (u : W) rc object vol name :
  map_get (GetAnnotations object) constants.AnnotationSuffixKey = None -> secrets_ready u rc object ->
  In (vol, name) (required_secrets (owner_suffix object) rc) ->
  stored_secret u (GetNamespace object) name \/ referred rc name.
Proof.
  intros Ha ((so & Ho & _) & (sr & Hra & _) & Hk & Hc) Hin. rewrite required_maintained in Hin by exact Ha.
  unfold stored_secret, referred.
  destruct (maintained_cases _ _ _ _ Hin) as [->|[->|[->|[->| ->]]]]; [by left; exists so|by left; exists sr|by right; left|..].
  - unfold kubeconfig_secret_name. destruct (needsKubeconfigSecret rc); [|tauto].
    left. destruct (Hk eq_refl) as (s & Hs & _). by exists s.
  - unfold ca_secret_name. destruct (needsOidcCaBundleSecret rc); [|tauto].
    left. destruct (Hc eq_refl) as (s & Hs & _). by exists s.
Qed.

(** What the webhook makes of a compatible pod of a selected Deployment. *)
Lemma admission_of (v : W) c registry pod object rc :
  PodWebhookSpec.workload v pod = Some object -> beingDeleted (Pod_Meta pod) = false ->
  Forall (fun vol => compatible vol (Pod_Spec pod)) proxyVolumes ->
  (exists t, In t (Targets c) /\ selectsb v c object t = true) ->
  rc = mkResolvedConfig (default emptyTarget (find_first (selectsb v c object) (Targets c))) (Config_Global c) object ->
  Resolve (Some c) object v = (Ret rc, v) /\
  exists pod', PodMutator_Default (mkPodMutator registry (Some c)) pod v = (Ret pod', v) /\
    Pod_Meta pod' = admitted_meta rc (Pod_Meta pod) /\
    (forall vol name, mounts (Pod_Spec pod') vol name = true ->
       mounts (Pod_Spec pod) vol name = true \/ In (vol, name) (required_secrets (owner_suffix object) rc)) /\
    (forall name, In name (ImagePullSecrets (Pod_Spec pod')) ->
       In name (ImagePullSecrets (Pod_Spec pod)) \/ (name = registry /\ registry <> EmptyString)).
Proof.
  intros Hw Hd Hc (t & Hin & Ht) ->. unfold PodMutator_Default. rewrite Hd, (M_bind_ret _ _ _ _ _ (isTarget_spec v _ pod)), Hw.
  cbn [PodMutator_Config ImagePullSecret].
  replace (existsb (selectsb v c object) (Targets c)) with true by (symmetry; apply existsb_exists; by exists t).
  destruct (Resolve_total v c object) as (t1 & Hr & _). rewrite (M_bind_ret _ _ _ _ _ Hr). pose proof Hr as Hr'. apply Resolve_first in Hr. rewrite Hr in Hr' |- *. split; [exact Hr'|].
  destruct (find_first (selectsb v c object) (Targets c)) as [t0|] eqn:Hf.
  2:{ pose proof (proj1 (find_first_None _ _) Hf t ltac:(by apply list_elem_of_In)). congruence. }
  cbn [default]. set (rc := mkResolvedConfig t0 (Config_Global c) object).
  destruct (add_proxy_volumes_spec (owner_suffix object) rc (Pod_Spec pod) Hc) as (spec & Hv & (_ & _ & _ & Hps) & _ & _).
  destruct (mutate_pod_volumes registry rc object pod spec Hv) as (pod' & Hp & Hvol & Hmeta).
  exists pod'. split; [change (lift (mutate_pod registry rc object pod) v = (Ret pod', v)); unfold lift; by rewrite Hp|]. split; [exact Hmeta|]. split.
  - intros vol name Hm. rewrite (mounts_volumes _ spec vol name Hvol) in Hm. by apply (add_proxy_volumes_only _ _ _ _ _ _ Hv).
  - intros name Hn. rewrite (mutate_pod_pull_secrets registry rc object pod pod' spec Hv Hp), Hps in Hn.
    by apply admitted_pull_secrets_in.
Qed.

(** The webhook and the reconcile pick the same target, and resolve the same
    configuration. *)
Lemma same_target c object rc registry (v w w1 : W) :
  reliable -> needs_objects w c object -> (forall key, view v KNamespace key = view w KNamespace key) ->
  touches [(KSecret, mkNN (GetNamespace object) registry)] w w1 -> Resolve (Some c) object w1 = (Ret rc, w1) ->
  (exists t, In t (Targets c) /\ selectsb v c object t = true) /\
  rc = mkResolvedConfig (default emptyTarget (find_first (selectsb v c object) (Targets c))) (Config_Global c) object.
Proof.
  intros Hrel Hneed Hns Ht Hres. apply Resolve_first in Hres. split.
  - destruct Hneed as ((t & Hin & Hs) & _). exists t. split; [exact Hin|]. apply selects_selectsb in Hs. rewrite <- Hs.
    apply selectsb_namespaces; [exact Hrel|exact Hns].
  - rewrite Hres. do 2 f_equal. apply find_first_ext. intros t. apply selectsb_namespaces; [exact Hrel|]. intros key. rewrite Hns.
    apply Ht. by intros [[=]|[]].
Qed.

(** The webhook leaves the host on the pod. *)
Lemma admitted_host rc m : map_get (Annotations (admitted_meta rc m)) constants.AnnotationHostKey = Some (GetHost rc).
Proof.
  rewrite admitted_meta_eq. unfold set_labels, set_annotations, admitted_annotations. cbn [Annotations].
  rewrite map_get_contents. cbn [map_contents default from_option id].
  repeat (rewrite lookup_insert_eq || rewrite lookup_insert_ne by done); done.
Qed.

(** C1. The two sides fit.  Take a Deployment that needs its objects and a
    successful reconcile of it, and a pod of it that the webhook admits at any
    time when the namespaces are as they were: the pod is admitted with the
    configuration that the reconcile resolved, and then every secret it mounts and every pull secret it names was its own before,
    or exists in its namespace after the reconcile, or is one that the
    configuration refers to by name; the service, the route and the contents
    of the secrets are as the same configuration says.  (Pull secrets are not
    copied into the controller's own namespace.) *)
Theorem admitted_pod_is_served c registry controller (x : Deployment) (pod : Pod) (v w w' : W) :
  let object := DeploymentObject x in
  let ns := Namespace (Deployment_Meta x) in
  reliable -> view w KDeployment (key_of (Deployment_Meta x)) = Some x -> Name (Deployment_Meta x) <> EmptyString ->
  needs_objects w c object -> none_deleted w (deployment_keys object) ->
  ~ In (KSecret, mkNN ns registry) (deployment_keys object) ->
  map_get (Annotations (Deployment_Meta x)) constants.AnnotationSuffixKey = None ->
  DeploymentReconciler_Reconcile (mkWorkloadReconciler (Some c) registry controller) (key_of (Deployment_Meta x)) w = (Ret tt, w') ->
  PodWebhookSpec.workload v pod = Some object -> beingDeleted (Pod_Meta pod) = false ->
  Forall (fun vol => compatible vol (Pod_Spec pod)) proxyVolumes ->
  (forall key, view v KNamespace key = view w KNamespace key) ->
  exists rc pod', Resolve (Some c) object v = (Ret rc, v) /\
    PodMutator_Default (mkPodMutator registry (Some c)) pod v = (Ret pod', v) /\
    deployment_ready w' rc object /\ Namespace (Pod_Meta pod') = ns /\
    (forall vol name, mounts (Pod_Spec pod') vol name = true ->
       mounts (Pod_Spec pod) vol name = true \/ stored_secret w' ns name \/ referred rc name) /\
    (forall name, In name (ImagePullSecrets (Pod_Spec pod')) ->
       In name (ImagePullSecrets (Pod_Spec pod)) \/ stored_secret w' ns name \/ ns = controller).
Proof.
  cbv zeta. intros Hrel Hx Hn Hneed Hnd Hreg Ha Hr Hw Hd Hc Hns.
  destruct (deployment_reconciled c (mkWorkloadReconciler (Some c) registry controller) _ x w w' eq_refl (Hrel w) Hx Hn Hneed Hnd Hreg Hr)
    as (rc & w1 & Ht & Hres & Hready & Hpull).
  destruct (same_target c (DeploymentObject x) rc registry v w w1 Hrel Hneed Hns Ht Hres) as [Hv Hrc].
  destruct (admission_of v c registry pod (DeploymentObject x) rc Hw Hd Hc Hv Hrc) as (Hrv & pod' & Hp & Hmeta & Hm & Hi).
  exists rc, pod'. split; [exact Hrv|]. split; [exact Hp|]. split; [exact Hready|].
  split; [rewrite Hmeta; symmetry; exact (workload_namespace v pod _ Hw)|]. split.
  - intros vol name Hmo. destruct (Hm vol name Hmo) as [|Hreq]; [by left|right].
    apply (ready_required w' rc (DeploymentObject x) vol); [exact Ha| |exact Hreq].
    destruct Hready as (Ho & _ & Hs & _). by split.
  - intros name Hin. destruct (Hi name Hin) as [|[-> Hne]]; [by left|right].
    destruct (decide (Namespace (Deployment_Meta x) = controller)) as [|Hnc]; [by right|left]. by apply Hpull.
Qed.

End System.

(** ** Witness on the reference instance *)

#[local] Existing Instances Ref.vendor Ref.vendor_laws Ref.client Ref.client_reads Ref.client_writes Ref.env.
#[local] Existing Instance ControllerExamples.yaml3.

Module SystemExamples.

(** A pod of the Deployment grafana before its admission *)
Definition pod : Pod :=
  mkPod (mkObjectMeta "grafana-1-y" "mon" "uid-gy" None None [mkOwnerReference "ReplicaSet" "grafana-1" "uid-rs"] [] None)
    (mkPodSpec [] [PodExamples.app] []).

Definition reconciled : outcome unit * Ref.cluster :=
  DeploymentReconciler_Reconcile WorkloadExamples.reconciler (key_of (Deployment_Meta Examples.grafana)) WorkloadExamples.cluster.

Lemma served_deployment_reconciled : reconciled = (Ret tt, snd reconciled).
Proof.
  rewrite (surjective_pairing reconciled) at 1. apply (f_equal2 pair); [|done]. vm_compute. reflexivity.
Qed.

End SystemExamples.

Lemma admitted_pod_is_served_witness :
  exists pod', PodMutator_Default (mkPodMutator "regcred" (Some ControllerExamples.config)) SystemExamples.pod WorkloadExamples.cluster =
    (Ret pod', WorkloadExamples.cluster) /\
  forall name, In name (ImagePullSecrets (Pod_Spec pod')) -> stored_secret (snd SystemExamples.reconciled) "mon" name.
Proof.
  destruct (admitted_pod_is_served ControllerExamples.config "regcred" "oidc-system" Examples.grafana SystemExamples.pod
              WorkloadExamples.cluster WorkloadExamples.cluster (snd SystemExamples.reconciled))
    as (rc & pod' & _ & Hp & _ & _ & _ & Hi).
  - exact reads_reliable_reference.
  - vm_compute. reflexivity.
  - vm_compute. congruence.
  - exact grafana_needs_objects.
  - exact grafana_keys_fresh.
  - cbn [In app secret_keys deployment_keys]. intros Hin.
    repeat match type of Hin with _ \/ _ => destruct Hin as [Hin|Hin] end; try discriminate Hin. destruct Hin.
  - vm_compute. reflexivity.
  - exact SystemExamples.served_deployment_reconciled.
  - vm_compute. reflexivity.
  - reflexivity.
  - by repeat constructor.
  - done.
  - exists pod'. split; [exact Hp|]. intros name Hin. destruct (Hi name Hin) as [Hf|[Hs|Hc]]; [destruct Hf|exact Hs|discriminate Hc].
Defined.
