(* ===== verification/SystemStateful.v ===== *)
(** * The webhook and the reconcilers together: StatefulSets

    The same for the pods of a StatefulSet, which have a service and a route
    each: these are made from the annotation that the webhook leaves on the
    pod. *)

From S2P Require Import Prelude GoStrings RandUtils Kube Constants Vendor Reference Configuration ConfigurationSpec Templates.
From S2P Require Import WebhookModifiers WebhookSpec PodWebhook PodWebhookSpec ControllerObjects ControllerObjectsSpec.
From S2P Require Import Controllers ControllersSpec RegistrySpec WorkloadSpec System.

Section SystemStateful.
Context {W : Type} `{ClientWrites W} `{!VendorLaws} `{OSEnv} `{Yaml3}.

(** Propagating the registry secret leaves the namespace calm: the copy is
    new, and not being deleted. *)
Lemma propagation_calm name controller ns r (w w' : W) :
  calm w ns -> propagation name controller ns w r w' -> calm w' ns.
Proof.
  intros Hcalm (_ & Hfr & Hown & _) k key o Hk Hns Ho.
  destruct (decide (k = KSecret /\ key = mkNN ns name)) as [[-> ->]|Hne].
  - destruct Hown as [Hv|(_ & source & _ & Hv)]; [rewrite Hv in Ho; by eapply Hcalm|].
    rewrite Hv in Ho. injection Ho as <-. reflexivity.
  - rewrite (Hfr k key) in Ho; [by eapply Hcalm|]. destruct (decide (k = KSecret)) as [->|]; [right|by left]. tauto.
Qed.

(** What is the same for both kinds of workload up to their dependencies *)
Lemma statefulset_reconciled (c : OIDCAppsControllerConfig) (d : WorkloadReconciler) (request : NamespacedName)
    (x : StatefulSet) (w w' : W) :
  let object := StatefulSetObject x in
  let registry := mkNN (GetNamespace object) (RegistrySecretName d) in
  Reconciler_Config d = Some c -> reads_reliable w ->
  view w KStatefulSet request = Some x -> GetName object <> EmptyString -> needs_objects w c object ->
  ~ In (KSecret, registry) (statefulset_secret_keys object) -> calm w (GetNamespace object) ->
  (forall selector p, StatefulSet_Selector x = Some selector -> child w x selector p -> ordinal_child x p) ->
  StatefulSetReconciler_Reconcile d request w = (Ret tt, w') ->
  exists (rc : ResolvedConfig) selector w1, touches [(KSecret, registry)] w w1 /\
    Resolve (W := W) (Some c) object w1 = (Ret rc, w1) /\ StatefulSet_Selector x = Some selector /\
    secrets_ready w' rc object /\
    (forall p, child w x selector p -> annotated p -> pod_ready w' rc object p) /\
    (RegistrySecretName d <> EmptyString -> GetNamespace object <> ControllerNamespace d ->
     exists s, view w' KSecret registry = Some s).
Proof.
  cbv zeta. intros Hcfg Hrel Hx Hn Hneed Hreg Hcalm Hord Hr. unfold StatefulSetReconciler_Reconcile in Hr.
  destruct (or_not_found_get KStatefulSet request w) as (g & Eg & _ & Hv & Hret).
  destruct (Hret Hrel) as [x' ->]. rewrite (M_bind_ret _ _ _ _ _ Eg) in Hr.
  destruct (Hv x' eq_refl) as [Hx'|[_ Ho]]; [|discriminate (Ho _ Hx)]. rewrite Hx in Hx'. injection Hx' as <-.
  rewrite (reconcile_workload_establishes c d _ _ w Hcfg Hrel Hneed Hn) in Hr.
  destruct (ensureRegistrySecret_steps (RegistrySecretName d) (ControllerNamespace d) (GetNamespace (StatefulSetObject x)) w)
    as (r & w1 & Er & Hprop).
  rewrite (M_bind_case _ _ _ _ _ Er) in Hr. destruct r as [[]|e|p]; try done. rewrite Hcfg in Hr.
  pose proof (propagation_calm _ _ _ _ _ _ Hcalm Hprop) as Hcalm1. destruct Hprop as (_ & Hfr & _ & Hs & _).
  assert (T : touches [(KSecret, mkNN (GetNamespace (StatefulSetObject x)) (RegistrySecretName d))] w w1).
  { intros k key Hk. apply Hfr. destruct (decide (k = KSecret)) as [->|]; [right|by left]. intros ->. apply Hk. by left. }
  assert (Hch : forall sel p, child w1 x sel p <-> child w x sel p).
  { intros sel p. unfold child. enough (E : forall key, view w1 KPod key = view w KPod key) by (by setoid_rewrite E).
    intros key. apply T. by intros [[=]|[]]. }
  destruct (reconcileStatefulSet_steps c x w1 w') as (rc & sel & Hres & Hsel & Hoauth & Hother & Hpods & L & TL & HL).
  - by destruct Hneed as (_ & ? & _).
  - exact Hcalm1.
  - intros sel p Hsel Hp%Hch. by eapply Hord.
  - exact Hr.
  - exists rc, sel, w1. split; [exact T|]. split; [exact Hres|]. split; [exact Hsel|]. split; [by split|]. split.
    + intros p Hp. by apply Hpods, Hch.
    + intros Hne Hns. destruct (Hs eq_refl Hne Hns) as [s0 Hs0]. exists s0. rewrite TL; [exact Hs0|].
      intros [Hin|[?|?]]%HL; [exact (Hreg Hin)|discriminate..].
Qed.

(** C2. The two sides fit for a StatefulSet too.  After a successful
    reconcile of a StatefulSet that needs its objects, and the admission of a
    pod of it when the namespaces are as they were: the pod is admitted with
    the configuration that the reconcile resolved; every secret it mounts and
    every pull secret it names was its own, exists in its namespace, or is one
    that the configuration refers to by name; and the admitted pod, and every
    other pod with the annotation of the webhook, when it is one of those the
    reconcile saw, has a service of its own and, when routes are asked for, a
    route with the host of the annotation in which the pod's ordinal is put
    behind the first label. *)
Theorem admitted_statefulset_pod_is_served c registry controller (x : StatefulSet) (pod : Pod) (v w w' : W) :
  let object := StatefulSetObject x in
  let ns := Namespace (StatefulSet_Meta x) in
  reliable -> view w KStatefulSet (key_of (StatefulSet_Meta x)) = Some x -> Name (StatefulSet_Meta x) <> EmptyString ->
  needs_objects w c object -> calm w ns ->
  (forall selector p, StatefulSet_Selector x = Some selector -> child w x selector p -> ordinal_child x p) ->
  ~ In (KSecret, mkNN ns registry) (statefulset_secret_keys object) ->
  map_get (Annotations (StatefulSet_Meta x)) constants.AnnotationSuffixKey = None ->
  StatefulSetReconciler_Reconcile (mkWorkloadReconciler (Some c) registry controller) (key_of (StatefulSet_Meta x)) w = (Ret tt, w') ->
  PodWebhookSpec.workload v pod = Some object -> beingDeleted (Pod_Meta pod) = false ->
  Forall (fun vol => compatible vol (Pod_Spec pod)) proxyVolumes ->
  (forall key, view v KNamespace key = view w KNamespace key) ->
  exists rc selector pod', Resolve (Some c) object v = (Ret rc, v) /\
    PodMutator_Default (mkPodMutator registry (Some c)) pod v = (Ret pod', v) /\
    secrets_ready w' rc object /\ Namespace (Pod_Meta pod') = ns /\
    (forall vol name, mounts (Pod_Spec pod') vol name = true ->
       mounts (Pod_Spec pod) vol name = true \/ stored_secret w' ns name \/ referred rc name) /\
    (forall name, In name (ImagePullSecrets (Pod_Spec pod')) ->
       In name (ImagePullSecrets (Pod_Spec pod)) \/ stored_secret w' ns name \/ ns = controller) /\
    map_get (Annotations (Pod_Meta pod')) constants.AnnotationHostKey = Some (GetHost rc) /\
    StatefulSet_Selector x = Some selector /\
    (forall p, p = pod' \/ annotated p -> child w x selector p -> pod_ready w' rc object p).
Proof.
  cbv zeta. intros Hrel Hx Hn Hneed Hcalm Hord Hreg Ha Hr Hw Hd Hc Hns.
  destruct (statefulset_reconciled c (mkWorkloadReconciler (Some c) registry controller) _ x w w' eq_refl (Hrel w) Hx Hn Hneed
              Hreg Hcalm Hord Hr) as (rc & sel & w1 & Ht & Hres & Hsel & Hready & Hpods & Hpull).
  destruct (same_target c (StatefulSetObject x) rc registry v w w1 Hrel Hneed Hns Ht Hres) as [Hv Hrc].
  destruct (admission_of v c registry pod (StatefulSetObject x) rc Hw Hd Hc Hv Hrc) as (Hrv & pod' & Hp & Hmeta & Hm & Hi).
  assert (Hhost : map_get (Annotations (Pod_Meta pod')) constants.AnnotationHostKey = Some (GetHost rc)).
  { rewrite Hmeta. apply admitted_host. }
  exists rc, sel, pod'. split; [exact Hrv|]. split; [exact Hp|]. split; [exact Hready|].
  split; [rewrite Hmeta; symmetry; exact (workload_namespace v pod _ Hw)|]. split; [|split; [|split; [exact Hhost|split; [exact Hsel|]]]].
  - intros vol name Hmo. destruct (Hm vol name Hmo) as [|Hreq]; [by left|right].
    by apply (ready_required w' rc (StatefulSetObject x) vol).
  - intros name Hin. destruct (Hi name Hin) as [|[-> Hne]]; [by left|right].
    destruct (decide (Namespace (StatefulSet_Meta x) = controller)) as [|Hnc]; [by right|left]. by apply Hpull.
  - intros p Hor Hchild. apply Hpods; [exact Hchild|]. destruct Hor as [->|Hann]; [|exact Hann].
    unfold annotated. rewrite Hhost. by eexists.
Qed.

End SystemStateful.

(** ** Witness on the reference instance *)

#[local] Existing Instances Ref.vendor Ref.vendor_laws Ref.client Ref.client_reads Ref.client_writes Ref.env.
#[local] Existing Instance ControllerExamples.yaml3.

Module StatefulExamples.

(** A pod of the StatefulSet before its admission, the cluster of that
    moment, and the cluster with the admitted pod in it *)
Definition pod : Pod :=
  mkPod (mkObjectMeta "prometheus-0" "mon" "uid-p0" (Some (<[ podNameLabel := "prometheus-0" ]> {[ "app" := "prometheus" ]}))
           None [mkOwnerReference "StatefulSet" "prometheus" "uid-s"] [] None)
    (mkPodSpec [] [PodExamples.app] []).

Definition earlier : Ref.cluster :=
  Ref.put KStatefulSet WorkloadExamples.prometheus (Ref.put KSecret RegistryExamples.source Ref.empty_cluster).

Definition admitted : Pod :=
  match fst (PodMutator_Default (mkPodMutator "regcred" (Some WorkloadExamples.sts_config)) pod earlier) with
  | Ret p => p
  | _ => pod
  end.

Definition cluster : Ref.cluster := Ref.put KPod admitted earlier.

Definition reconciled : outcome unit * Ref.cluster :=
  StatefulSetReconciler_Reconcile (mkWorkloadReconciler (Some WorkloadExamples.sts_config) "regcred" "oidc-system")
    (key_of (StatefulSet_Meta WorkloadExamples.prometheus)) cluster.

Lemma served_statefulset_reconciled : reconciled = (Ret tt, snd reconciled).
Proof.
  rewrite (surjective_pairing reconciled) at 1. apply (f_equal2 pair); [|done]. vm_compute. reflexivity.
Qed.

Lemma prometheus_needs_objects :
  needs_objects cluster WorkloadExamples.sts_config (StatefulSetObject WorkloadExamples.prometheus).
Proof.
  split; [|split; [reflexivity|]].
  - apply selectsb_exists. vm_compute. reflexivity.
  - destruct (hasOidcAppsPods_steps (StatefulSetObject WorkloadExamples.prometheus) cluster) as (b & Hb & Hyes & _).
    apply Hyes. apply (f_equal fst) in Hb. vm_compute in Hb. congruence.
Qed.

Lemma only_pod key p : view cluster KPod key = Some p -> p = admitted.
Proof.
  cbn. unfold Ref.find, cluster, earlier, Ref.put.
  cbn [Ref.store Ref.set_store Ref.pods Ref.statefulsets Ref.secrets Ref.empty_cluster meta_of].
  destruct (_ !! key) as [x|] eqn:E; [|done]. case_decide; [|done]. intros [= <-].
  apply lookup_insert_Some in E as [[_ <-]|[_ E]]; [done|]. by rewrite lookup_empty in E.
Qed.

Lemma admitted_ordinal : ordinal_child WorkloadExamples.prometheus admitted.
Proof. exists 0%Z. split; [split; [lia|]|]; vm_compute; reflexivity. Qed.

Lemma cluster_calm : calm cluster "mon".
Proof.
  intros k key o Hk _. destruct Hk as [<-|[<-|[<-|[]]]]; [|done..].
  cbn. unfold Ref.find, cluster, earlier, Ref.put.
  cbn [Ref.store Ref.set_store Ref.pods Ref.statefulsets Ref.secrets Ref.empty_cluster meta_of].
  destruct (_ !! key) as [x|] eqn:E; [|done]. case_decide; [|done]. intros [= <-].
  apply lookup_insert_Some in E as [[_ <-]|[_ E]]; [done|]. by rewrite lookup_empty in E.
Qed.

End StatefulExamples.

Lemma admitted_statefulset_pod_is_served_witness :
  exists route, view (snd StatefulExamples.reconciled) KHTTPRoute
      (key_of (HTTPRoute_Meta (pod_route (StatefulSetObject WorkloadExamples.prometheus) StatefulExamples.admitted))) = Some route /\
    HTTPRoute_Hostnames route = [pod_hostname StatefulExamples.admitted].
Proof.
  destruct (admitted_statefulset_pod_is_served WorkloadExamples.sts_config "regcred" "oidc-system" WorkloadExamples.prometheus
              StatefulExamples.pod StatefulExamples.earlier StatefulExamples.cluster (snd StatefulExamples.reconciled))
    as (rc & selector & pod' & Hrc & Hp & _ & _ & _ & _ & _ & Hsel & Hready).
  - exact reads_reliable_reference.
  - vm_compute. reflexivity.
  - vm_compute. congruence.
  - exact StatefulExamples.prometheus_needs_objects.
  - exact StatefulExamples.cluster_calm.
  - intros selector p _ [[key Hp] _]. apply StatefulExamples.only_pod in Hp as ->. exact StatefulExamples.admitted_ordinal.
  - cbn [In secret_keys statefulset_secret_keys]. intros Hin.
    repeat match type of Hin with _ \/ _ => destruct Hin as [Hin|Hin] end; try discriminate Hin. destruct Hin.
  - vm_compute. reflexivity.
  - exact StatefulExamples.served_statefulset_reconciled.
  - vm_compute. reflexivity.
  - reflexivity.
  - by repeat constructor.
  - done.
  - assert (pod' = StatefulExamples.admitted) as -> by (unfold StatefulExamples.admitted; by rewrite Hp).
    injection Hsel as <-. destruct (Hready StatefulExamples.admitted (or_introl eq_refl)) as [_ Hroute].
    + split; [exists (mkNN "mon" "prometheus-0"); vm_compute; reflexivity|].
      split; [apply Ref.selected_spec; vm_compute; reflexivity|vm_compute; reflexivity].
    + assert (Hshall : ShallCreateHTTPRoute rc = true) by (apply (f_equal fst) in Hrc; vm_compute in Hrc; by injection Hrc as <-).
      destruct (Hroute Hshall) as (r & Hv & _ & Hh & _). exists r. split; [exact Hv|exact Hh].
Defined.
