(* ===== verification/EventRouting.v ===== *)
(** * [pkg/oidc-apps/cmd.go]: which events start which reconciles

    The predicates and the map functions that [RunController] registers with
    controller-runtime, and what they promise: an event on an object of a
    workload leads to a reconcile of that workload. *)

From S2P Require Import Prelude GoStrings RandUtils Kube Constants Vendor Reference.
From S2P Require Import Configuration ConfigurationSpec Templates WebhookModifiers PodWebhook.
From S2P Require Import ControllerObjects Controllers ControllersSpec RegistrySpec WorkloadSpec.

(** ** The map functions *)

Section Routing.
Context {W : Type} `{Client W} `{Vendor}.

(** [if err := c.Get(key, o); client.IgnoreNotFound(err) != nil { log }]: the
    object stays the zero value after an error. *)
Definition get_or_zero (k : Kind) (key : NamespacedName) : M W (kobj k) :=
  r ← try_ (cl_Get k key);
  mret (match r with inr o => o | inl _ => zero_obj k end).

Definition IsOidcAppsPod (pod : Pod) : bool := isOidcAppPod pod.

(** The first owner reference of a kind. *)
Definition owner_of (kind : string) (refs : list OwnerReference) : option OwnerReference :=
  find_first (fun r => String.eqb (OwnerReference_Kind r) kind) refs.

Fixpoint replicaset_owners (pod : Pod) (refs : list OwnerReference) : M W (list NamespacedName) :=
  match refs with
  | [] => mret []
  | r :: refs' =>
      if negb (String.eqb (OwnerReference_Kind r) "ReplicaSet") then replicaset_owners pod refs'
      else
        rs ← get_or_zero KReplicaSet (mkNN (Namespace (Pod_Meta pod)) (OwnerReference_Name r));
        match owner_of "Deployment" (OwnerReferences (ReplicaSet_Meta rs)) with
        | None => replicaset_owners pod refs'
        | Some d =>
            deployment ← get_or_zero KDeployment
                           (mkNN (Namespace (ReplicaSet_Meta rs)) (OwnerReference_Name d));
            mret [key_of (Deployment_Meta deployment)]
        end
  end.

Definition PodMapFuncForDeployment (obj : Object) : M W (list NamespacedName) :=
  match obj with
  | mkObject KPod pod =>
      if negb (IsOidcAppsPod pod) then mret []
      else replicaset_owners pod (OwnerReferences (Pod_Meta pod))
  | _ => mret []
  end.

(** The two map functions of the StatefulSet controller differ in the kind of
    the object only. *)
Fixpoint pod_owners (namespace : string) (refs : list OwnerReference) : M W (list NamespacedName) :=
  match refs with
  | [] => mret []
  | o :: refs' =>
      if negb (String.eqb (OwnerReference_Kind o) "Pod") then pod_owners namespace refs'
      else
        pod ← get_or_zero KPod (mkNN namespace (OwnerReference_Name o));
        if Nat.eqb (String.length (Name (Pod_Meta pod))) 0 then pod_owners namespace refs'
        else match owner_of "StatefulSet" (OwnerReferences (Pod_Meta pod)) with
             | None => pod_owners namespace refs'
             | Some r =>
                 statefulset ← get_or_zero KStatefulSet
                                 (mkNN (Namespace (Pod_Meta pod)) (OwnerReference_Name r));
                 mret [key_of (StatefulSet_Meta statefulset)]
             end
  end.

Definition ServiceMapFuncForStatefulset (obj : Object) : M W (list NamespacedName) :=
  match obj with
  | mkObject KService service => pod_owners (Namespace (Service_Meta service)) (OwnerReferences (Service_Meta service))
  | _ => mret []
  end.

Definition HTTPRouteMapFuncForStatefulset (obj : Object) : M W (list NamespacedName) :=
  match obj with
  | mkObject KHTTPRoute httpRoute =>
      pod_owners (Namespace (HTTPRoute_Meta httpRoute)) (OwnerReferences (HTTPRoute_Meta httpRoute))
  | _ => mret []
  end.

(** ** The predicates *)

(** [matchOrLabeled] of [fetchPredicates]: create, delete and generic events
    pass through it. *)
Definition matchOrLabeled (cfg : option OIDCAppsControllerConfig) (o : Object) : M W bool :=
  b ← Match cfg o;
  mret (if b : bool then true else bool_decide (is_Some (map_get (GetLabels o) constants.LabelKey))).

(** [imagePullSecretPredicates] *)
Definition imagePullSecretPredicates (registrySecret controllerNamespace : string) (obj : Object) : bool :=
  String.eqb (GetName obj) registrySecret && String.eqb (GetNamespace obj) controllerNamespace.

End Routing.

(** ** Lemmas *)

Section RoutingLemmas.
Context {W : Type} `{ClientWrites W} `{!VendorLaws}.

Lemma get_or_zero_spec k key (w : W) :
  exists o, get_or_zero k key w = (Ret o, w) /\ (view w k key = Some o \/ o = zero_obj k) /\
    (reads_reliable w -> forall x, view w k key = Some x -> in_cache cache_selector k (meta_of k x) = true -> o = x).
Proof.
  unfold get_or_zero. destruct (get_cases k key w) as [(o & Hg & Hv)|(e & Hg & Hn)];
    rewrite (M_bind_ret _ _ _ _ _ (try_case _ _ _ _ Hg)).
  - exists o. split; [done|]. split; [by left|]. intros _ x Hx _. congruence.
  - exists (zero_obj k). split; [done|]. split; [by right|]. intros [Hr _] x Hx Hc.
    pose proof (Hr k key e) as He. rewrite Hg in He. specialize (He eq_refl).
    by rewrite (Hn He x Hx) in Hc.
Qed.

Lemma owner_of_single kind r : OwnerReference_Kind r = kind -> owner_of kind [r] = Some r.
Proof. intros <-. unfold owner_of. cbn. by rewrite String.eqb_refl. Qed.

(** What the loops return: nothing, or the key of a stored workload, or the
    empty key. *)
Definition routed (k : Kind) (w : W) (l : list NamespacedName) : Prop :=
  l = [] \/ l = [mkNN EmptyString EmptyString] \/ exists key o, l = [key] /\ view w k key = Some o.

Lemma routed_get k key (w : W) :
  (k = KDeployment \/ k = KStatefulSet) ->
  exists o, get_or_zero k key w = (Ret o, w) /\ routed k w [key_of (meta_of k o)].
Proof.
  intros Hk. destruct (get_or_zero_spec k key w) as (o & Ho & [Hv| ->] & _).
  - exists o. split; [done|]. right. right. exists key, o. by rewrite (view_key _ _ _ _ Hv).
  - exists (zero_obj k). split; [done|]. right. left. by destruct Hk as [->| ->].
Qed.

Lemma replicaset_owners_routed pod refs (w : W) :
  exists l, replicaset_owners pod refs w = (Ret l, w) /\ routed KDeployment w l.
Proof.
  induction refs as [|r refs IH]; [by exists []; split; [|left]|]. cbn [replicaset_owners].
  destruct (negb _); [exact IH|].
  destruct (get_or_zero_spec KReplicaSet (mkNN (Namespace (Pod_Meta pod)) (OwnerReference_Name r)) w) as (rs & Hrs & _).
  rewrite (M_bind_ret _ _ _ _ _ Hrs). destruct (owner_of _ _) as [d|]; [|exact IH].
  destruct (routed_get KDeployment (mkNN (Namespace (ReplicaSet_Meta rs)) (OwnerReference_Name d)) w (or_introl eq_refl))
    as (o & Ho & Hr).
  rewrite (M_bind_ret _ _ _ _ _ Ho). by eexists.
Qed.

Lemma pod_owners_routed ns refs (w : W) :
  exists l, pod_owners ns refs w = (Ret l, w) /\ routed KStatefulSet w l.
Proof.
  induction refs as [|r refs IH]; [by exists []; split; [|left]|]. cbn [pod_owners].
  destruct (negb _); [exact IH|].
  destruct (get_or_zero_spec KPod (mkNN ns (OwnerReference_Name r)) w) as (pod & Hpod & _).
  rewrite (M_bind_ret _ _ _ _ _ Hpod). destruct (Nat.eqb _ 0); [exact IH|].
  destruct (owner_of _ _) as [d|]; [|exact IH].
  destruct (routed_get KStatefulSet (mkNN (Namespace (Pod_Meta pod)) (OwnerReference_Name d)) w (or_intror eq_refl))
    as (o & Ho & Hr).
  rewrite (M_bind_ret _ _ _ _ _ Ho). by eexists.
Qed.

Lemma replicaset_owners_first pod refs r rs dref d (w : W) :
  reads_reliable w -> owner_of "ReplicaSet" refs = Some r ->
  view w KReplicaSet (mkNN (Namespace (Pod_Meta pod)) (OwnerReference_Name r)) = Some rs ->
  owner_of "Deployment" (OwnerReferences (ReplicaSet_Meta rs)) = Some dref ->
  view w KDeployment (mkNN (Namespace (Pod_Meta pod)) (OwnerReference_Name dref)) = Some d ->
  replicaset_owners pod refs w = (Ret [key_of (Deployment_Meta d)], w).
Proof.
  intros Hrel. unfold owner_of at 1. induction refs as [|r' refs IH]; [done|]. cbn [find_first replicaset_owners].
  destruct (String.eqb (OwnerReference_Kind r') "ReplicaSet"); [|exact IH]. intros [= ->] Hrs Hd Hdep. cbn [negb].
  destruct (get_or_zero_spec KReplicaSet (mkNN (Namespace (Pod_Meta pod)) (OwnerReference_Name r)) w) as (rs' & E & _ & Hex).
  rewrite (M_bind_ret _ _ _ _ _ E), (Hex Hrel rs Hrs eq_refl), Hd.
  pose proof (f_equal NN_Namespace (view_key _ _ _ _ Hrs)) as Hns. cbn in Hns. rewrite Hns.
  destruct (get_or_zero_spec KDeployment (mkNN (Namespace (Pod_Meta pod)) (OwnerReference_Name dref)) w) as (d' & E' & _ & Hex').
  by rewrite (M_bind_ret _ _ _ _ _ E'), (Hex' Hrel d Hdep eq_refl).
Qed.

Lemma pod_owners_first ns refs o pod r s (w : W) :
  reads_reliable w -> owner_of "Pod" refs = Some o ->
  view w KPod (mkNN ns (OwnerReference_Name o)) = Some pod -> in_cache cache_selector KPod (Pod_Meta pod) = true ->
  Name (Pod_Meta pod) <> EmptyString ->
  owner_of "StatefulSet" (OwnerReferences (Pod_Meta pod)) = Some r ->
  view w KStatefulSet (mkNN ns (OwnerReference_Name r)) = Some s ->
  pod_owners ns refs w = (Ret [key_of (StatefulSet_Meta s)], w).
Proof.
  intros Hrel. unfold owner_of at 1. induction refs as [|o' refs IH]; [done|]. cbn [find_first pod_owners].
  destruct (String.eqb (OwnerReference_Kind o') "Pod"); [|exact IH]. intros [= ->] Hp Hc Hn Hr Hs. cbn [negb].
  destruct (get_or_zero_spec KPod (mkNN ns (OwnerReference_Name o)) w) as (pod' & E & _ & Hex).
  rewrite (M_bind_ret _ _ _ _ _ E), (Hex Hrel pod Hp Hc), Hr.
  destruct (Nat.eqb_spec (String.length (Name (Pod_Meta pod))) 0) as [Hz|_]; [by destruct (Name (Pod_Meta pod))|].
  pose proof (f_equal NN_Namespace (view_key _ _ _ _ Hp)) as Hns. cbn in Hns. rewrite Hns.
  destruct (get_or_zero_spec KStatefulSet (mkNN ns (OwnerReference_Name r)) w) as (s' & E' & _ & Hex').
  by rewrite (M_bind_ret _ _ _ _ _ E'), (Hex' Hrel s Hs eq_refl).
Qed.

End RoutingLemmas.

Section RoutingTheorems.
Context {W : Type} `{ClientWrites W} `{!VendorLaws}.

(** The map functions never fail and change nothing.  What they enqueue is
    nothing, the key of a stored workload, or the empty key (when the
    workload could not be read); and where reads do not fail, an event on a
    pod with an injected proxy enqueues the Deployment that owns the pod
    through its ReplicaSet, and an event on a service or a route enqueues the
    StatefulSet that owns it through a pod. *)
Theorem events_reach_workloads (w : W) :
  (forall obj, exists l, PodMapFuncForDeployment obj w = (Ret l, w) /\ routed KDeployment w l) /\
  (forall obj, exists l, ServiceMapFuncForStatefulset obj w = (Ret l, w) /\ routed KStatefulSet w l) /\
  (forall obj, exists l, HTTPRouteMapFuncForStatefulset obj w = (Ret l, w) /\ routed KStatefulSet w l) /\
  (reads_reliable w ->
   (forall p r rs dref d, let ns := Namespace (Pod_Meta p) in
      isOidcAppPod p = true -> owner_of "ReplicaSet" (OwnerReferences (Pod_Meta p)) = Some r ->
      view w KReplicaSet (mkNN ns (OwnerReference_Name r)) = Some rs ->
      owner_of "Deployment" (OwnerReferences (ReplicaSet_Meta rs)) = Some dref ->
      view w KDeployment (mkNN ns (OwnerReference_Name dref)) = Some d ->
      PodMapFuncForDeployment (PodObject p) w = (Ret [key_of (Deployment_Meta d)], w)) /\
   (forall m o p r s, let ns := Namespace m in
      owner_of "Pod" (OwnerReferences m) = Some o -> view w KPod (mkNN ns (OwnerReference_Name o)) = Some p ->
      in_cache cache_selector KPod (Pod_Meta p) = true -> Name (Pod_Meta p) <> EmptyString ->
      owner_of "StatefulSet" (OwnerReferences (Pod_Meta p)) = Some r ->
      view w KStatefulSet (mkNN ns (OwnerReference_Name r)) = Some s ->
      (forall ports sel, ServiceMapFuncForStatefulset (mkObject KService (mkService m ports sel)) w =
         (Ret [key_of (StatefulSet_Meta s)], w)) /\
      (forall refs hosts rules, HTTPRouteMapFuncForStatefulset (mkObject KHTTPRoute (mkHTTPRoute m refs hosts rules)) w =
         (Ret [key_of (StatefulSet_Meta s)], w)))).
Proof.
  assert (Hnil : forall k, exists l, (mret [] : M W (list NamespacedName)) w = (Ret l, w) /\ routed k w l)
    by (intros k; exists []; by split; [|left]).
  repeat apply conj.
  - intros [[] o]; cbn [PodMapFuncForDeployment]; try apply Hnil.
    destruct (negb _); [apply Hnil|apply replicaset_owners_routed].
  - intros [[] o]; cbn [ServiceMapFuncForStatefulset]; try apply Hnil. apply pod_owners_routed.
  - intros [[] o]; cbn [HTTPRouteMapFuncForStatefulset]; try apply Hnil. apply pod_owners_routed.
  - intros Hrel. split.
    + intros p r rs dref d ns Hi Hr Hrs Hd Hdep. cbn [PodMapFuncForDeployment PodObject]. unfold IsOidcAppsPod.
      rewrite Hi. by apply (replicaset_owners_first p _ r rs dref d).
    + intros m o p r s ns Ho Hp Hc Hn Hr Hs. by split; intros; apply (pod_owners_first _ _ o p r s).
Qed.

End RoutingTheorems.

(** ** Witnesses on the reference instance *)

#[local] Existing Instances Ref.vendor Ref.vendor_laws Ref.client Ref.client_reads Ref.client_writes.

Lemma events_reach_workloads_witness :
  PodMapFuncForDeployment (PodObject WorkloadExamples.grafana_pod) WorkloadExamples.cluster =
  (Ret [mkNN "mon" "grafana"], WorkloadExamples.cluster).
Proof.
  destruct (events_reach_workloads WorkloadExamples.cluster) as (_ & _ & _ & Hreach).
  destruct (Hreach (reads_reliable_reference _)) as [Hpod _].
  apply (Hpod WorkloadExamples.grafana_pod (mkOwnerReference "ReplicaSet" "grafana-1" "uid-rs")
           WorkloadExamples.replicaset (mkOwnerReference "Deployment" "grafana" "uid-1") Examples.grafana);
    vm_compute; reflexivity.
Defined.
