(* ===== verification/Gateway.v ===== *)
(** * [pkg/controllers/gateway_reconciler.go]: the managed Gateway

    The conversion of the configured listeners and infrastructure to the API
    types, the reconcile of the managed Gateway and the removal of orphaned
    ones. *)

From S2P Require Import Prelude GoStrings RandUtils Kube Constants Vendor Reference.
From S2P Require Import Configuration ConfigurationSpec Templates PodWebhook ControllerObjects Controllers.
From S2P Require Import ControllersSpec RegistrySpec.

(** [GatewayReconciler]; [Config] is called on every reconcile. *)
Record GatewayReconciler := mkGatewayReconciler {
  Reconciler_Namespace : string;
  Reconciler_Conf : option GatewayGlobalConf }.

(** ** Conversions *)

(** [if s != "" { x := T(s); p = &x }] *)
Definition pointer_if_set (s : string) : option string := if String.eqb s EmptyString then None else Some s.

(** [if len(m) > 0] copies the map, otherwise the result stays nil. *)
Definition copy_if_any (m : GoMap string) : GoMap string :=
  if Nat.ltb 0 (map_len m) then Some (map_contents m) else None.

Definition buildCertificateRef (ref : SecretObjectReference) : gatewayv1.SecretObjectReference :=
  let kind := if String.eqb (SOR_Kind ref) EmptyString then "Secret" else SOR_Kind ref in
  gatewayv1.mkSecretObjectReference (Some (SOR_Group ref)) (Some kind) (SOR_Name ref)
    (pointer_if_set (SOR_Namespace ref)).

Definition buildListenerTLS (tls : ListenerTLSConfig) : gatewayv1.ListenerTLSConfig :=
  gatewayv1.mkListenerTLSConfig (pointer_if_set (TLS_Mode tls)) (map buildCertificateRef (TLS_CertificateRefs tls))
    (copy_if_any (TLS_Options tls)).

Definition buildAllowedRoutes (ar : AllowedRoutes) : gatewayv1.AllowedRoutes :=
  gatewayv1.mkAllowedRoutes
    ((fun ns => gatewayv1.mkRouteNamespaces (pointer_if_set (RouteNamespaces_From ns)) (RouteNamespaces_Selector ns))
       <$> AllowedRoutes_Namespaces ar)
    (map (fun k => gatewayv1.mkRouteGroupKind (pointer_if_set (RouteGroupKind_Group k)) (RouteGroupKind_Kind k))
       (AllowedRoutes_Kinds ar)).

Definition buildListener (l : GatewayListener) : gatewayv1.Listener :=
  gatewayv1.mkListener (Listener_Name l) (pointer_if_set (Listener_Hostname l)) (Listener_Port l)
    (Listener_Protocol l) (buildListenerTLS <$> Listener_TLS l) (buildAllowedRoutes <$> Listener_AllowedRoutes l).

Definition buildListeners (listeners : list GatewayListener) : list gatewayv1.Listener := map buildListener listeners.

Definition buildInfrastructure (i : option GatewayInfrastructure) : option gatewayv1.GatewayInfrastructure :=
  match i with
  | None => None
  | Some i =>
      Some (gatewayv1.mkGatewayInfrastructure
        (copy_if_any (Infrastructure_Annotations i)) (copy_if_any (Infrastructure_Labels i))
        ((fun p => gatewayv1.mkLocalParametersReference (ParametersRef_Group p) (ParametersRef_Kind p)
                     (ParametersRef_Name p)) <$> Infrastructure_ParametersRef i))
  end.

(** ** The reconciler *)

Definition gateway_name (conf : GatewayGlobalConf) : string :=
  if String.eqb (Gateway_Name conf) EmptyString then constants.ManagedGatewayName else Gateway_Name conf.

Definition mutate_gateway (conf : GatewayGlobalConf) (gw : GatewayResource) : GatewayResource :=
  mkGateway
    (set_annotations (Gateway_Annotations conf)
       (relabel (map_copy component_labels (Gateway_Labels conf)) (Gateway_Meta gw)))
    (GatewayClassName conf) (buildListeners (Listeners conf)) (buildInfrastructure (Infrastructure conf)).

Section Gateway.
Context {W : Type} `{Client W} `{Vendor}.

Definition cleanupOrphanedGateway (g : GatewayReconciler) : M W unit :=
  items ← wrap "failed to list gateways"
            (cl_List KGateway (mkListOptions (Some (Reconciler_Namespace g)) (Some component_labels)));
  for_each items (fun gw : GatewayResource =>
    r ← try_ (cl_Delete KGateway (key_of (Gateway_Meta gw)));
    match r with
    | inr _ => mret tt
    | inl err => if IsNotFound err then mret tt
                 else throw (Errorf ("failed to delete orphaned gateway " +:+ Name (Gateway_Meta gw)) err)
    end).

Definition reconcileGateway (g : GatewayReconciler) (conf : GatewayGlobalConf) : M W unit :=
  if String.eqb (GatewayClassName conf) EmptyString
  then throw (ErrorString "gatewayClassName is required when managed gateway is enabled")
  else
    wrap "failed to reconcile gateway"
      (cl_CreateOrUpdate KGateway
         (mkGateway (nameMeta (gateway_name conf) (Reconciler_Namespace g)) EmptyString [] None)
         (fun gw => mret (mutate_gateway conf gw)));;
    mret tt.

(** The result is whether the request is queued again after [syncInterval]. *)
Definition GatewayReconciler_Reconcile (g : GatewayReconciler) : M W bool :=
  match Reconciler_Conf g with
  | Some conf => if Managed conf then reconcileGateway g conf;; mret true else cleanupOrphanedGateway g;; mret false
  | None => cleanupOrphanedGateway g;; mret false
  end.

End Gateway.

(** ** Specifications *)

(** Reading an API listener back as a configured one. *)
Definition listener_config (l : gatewayv1.Listener) : GatewayListener :=
  let s := default EmptyString in
  let ref_config r := mkSecretObjectReference (s (gatewayv1.SecretRef_Group r)) (s (gatewayv1.SecretRef_Kind r))
                        (gatewayv1.SecretRef_Name r) (s (gatewayv1.SecretRef_Namespace r)) in
  let tls_config t := mkListenerTLSConfig (s (gatewayv1.Mode t)) (map ref_config (gatewayv1.CertificateRefs t))
                        (gatewayv1.Options t) in
  let routes_config a := mkAllowedRoutes
    ((fun n => mkRouteNamespaces (s (gatewayv1.From n)) (gatewayv1.Selector n)) <$> gatewayv1.AllowedNamespaces a)
    (map (fun k => mkRouteGroupKind (s (gatewayv1.GroupKind_Group k)) (gatewayv1.GroupKind_Kind k)) (gatewayv1.Kinds a)) in
  mkGatewayListener (gatewayv1.Listener_Name l) (s (gatewayv1.Hostname l)) (gatewayv1.Port l) (gatewayv1.Protocol l)
    (tls_config <$> gatewayv1.TLS l) (routes_config <$> gatewayv1.Listener_AllowedRoutes l).

(** The two things a conversion may change: the default kind of a reference
    and an empty map of options. *)
Definition normal_listener (l : GatewayListener) : GatewayListener :=
  let ref r := mkSecretObjectReference (SOR_Group r)
                 (if String.eqb (SOR_Kind r) EmptyString then "Secret" else SOR_Kind r) (SOR_Name r) (SOR_Namespace r) in
  let tls t := mkListenerTLSConfig (TLS_Mode t) (map ref (TLS_CertificateRefs t)) (copy_if_any (TLS_Options t)) in
  mkGatewayListener (Listener_Name l) (Listener_Hostname l) (Listener_Port l) (Listener_Protocol l)
    (tls <$> Listener_TLS l) (Listener_AllowedRoutes l).

(** What the managed Gateway is to look like. *)
Definition gateway_ready {W} `{ClientReads W} (w : W) (ns : string) (conf : GatewayGlobalConf) : Prop :=
  exists gw, view w KGateway (mkNN ns (gateway_name conf)) = Some gw /\
    Gateway_ClassName gw = GatewayClassName conf /\ Gateway_Listeners gw = buildListeners (Listeners conf) /\
    Gateway_Infrastructure gw = buildInfrastructure (Infrastructure conf) /\
    Labels (Gateway_Meta gw) = Some (map_copy component_labels (Gateway_Labels conf)).

(** A labelled Gateway of the controller's namespace. *)
Definition orphan (ns : string) (m : ObjectMeta) : Prop :=
  list_selects (mkListOptions (Some ns) (Some component_labels)) m.

(** ** Lemmas *)

Lemma pointer_if_set_read s : default EmptyString (pointer_if_set s) = s.
Proof. unfold pointer_if_set. by destruct (String.eqb_spec s EmptyString). Qed.

Lemma listener_config_build l : listener_config (buildListener l) = normal_listener l.
Proof.
  destruct l as [name host port proto tls routes]. unfold listener_config, buildListener, normal_listener. cbn.
  rewrite pointer_if_set_read. f_equal.
  - destruct tls as [[mode refs opts]|]; [|done]. cbn. rewrite pointer_if_set_read, map_map. do 2 f_equal.
    apply map_ext. intros [group kind rname rns]. cbn. by rewrite pointer_if_set_read.
  - destruct routes as [[nss kinds]|]; [|done]. cbn. rewrite map_map. do 2 f_equal.
    + destruct nss as [[from sel]|]; [|done]. cbn. by rewrite pointer_if_set_read.
    + rewrite <- (map_id kinds) at 2. apply map_ext. intros [group kind]. cbn. by rewrite pointer_if_set_read.
Qed.

Section GatewayLemmas.
Context {W : Type} `{ClientWrites W} `{!VendorLaws}.

Lemma delete_orphan_case (gw : GatewayResource) (w : W) :
  (r ← try_ (cl_Delete KGateway (key_of (Gateway_Meta gw)));
   match r with
   | inr _ => mret tt
   | inl err => if IsNotFound err then mret tt
                else throw (Errorf ("failed to delete orphaned gateway " +:+ Name (Gateway_Meta gw)) err)
   end) w =
  unless_not_found ("failed to delete orphaned gateway " +:+ Name (Gateway_Meta gw))
    (cl_Delete KGateway (key_of (Gateway_Meta gw))) w.
Proof.
  unfold unless_not_found, mbind, M_bind, try_.
  destruct (cl_Delete KGateway _ w) as [[[]|e|p] w']; [done| |done].
  rewrite IgnoreNotFound_spec. by destruct (IsNotFound e).
Qed.

Lemma for_each_ext {A} (xs : list A) (f g : A -> M W unit) :
  (forall x w, f x w = g x w) -> forall w, for_each xs f w = for_each xs g w.
Proof.
  intros E. induction xs as [|x xs IH]; intros w; [done|]. cbn [for_each]. unfold mbind, M_bind. rewrite E.
  by destruct (g x w) as [[[]|e|p] w'].
Qed.

Lemma cleanup_orphans g (w : W) :
  exists r w', cleanupOrphanedGateway g w = (r, w') /\ (forall p, r <> Panic p) /\
    evolves (fun k o => k = KGateway /\ orphan (Reconciler_Namespace g) (meta_of k o)) w w' /\
    (r = Ret tt -> forall key gw, view w KGateway key = Some gw -> orphan (Reconciler_Namespace g) (Gateway_Meta gw) ->
       Finalizers (Gateway_Meta gw) = [] -> view w' KGateway key = None).
Proof.
  unfold cleanupOrphanedGateway.
  destruct (list_cases KGateway (mkListOptions (Some (Reconciler_Namespace g)) (Some component_labels)) w)
    as [(l & El & Hl)|(e & El)]; rewrite (M_bind_case _ _ _ _ _ (wrap_case _ _ _ _ _ El)).
  2: { eexists (Err _), w. do 2 (split; [done|]). by split; [by left|]. }
  rewrite (for_each_ext _ _ (fun gw => unless_not_found ("failed to delete orphaned gateway " +:+ Name (Gateway_Meta gw))
    (cl_Delete KGateway (key_of (meta_of KGateway gw))))) by (intros; apply delete_orphan_case).
  assert (Hall : Forall (fun o => view w KGateway (key_of (meta_of KGateway o)) = Some o) l).
  { apply Forall_forall. intros o ([key Hv] & _)%Hl. by rewrite (view_key _ _ _ _ Hv). }
  destruct (delete_each_spec KGateway (fun gw => "failed to delete orphaned gateway " +:+ Name (meta_of KGateway gw)) l w w Hall (evolves_refl _ w)) as (r & w' & Hd & Hp & Hev & Hdone).
  exists r, w'. split; [exact Hd|]. split; [done|]. split.
  - intros k key. destruct (Hev k key) as [|(o & Ho & (-> & i & Hi & Hkey) & Hdel)]; [by left|right].
    exists o. split; [done|]. split; [|done]. split; [done|].
    pose proof (proj1 (Forall_forall _ _) Hall i Hi) as Hv. cbn beta in Hv.
    rewrite <- Hkey, (view_key _ _ _ _ Ho), Ho in Hv. injection Hv as ->. by apply Hl in Hi as (_ & ? & _).
  - intros Hret key gw Hv Ho Hf. rewrite <- (view_key _ _ _ _ Hv). apply Hdone; [done| |done].
    apply Hl. split; [by exists key|]. split; [done|]. destruct Ho as [_ Hlab]. by apply bool_decide_eq_true, Hlab.
Qed.

Lemma reconcileGateway_spec g conf (w w' : W) :
  reconcileGateway g conf w = (Ret tt, w') ->
  (forall gw, view w KGateway (mkNN (Reconciler_Namespace g) (gateway_name conf)) = Some gw ->
     beingDeleted (Gateway_Meta gw) = false) ->
  gateway_ready w' (Reconciler_Namespace g) conf /\
  frame KGateway (mkNN (Reconciler_Namespace g) (gateway_name conf)) w w'.
Proof.
  unfold reconcileGateway. destruct (String.eqb _ _); [done|]. intros Hr Hd.
  apply M_bind_inv in Hr as (res & w1 & Hc%wrap_inv & Hr). apply mret_inv in Hr as [_ ->].
  apply (create_or_update_spec KGateway) in Hc as (y & x & w2 & Hseen & Hm & Hkey & Hfr & Hst).
  apply mret_inv in Hm as [-> ->]. change (key_of (meta_of KGateway (mkGateway (nameMeta (gateway_name conf) (Reconciler_Namespace g)) EmptyString [] None)))
    with (mkNN (Reconciler_Namespace g) (gateway_name conf)) in *.
  split; [|exact Hfr]. eexists. split; [apply Hst|by repeat split].
  change (beingDeleted (Gateway_Meta y) = false). destruct Hseen as [Hv|[-> _]]; [by apply Hd|done].
Qed.

End GatewayLemmas.

Section GatewayTheorems.
Context {W : Type} `{ClientWrites W} `{!VendorLaws} `{OSEnv}.

(** C18. The managed Gateway.  With a managed configuration a successful
    reconcile leaves the Gateway with the configured class, listeners,
    infrastructure and labels, changes nothing else and asks to run again;
    without a class it fails and changes nothing.  The routes find it: the
    parent reference of a route without its own parents is the key of that
    Gateway.  Without a managed configuration only labelled Gateways of the
    controller's namespace are deleted, and on success those without a
    finalizer are gone. *)
Theorem Gateway_Reconcile_spec (conf : option GatewayGlobalConf) (w : W) :
  let g := mkGatewayReconciler (Getenv constants.NAMESPACE) conf in
  let ns := Getenv constants.NAMESPACE in
  (forall c, conf = Some c -> Managed c = true ->
     (GatewayClassName c = EmptyString -> exists e, GatewayReconciler_Reconcile g w = (Err e, w)) /\
     (forall again w', GatewayReconciler_Reconcile g w = (Ret again, w') ->
        (forall gw, view w KGateway (mkNN ns (gateway_name c)) = Some gw -> beingDeleted (Gateway_Meta gw) = false) ->
        again = true /\ gateway_ready w' ns c /\ frame KGateway (mkNN ns (gateway_name c)) w w') /\
     (forall rc, Gateway (rc_global rc) = Some c ->
        match Target_HTTPRoute (rc_target rc) with Some r => ParentRefs r = [] | None => True end -> ns <> EmptyString ->
        convertParentRefs (GetHTTPRouteParentRefs rc) = [mkParentReference (gateway_name c) (Some ns) None])) /\
  (match conf with Some c => Managed c = false | None => True end ->
     exists r w', GatewayReconciler_Reconcile g w = (r, w') /\ (forall p, r <> Panic p) /\
       evolves (fun k o => k = KGateway /\ orphan ns (meta_of k o)) w w' /\
       (forall again, r = Ret again -> again = false /\
          forall key gw, view w KGateway key = Some gw -> orphan ns (Gateway_Meta gw) ->
            Finalizers (Gateway_Meta gw) = [] -> view w' KGateway key = None)).
Proof.
  cbv zeta. split.
  - intros c -> Hm. unfold GatewayReconciler_Reconcile. cbn [Reconciler_Conf]. rewrite Hm. split; [|split].
    + intros Hc. unfold reconcileGateway. rewrite Hc. by eexists.
    + intros again w' Hr Hd. apply M_bind_inv in Hr as ([] & w1 & Hs & Hr). apply mret_inv in Hr as [-> ->].
      split; [done|]. by apply (reconcileGateway_spec _ _ _ _ Hs).
    + intros rc Hg Hr Hns. unfold GetHTTPRouteParentRefs, rc_isManagedGatewayEnabled. rewrite Hg, Hm.
      fold (gateway_name c).
      assert (E : forall l, l = [mkHTTPRouteParentRef (gateway_name c) (Getenv constants.NAMESPACE) EmptyString] ->
        convertParentRefs l = [mkParentReference (gateway_name c) (Some (Getenv constants.NAMESPACE)) None]).
      { intros l ->. cbn. by destruct (String.eqb_spec (Getenv constants.NAMESPACE) EmptyString). }
      apply E. destruct (Target_HTTPRoute (rc_target rc)) as [r|]; [|done]. by rewrite Hr.
  - intros Hc. destruct (cleanup_orphans (mkGatewayReconciler (Getenv constants.NAMESPACE) conf) w)
      as (r & w' & Hr & Hp & Hev & Hdone).
    assert (E : GatewayReconciler_Reconcile (mkGatewayReconciler (Getenv constants.NAMESPACE) conf) w =
      (cleanupOrphanedGateway (mkGatewayReconciler (Getenv constants.NAMESPACE) conf);; mret false) w).
    { unfold GatewayReconciler_Reconcile. cbn [Reconciler_Conf]. by destruct conf as [c|]; [rewrite Hc|]. }
    rewrite E, (M_bind_case _ _ _ _ _ Hr). destruct r as [[]|e|p]; [| |by destruct (Hp p)].
    + exists (Ret false), w'. split; [done|]. split; [done|]. split; [exact Hev|]. intros again [= <-].
      split; [done|]. by apply Hdone.
    + exists (Err e), w'. do 2 (split; [done|]). by split; [exact Hev|].
Qed.

End GatewayTheorems.

(** The conversion of the listeners loses nothing: each API listener, in
    order, reads back as the configured one, up to the default kind of a
    certificate reference and an empty map of options.  So two
    configurations that give the same listeners agree up to those. *)
Theorem buildListeners_roundtrip (ls ls' : list GatewayListener) :
  map listener_config (buildListeners ls) = map normal_listener ls /\
  (buildListeners ls = buildListeners ls' -> map normal_listener ls = map normal_listener ls').
Proof.
  assert (R : forall l, map listener_config (buildListeners l) = map normal_listener l).
  { intros l. unfold buildListeners. rewrite map_map. apply map_ext, listener_config_build. }
  split; [apply R|]. intros E. by rewrite <- !R, E.
Qed.

(** ** Witnesses on the reference instance *)

#[local] Existing Instances Ref.vendor Ref.vendor_laws Ref.client Ref.client_reads Ref.client_writes Ref.env.

Module GatewayExamples.

Definition listener : GatewayListener :=
  mkGatewayListener "https" "*.example.org" 443 "HTTPS"
    (Some (mkListenerTLSConfig "Terminate" [mkSecretObjectReference EmptyString EmptyString "tls" EmptyString] None))
    (Some (mkAllowedRoutes (Some (mkRouteNamespaces "All" None)) [])).

Definition conf : GatewayGlobalConf :=
  mkGatewayGlobalConf true EmptyString "envoy" [listener] None None None.

Definition reconciled : outcome bool * Ref.cluster :=
  GatewayReconciler_Reconcile (mkGatewayReconciler (Getenv constants.NAMESPACE) (Some conf)) Ref.empty_cluster.

End GatewayExamples.

Lemma buildListeners_roundtrip_witness :
  map normal_listener [GatewayExamples.listener] = map normal_listener [GatewayExamples.listener].
Proof.
  apply (proj2 (buildListeners_roundtrip [GatewayExamples.listener] [GatewayExamples.listener])). reflexivity.
Defined.

Lemma Gateway_Reconcile_spec_witness :
  gateway_ready (snd GatewayExamples.reconciled) "oidc-system" GatewayExamples.conf.
Proof.
  destruct (Gateway_Reconcile_spec (Some GatewayExamples.conf) Ref.empty_cluster) as [Hmanaged _].
  destruct (Hmanaged GatewayExamples.conf eq_refl eq_refl) as (_ & Hok & _).
  apply (Hok true (snd GatewayExamples.reconciled)).
  - change (GatewayExamples.reconciled = (Ret true, snd GatewayExamples.reconciled)).
    rewrite (surjective_pairing GatewayExamples.reconciled) at 1. apply (f_equal2 pair); [|done].
    vm_compute. reflexivity.
  - done.
Defined.
