(* ===== verification/CacheSpec.v ===== *)
(** * The controller and the cache it reads through

    [RunController] filters the cache by labels ([in_cache]), and every
    reconciler reads through it.  This file follows the writes of all four
    reconcilers, errors and panics included, and shows which of the objects
    they write they can read again: a run is a sequence of client calls, each
    of which writes only objects with the right labels. *)

From S2P Require Import Prelude GoStrings RandUtils Kube Constants Vendor Reference.
From S2P Require Import Configuration ConfigurationSpec Templates PodWebhook ControllerObjects Controllers.
From S2P Require Import ControllersSpec RegistrySpec WorkloadSpec Gateway.

(** ** The calls of a run *)

Section Calls.
Context {W : Type} `{Client W}.

(** The world goes from [w] to [w'] by calls of the client, successful or
    not, whose written objects all satisfy [ok].  The mutation of a
    create-or-update may call the client, and its result is what is written. *)
Inductive calls (ok : forall k, kobj k -> Prop) : W -> W -> Prop :=
| calls_none w : calls ok w w
| calls_then w w1 w2 : calls ok w w1 -> calls ok w1 w2 -> calls ok w w2
| calls_Get k key w : calls ok w (snd (cl_Get k key w))
| calls_List k opts w : calls ok w (snd (cl_List k opts w))
| calls_Delete k key w : calls ok w (snd (cl_Delete k key w))
| calls_PatchEmpty k o w : calls ok w (snd (cl_PatchEmpty k o w))
| calls_rand_Int max w : calls ok w (snd (rand_Int max w))
| calls_Create k o w : ok k o -> calls ok w (snd (cl_Create k o w))
| calls_Update k o w : ok k o -> calls ok w (snd (cl_Update k o w))
| calls_CreateOrUpdate k o f w :
    (forall y u x u', f y u = (Ret x, u') -> ok k x) -> (forall y u, calls ok u (snd (f y u))) ->
    calls ok w (snd (cl_CreateOrUpdate k o f w)).

Definition performs (ok : forall k, kobj k -> Prop) {A} (m : M W A) : Prop := forall w, calls ok w (snd (m w)).

(** A client that reads through its cache. *)
Definition reads_cached : Prop :=
  forall k key w o, fst (cl_Get k key w) = Ret o -> in_cache cache_selector k (meta_of k o) = true.

Definition visible (k : Kind) (o : kobj k) : Prop := in_cache cache_selector k (meta_of k o) = true.

End Calls.

(** ** The labels of the configuration *)

(** Labels copied over the component label leave it as it is. *)
Definition labels_agree (l : GoMap string) : bool :=
  match map_get l constants.LabelKey with Some v => String.eqb v constants.LabelValue | None => true end.

(** What the configuration puts over the labels of a kind: for the routes of
    workloads the labels of a target, for the managed Gateway its own. *)
Definition workload_labels (c : OIDCAppsControllerConfig) (k : Kind) (l : GoMap string) : Prop :=
  match k with
  | KHTTPRoute => l = None \/ exists t r, In t (Targets c) /\ Target_HTTPRoute t = Some r /\ l = HTTPRouteConf_Labels r
  | _ => l = None
  end.

Definition gateway_labels (g : GatewayReconciler) (k : Kind) (l : GoMap string) : Prop :=
  match k with
  | KGateway => exists conf, Reconciler_Conf g = Some conf /\ l = Gateway_Labels conf
  | _ => l = None
  end.

(** The object is in the cache exactly when the labels that the
    configuration puts over its own agree with the component label. *)
Definition labelled_by `{Client W} (labels : Kind -> GoMap string -> Prop) (k : Kind) (o : kobj k) : Prop :=
  exists l, labels k l /\ in_cache cache_selector k (meta_of k o) = labels_agree l.

(** ** Rules *)

Section Rules.
Context {W : Type} `{ClientWrites W}.
Context (ok : forall k, kobj k -> Prop).

Lemma performs_pure {A} (o : outcome A) : performs ok (lift o : M W A).
Proof. intros w. apply calls_none. Qed.

Lemma performs_bind {A B} (m : M W A) (f : A -> M W B) :
  performs ok m -> (forall x w w', m w = (Ret x, w') -> performs ok (f x)) -> performs ok (m ≫= f).
Proof.
  intros Hm Hf w. unfold mbind, M_bind. pose proof (Hm w) as Hw. destruct (m w) as [[x|e|p] w'] eqn:E; [|exact Hw..].
  eapply calls_then; [exact Hw|]. by eapply Hf.
Qed.

Lemma performs_try {A} (m : M W A) : performs ok m -> performs ok (try_ m).
Proof. intros Hm w. specialize (Hm w). unfold try_. by destruct (m w) as [[] ?]. Qed.

Lemma performs_wrap {A} msg (m : M W A) : performs ok m -> performs ok (wrap msg m).
Proof. intros Hm w. rewrite wrap_view. apply Hm. Qed.

Lemma performs_for_each {A} (xs : list A) (body : A -> M W unit) :
  (forall x, In x xs -> performs ok (body x)) -> performs ok (for_each xs body).
Proof.
  induction xs as [|x xs IH]; intros Hb; [intros w; apply calls_none|]. cbn [for_each].
  apply performs_bind; [apply Hb; by left|]. intros _ _ _ _. apply IH. intros y Hy. apply Hb. by right.
Qed.

Lemma performs_Get k key : performs ok (cl_Get k key).
Proof. intros w. apply calls_Get. Qed.

Lemma performs_List k opts : performs ok (cl_List k opts).
Proof. intros w. apply calls_List. Qed.

Lemma performs_Delete k key : performs ok (cl_Delete k key).
Proof. intros w. apply calls_Delete. Qed.

Lemma performs_PatchEmpty k o : performs ok (cl_PatchEmpty k o).
Proof. intros w. apply calls_PatchEmpty. Qed.

Lemma performs_rand_Int max : performs ok (rand_Int max).
Proof. intros w. apply calls_rand_Int. Qed.

Lemma performs_Create k o : ok k o -> performs ok (cl_Create k o).
Proof. intros Ho w. by apply calls_Create. Qed.

Lemma performs_Update k o : ok k o -> performs ok (cl_Update k o).
Proof. intros Ho w. by apply calls_Update. Qed.

Lemma performs_CreateOrUpdate k o f :
  (forall y u x u', f y u = (Ret x, u') -> ok k x) -> (forall y, performs ok (f y)) ->
  performs ok (cl_CreateOrUpdate k o f).
Proof. intros Hx Hf w. apply calls_CreateOrUpdate; [exact Hx|]. intros y u. apply Hf. Qed.

End Rules.

Create HintDb performs.
#[export] Hint Resolve performs_Get performs_List performs_Delete performs_PatchEmpty performs_rand_Int : performs.

(** Follows a program to its writes. *)
Ltac follow_with tac :=
  repeat (cbv zeta; match goal with
  | |- performs _ (_ ≫= _) => apply performs_bind; [|intros ? ? ? ?]
  | |- performs _ (try_ _) => apply performs_try
  | |- performs _ (wrap _ _) => apply performs_wrap
  | |- performs _ (lift _) => apply performs_pure
  | |- performs _ (throw _) => apply (performs_pure _ (Err _))
  | |- performs _ (panic _) => apply (performs_pure _ (Panic _))
  | |- performs _ (mret ?x) => apply (performs_pure _ (Ret x))
  | |- performs _ (for_each _ _) => apply performs_for_each; intros ? ?
  | |- performs _ (if ?b then _ else _) => destruct b eqn:?
  | |- performs _ (match ?x with _ => _ end) => destruct x eqn:?
  | |- performs _ _ => solve [auto with performs nocore]
  | |- performs _ _ => progress tac
  end).
Tactic Notation "follow" := follow_with ltac:(fail).

Section Readers.
Context {W : Type} `{ClientWrites W} `{!VendorLaws} `{OSEnv} `{Yaml3}.
Context (ok : forall k, kobj k -> Prop).

Lemma performs_or_not_found {A} (z : A) (m : M W A) : performs ok m -> performs ok (or_not_found z m).
Proof. intros Hm. unfold or_not_found. follow. Qed.

Lemma performs_unless_not_found msg (m : M W unit) : performs ok m -> performs ok (unless_not_found msg m).
Proof. intros Hm. unfold unless_not_found. follow. Qed.

Lemma performs_targetMatches c t o : performs ok (targetMatchesLabels (W := W) c t o).
Proof. unfold targetMatchesLabels. follow. Qed.

Lemma performs_match_loop c ts o : performs ok (match_loop (W := W) c ts o).
Proof. induction ts as [|t ts IH]; cbn [match_loop]; follow. apply performs_targetMatches. Qed.

Lemma performs_fetch_loop c ts o : performs ok (fetch_loop (W := W) c ts o).
Proof. induction ts as [|t ts IH]; cbn [fetch_loop]; follow. apply performs_targetMatches. Qed.

Lemma performs_Match c o : performs ok (Match (W := W) c o).
Proof. unfold Match. follow. apply performs_match_loop. Qed.

Lemma performs_Resolve c o : performs ok (Resolve (W := W) c o).
Proof. unfold Resolve, FetchTarget. follow. apply performs_fetch_loop. Qed.

Lemma performs_any_other c removed os : performs ok (any_other_match (W := W) c removed os).
Proof. induction os as [|o os IH]; cbn [any_other_match]; follow; apply performs_Match. Qed.

Lemma performs_owner_refs object refs : performs ok (owner_refs_loop (W := W) object refs).
Proof.
  induction refs as [|ref refs IH]; cbn [owner_refs_loop]; follow. apply performs_or_not_found, performs_Get.
Qed.

Lemma performs_pods_loop object pods : performs ok (pods_loop (W := W) object pods).
Proof. induction pods as [|p pods IH]; cbn [pods_loop]; follow. apply performs_owner_refs. Qed.

Lemma performs_hasOidcAppsPods object : performs ok (hasOidcAppsPods (W := W) object).
Proof. unfold hasOidcAppsPods. follow. apply performs_pods_loop. Qed.

Lemma performs_delete_all k what items : performs ok (delete_all (W := W) k what items).
Proof. unfold delete_all. follow. apply performs_unless_not_found, performs_Delete. Qed.

Lemma performs_fetch_owned k sel object : performs ok (fetch_owned (W := W) k sel object).
Proof. unfold fetch_owned. follow. apply performs_or_not_found, performs_List. Qed.

Lemma performs_deleteOwned object : performs ok (deleteOwnedResources (W := W) object).
Proof.
  unfold deleteOwnedResources. follow; first [apply performs_fetch_owned | apply performs_delete_all].
Qed.

Lemma performs_cleanup c name controller object :
  performs ok (cleanupRegistrySecretIfLastTarget (W := W) c name controller object).
Proof.
  unfold cleanupRegistrySecretIfLastTarget, hasMatchedTargetInNamespace.
  follow; first [apply performs_any_other | apply performs_unless_not_found, performs_Delete].
Qed.

Lemma performs_patch_vpa rc object : performs ok (patch_vpa_if_registered (W := W) rc object).
Proof. unfold patch_vpa_if_registered, patchVpa. follow. Qed.

End Readers.

#[export] Hint Resolve performs_Match performs_Resolve performs_hasOidcAppsPods performs_deleteOwned performs_cleanup
  performs_patch_vpa : performs.

(** ** The objects written *)

Section Writers.
Context {W : Type} `{ClientWrites W} `{!VendorLaws} `{OSEnv} `{Yaml3}.

Lemma in_cache_labels sel k m m' : Labels m = Labels m' -> in_cache sel k m = in_cache sel k m'.
Proof. intros E. unfold in_cache. by destruct k; rewrite ?E. Qed.

Lemma relabel_cached k m l :
  In k [KSecret; KService; KHTTPRoute; KGateway] ->
  in_cache cache_selector k (relabel (map_copy component_labels l) m) = labels_agree l.
Proof.
  intros Hk. assert (E : in_cache cache_selector k (relabel (map_copy component_labels l) m) =
    bool_decide (map_copy component_labels l !! constants.LabelKey = Some constants.LabelValue))
    by (by destruct Hk as [<-|[<-|[<-|[<-|[]]]]]).
  rewrite E, map_copy_lookup. unfold labels_agree. destruct (map_get l constants.LabelKey) as [v|]; [|by apply bool_decide_eq_true].
  destruct (String.eqb_spec v constants.LabelValue) as [->|Hne]; [by apply bool_decide_eq_true|].
  apply bool_decide_eq_false. congruence.
Qed.

Lemma route_with_cached route rc host backend :
  in_cache cache_selector KHTTPRoute (HTTPRoute_Meta (route_with route rc host backend)) = labels_agree (GetHTTPRouteLabels rc).
Proof. apply (relabel_cached KHTTPRoute). by right; right; left. Qed.

Lemma gateway_cached conf gw :
  in_cache cache_selector KGateway (Gateway_Meta (mutate_gateway conf gw)) = labels_agree (Gateway_Labels conf).
Proof.
  rewrite <- (relabel_cached KGateway (Gateway_Meta gw)) by (by right; right; right; left). by apply in_cache_labels.
Qed.

Lemma secret_cached value (s : Secret) :
  Labels (Secret_Meta s) = Some (secret_labels value) -> visible KSecret s.
Proof. intros E. unfold visible. cbn. rewrite E. by apply bool_decide_eq_true. Qed.

(** What is not under a finalizer update: an owned object is written as its
    mutation leaves it, with one more owner. *)
Lemma performs_owned labels owner k (obj : kobj k) mutate :
  (forall y x (u u' : W), mutate y u = (Ret x, u') -> labelled_by labels k x) ->
  (forall y, performs (labelled_by labels) (mutate y)) ->
  performs (labelled_by labels) (reconcileOwnedResource (W := W) owner k obj mutate).
Proof.
  intros Hx Hp. unfold reconcileOwnedResource. follow. apply performs_CreateOrUpdate.
  - intros y u x u' Hm. apply M_bind_inv in Hm as (z & u1 & Hz & Hm). apply lift_inv in Hm as [Ho _].
    apply set_owner_spec in Ho as (refs & -> & _). destruct (Hx _ _ _ _ Hz) as (l & Hl & E).
    exists l. split; [done|]. rewrite <- E, meta_of_set_meta. by apply in_cache_labels.
  - intros y. follow.
Qed.

(** The mutations that make no calls. *)
Lemma performs_owned_pure labels owner k (obj : kobj k) (mutate : kobj k -> outcome (kobj k)) :
  (forall y x, mutate y = Ret x -> labelled_by labels k x) ->
  performs (labelled_by labels) (reconcileOwnedResource (W := W) owner k obj (fun y => lift (mutate y))).
Proof.
  intros Hx. apply performs_owned; [|intros y; follow]. intros y x u u' [Hm _]%lift_inv. by eapply Hx.
Qed.

Lemma labelled_visible labels k (o : kobj k) : labels k None -> visible k o -> labelled_by labels k o.
Proof. intros Hl Hv. by exists None. Qed.

Lemma performs_random_loop ok n b : performs ok (random_loop (W := W) n b).
Proof. revert b. induction n as [|n IH]; intros b; cbn [random_loop]; follow. Qed.

Section Workload.
Context (c : OIDCAppsControllerConfig).
#[local] Abbreviation ok := (labelled_by (workload_labels c)).

Lemma Resolve_labels o rc (w w' : W) :
  Resolve (Some c) o w = (Ret rc, w') -> workload_labels c KHTTPRoute (GetHTTPRouteLabels rc).
Proof.
  unfold Resolve. rewrite (M_bind_ret _ _ _ _ _ (FetchTarget_head w c o)). intros [-> _]%mret_inv.
  unfold GetHTTPRouteLabels. cbn [rc_target].
  destruct (List.filter (selectsb w c o) (Targets c)) as [|t l] eqn:Ef; [by left|].
  change (default emptyTarget _) with t. destruct (Target_HTTPRoute t) as [r|] eqn:Er; [|by left]. right. exists t, r. split; [|by split].
  assert (Hin : In t (List.filter (selectsb w c o) (Targets c))) by (rewrite Ef; by left). by apply filter_In in Hin as [? _].
Qed.

Lemma performs_oauth2_secret rc object : performs ok (reconcile_oauth2_secret (W := W) rc object).
Proof.
  unfold reconcile_oauth2_secret. apply performs_wrap, performs_owned.
  - intros y x u u' Hm. apply mutateOauth2Secret_inv in Hm as [[cookie ->] _].
    by apply labelled_visible, (secret_cached constants.Oauth2LabelValue).
  - intros y. unfold mutateOauth2Secret, GenerateRandomString. follow. apply performs_random_loop.
Qed.

Lemma performs_string_data owner obj (mutate : Secret -> outcome Secret) :
  (forall y x, mutate y = Ret x -> exists label key value, x = with_string_data label key value y) ->
  performs ok (reconcileOwnedResource (W := W) owner KSecret obj (fun s => lift (mutate s))).
Proof.
  intros Hm. apply (performs_owned_pure _ _ KSecret). intros y x (label & key & value & ->)%Hm.
  by apply labelled_visible, (secret_cached label).
Qed.

Lemma performs_other_secrets rc object : performs ok (reconcile_other_secrets (W := W) rc object).
Proof.
  unfold reconcile_other_secrets. follow.
  - apply (performs_string_data _ _ (fun s => Ret _)). intros y z [= <-]. by do 3 eexists.
  - apply (performs_string_data _ _ (fun s => mutateKubeconfigSecret s rc)).
    intros y z (text & cfg & _ & _ & ->)%mutateKubeconfigSecret_inv. by do 3 eexists.
  - apply (performs_string_data _ _ (fun s => Ret _)). intros y z [= <-]. by do 3 eexists.
Qed.

Lemma performs_service owner obj mutate :
  (forall y x (u u' : W), mutate y u = (Ret x, u') -> exists selectors, x = mutateOauth2Service y selectors) ->
  (forall y, performs ok (mutate y)) -> performs ok (reconcileOwnedResource (W := W) owner KService obj mutate).
Proof.
  intros Hm. apply (performs_owned _ _ KService). intros y x u u' [sel ->]%Hm.
  apply labelled_visible; [done|]. by apply bool_decide_eq_true.
Qed.

Lemma performs_route owner obj mutate rc (w w' : W) o :
  Resolve (Some c) o w = (Ret rc, w') ->
  (forall y x, mutate y = Ret x -> exists host backend, x = route_with y rc host backend) ->
  performs ok (reconcileOwnedResource (W := W) owner KHTTPRoute obj (fun y => lift (mutate y))).
Proof.
  intros Hr Hm. apply (performs_owned_pure _ _ KHTTPRoute). intros y x (host & backend & ->)%Hm.
  exists (GetHTTPRouteLabels rc). split; [by eapply Resolve_labels|apply route_with_cached].
Qed.

Lemma pod_route_with route pod rc x :
  mutateHTTPRouteForStatefulSetPod route pod rc = Ret x -> exists host backend, x = route_with route rc host backend.
Proof.
  unfold mutateHTTPRouteForStatefulSetPod. destruct (map_get _ constants.AnnotationHostKey) as [hp|]; [|done].
  destruct (Cut hp ".") as [[host domain] f]. intros [= <-]. by do 2 eexists.
Qed.

Lemma performs_deployment_dependencies d : performs ok (reconcileDeploymentDependencies (W := W) (Some c) d).
Proof.
  unfold reconcileDeploymentDependencies, reconcileHTTPRouteForDeployment. follow.
  - apply performs_oauth2_secret.
  - apply performs_service; [|intros y; follow]. intros y z u u'. destruct (GetTargetLabelSelector _); [|done].
    intros [= <- _]. by eexists.
  - apply performs_other_secrets.
  - eapply (performs_route _ _ (fun r => Ret (mutateHTTPRouteForDeployment r _ _))); [done|].
    intros y r [= <-]. by do 2 eexists.
Qed.

Lemma performs_statefulset_dependencies s : performs ok (reconcileStatefulSetDependencies (W := W) (Some c) s).
Proof.
  unfold reconcileStatefulSetDependencies. follow; [apply performs_oauth2_secret| |apply performs_other_secrets].
  unfold reconcile_pod, reconcileHTTPRouteForStatefulSetPod. follow.
  - apply performs_service; [|intros y; follow]. intros y r u u' [= <- _]. by eexists.
  - match goal with Hr : Resolve _ (StatefulSetObject s) _ = _ |- _ =>
      apply (performs_route _ _ (fun r => mutateHTTPRouteForStatefulSetPod r _ _) _ _ _ _ Hr) end.
    intros y r. apply pod_route_with.
Qed.

Lemma performs_ensureRegistrySecret name controller ns : performs ok (ensureRegistrySecret (W := W) name controller ns).
Proof.
  unfold ensureRegistrySecret. follow. apply performs_Create, labelled_visible; [done|].
  by apply (secret_cached constants.RegistrySecretLabelValue).
Qed.

Lemma performs_workload d object dependencies :
  Reconciler_Config d = Some c -> performs ok dependencies ->
  performs ok (reconcile_workload (W := W) d object dependencies).
Proof. intros Hc Hd. unfold reconcile_workload. follow. apply performs_ensureRegistrySecret. Qed.

End Workload.

Lemma performs_gateway g : performs (labelled_by (gateway_labels g)) (GatewayReconciler_Reconcile (W := W) g).
Proof.
  unfold GatewayReconciler_Reconcile, reconcileGateway, cleanupOrphanedGateway. follow.
  apply performs_CreateOrUpdate; [|intros y; follow]. intros y u x u' [-> _]%mret_inv.
  eexists. split; [by eexists|]. apply gateway_cached.
Qed.

Lemma or_not_found_inv {A} (z : A) (m : M W A) x w w' : or_not_found z m w = (Ret x, w') -> fst (m w) = Ret x \/ x = z.
Proof.
  unfold or_not_found, mbind, M_bind, try_. destruct (m w) as [[a|e|p] u]; [|destruct (IgnoreNotFound e)|]; try done.
  - intros [= -> _]. by left.
  - intros [= -> _]. by right.
Qed.

Lemma finalizers_visible m (s : Secret) :
  Labels m = Labels (Secret_Meta s) -> visible KSecret s -> visible KSecret (set_secret_meta m s).
Proof. intros E Hv. unfold visible in *. rewrite <- Hv. apply in_cache_labels. exact E. Qed.

Lemma performs_image_pull r request :
  SecretName r <> EmptyString -> reads_cached (W := W) ->
  performs (visible (W := W)) (ImagePullSecretReconciler_Reconcile (W := W) r request).
Proof.
  intros Hn Hc. unfold ImagePullSecretReconciler_Reconcile. apply performs_bind; [by apply performs_or_not_found, performs_Get|].
  intros s w w' Hs. destruct (String.eqb (Name (Secret_Meta s)) (SecretName r)) eqn:En; cbn [negb]; [|follow].
  assert (Hv : visible KSecret s).
  { apply or_not_found_inv in Hs as [Hg| ->]; [by eapply Hc|]. apply String.eqb_eq in En. by destruct Hn. }
  assert (Hm : forall f b m, AddFinalizer (Secret_Meta s) f = (b, m) -> visible KSecret (set_secret_meta m s)).
  { intros f b m E. apply finalizers_visible; [|exact Hv]. pose proof (AddFinalizer_spec (Secret_Meta s) f) as Ha.
    rewrite E in Ha. by destruct (ContainsFinalizer (Secret_Meta s) f); injection Ha as _ ->. }
  unfold deletePropagatedSecrets. follow.
  - by apply performs_unless_not_found, performs_Delete.
  - apply performs_Update, finalizers_visible; [by rewrite RemoveFinalizer_spec|exact Hv].
  - apply performs_Update. by eapply Hm.
  - apply (performs_List _ KSecret).
  - apply performs_Update. match goal with
    | Hl : cl_List _ _ ?u = (Ret ?l, _), Hi : In ?t ?l |- _ =>
        apply (list_spec KSecret _ u l (f_equal fst Hl)) in Hi as (_ & _ & Hi); exact Hi
    end.
Qed.

End Writers.

(** ** The property *)

Section CacheTheorem.
Context {W : Type} `{ClientWrites W} `{!VendorLaws} `{OSEnv} `{Yaml3}.

(** C17. What the controller writes through its cached client it can read
    again, unless configured labels override the component label.  Every
    reconcile, errors and panics included, is a sequence of client calls
    whose written objects are the following.  The workload reconcilers write
    secrets, services and registry copies that are in the cache, and routes
    that are there exactly when the labels of a target (or none) agree with
    the component label, the labels of the target that the workload resolves
    to.  The refreshed copies and the finalizers of the source registry
    secret, which has a name, are written to secrets in the cache, when reads
    come from it.  The managed Gateway is in the cache exactly when its
    configured labels agree.  An object outside the cache is never pruned,
    and a Gateway outside it never counts as an orphan.  The autoscalers get
    an empty patch, which changes no object. *)
Theorem managed_objects_cached (c : OIDCAppsControllerConfig) (d : WorkloadReconciler) (r : ImagePullSecretReconciler)
    (g : GatewayReconciler) (request : NamespacedName) (w : W) :
  (Reconciler_Config d = Some c ->
     calls (labelled_by (workload_labels c)) w (snd (DeploymentReconciler_Reconcile d request w)) /\
     calls (labelled_by (workload_labels c)) w (snd (StatefulSetReconciler_Reconcile d request w))) /\
  (forall rc route, let agree := labels_agree (GetHTTPRouteLabels rc) in
     (forall object, in_cache cache_selector KHTTPRoute (HTTPRoute_Meta (mutateHTTPRouteForDeployment route object rc)) = agree) /\
     (forall pod route', mutateHTTPRouteForStatefulSetPod route pod rc = Ret route' ->
        in_cache cache_selector KHTTPRoute (HTTPRoute_Meta route') = agree)) /\
  (SecretName r <> EmptyString -> reads_cached (W := W) ->
     calls visible w (snd (ImagePullSecretReconciler_Reconcile r request w))) /\
  calls (labelled_by (gateway_labels g)) w (snd (GatewayReconciler_Reconcile g w)) /\
  (forall k (o : kobj k), ~ visible k o ->
     (forall object, ~ prunable object k o) /\ (forall ns, k = KGateway -> ~ orphan ns (meta_of k o))) /\
  (forall rc object k key, view (snd (patchVpa rc object w)) k key = view w k key).
Proof.
  split; [|split; [|split; [|split; [|split]]]].
  - intros Hc. split.
    + revert w. apply performs_bind; [by apply performs_or_not_found, (performs_Get _ KDeployment)|].
      intros o u u' _. apply performs_workload; [done|]. rewrite Hc. apply performs_deployment_dependencies.
    + revert w. apply performs_bind; [by apply performs_or_not_found, (performs_Get _ KStatefulSet)|].
      intros o u u' _. apply performs_workload; [done|]. rewrite Hc. apply performs_statefulset_dependencies.
  - intros rc route. split; [intros object; apply route_with_cached|].
    intros pod route' (host & backend & ->)%pod_route_with. apply route_with_cached.
  - intros Hn Hr. by apply performs_image_pull.
  - apply performs_gateway.
  - intros k o Hv. split.
    + intros object (sel & Hk & Hs & _). apply Hv. by eapply prune_selector_cached.
    + intros ns -> [_ Hl]. apply Hv, bool_decide_eq_true. by apply Hl.
  - intros rc object k key. apply patchVpa_view.
Qed.

End CacheTheorem.

(** ** Witnesses on the reference instance *)

#[local] Existing Instances Ref.vendor Ref.vendor_laws Ref.client Ref.client_reads Ref.client_writes Ref.env
  ControllerExamples.yaml3.

Module CacheExamples.

(** A Gateway whose labels name another manager, and the same without. *)
Definition overriding : GatewayReconciler :=
  mkGatewayReconciler "oidc-system"
    (Some (mkGatewayGlobalConf true EmptyString "envoy" [GatewayExamples.listener] None
             (Some {[ constants.LabelKey := "mine" ]}) None)).

Definition agreeing : GatewayReconciler := mkGatewayReconciler "oidc-system" (Some GatewayExamples.conf).

Definition managed : NamespacedName := mkNN "oidc-system" constants.ManagedGatewayName.

Definition twice (g : GatewayReconciler) : outcome bool * Ref.cluster :=
  GatewayReconciler_Reconcile g (snd (GatewayReconciler_Reconcile g Ref.empty_cluster)).

Definition invisible : GatewayResource :=
  mkGateway (set_labels (Some {[ constants.LabelKey := "mine" ]}) (nameMeta constants.ManagedGatewayName "oidc-system"))
    "envoy" [] None.

End CacheExamples.

(** With an override the first reconcile creates the Gateway, the controller
    cannot read it, and every later reconcile fails because it exists. *)
Example override_loses_gateway :
  let w := snd (GatewayReconciler_Reconcile CacheExamples.overriding Ref.empty_cluster) in
  (exists gw, view w KGateway CacheExamples.managed = Some gw) /\
  fst (cl_Get KGateway CacheExamples.managed w) = Err Ref.not_found /\
  (forall b, fst (CacheExamples.twice CacheExamples.overriding) <> Ret b) /\
  fst (CacheExamples.twice CacheExamples.agreeing) = Ret true.
Proof.
  cbv zeta. split; [eexists; vm_compute; reflexivity|]. split; [vm_compute; reflexivity|].
  split; [intros b; vm_compute; discriminate|vm_compute; reflexivity].
Qed.

Lemma reads_cached_reference : reads_cached (W := Ref.cluster).
Proof.
  intros k key w o. cbn. unfold Ref.get, Ref.lookup. destruct (Ref.find w k key) as [x|]; [|done].
  destruct (Ref.cached k (meta_of k x)) eqn:E; [|done]. intros [= ->]. exact E.
Qed.

Lemma managed_objects_cached_witness :
  let deployment := DeploymentReconciler_Reconcile WorkloadExamples.reconciler WorkloadExamples.request in
  let image_pull := ImagePullSecretReconciler_Reconcile RegistryExamples.reconciler (mkNN "oidc-system" "regcred") in
  calls (labelled_by (workload_labels ControllerExamples.config)) WorkloadExamples.cluster
    (snd (deployment WorkloadExamples.cluster)) /\
  calls visible WorkloadExamples.cluster (snd (image_pull WorkloadExamples.cluster)) /\
  ~ orphan "oidc-system" (meta_of KGateway CacheExamples.invisible).
Proof.
  destruct (managed_objects_cached ControllerExamples.config WorkloadExamples.reconciler RegistryExamples.reconciler
              CacheExamples.overriding WorkloadExamples.request WorkloadExamples.cluster) as (Hd & _ & _ & _ & Ho & _).
  destruct (managed_objects_cached ControllerExamples.config WorkloadExamples.reconciler RegistryExamples.reconciler
              CacheExamples.overriding (mkNN "oidc-system" "regcred") WorkloadExamples.cluster) as (_ & _ & Hi & _).
  cbv zeta. split; [exact (proj1 (Hd eq_refl))|]. split.
  - apply Hi; [discriminate|exact reads_cached_reference].
  - apply (Ho KGateway CacheExamples.invisible); [discriminate|reflexivity].
Defined.
