(* ===== verification/Watcher.v ===== *)
(** * The configuration watcher: arguments and hashes

    [pkg/watcher/parameters/parameters.go], the command line of the watcher,
    and [pkg/watcher/hashcalc/hashcalc.go], the hash of the watched
    directory. *)

From stdpp Require Import sorting.
From S2P Require Import Prelude GoStrings Sha256 RandUtils.

(** ** [parameters.go] *)

Record Parameters := mkParameters {
  CmdLine : string;
  CmdLineArgs : list string;
  WatchedDir : string;
  LogLevel : string;
  LogFormat : string }.

Definition defaultWatchedDir : string := "/etc/kube-rbac-proxy".
Definition watchedDirParam : string := "--watched-dir=".
Definition defaultCmdLine : string := "/usr/local/bin/kube-rbac-proxy".
Definition cmdLineParam : string := "--cmd-line=".
Definition logLevelParam : string := "--log-level=".
Definition logFormatParam : string := "--log-format=".

(** [indexOf]; [None] is minus one. *)
Fixpoint indexOf (params : list string) (str : string) : option nat :=
  match params with
  | [] => None
  | arg :: params' => if Contains arg str then Some 0 else S <$> indexOf params' str
  end.

(** [params[low:high]]; out of range panics. *)
Definition slice {A} (l : list A) (low high : nat) : outcome (list A) :=
  if Nat.leb low high && Nat.leb high (length l) then Ret (take (high - low) (drop low l))
  else Panic "slice bounds out of range".

(** The first loop: the log parameters are taken out. *)
Fixpoint log_params (params : list string) (level format : string) : string * string * list string :=
  match params with
  | [] => (level, format, [])
  | p :: params' =>
      if HasPrefix p logLevelParam then log_params params' (TrimPrefix p logLevelParam) format
      else if HasPrefix p logFormatParam then log_params params' level (TrimPrefix p logFormatParam)
      else let '(l, f, rest) := log_params params' level format in (l, f, p :: rest)
  end.

Definition watched_dir (params : list string) (watchedDirIndex : option nat) : string :=
  match watchedDirIndex with
  | Some i => TrimSuffix (TrimPrefix (nth i params EmptyString) watchedDirParam) "/"
  | None => defaultWatchedDir
  end.

Definition Parameters_Parse (params : list string) : outcome Parameters :=
  let '(level, format, params) := log_params params "info" "json" in
  let cmdLineIndex := indexOf params cmdLineParam in
  let watchedDirIndex := indexOf params watchedDirParam in
  let dir := watched_dir params watchedDirIndex in
  match cmdLineIndex, watchedDirIndex with
  | None, None =>
      args ← (if Nat.ltb 1 (length params) then slice params 1 (length params) else Ret []);
      Ret (mkParameters defaultCmdLine args dir level format)
  | None, Some w =>
      beforeWatched ← slice params 1 w;
      afterWatched ← slice params (w + 1) (length params);
      Ret (mkParameters defaultCmdLine (beforeWatched ++ afterWatched) dir level format)
  | Some c, w =>
      let cmdLine := TrimPrefix (nth c params EmptyString) cmdLineParam in
      args ← (match w with
              | Some w => if Nat.ltb c w then slice params (c + 1) w else slice params (c + 1) (length params)
              | None => slice params (c + 1) (length params)
              end);
      Ret (mkParameters cmdLine args dir level format)
  end.

(** ** [hashcalc.go] *)

(** What the file system shows under a name of the watched directory. *)
Inductive entry : Type :=
| Directory
| Unreadable
| File (content : string).

(** [getFileSha256]: the empty string for what is not hashed. *)
Definition getFileSha256 (e : entry) : string :=
  match e with
  | Directory | Unreadable => EmptyString
  | File content => GenerateFullSha256 content
  end.

(** The values stored in [filesMap]: a directory has each name once. *)
Definition file_hashes (dir : list (string * entry)) : list string :=
  List.filter (fun h => negb (String.eqb h EmptyString)) (map (fun f => getFileSha256 f.2) dir).

(** [strings.Join(hashes, "")] *)
Definition concat_all (l : list string) : string := Join l EmptyString.

(** [getTotalHash]; [None] is a directory that cannot be read, and [range] is
    the order in which [sync.Map.Range] visits what the goroutines stored. *)
Definition getTotalHash (range : list string -> list string) (dir : option (list (string * entry))) : string :=
  match dir with
  | None => EmptyString
  | Some files => GenerateFullSha256 (concat_all (merge_sort String.le (range (file_hashes files))))
  end.

(** ** Specifications *)

(** An argument that none of the parameters' names occurs in. *)
Definition plain (arg : string) : bool :=
  negb (HasPrefix arg logLevelParam) && negb (HasPrefix arg logFormatParam) &&
  negb (Contains arg cmdLineParam) && negb (Contains arg watchedDirParam).

(** The order in which a map is ranged over does not add or lose values. *)
Definition is_range (range : list string -> list string) : Prop := forall l, range l ≡ₚ l.

(** ** Lemmas on the arguments *)

Lemma log_params_plain args level format :
  forallb plain args = true -> log_params args level format = (level, format, args).
Proof.
  unfold plain. induction args as [|a args IH]; [done|]. cbn [forallb log_params]. intros [Ha Hs]%andb_prop.
  repeat apply andb_prop in Ha as [Ha ?]. destruct (HasPrefix a logLevelParam); [done|].
  destruct (HasPrefix a logFormatParam); [done|]. by rewrite IH.
Qed.

Lemma log_params_app args rest level format :
  forallb plain args = true ->
  log_params (args ++ rest) level format =
  let '(l, f, r) := log_params rest level format in (l, f, args ++ r).
Proof.
  unfold plain. induction args as [|a args IH]; cbn [forallb log_params app].
  - by destruct (log_params rest level format) as [[l f] r].
  - intros [Ha Hs]%andb_prop. repeat apply andb_prop in Ha as [Ha ?]. destruct (HasPrefix a logLevelParam); [done|].
    destruct (HasPrefix a logFormatParam); [done|]. rewrite IH by done.
    by destruct (log_params rest level format) as [[l f] r].
Qed.

Lemma indexOf_app args rest s :
  forallb (fun a => negb (Contains a s)) args = true ->
  indexOf (args ++ rest) s = (fun i => length args + i) <$> indexOf rest s.
Proof.
  induction args as [|a args IH]; cbn [forallb indexOf app length].
  - intros _. by destruct (indexOf rest s).
  - intros [Ha Hs]%andb_prop. apply negb_true_iff in Ha. rewrite Ha, IH by done. by destruct (indexOf rest s).
Qed.

Lemma plain_no_param args s :
  s = cmdLineParam \/ s = watchedDirParam -> forallb plain args = true ->
  forallb (fun a => negb (Contains a s)) args = true.
Proof.
  intros Hs. rewrite !forallb_forall. intros Hall a Ha. specialize (Hall a Ha). unfold plain in Hall.
  apply andb_prop in Hall as [Hall Hw]. apply andb_prop in Hall as [_ Hc]. by destruct Hs as [->| ->].
Qed.

Lemma slice_all {A} (l : list A) low : low <= length l -> slice l low (length l) = Ret (drop low l).
Proof.
  intros Hl. unfold slice. rewrite (proj2 (Nat.leb_le _ _) Hl), Nat.leb_refl. cbn [andb]. f_equal.
  apply take_ge. rewrite length_drop. lia.
Qed.

Lemma slice_middle {A} (a b c : list A) : slice (a ++ b ++ c) (length a) (length a + length b) = Ret b.
Proof.
  unfold slice. rewrite (proj2 (Nat.leb_le _ _)) by lia. rewrite (proj2 (Nat.leb_le _ _)) by (rewrite !length_app; lia).
  cbn [andb]. rewrite drop_app_length. replace (length a + length b - length a) with (length b) by lia.
  by rewrite take_app_length.
Qed.

Lemma HasPrefix_Contains s p : HasPrefix s p = true -> Contains s p = true.
Proof. intros Hp. destruct s; cbn [Contains]; by rewrite Hp. Qed.

Lemma Contains_param p s : Contains (p +:+ s) p = true.
Proof. apply HasPrefix_Contains, HasPrefix_app. Qed.

Lemma plain_parts a :
  plain a = true -> HasPrefix a logLevelParam = false /\ HasPrefix a logFormatParam = false /\
    Contains a cmdLineParam = false /\ Contains a watchedDirParam = false.
Proof. unfold plain. rewrite !andb_true_iff, !negb_true_iff. tauto. Qed.

(** The two parameters as arguments. *)
Definition cmd_arg (cmd : string) : string := cmdLineParam +:+ cmd.
Definition dir_arg (dir : string) : string := watchedDirParam +:+ dir.

Section Parse.
Context (cmd dir : string).
Hypothesis Hcmd : Contains (cmd_arg cmd) watchedDirParam = false.
Hypothesis Hdir : Contains (dir_arg dir) cmdLineParam = false.

Lemma indexOf_cmd l rest : forallb plain l = true -> indexOf (l ++ cmd_arg cmd :: rest) cmdLineParam = Some (length l).
Proof.
  intros Hl. rewrite indexOf_app by (apply plain_no_param; tauto). cbn [indexOf]. unfold cmd_arg.
  rewrite Contains_param. cbn. by rewrite Nat.add_0_r.
Qed.

Lemma indexOf_dir l rest : forallb plain l = true -> indexOf (l ++ dir_arg dir :: rest) watchedDirParam = Some (length l).
Proof.
  intros Hl. rewrite indexOf_app by (apply plain_no_param; tauto). cbn [indexOf]. unfold dir_arg.
  rewrite Contains_param. cbn. by rewrite Nat.add_0_r.
Qed.

Lemma indexOf_skip (l : list string) x rest s :
  (s = cmdLineParam \/ s = watchedDirParam) -> forallb plain l = true -> Contains x s = false ->
  indexOf (l ++ x :: rest) s = (fun i => length l + S i) <$> indexOf rest s.
Proof.
  intros Hs Hl Hx. rewrite indexOf_app by (by apply plain_no_param). cbn [indexOf]. rewrite Hx.
  by destruct (indexOf rest s).
Qed.

Lemma indexOf_plain l s : (s = cmdLineParam \/ s = watchedDirParam) -> forallb plain l = true -> indexOf l s = None.
Proof. intros Hs Hl. pose proof (indexOf_app l [] s (plain_no_param l s Hs Hl)) as E. by rewrite app_nil_r in E. Qed.

Lemma nth_app_head {A} (l : list A) x r d : nth (length l) (l ++ x :: r) d = x.
Proof. rewrite app_nth2 by lia. by rewrite Nat.sub_diag. Qed.

Lemma trimmed_dir l rest : forallb plain l = true -> watched_dir (l ++ dir_arg dir :: rest) (Some (length l)) = TrimSuffix dir "/".
Proof. intros _. unfold watched_dir. rewrite nth_app_head. unfold dir_arg. by rewrite TrimPrefix_app. Qed.

Lemma cmd_arg_kept level format rest :
  log_params (cmd_arg cmd :: rest) level format =
  let '(l, f, r) := log_params rest level format in (l, f, cmd_arg cmd :: r).
Proof. done. Qed.

Lemma dir_arg_kept level format rest :
  log_params (dir_arg dir :: rest) level format =
  let '(l, f, r) := log_params rest level format in (l, f, dir_arg dir :: r).
Proof. done. Qed.

Context (prog : string) (args after : list string).
Hypothesis Hprog : plain prog = true.
Hypothesis Hargs : forallb plain args = true.
Hypothesis Hafter : forallb plain after = true.

Lemma Parse_cmd_dir :
  Parameters_Parse (prog :: cmd_arg cmd :: args ++ dir_arg dir :: after) =
  Ret (mkParameters cmd args (TrimSuffix dir "/") "info" "json").
Proof.
  unfold Parameters_Parse. pose proof (log_params_app [prog] (cmd_arg cmd :: args ++ dir_arg dir :: after) "info" "json") as E.
  cbn [forallb app] in E. rewrite E by (by rewrite Hprog). rewrite cmd_arg_kept, log_params_app by done.
  rewrite dir_arg_kept, log_params_plain by done. cbn [app].
  change (prog :: cmd_arg cmd :: args ++ dir_arg dir :: after) with ([prog] ++ cmd_arg cmd :: args ++ dir_arg dir :: after).
  rewrite indexOf_cmd by (cbn; by rewrite Hprog).
  rewrite indexOf_skip by (try tauto; cbn; by rewrite ?Hprog). rewrite indexOf_dir by done. cbn [length fmap option_fmap option_map Nat.ltb Nat.leb].
  cbn [app nth]. unfold cmd_arg at 1. rewrite TrimPrefix_app.
  change (S (S (length args))) with (length [prog; cmd_arg cmd] + length args).
  change (prog :: cmd_arg cmd :: args ++ dir_arg dir :: after) with ([prog; cmd_arg cmd] ++ args ++ dir_arg dir :: after).
  pose proof (slice_middle [prog; cmd_arg cmd] args (dir_arg dir :: after)) as Es.
  cbn [length Nat.add] in *. rewrite Es. cbn [mbind outcome_bind]. f_equal. f_equal.
  unfold watched_dir. cbn [nth app]. rewrite nth_app_head. unfold dir_arg. by rewrite TrimPrefix_app.
Qed.

Lemma Parse_dir_cmd :
  Parameters_Parse (prog :: dir_arg dir :: args ++ cmd_arg cmd :: after) =
  Ret (mkParameters cmd after (TrimSuffix dir "/") "info" "json").
Proof.
  unfold Parameters_Parse. pose proof (log_params_app [prog] (dir_arg dir :: args ++ cmd_arg cmd :: after) "info" "json") as E.
  cbn [forallb app] in E. rewrite E by (by rewrite Hprog). rewrite dir_arg_kept, log_params_app by done.
  rewrite cmd_arg_kept, log_params_plain by done. cbn [app].
  change (prog :: dir_arg dir :: args ++ cmd_arg cmd :: after) with ([prog] ++ dir_arg dir :: args ++ cmd_arg cmd :: after).
  rewrite indexOf_dir by (cbn; by rewrite Hprog).
  rewrite indexOf_skip by (try tauto; cbn; by rewrite ?Hprog). rewrite indexOf_cmd by done.
  cbn [length fmap option_fmap option_map Nat.ltb Nat.leb Nat.add].
  change ([prog] ++ dir_arg dir :: args ++ cmd_arg cmd :: after) with ([prog; dir_arg dir] ++ args ++ cmd_arg cmd :: after).
  rewrite slice_all by (rewrite length_app; cbn; rewrite length_app; cbn; lia).
  replace (S (S (length args + 1))) with (length ([prog; dir_arg dir] ++ args ++ [cmd_arg cmd]))
    by (rewrite !length_app; cbn; lia).
  replace ([prog; dir_arg dir] ++ args ++ cmd_arg cmd :: after) with (([prog; dir_arg dir] ++ args ++ [cmd_arg cmd]) ++ after)
    by (by rewrite <- !app_assoc).
  rewrite drop_app_length. cbn [mbind outcome_bind]. f_equal. f_equal.
  - cbn [app nth]. rewrite <- app_assoc. cbn [app]. rewrite nth_app_head. unfold cmd_arg. by rewrite TrimPrefix_app.
  - unfold watched_dir. cbn [nth app]. unfold dir_arg. by rewrite TrimPrefix_app.
Qed.

Lemma Parse_dir_only :
  Parameters_Parse (prog :: args ++ dir_arg dir :: after) =
  Ret (mkParameters defaultCmdLine (args ++ after) (TrimSuffix dir "/") "info" "json").
Proof.
  unfold Parameters_Parse. change (prog :: args ++ dir_arg dir :: after) with ((prog :: args) ++ dir_arg dir :: after).
  assert (Hl : forallb plain (prog :: args) = true) by (cbn [forallb]; by rewrite Hprog, Hargs).
  rewrite log_params_app by done. rewrite dir_arg_kept, log_params_plain by done.
  rewrite indexOf_dir, indexOf_skip by (done || tauto). rewrite indexOf_plain by (done || tauto).
  cbn [fmap option_fmap option_map].
  assert (Es : slice ((prog :: args) ++ dir_arg dir :: after) 1 (length (prog :: args)) = Ret args)
    by exact (slice_middle [prog] args (dir_arg dir :: after)).
  rewrite Es. cbn [mbind outcome_bind]. rewrite slice_all by (rewrite length_app; cbn; lia).
  assert (Ed : drop (length (prog :: args) + 1) ((prog :: args) ++ dir_arg dir :: after) = after).
  { replace (length (prog :: args) + 1) with (length ((prog :: args) ++ [dir_arg dir])) by (rewrite length_app; cbn; lia).
    change ((prog :: args) ++ dir_arg dir :: after) with ((prog :: args) ++ [dir_arg dir] ++ after).
    by rewrite app_assoc, drop_app_length. }
  rewrite Ed. cbn [mbind outcome_bind]. f_equal. f_equal. by apply (trimmed_dir (prog :: args) after).
Qed.

Lemma Parse_plain_args :
  Parameters_Parse (prog :: args) = Ret (mkParameters defaultCmdLine args defaultWatchedDir "info" "json").
Proof.
  assert (Hl : forallb plain (prog :: args) = true) by (cbn [forallb]; by rewrite Hprog, Hargs).
  unfold Parameters_Parse. rewrite log_params_plain by done. rewrite !indexOf_plain by (done || tauto).
  destruct args as [|a args']; [done|]. change (Nat.ltb 1 (length (prog :: a :: args'))) with true. cbv iota.
  by rewrite slice_all by (cbn; lia).
Qed.

End Parse.

(** C23. The command line of the watcher.  With both parameters the child gets
    the given command and directory; its arguments are those between the
    two when the command comes first (what follows the directory is
    dropped), and those after the command when the directory comes first
    (what stands between is dropped).  With the directory only, the child
    gets all other arguments in order; with neither, all of them.  A
    directory parameter in the place of the program name panics. *)
Theorem Parse_command_line (cmd dir prog : string) (args after : list string) :
  Contains (cmd_arg cmd) watchedDirParam = false -> Contains (dir_arg dir) cmdLineParam = false ->
  plain prog = true -> forallb plain args = true -> forallb plain after = true ->
  let dir' := TrimSuffix dir "/" in
  Parameters_Parse (prog :: cmd_arg cmd :: args ++ dir_arg dir :: after) =
    Ret (mkParameters cmd args dir' "info" "json") /\
  Parameters_Parse (prog :: dir_arg dir :: args ++ cmd_arg cmd :: after) =
    Ret (mkParameters cmd after dir' "info" "json") /\
  Parameters_Parse (prog :: args ++ dir_arg dir :: after) =
    Ret (mkParameters defaultCmdLine (args ++ after) dir' "info" "json") /\
  Parameters_Parse (prog :: args) = Ret (mkParameters defaultCmdLine args defaultWatchedDir "info" "json") /\
  exists why, Parameters_Parse (dir_arg dir :: args) = Panic why.
Proof.
  intros Hcmd Hdir Hp Ha Haf. cbv zeta.
  split; [by apply Parse_cmd_dir|]. split; [by apply Parse_dir_cmd|]. split; [by apply Parse_dir_only|].
  split; [by apply Parse_plain_args|]. unfold Parameters_Parse. rewrite dir_arg_kept, log_params_plain by done.
  pose proof (indexOf_dir dir [] args eq_refl) as Ed. cbn [app length] in Ed. rewrite Ed.
  pose proof (indexOf_skip [] (dir_arg dir) args cmdLineParam (or_introl eq_refl) eq_refl Hdir) as Ec.
  cbn [app] in Ec. rewrite Ec, indexOf_plain by (done || tauto). cbn [fmap option_fmap option_map].
  unfold slice at 1. cbn. by eexists.
Qed.

(** ** The total hash *)

Definition contents (files : list (string * entry)) : list string :=
  omap (fun f => match f.2 with File c => Some c | _ => None end) files.

(** SHA-256 tells the listed strings apart. *)
Definition no_collision (l : list string) : Prop :=
  forall a b, In a l -> In b l -> GenerateFullSha256 a = GenerateFullSha256 b -> a = b.

(** The strings hashed for a directory. *)
Definition hashed (files : list (string * entry)) : list string :=
  concat_all (merge_sort String.le (file_hashes files)) :: contents files.

Lemma file_hashes_contents files : file_hashes files = map GenerateFullSha256 (contents files).
Proof.
  unfold file_hashes, contents. induction files as [|[name e] files IH]; [done|].
  cbn [map List.filter omap list_omap snd]. destruct e as [| |c]; [exact IH..|]. cbn [getFileSha256].
  destruct (String.eqb_spec (GenerateFullSha256 c) EmptyString) as [E|_]; [|by cbn [negb map]; rewrite IH].
  destruct (Sha256.hex_sha256_spec c) as [Hl _]. unfold GenerateFullSha256 in E. by rewrite E in Hl.
Qed.

Lemma sorted_unique (l l' : list string) : l ≡ₚ l' -> merge_sort String.le l = merge_sort String.le l'.
Proof.
  intros Hp. apply (Sorted_unique String.le); [apply (Sorted_merge_sort _)..|].
  by rewrite !merge_sort_Permutation.
Qed.

Lemma concat_all_cons x l : concat_all (x :: l) = x +:+ concat_all l.
Proof. unfold concat_all. destruct l; cbn [Join]; [by rewrite sapp_nil_r|done]. Qed.

Lemma concat_all_inj n l l' :
  Forall (fun s => String.length s = S n) l -> Forall (fun s => String.length s = S n) l' ->
  concat_all l = concat_all l' -> l = l'.
Proof.
  intros Hl. revert l'. induction Hl as [|x l Hx Hl IH]; intros [|y l'] Hl'; [done|..];
    rewrite ?concat_all_cons; intros E.
  - inversion_clear Hl' as [|? ? Hy _]. apply (f_equal String.length) in E. rewrite slength_app, Hy in E. discriminate E.
  - apply (f_equal String.length) in E. rewrite slength_app, Hx in E. discriminate E.
  - inversion_clear Hl' as [|? ? Hy Hl'']. assert (x = y) as ->.
    { apply (f_equal (string_take (S n))) in E. rewrite <- Hx in E at 1. rewrite <- Hy in E.
      by rewrite !string_take_app in E. }
    apply sapp_inj_l in E. f_equal. by apply IH.
Qed.

Lemma map_inj_on (f : string -> string) (l l' : list string) :
  (forall a b, In a (l ++ l') -> In b (l ++ l') -> f a = f b -> a = b) -> map f l = map f l' -> l = l'.
Proof.
  revert l'. induction l as [|x l IH]; intros [|y l'] Hn; [by intros|discriminate|discriminate|].
  intros [= E El]. f_equal.
  - apply Hn; [by left|apply in_app_iff; right; by left|exact E].
  - apply IH; [|exact El]. intros a b Ha Hb. apply Hn; rewrite in_app_iff in *; cbn [In]; tauto.
Qed.

Lemma no_collision_incl l l' : incl l l' -> no_collision l' -> no_collision l.
Proof. intros Hi Hn a b Ha Hb. apply Hn; by apply Hi. Qed.

Lemma permuted_contents files files' :
  no_collision (contents files ++ contents files') -> file_hashes files ≡ₚ file_hashes files' ->
  contents files ≡ₚ contents files'.
Proof.
  rewrite !file_hashes_contents. intros Hn Hp. symmetry in Hp.
  apply Permutation_map_inv in Hp as (l & E & Hl). symmetry in Hl.
  rewrite <- (map_inj_on GenerateFullSha256 l (contents files')); [by rewrite Hl| |done].
  eapply no_collision_incl; [|exact Hn]. intros x. rewrite !in_app_iff, Hl. tauto.
Qed.

Lemma getTotalHash_order range range' files files' :
  is_range range -> is_range range' -> contents files ≡ₚ contents files' ->
  getTotalHash range (Some files) = getTotalHash range' (Some files').
Proof.
  intros Hr Hr' Hc. cbn [getTotalHash]. do 2 f_equal. apply sorted_unique.
  rewrite (Hr _), (Hr' _), !file_hashes_contents. by apply Permutation_map.
Qed.

(** C24. The total hash is a fingerprint of the contents of the directory.  It
    does not depend on the order of the listing, on the order in which the
    goroutines finish and the map is ranged over, nor on names and
    directories; and where SHA-256 does not collide, two directories with
    the same hash have the same contents, with multiplicities.  So renaming
    files or exchanging their contents goes unnoticed. *)
Theorem getTotalHash_fingerprint (range range' : list string -> list string) (files files' : list (string * entry)) :
  is_range range -> is_range range' ->
  (contents files ≡ₚ contents files' -> getTotalHash range (Some files) = getTotalHash range' (Some files')) /\
  (no_collision (hashed files ++ hashed files') ->
     getTotalHash range (Some files) = getTotalHash range' (Some files') -> contents files ≡ₚ contents files').
Proof.
  intros Hr Hr'. split; [by apply getTotalHash_order|]. intros Hn.
  assert (Hid : is_range id) by (by intros l).
  rewrite (getTotalHash_order range id files files Hr Hid (Permutation_refl _)), (getTotalHash_order range' id files' files' Hr' Hid (Permutation_refl _)).
  cbn [getTotalHash id]. intros E. apply Hn in E; [|by left|apply in_app_iff; right; by left].
  apply permuted_contents.
  - eapply no_collision_incl; [|exact Hn]. intros x. rewrite !in_app_iff. unfold hashed. cbn [In]. tauto.
  - assert (Hlen : forall fs, Forall (fun s => String.length s = 64) (merge_sort String.le (file_hashes fs))).
    { intros fs. apply Forall_forall. intros s Hs. apply list_elem_of_In in Hs.
      rewrite merge_sort_Permutation, file_hashes_contents in Hs. apply list_elem_of_In, in_map_iff in Hs as (c & <- & _).
      by destruct (Sha256.hex_sha256_spec c). }
    apply (concat_all_inj 63) in E; [|apply Hlen..].
    by rewrite <- (merge_sort_Permutation String.le (file_hashes files)), E, merge_sort_Permutation.
Qed.

(** ** Witnesses *)

Lemma Parse_command_line_witness :
  Parameters_Parse ["/watcher"; "--cmd-line=/bin/proxy"; "--secure=:8443"; "--watched-dir=/etc/proxy/"; "--lost"] =
  Ret (mkParameters "/bin/proxy" ["--secure=:8443"] "/etc/proxy" "info" "json").
Proof.
  exact (proj1 (Parse_command_line "/bin/proxy" "/etc/proxy/" "/watcher" ["--secure=:8443"] ["--lost"]
                  eq_refl eq_refl eq_refl eq_refl eq_refl)).
Defined.

Lemma getTotalHash_fingerprint_witness :
  getTotalHash id (Some [("a", File "1"); ("sub", Directory); ("b", File "2")]) =
  getTotalHash (@rev string) (Some [("a", File "2"); ("c", File "1")]).
Proof.
  apply (proj1 (getTotalHash_fingerprint id (@rev string) [("a", File "1"); ("sub", Directory); ("b", File "2")]
                  [("a", File "2"); ("c", File "1")] ltac:(by intros l) ltac:(intros l; symmetry; apply Permutation_rev))).
  apply Permutation_swap.
Defined.
