(* ===== verification/WatcherLoop.v ===== *)
(** * The watcher's child process

    [cmd/watcher/main.go], [pkg/watcher/process/process.go] and the goroutine
    of [RunTotalHashCalc] in [pkg/watcher/hashcalc/hashcalc.go] as a state
    machine: the main loop, the signal handler and the hash ticker are three
    goroutines; what runs under [procLock] is one step.  The operating system
    decides how a stop or a start ends, and may end a child at any time. *)

From S2P Require Import Prelude GoStrings.

(** ** State *)

(** [main] before [startProcess], in [monitorHashChanges], returning with the
    context cancelled, and ended, which ends the other goroutines too. *)
Inductive phase := Starting | Monitoring | Returning | Exited.

(** [handleSignals]: before the signal, after [proc.Stop], after the send. *)
Inductive handler := Waiting | HasStopped | HasSent.

(** The goroutine of [RunTotalHashCalc]: in the [select], blocked in the send
    of a hash, returned with the channel closed. *)
Inductive ticking := Selecting | Sending (h : string) | Closed.

#[export] Instance phase_eq_dec : EqDecision phase.
Proof. solve_decision. Defined.
#[export] Instance handler_eq_dec : EqDecision handler.
Proof. solve_decision. Defined.
#[export] Instance ticking_eq_dec : EqDecision ticking.
Proof. solve_decision. Defined.

Record watcher := mkWatcher {
  (** the pid of [proc], if it was started *)
  proc : option nat;
  (** [Wait] was called on [proc]: a second call is an error *)
  waited : bool;
  (** the running children and the hash for which each was started *)
  children : gmap nat string;
  next_pid : nat;
  currentHash : string;
  (** the channel of hashes, of capacity two *)
  hashes : list string;
  ticker : ticking;
  main_phase : phase;
  signal : handler;
  (** the channel [done], of capacity one *)
  done : bool }.

(** After the first hash was received. *)
Definition started_with (h : string) : watcher :=
  mkWatcher None false ∅ 0 h [] Selecting Starting Waiting false.

(** ** Operations of [process.go] *)

(** How [Process.Stop] ends: without an error, the child is gone; with an
    error (killing failed, or the process was waited for before), the child
    may have survived. *)
Inductive stop_result := Stopped | StopFails (gone : bool).

Definition with_proc (p : option nat) (w : bool) (c : gmap nat string) (s : watcher) : watcher :=
  mkWatcher p w c (next_pid s) (currentHash s) (hashes s) (ticker s) (main_phase s) (signal s) (done s).

(** Whether [Stop] returned an error, and the state after it; [None] when it
    cannot end that way.  A second [Stop] of a process always ends with the
    error of the second [Wait].  That is so once the child has been reaped;
    a child that survived the first [Stop], because killing it failed, could
    be killed by the second, which is not modelled: what could not be killed
    once cannot be killed later. *)
Definition Stop (r : stop_result) (s : watcher) : option (bool * watcher) :=
  match proc s with
  | None => match r with Stopped => Some (false, s) | StopFails _ => None end
  | Some pid =>
      match r with
      | Stopped => if waited s then None else Some (false, with_proc (Some pid) true (delete pid (children s)) s)
      | StopFails gone =>
          Some (true, with_proc (Some pid) true (if gone then delete pid (children s) else children s) s)
      end
  end.

(** [process.New] and, if it works, [Start]. *)
Definition New (s : watcher) : watcher := with_proc None false (children s) s.

Definition Start (s : watcher) : watcher :=
  mkWatcher (Some (next_pid s)) (waited s) (<[next_pid s := currentHash s]> (children s)) (S (next_pid s))
    (currentHash s) (hashes s) (ticker s) (main_phase s) (signal s) (done s).

(** ** Steps of [main.go] *)

Inductive start_result := Started | StartFails.

Inductive event :=
| ticker_C (h : string)
| ticker_send
| ticker_Done
| ChildExits (pid : nat)
| startProcess (r : start_result)
| handleSignals_Stop (r : stop_result)
| handleSignals_done
| monitor_done
| monitor_hash (stop : stop_result) (start : start_result)
| main_exit.

Definition set_phase (p : phase) (s : watcher) : watcher :=
  mkWatcher (proc s) (waited s) (children s) (next_pid s) (currentHash s) (hashes s) (ticker s) p (signal s) (done s).
Definition set_signal (h : handler) (d : bool) (s : watcher) : watcher :=
  mkWatcher (proc s) (waited s) (children s) (next_pid s) (currentHash s) (hashes s) (ticker s) (main_phase s) h d.
Definition set_hashes (h : string) (hs : list string) (s : watcher) : watcher :=
  mkWatcher (proc s) (waited s) (children s) (next_pid s) h hs (ticker s) (main_phase s) (signal s) (done s).

Definition set_ticker (hs : list string) (t : ticking) (s : watcher) : watcher :=
  mkWatcher (proc s) (waited s) (children s) (next_pid s) (currentHash s) hs t (main_phase s) (signal s) (done s).

(** [restartProcess] *)
Definition restartProcess (stop : stop_result) (start : start_result) (s : watcher) : option watcher :=
  match Stop stop s with
  | None => None
  | Some (true, s') => Some s'
  | Some (false, s') =>
      let s' := New s' in
      Some (match start with Started => Start s' | StartFails => s' end)
  end.

(** [RunTotalHashCalc]'s goroutine: a tick computes the hash, the send waits
    for room in the channel, and the cancelled context closes the channel. *)
Definition RunTotalHashCalc_step (e : event) (s : watcher) : option watcher :=
  match e, ticker s with
  | ticker_C h, Selecting => Some (set_ticker (hashes s) (Sending h) s)
  | ticker_send, Sending h =>
      if Nat.ltb (length (hashes s)) 2 then Some (set_ticker (hashes s ++ [h]) Selecting s) else None
  | ticker_Done, Selecting =>
      match main_phase s with Returning => Some (set_ticker (hashes s) Closed s) | _ => None end
  | _, _ => None
  end.

Definition handleSignals_step (e : event) (s : watcher) : option watcher :=
  match e, signal s with
  | handleSignals_Stop r, Waiting =>
      match Stop r s with
      | Some (_, s') => Some (set_signal HasStopped (done s') s')
      | None => None
      end
  | handleSignals_done, HasStopped => Some (set_signal HasSent true s)
  | _, _ => None
  end.

(** [monitorHashChanges]; a closed channel that is empty yields the empty
    string. *)
Definition received (s : watcher) : option (string * list string) :=
  match hashes s, ticker s with
  | h :: hs, _ => Some (h, hs)
  | [], Closed => Some (EmptyString, [])
  | [], _ => None
  end.

Definition main_step (e : event) (s : watcher) : option watcher :=
  match e, main_phase s with
  | startProcess Started, Starting => Some (set_phase Monitoring (Start s))
  | startProcess StartFails, Starting => Some (set_phase Returning s)
  | monitor_done, Monitoring =>
      if done s then Some (set_phase Returning (set_signal (signal s) false s)) else None
  | monitor_hash stop start, Monitoring =>
      match received s with
      | Some (h, hs) =>
          if String.eqb (currentHash s) h then Some (set_hashes h hs s)
          else restartProcess stop start (set_hashes h hs s)
      | None => None
      end
  | main_exit, Returning => Some (set_phase Exited s)
  | _, _ => None
  end.

(** Once [main] has ended only the child may still run. *)
Definition step (e : event) (s : watcher) : option watcher :=
  match e with
  | ChildExits pid => Some (with_proc (proc s) (waited s) (delete pid (children s)) s)
  | _ =>
      if decide (main_phase s = Exited) then None
      else match e with
           | ticker_C _ | ticker_send | ticker_Done => RunTotalHashCalc_step e s
           | handleSignals_Stop _ | handleSignals_done => handleSignals_step e s
           | _ => main_step e s
           end
  end.

Fixpoint run (es : list event) (s : watcher) : option watcher :=
  match es with
  | [] => Some s
  | e :: es' => match step e s with Some s' => run es' s' | None => None end
  end.

Definition reachable (s : watcher) : Prop := exists h es, run es (started_with h) = Some s.

(** ** Invariant *)

(** Only the process of [proc] may be running, fresh pids are free, and
    there is no process before [startProcess]. *)
Record core (s : watcher) : Prop := {
  only_proc : forall pid h, children s !! pid = Some h -> proc s = Some pid;
  pid_fresh : forall pid, proc s = Some pid -> pid < next_pid s;
  not_started : main_phase s = Starting -> proc s = None;
  not_waited : proc s = None -> waited s = false }.

(** A process on which [Stop] was not called runs for the current hash. *)
Definition in_sync (s : watcher) : Prop :=
  forall pid h, children s !! pid = Some h -> waited s = false -> h = currentHash s.

Definition well_formed (s : watcher) : Prop := core s /\ in_sync s.

Lemma core_shrink s s' :
  core s -> proc s' = proc s -> next_pid s' = next_pid s ->
  (waited s' = true /\ is_Some (proc s) \/ waited s' = waited s) ->
  (main_phase s' = Starting -> main_phase s = Starting) ->
  (forall pid h, children s' !! pid = Some h -> children s !! pid = Some h) -> core s'.
Proof.
  intros Hc Hp Hn Hw Hm Hch. split.
  - intros pid h E. rewrite Hp. by eapply only_proc; [|apply Hch].
  - intros pid E. rewrite Hn. apply (pid_fresh s Hc). congruence.
  - intros E. rewrite Hp. by apply (not_started s Hc), Hm.
  - intros E. rewrite Hp in E. destruct Hw as [[_ [x Hx]]|Hw]; [congruence|]. rewrite Hw. by apply (not_waited s Hc).
Qed.

Lemma Stop_cases r s err s' :
  Stop r s = Some (err, s') ->
  proc s' = proc s /\ next_pid s' = next_pid s /\ currentHash s' = currentHash s /\ main_phase s' = main_phase s /\
  signal s' = signal s /\ done s' = done s /\ hashes s' = hashes s /\
  (forall pid h, children s' !! pid = Some h -> children s !! pid = Some h) /\
  match proc s with
  | None => err = false /\ s' = s
  | Some pid => waited s' = true /\ (err = false -> waited s = false /\ children s' = delete pid (children s))
  end.
Proof.
  unfold Stop. destruct (proc s) as [pid|] eqn:Ep; destruct r as [|gone].
  - destruct (waited s); [done|]. intros [= <- <-]. cbn. repeat split; try done.
    by intros p h [_ ?]%lookup_delete_Some.
  - intros [= <- <-]. cbn. repeat split; try done. intros p h. destruct gone; [|done]. by intros [_ ?]%lookup_delete_Some.
  - by intros [= <- <-].
  - done.
Qed.

(** A stop that reports no error leaves no child. *)
Lemma Stop_no_children r s s' : core s -> Stop r s = Some (false, s') -> children s' = ∅.
Proof.
  intros Hc Hs. apply Stop_cases in Hs as (_ & _ & _ & _ & _ & _ & _ & Hch & Hcase). apply map_empty. intros p.
  destruct (children s' !! p) as [h|] eqn:E; [|done]. pose proof (only_proc s Hc p h (Hch _ _ E)) as Hp.
  rewrite Hp in Hcase. destruct Hcase as [_ Hcase]. destruct (Hcase eq_refl) as [_ Hd].
  rewrite Hd, lookup_delete_eq in E. done.
Qed.

Lemma Stop_core r s err s' : core s -> Stop r s = Some (err, s') -> core s'.
Proof.
  intros Hc Hs. apply Stop_cases in Hs as (Hp & Hn & _ & Hm & _ & _ & _ & Hch & Hcase).
  destruct (proc s) as [pid|] eqn:E; [|by destruct Hcase as [_ ->]].
  apply (core_shrink s); try done; [congruence|left|congruence]. destruct Hcase as [Hw _]. by rewrite E.
Qed.

(** After a stop the running child is one that was stopped before the hash
    changed, if there is one at all. *)
Lemma Stop_in_sync r s err s' : core s -> Stop r s = Some (err, s') -> in_sync s'.
Proof.
  intros Hc Hs pid h E Hw. pose proof Hs as Hs'. apply Stop_cases in Hs as (_ & _ & _ & _ & _ & _ & _ & Hch & Hcase).
  destruct (proc s) as [p|] eqn:Ep; [destruct Hcase as [Hw' _]; congruence|].
  destruct Hcase as [-> ->]. rewrite (Stop_no_children _ _ _ Hc Hs'), lookup_empty in E. done.
Qed.

Lemma Start_well_formed s :
  core s -> children s = ∅ -> waited s = false -> main_phase s <> Starting -> well_formed (Start s).
Proof.
  intros Hc He Hw Hm. split; [split|]; cbn.
  - intros pid h. rewrite He. by intros [[-> _]|[_ ?%lookup_empty_Some]]%lookup_insert_Some.
  - intros pid [= <-]. lia.
  - done.
  - done.
  - intros pid h. cbn. rewrite He. intros [[_ <-]|[_ ?%lookup_empty_Some]]%lookup_insert_Some; done.
Qed.

Lemma New_core s : core s -> children s = ∅ -> core (New s).
Proof.
  intros Hc He. split; cbn; [|done..]. intros pid h. by rewrite He, lookup_empty.
Qed.

Lemma restart_well_formed stop start s s' :
  core s -> main_phase s <> Starting -> restartProcess stop start s = Some s' -> well_formed s'.
Proof.
  intros Hc Hm. unfold restartProcess. destruct (Stop stop s) as [[[] s1]|] eqn:Es; [| |done].
  - intros [= <-]. split; [by eapply Stop_core|by eapply Stop_in_sync].
  - intros [= <-]. pose proof (Stop_no_children _ _ _ Hc Es) as He. pose proof (Stop_core _ _ _ _ Hc Es) as Hc1.
    pose proof (New_core s1 Hc1 He) as Hn. destruct start.
    + apply Start_well_formed; [done|done|done|]. cbn. apply Stop_cases in Es as (_ & _ & _ & Hp & _). by rewrite Hp.
    + split; [done|]. intros pid h. cbn. by rewrite He, lookup_empty.
Qed.

(** Steps that leave the process alone. *)
Lemma well_formed_same s s' :
  well_formed s -> proc s' = proc s -> next_pid s' = next_pid s -> waited s' = waited s ->
  currentHash s' = currentHash s -> (main_phase s' = Starting -> main_phase s = Starting) ->
  (forall pid h, children s' !! pid = Some h -> children s !! pid = Some h) -> well_formed s'.
Proof.
  intros [Hc Hi] Hp Hn Hw Hh Hm Hch. split; [apply (core_shrink s); auto|].
  intros pid h E Ew. rewrite Hh. apply (Hi pid); [by apply Hch|congruence].
Qed.

Lemma step_cases e s s' :
  step e s = Some s' ->
  (exists pid, e = ChildExits pid /\ s' = with_proc (proc s) (waited s) (delete pid (children s)) s) \/
  main_phase s <> Exited /\
  (RunTotalHashCalc_step e s = Some s' \/ handleSignals_step e s = Some s' \/ main_step e s = Some s').
Proof.
  unfold step. destruct e; [| | |intros [= <-]; left; by eexists|..];
    (destruct (decide (main_phase s = Exited)); [done|]); intros E; right; tauto.
Qed.

Lemma RunTotalHashCalc_inv e s s' :
  RunTotalHashCalc_step e s = Some s' -> exists hs t, s' = set_ticker hs t s.
Proof.
  unfold RunTotalHashCalc_step. destruct e, (ticker s); try done; [|destruct (Nat.ltb _ _)|destruct (main_phase s)];
    try done; intros [= <-]; by do 2 eexists.
Qed.

Lemma started_core s : core s -> main_phase s = Starting -> children s = ∅ /\ waited s = false.
Proof.
  intros Hc Hm. pose proof (not_started s Hc Hm) as Hp. split; [|by apply (not_waited s Hc)].
  apply map_empty. intros p. destruct (children s !! p) as [h|] eqn:E; [|done].
  pose proof (only_proc s Hc p h E). congruence.
Qed.

Lemma handleSignals_well_formed e s s' : well_formed s -> handleSignals_step e s = Some s' -> well_formed s'.
Proof.
  intros Hwf. unfold handleSignals_step. destruct e as [| | | | |r| | | |], (signal s); try done.
  - destruct (Stop r s) as [[err s1]|] eqn:Es; [|done]. intros [= <-]. destruct Hwf as [Hc _].
    apply (well_formed_same s1); try done. split; [by eapply Stop_core|by eapply Stop_in_sync].
  - intros [= <-]. by apply (well_formed_same s).
Qed.

Lemma main_well_formed e s s' : well_formed s -> main_step e s = Some s' -> well_formed s'.
Proof.
  intros Hwf. pose proof Hwf as [Hc _]. unfold main_step.
  destruct e as [| | | |r| | | |stop start|], (main_phase s) eqn:Em; try (by destruct r); try done.
  - destruct (started_core s Hc Em) as [He Hw]. destruct r; intros [= <-]; [|by apply (well_formed_same s)].
    change (well_formed (Start (set_phase Monitoring s))). apply Start_well_formed; [|done..]. apply (core_shrink s); auto.
  - destruct (done s); [|done]. intros [= <-]. by apply (well_formed_same s).
  - destruct (received s) as [[h hs]|]; [|done]. destruct (String.eqb_spec (currentHash s) h) as [<-|Hne].
    + intros [= <-]. by apply (well_formed_same s).
    + apply restart_well_formed; [apply (core_shrink s); auto|]. cbn. by rewrite Em.
  - intros [= <-]. by apply (well_formed_same s).
Qed.

Lemma step_well_formed e s s' : well_formed s -> step e s = Some s' -> well_formed s'.
Proof.
  intros Hwf [(pid & -> & ->)|(_ & [(hs & t & ->)%RunTotalHashCalc_inv|[Hs|Hs]])]%step_cases.
  - apply (well_formed_same s); try done. intros p h; cbn; by intros [_ ?]%lookup_delete_Some.
  - by apply (well_formed_same s).
  - by eapply handleSignals_well_formed.
  - by eapply main_well_formed.
Qed.

Lemma run_invariant (I : watcher -> Prop) :
  (forall e s s', I s -> step e s = Some s' -> I s') -> forall es s s', I s -> run es s = Some s' -> I s'.
Proof.
  intros Hstep es. induction es as [|e es IH]; intros s s' Hi; cbn [run]; [by intros [= <-]|].
  destruct (step e s) as [s1|] eqn:E; [|done]. apply IH. by eapply Hstep.
Qed.

Lemma started_well_formed h : well_formed (started_with h).
Proof. split; [split|]; try done; by intros pid x; cbn; rewrite lookup_empty. Qed.

Lemma reachable_well_formed s : reachable s -> well_formed s.
Proof.
  intros (h & es & Hr). apply (run_invariant well_formed step_well_formed es (started_with h)); [|exact Hr].
  apply started_well_formed.
Qed.

(** After a stop the process is never replaced. *)
Definition frozen (p n : nat) (c : gmap nat string) (s : watcher) : Prop :=
  waited s = true /\ proc s = Some p /\ next_pid s = n /\ main_phase s <> Starting /\
  forall pid h, children s !! pid = Some h -> c !! pid = Some h.

Lemma frozen_same p n c s s' :
  frozen p n c s -> waited s' = true -> proc s' = proc s -> next_pid s' = next_pid s -> main_phase s' <> Starting ->
  (forall pid h, children s' !! pid = Some h -> children s !! pid = Some h) -> frozen p n c s'.
Proof. intros (_ & Hp & Hn & _ & Hc) Hw' Hp' Hn' Hm' Hc'. split; [done|]. split; [congruence|]. split; [congruence|]. auto. Qed.

Lemma frozen_Stop p n c r s err s' :
  frozen p n c s -> Stop r s = Some (err, s') -> err = true /\ frozen p n c s'.
Proof.
  intros Hf Hs. pose proof Hf as (Hw & Hp & Hn & Hm & Hc).
  apply Stop_cases in Hs as (Hp' & Hn' & _ & Hm' & _ & _ & _ & Hch & Hcase). rewrite Hp in Hcase.
  destruct Hcase as [Hw' He]. split; [destruct err; [done|]; destruct (He eq_refl); congruence|].
  apply (frozen_same p n c s); try done; congruence.
Qed.

Lemma frozen_restart p n c stop start s s' :
  frozen p n c s -> restartProcess stop start s = Some s' -> frozen p n c s'.
Proof.
  intros Hf. unfold restartProcess. destruct (Stop stop s) as [[err s1]|] eqn:Es; [|done].
  destruct (frozen_Stop _ _ _ _ _ _ _ Hf Es) as [-> Hf1]. by intros [= <-].
Qed.

Lemma step_frozen p n c e s s' : frozen p n c s -> step e s = Some s' -> frozen p n c s'.
Proof.
  intros Hf. pose proof Hf as (Hw & Hp & Hn & Hm & Hc).
  intros [(pid & -> & ->)|(_ & [(hs & t & ->)%RunTotalHashCalc_inv|[Hs|Hs]])]%step_cases.
  - apply (frozen_same p n c s); try done. intros q h; cbn; by intros [_ ?]%lookup_delete_Some.
  - by apply (frozen_same p n c s).
  - unfold handleSignals_step in Hs. destruct e as [| | | | |r| | | |], (signal s); try done.
    + destruct (Stop r s) as [[err s1]|] eqn:Es; [|done]. injection Hs as <-.
      destruct (frozen_Stop p n c r s err s1 Hf Es) as [_ Hf1]. pose proof Hf1 as (Hw1 & _ & _ & Hm1 & _).
      by apply (frozen_same p n c s1).
    + injection Hs as <-. by apply (frozen_same p n c s).
  - unfold main_step in Hs. destruct e as [| | | |r| | | |stop start|], (main_phase s) eqn:Em; try (by destruct r); try done.
    + destruct (done s); [|done]. injection Hs as <-. by apply (frozen_same p n c s).
    + destruct (received s) as [[h hs]|]; [|done].
      assert (Hf1 : frozen p n c (set_hashes h hs s)) by (apply (frozen_same p n c s); try done; cbn; by rewrite Em).
      destruct (String.eqb _ _); [by injection Hs as <-|]. by eapply frozen_restart.
    + injection Hs as <-. by apply (frozen_same p n c s).
Qed.

(** What an event that stops the process leaves, when it does not replace it. *)
Lemma stop_event_effect s s' p e :
  core s -> proc s = Some p -> main_phase s <> Starting ->
  (exists r, e = handleSignals_Stop r) \/ (exists gone start, e = monitor_hash (StopFails gone) start) ->
  step e s = Some s' ->
  proc s' = Some p /\ next_pid s' = next_pid s /\ main_phase s' <> Starting /\
  (forall pid h, children s' !! pid = Some h -> children s !! pid = Some h) /\
  (e = handleSignals_Stop Stopped -> children s' = ∅).
Proof.
  intros Hcore Hp Hm He [(pid & -> & ->)|(_ & [Hs|[Hs|Hs]])]%step_cases;
    [by destruct He as [[r ?]|(? & ? & ?)]|by destruct He as [[r ->]|(? & ? & ->)]|..];
    destruct He as [[r ->]|(gone & start & ->)]; try done.
  - unfold handleSignals_step in Hs. destruct (signal s); try done.
    destruct (Stop r s) as [[err s1]|] eqn:Es; [|done]. injection Hs as <-.
    pose proof Es as (Hp' & Hn' & _ & Hm' & _ & _ & _ & Hch & Hcase)%Stop_cases. cbn.
    split; [congruence|]. split; [done|]. split; [congruence|]. split; [done|]. intros [= ->].
    assert (err = false) as ->; [|by apply (Stop_no_children Stopped s)].
    unfold Stop in Es. rewrite Hp in Es. destruct (waited s); [done|]. by injection Es as <- _.
  - cbn [main_step] in Hs. destruct (main_phase s) eqn:Em; try done. destruct (received s) as [[h hs]|]; [|done].
    destruct (String.eqb _ _); [injection Hs as <-; cbn; repeat split; try done; congruence|].
    unfold restartProcess, Stop in Hs. cbn [set_hashes proc] in Hs. rewrite Hp in Hs. injection Hs as <-. cbn.
    rewrite Em. repeat split; try done. intros pid x. destruct gone; [|done]. by intros [_ ?]%lookup_delete_Some.
Qed.

(** ** Theorems *)

(** C20. Whatever the order in which the signal handler, the ticker and the
    main loop run, and however stops and starts end: at most one child is
    running, it is the one of [proc], and unless [Stop] was called on it it
    was started for the current hash. *)
Theorem one_child_in_sync (s : watcher) :
  reachable s ->
  size (children s) <= 1 /\
  forall pid h, children s !! pid = Some h ->
    proc s = Some pid /\ pid < next_pid s /\ (waited s = false -> h = currentHash s).
Proof.
  intros [Hc Hi]%reachable_well_formed. split.
  - destruct (decide (children s = ∅)) as [->|Hne]; [by rewrite map_size_empty; lia|].
    apply map_choose in Hne as (pid & h & E). pose proof (only_proc s Hc pid h E) as Hp.
    assert (children s = {[pid := h]}) as ->; [|by rewrite map_size_singleton].
    apply map_eq. intros q. destruct (decide (q = pid)) as [->|Hq]; [by rewrite lookup_singleton_eq|].
    rewrite lookup_singleton_ne by done. destruct (children s !! q) as [x|] eqn:Ex; [|done].
    pose proof (only_proc s Hc q x Ex). congruence.
  - intros pid h E. pose proof (only_proc s Hc pid h E) as Hp. split; [done|]. split; [by apply pid_fresh|]. by apply (Hi pid).
Qed.

(** C21. A stop is final.  Once [Stop] was called on the running process and
    the process has not been replaced, no child is ever started again,
    whatever happens.  So a signal whose stop succeeds leaves no child, now
    and at exit; and a restart whose stop fails is never retried: later
    changes of the directory do not start a child either. *)
Theorem stop_is_final (s s' s'' : watcher) (p : nat) (e : event) (es : list event) :
  reachable s -> proc s = Some p -> main_phase s <> Starting ->
  (exists r, e = handleSignals_Stop r) \/ (exists gone start, e = monitor_hash (StopFails gone) start) ->
  step e s = Some s' -> waited s' = true -> run es s' = Some s'' ->
  next_pid s'' = next_pid s /\ proc s'' = Some p /\
  (forall pid h, children s'' !! pid = Some h -> children s !! pid = Some h) /\
  (e = handleSignals_Stop Stopped -> children s'' = ∅).
Proof.
  intros Hreach Hp Hm He Hstep Hw Hrun. apply reachable_well_formed in Hreach as [Hcore _].
  pose proof (stop_event_effect s s' p e Hcore Hp Hm He Hstep) as H1.
  destruct H1 as (Hp' & Hn' & Hm' & Hc' & Hgone).
  assert (Hf : frozen p (next_pid s') (children s') s') by done.
  apply (run_invariant _ (step_frozen p (next_pid s') (children s')) es s' s'' Hf) in Hrun as (_ & Hp2 & Hn2 & _ & Hc2).
  split; [congruence|]. split; [done|]. split; [auto|]. intros E. apply map_empty. intros q.
  destruct (children s'' !! q) as [x|] eqn:Ex; [|done]. apply Hc2 in Ex. by rewrite (Hgone E), lookup_empty in Ex.
Qed.

(** C22. A signal that arrives before the child is started is lost on it: there
    is a run, in which every stop and every start succeeds, that ends with
    the watcher gone and the child running. *)
Theorem early_signal_orphans_child (h : string) :
  exists es s, run es (started_with h) = Some s /\ main_phase s = Exited /\ signal s = HasSent /\
    children s !! 0 = Some h /\
    Forall (fun e => e <> startProcess StartFails /\ forall gone, e <> handleSignals_Stop (StopFails gone)) es.
Proof.
  exists [handleSignals_Stop Stopped; handleSignals_done; startProcess Started; monitor_done; main_exit].
  eexists. split; [reflexivity|]. split; [done|]. split; [done|]. split; [by cbn; rewrite lookup_insert_eq|].
  repeat constructor; done.
Qed.

(** ** Witnesses *)

Definition monitoring : watcher := default (started_with "h") (run [startProcess Started; ticker_C "h2"; ticker_send] (started_with "h")).

Lemma one_child_in_sync_witness :
  exists s, run [startProcess Started; ticker_C "h2"; ticker_send; monitor_hash Stopped Started] (started_with "h") = Some s /\
    size (children s) <= 1 /\ children s !! 1 = Some "h2".
Proof.
  eexists. split; [reflexivity|]. split; [|reflexivity]. apply one_child_in_sync.
  exists "h", [startProcess Started; ticker_C "h2"; ticker_send; monitor_hash Stopped Started]. reflexivity.
Defined.

Lemma stop_is_final_witness :
  exists s'', run [handleSignals_Stop Stopped; monitor_hash (StopFails true) Started; handleSignals_done; monitor_done; main_exit]
      monitoring = Some s'' /\ children s'' = ∅.
Proof.
  eexists. split; [reflexivity|].
  eapply (stop_is_final monitoring _ _ 0 (handleSignals_Stop Stopped)
            [monitor_hash (StopFails true) Started; handleSignals_done; monitor_done; main_exit]).
  - exists "h", [startProcess Started; ticker_C "h2"; ticker_send]. reflexivity.
  - reflexivity.
  - discriminate.
  - left. by exists Stopped.
  - reflexivity.
  - reflexivity.
  - reflexivity.
  - reflexivity.
Defined.
