(* ===== verification/Slog.v ===== *)
(** * [log/slog]: levels and handlers

    What both programs use of Go's structured logger to set up their own:
    [Level.UnmarshalText] and the choice of a handler. *)

From S2P Require Import Prelude GoStrings.

Module slog.

(** [type Level int], of 64 bits *)
Definition Level := Z.
Definition LevelDebug : Level := (-4)%Z.
Definition LevelInfo : Level := 0%Z.
Definition LevelWarn : Level := 4%Z.
Definition LevelError : Level := 8%Z.

(** The addition of two [int]s *)
Definition wrap64 (z : Z) : Z := ((z + 2 ^ 63) mod 2 ^ 64 - 2 ^ 63)%Z.

Definition upper (c : ascii) : ascii :=
  if is_lower c then ascii_of_N (N_of_ascii c - 32) else c.

(** [strings.ToUpper] for a comparison with a word in ASCII: of the other
    characters only the dotless i (U+0131) and the long s (U+017F) have their
    capital in it. *)
Fixpoint ToUpper (s : string) : string :=
  match s with
  | EmptyString => EmptyString
  | String c s' =>
      match s' with
      | String d s'' =>
          if Ascii.eqb c "196" && Ascii.eqb d "177" then String "I" (ToUpper s'')
          else if Ascii.eqb c "197" && Ascii.eqb d "191" then String "S" (ToUpper s'')
          else String (upper c) (ToUpper s')
      | EmptyString => String (upper c) EmptyString
      end
  end.

(** [s[:i]] and [s[i:]] for the index [i] of the first sign, if there is one *)
Fixpoint cut_sign (s : string) : string * option string :=
  match s with
  | EmptyString => (EmptyString, None)
  | String c s' =>
      if Ascii.eqb c "+" || Ascii.eqb c "-" then (EmptyString, Some s)
      else let '(name, offset) := cut_sign s' in (String c name, offset)
  end.

Definition level_named (name : string) : option Level :=
  let u := ToUpper name in
  if String.eqb u "DEBUG" then Some LevelDebug
  else if String.eqb u "INFO" then Some LevelInfo
  else if String.eqb u "WARN" then Some LevelWarn
  else if String.eqb u "ERROR" then Some LevelError
  else None.

(** [Level.UnmarshalText]; [None] is the error. *)
Definition UnmarshalText (data : string) : option Level :=
  let '(name, sign) := cut_sign data in
  offset ← (match sign with Some s => Atoi s | None => Some 0%Z end);
  l ← level_named name;
  Some (wrap64 (l + offset)).

Inductive Handler :=
| TextHandler (level : Level)
| JSONHandler (level : Level).

(** ** Properties *)

Lemma wrap64_small z : (- 2 ^ 63 <= z < 2 ^ 63)%Z -> wrap64 z = z.
Proof. intros Hz. unfold wrap64. rewrite Z.mod_small; lia. Qed.

Lemma cut_sign_none s :
  string_forallb (fun c => negb (Ascii.eqb c "+" || Ascii.eqb c "-")) s = true -> cut_sign s = (s, None).
Proof.
  induction s as [|c s IH]; [done|]. cbn [string_forallb cut_sign]. intros [Hc Hs]%andb_prop.
  apply negb_true_iff in Hc. by rewrite Hc, IH.
Qed.

(** The words are read in any case, with an offset. *)
Example levels :
  map UnmarshalText ["debug"; "INFO"; "Warn"; "error"; "error+2"; "Info-4"; ""; "verbose"; "info+x"; "+1"]%string =
  [Some (-4); Some 0; Some 4; Some 8; Some 10; Some (-4); None; None; None; None]%Z.
Proof. reflexivity. Qed.

End slog.
