(* ===== verification/WatcherMain.v ===== *)
(** * The watcher as a whole

    [main] of [cmd/watcher/main.go]: the arguments, the logger, the command of
    the child and the first hash of the watched directory, and that the child
    follows the directory from then on. *)

From stdpp Require Import sorting.
From S2P Require Import Prelude GoStrings Slog Sha256 RandUtils Watcher WatcherLoop.

(** ** [main] *)

(** [setupLogger] *)
Definition setupLogger (params : Parameters) : slog.Handler :=
  let level := default slog.LevelInfo (slog.UnmarshalText (LogLevel params)) in
  if String.eqb (LogFormat params) "text" then slog.TextHandler level else slog.JSONHandler level.

(** [exec.Command] with the environment and the outputs of the watcher *)
Record Command := mkCommand { Path : string; Args : list string }.

Definition process_New (cmdLine : string) (args : list string) : Command := mkCommand cmdLine args.

(** What [main] has set up when it is about to start the child: each child is
    started with [command]. *)
Record launched := mkLaunched {
  log : slog.Handler;
  command : Command;
  state : watcher }.

(** [fs] is what the file system shows in a directory, and [range] the order
    in which a map is ranged over. *)
Definition main (range : list string -> list string) (fs : string -> option (list (string * entry)))
    (args : list string) : outcome launched :=
  params ← Parameters_Parse args;
  Ret (mkLaunched (setupLogger params) (process_New (CmdLine params) (CmdLineArgs params))
         (started_with (getTotalHash range (fs (WatchedDir params))))).

(** ** What is still to be received *)

Definition pending (s : watcher) : list string :=
  hashes s ++ match ticker s with Sending h => [h] | _ => [] end.

(** The last hash that was computed *)
Definition latest (s : watcher) : string := List.last (pending s) (currentHash s).

Definition computed (h : string) (e : event) : string :=
  match e with ticker_C x => x | _ => h end.

Definition last_computed (es : list event) (h : string) : string := fold_left computed es h.

(** Nothing is left to be received. *)
Definition settled (s : watcher) : Prop := pending s = [].

(** The channel is open as long as the main loop reads from it, and has room
    for two. *)
Definition channel_ok (s : watcher) : Prop :=
  length (hashes s) <= 2 /\
  (ticker s = Closed -> main_phase s = Returning \/ main_phase s = Exited).

(** The main loop takes everything that is there; stops and starts succeed. *)
Definition settle (s : watcher) : list event :=
  repeat (monitor_hash Stopped Started) (length (hashes s)) ++
  match ticker s with Sending _ => [ticker_send; monitor_hash Stopped Started] | _ => [] end.

(** The child that runs was started for [currentHash], by the last start. *)
Definition fresh_child (s : watcher) : Prop :=
  0 < next_pid s /\ children s = {[pred (next_pid s) := currentHash s]}.

(** ** Lemmas *)

Lemma last_app_cons {A} (l : list A) x d : List.last (l ++ [x]) d = x.
Proof. apply List.last_last. Qed.

Lemma last_cons_default {A} (x : A) l d : List.last (x :: l) d = List.last l x.
Proof.
  revert x d. induction l as [|y l IH]; intros x d; [done|].
  change (List.last (x :: y :: l) d) with (List.last (y :: l) d). by rewrite (IH y d), (IH y x).
Qed.

Lemma Stop_view r s err s' :
  Stop r s = Some (err, s') ->
  hashes s' = hashes s /\ ticker s' = ticker s /\ currentHash s' = currentHash s /\ main_phase s' = main_phase s.
Proof.
  unfold Stop. destruct (proc s), r; [destruct (waited s); [done|]|..]; intros E; try done; injection E as <- <-; done.
Qed.

Lemma restart_view stop start s s' :
  restartProcess stop start s = Some s' ->
  hashes s' = hashes s /\ ticker s' = ticker s /\ currentHash s' = currentHash s /\ main_phase s' = main_phase s.
Proof.
  unfold restartProcess. destruct (Stop stop s) as [[[] s1]|] eqn:Es; [| |done]; intros [= <-];
    apply Stop_view in Es as (? & ? & ? & ?); by destruct start.
Qed.

Lemma received_open s :
  ticker s <> Closed -> received s = match hashes s with h :: hs => Some (h, hs) | [] => None end.
Proof. unfold received. destruct (hashes s), (ticker s); done. Qed.

(** Sending and receiving keep the last computed hash, in its place or taken. *)
Lemma monitor_latest stop start s s' :
  ticker s <> Closed -> main_step (monitor_hash stop start) s = Some s' ->
  exists h hs, hashes s = h :: hs /\ hashes s' = hs /\ ticker s' = ticker s /\ currentHash s' = h /\
    main_phase s' = Monitoring.
Proof.
  intros Ho. cbn [main_step]. destruct (main_phase s) eqn:Em; try done. rewrite received_open by done.
  destruct (hashes s) as [|h hs]; [done|]. intros E. exists h, hs. split; [done|].
  destruct (String.eqb _ _); [by injection E as <-|]. by apply restart_view in E as (-> & -> & -> & ->).
Qed.

Lemma latest_same s s' :
  hashes s' = hashes s -> ticker s' = ticker s -> currentHash s' = currentHash s -> latest s' = latest s.
Proof. intros Hh Ht Hc. unfold latest, pending. by rewrite Hh, Ht, Hc. Qed.

Lemma step_channel e s s' :
  channel_ok s -> step e s = Some s' -> channel_ok s' /\ latest s' = computed (latest s) e.
Proof.
  intros [Hl Hc] [(pid & -> & ->)|(Hm & [Hs|[Hs|Hs]])]%step_cases; [done|..].
  - unfold RunTotalHashCalc_step in Hs. destruct e, (ticker s) eqn:Et; try done.
    + injection Hs as <-. split; [by split|]. unfold latest, pending. cbn. apply last_app_cons.
    + destruct (Nat.ltb_spec (length (hashes s)) 2) as [Hlt|]; [|done]. injection Hs as <-. split.
      * split; [cbn; rewrite length_app; cbn; lia|done].
      * unfold latest, pending. cbn. by rewrite Et, app_nil_r, !last_app_cons.
    + destruct (main_phase s) eqn:Em; try done. injection Hs as <-. split; [split; [done|by left]|].
      unfold latest, pending. cbn. by rewrite Et.
  - unfold handleSignals_step in Hs. destruct e as [| | | | |r| | | |], (signal s); try done.
    + destruct (Stop r s) as [[err s1]|] eqn:Es; [|done]. injection Hs as <-.
      apply Stop_view in Es as (Hh & Ht & Hcur & Hp).
      split; [split; cbn; by rewrite ?Hh, ?Ht, ?Hp|by apply latest_same].
    + by injection Hs as <-.
  - destruct e as [| | | |r| | | |stop start|]; try (by destruct (main_phase s)).
    + cbn in Hs. destruct r, (main_phase s) eqn:Em; try done; injection Hs as <-;
        (split; [split; [done|intros E; cbn in E; destruct (Hc E); congruence]|done]).
    + cbn in Hs. destruct (main_phase s) eqn:Em; try done. destruct (done s); [|done]. injection Hs as <-.
      split; [split; [done|by left]|done].
    + assert (Ho : ticker s <> Closed).
      { intros E. cbn in Hs. destruct (Hc E) as [Em|Em]; by rewrite Em in Hs. }
      destruct (monitor_latest stop start s s' Ho Hs) as (h & hs & Eh & Eh' & Et & Ec & Ep).
      split; [split; [rewrite Eh'; rewrite Eh in Hl; cbn in Hl; lia|congruence]|].
      unfold latest, pending. rewrite Eh, Eh', Et, Ec. cbn [app computed]. by rewrite last_cons_default.
    + cbn in Hs. destruct (main_phase s) eqn:Em; try done. injection Hs as <-. split; [split; [done|by right]|done].
Qed.

Lemma run_channel es s s' :
  channel_ok s -> run es s = Some s' -> channel_ok s' /\ latest s' = last_computed es (latest s).
Proof.
  revert s. induction es as [|e es IH]; intros s Hc; cbn [run]; [by intros [= <-]|].
  destruct (step e s) as [s1|] eqn:Es; [|done]. intros Hr.
  destruct (step_channel e s s1 Hc Es) as [Hc1 El]. destruct (IH s1 Hc1 Hr) as [Hc' E']. split; [done|].
  by rewrite E', El.
Qed.

Lemma started_channel h : channel_ok (started_with h).
Proof. split; cbn; [lia|done]. Qed.

Lemma run_app es es' s : run (es ++ es') s = s' ← run es s; run es' s'.
Proof. revert s. induction es as [|e es IH]; intros s; [done|]. cbn. destruct (step e s); [apply IH|done]. Qed.

(** ** Taking what is there *)

(** Either no restart was needed, or there is a child of the new hash. *)
Definition restarted (s s' : watcher) : Prop :=
  (currentHash s' = currentHash s /\ children s' = children s /\ next_pid s' = next_pid s) \/ fresh_child s'.

Lemma restarted_trans s s1 s2 : restarted s s1 -> restarted s1 s2 -> restarted s s2.
Proof.
  intros H1 [(Hc & Hch & Hn)|H2]; [|by right]. destruct H1 as [(Hc1 & Hch1 & Hn1)|[Hp Hf]].
  - left. split_and!; congruence.
  - right. split; [by rewrite Hn|]. by rewrite Hch, Hn, Hc.
Qed.

(** A main loop that can go on: a process that was not stopped. *)
Record live (s : watcher) : Prop := {
  live_core : core s;
  live_phase : main_phase s = Monitoring;
  live_open : ticker s <> Closed;
  live_waited : waited s = false }.

(** [settle] receives a hash and restarts the child for it if it is new. *)
Lemma receive_one s h hs :
  live s -> hashes s = h :: hs ->
  exists s', step (monitor_hash Stopped Started) s = Some s' /\ live s' /\
    hashes s' = hs /\ ticker s' = ticker s /\ currentHash s' = h /\ restarted s s'.
Proof.
  intros [Hc Hm Ho Hw] Hh. unfold step. rewrite decide_False by congruence. unfold main_step.
  rewrite Hm, received_open, Hh by done. destruct (String.eqb_spec (currentHash s) h) as [<-|Hne].
  - eexists. split; [reflexivity|]. split; [split; try done; by apply (core_shrink s); auto|]. split_and!; try done. by left.
  - set (s0 := set_hashes h hs s). assert (Hc0 : core s0) by (apply (core_shrink s); auto).
    assert (Es : exists s1, Stop Stopped s0 = Some (false, s1)).
    { unfold Stop. destruct (proc s0); [|by eexists]. change (waited s0) with (waited s). rewrite Hw. by eexists. }
    destruct Es as [s1 Es]. unfold restartProcess. rewrite Es.
    pose proof (Stop_no_children _ _ _ Hc0 Es) as He. pose proof (Stop_core _ _ _ _ Hc0 Es) as Hc1.
    apply Stop_view in Es as (Eh & Et & Ec & Ep). eexists. split; [reflexivity|].
    assert (Hp1 : main_phase s1 = Monitoring) by (by rewrite Ep). split; [split|].
    + apply Start_well_formed; [by apply New_core|done|done|]. cbn. by rewrite Hp1.
    + exact Hp1.
    + cbn. by rewrite Et.
    + done.
    + split; [exact Eh|]. split; [exact Et|]. split; [exact Ec|]. right. split; [cbn; lia|].
      cbn. by rewrite He.
Qed.

Lemma receive_all hs s :
  live s -> hashes s = hs ->
  exists s', run (repeat (monitor_hash Stopped Started) (length hs)) s = Some s' /\ live s' /\
    hashes s' = [] /\ ticker s' = ticker s /\ currentHash s' = List.last hs (currentHash s) /\ restarted s s'.
Proof.
  revert s. induction hs as [|h hs IH]; intros s Hl Hh.
  - exists s. split_and!; try done. by left.
  - destruct (receive_one s h hs Hl Hh) as (s1 & Es & Hl1 & Hh1 & Ht1 & Hc1 & Hr1).
    destruct (IH s1 Hl1 Hh1) as (s' & Er & Hl' & Hh' & Ht' & Hc' & Hr'). exists s'.
    cbn [length repeat run]. rewrite Es. split; [done|]. split; [done|]. split; [done|]. split; [congruence|].
    split; [by rewrite Hc', Hc1, last_cons_default|]. by eapply restarted_trans.
Qed.

Lemma send_one s h :
  live s -> ticker s = Sending h -> hashes s = [] ->
  exists s', step ticker_send s = Some s' /\ live s' /\ hashes s' = [h] /\ ticker s' = Selecting /\
    currentHash s' = currentHash s /\ restarted s s'.
Proof.
  intros [Hc Hm Ho Hw] Ht Hh. unfold step. rewrite decide_False by congruence. cbn [RunTotalHashCalc_step].
  rewrite Ht, Hh. eexists. split; [reflexivity|]. split; [split; try done; by apply (core_shrink s); auto|].
  split_and!; try done. by left.
Qed.

Lemma settle_ok s :
  live s -> exists s', run (settle s) s = Some s' /\ live s' /\ settled s' /\ currentHash s' = latest s /\ restarted s s'.
Proof.
  intros Hl. destruct (receive_all (hashes s) s Hl eq_refl) as (s1 & E1 & Hl1 & Hh1 & Ht1 & Hc1 & Hr1).
  unfold settle, settled, latest, pending. rewrite run_app, E1. cbn [mbind option_bind].
  destruct (ticker s) as [|h|] eqn:Et.
  - exists s1. by rewrite Hh1, Ht1, (app_nil_r (hashes s)).
  - destruct (send_one s1 h Hl1 Ht1 Hh1) as (s2 & E2 & Hl2 & Hh2 & Ht2 & Hc2 & Hr2).
    destruct (receive_one s2 h [] Hl2 Hh2) as (s3 & E3 & Hl3 & Hh3 & Ht3 & Hc3 & Hr3).
    exists s3. cbn [run]. rewrite E2, E3. split; [done|]. split; [done|]. split; [by rewrite Hh3, Ht3, Ht2|].
    split; [by rewrite last_app_cons|]. by eapply restarted_trans; [|eapply restarted_trans].
  - by destruct (live_open s Hl).
Qed.

Lemma settle_length s : length (hashes s) <= 2 -> length (settle s) <= 4.
Proof. intros Hl. unfold settle. rewrite length_app, repeat_length. destruct (ticker s); cbn; lia. Qed.

(** ** Theorems *)

(** C19. The child follows the directory.  Whatever happened so far, take the
    content that the last tick saw and a watcher that is not being stopped:
    after at most four steps of its own (the send of that tick and the
    receives), all of which are possible, everything is received, the current
    hash is the total hash of that content, and every running child was
    started for it; if the hash is not the one the watcher had before, then
    exactly one child runs, the one started last. *)
Theorem watcher_follows_directory (range : list string -> list string) (fs : string -> option (list (string * entry)))
    (args : list string) (l : launched) (es : list event) (s : watcher) (files : list (string * entry)) :
  main range fs args = Ret l -> run es (state l) = Some s ->
  main_phase s = Monitoring -> waited s = false ->
  last_computed es (currentHash (state l)) = getTotalHash range (Some files) ->
  exists s', run (settle s) s = Some s' /\ length (settle s) <= 4 /\ settled s' /\ main_phase s' = Monitoring /\
    currentHash s' = getTotalHash range (Some files) /\
    (forall pid h, children s' !! pid = Some h -> h = getTotalHash range (Some files)) /\
    (currentHash s = getTotalHash range (Some files) \/
     exists pid, children s' = {[pid := getTotalHash range (Some files)]} /\ proc s' = Some pid).
Proof.
  intros Hmain Hrun Hm Hw Hlast. unfold main in Hmain. destruct (Parameters_Parse args) as [params| |]; try done.
  injection Hmain as <-. cbn [state] in *.
  destruct (run_channel es _ s (started_channel _) Hrun) as [[Hl Ho] El].
  assert (Hwf : well_formed s) by (apply reachable_well_formed; by do 2 eexists). destruct Hwf as [Hc Hi].
  assert (Hlive : live s) by (split; [done|done|intros E; destruct (Ho E); congruence|done]).
  destruct (settle_ok s Hlive) as (s' & Er & Hl' & Hs' & Hcur & Hr). exists s'.
  change (latest (started_with ?h)) with h in El.
  cbn [started_with currentHash] in Hlast. rewrite El, Hlast in Hcur.
  assert (Hwf' : well_formed s') by (apply (run_invariant well_formed step_well_formed (settle s) s s'); [by split|done]).
  split; [done|]. split; [by apply settle_length|]. split; [done|]. split; [exact (live_phase _ Hl')|]. split; [done|]. split.
  - intros pid h E. rewrite <- Hcur. apply (proj2 Hwf' pid h E). exact (live_waited _ Hl').
  - destruct Hr as [(Ec & _ & _)|[_ Ef]]; [left; congruence|]. right. exists (pred (next_pid s')). rewrite Hcur in Ef.
    split; [done|]. apply (only_proc s' (proj1 Hwf') _ (getTotalHash range (Some files))). rewrite Ef. apply lookup_singleton_eq.
Qed.

(** A round of the ticker in which the directory has not changed. *)
Definition quiet_round (h : string) (stop : stop_result) (start : start_result) : list event :=
  [ticker_C h; ticker_send; monitor_hash stop start].

Lemma step_running e s :
  main_phase s <> Exited ->
  step e s = match e with
             | ChildExits pid => Some (with_proc (proc s) (waited s) (delete pid (children s)) s)
             | ticker_C _ | ticker_send | ticker_Done => RunTotalHashCalc_step e s
             | handleSignals_Stop _ | handleSignals_done => handleSignals_step e s
             | _ => main_step e s
             end.
Proof. intros Hm. unfold step. destruct e; by rewrite ?decide_False. Qed.

Lemma quiet_round_same s stop start :
  main_phase s = Monitoring -> hashes s = [] -> ticker s = Selecting ->
  run (quiet_round (currentHash s) stop start) s = Some s.
Proof.
  destruct s as [p w c np ch hh tk ph sg d]. cbn -[step]. intros -> -> ->.
  do 3 (rewrite step_running by done; cbn -[step]). by rewrite String.eqb_refl.
Qed.

(** A child that ends by itself is not noticed.  Once everything is
    received and the child has ended, the watcher goes on without a child
    for as long as the content of the directory stays the same: every number
    of ticks is taken, and none of them starts a child. *)
Theorem ended_child_stays_ended (s : watcher) (pid n : nat) (stop : stop_result) (start : start_result) :
  reachable s -> main_phase s = Monitoring -> settled s -> proc s = Some pid ->
  exists s', run (ChildExits pid :: concat (repeat (quiet_round (currentHash s) stop start) n)) s = Some s' /\
    main_phase s' = Monitoring /\ children s' = ∅ /\ next_pid s' = next_pid s.
Proof.
  intros Hreach Hm Hs Hp. destruct Hreach as (h & es & Hr).
  assert (Hwf : well_formed s) by (apply reachable_well_formed; by do 2 eexists).
  destruct (run_channel es _ s (started_channel h) Hr) as [[_ Ho] _].
  assert (Hh : hashes s = [] /\ ticker s = Selecting).
  { unfold settled, pending in Hs. apply app_eq_nil in Hs as [Hh Ht]. split; [done|].
    destruct (ticker s); [done|done|]. destruct (Ho eq_refl); congruence. }
  destruct Hh as [Hh Ht].
  assert (He : delete pid (children s) = ∅).
  { apply map_empty. intros q. destruct (delete pid (children s) !! q) as [x|] eqn:E; [|done].
    apply lookup_delete_Some in E as [Hne E]. pose proof (only_proc s (proj1 Hwf) q x E). congruence. }
  cbn [run step]. rewrite He. set (s1 := with_proc (proc s) (waited s) ∅ s).
  exists s1. split; [|done]. induction n as [|n IH]; [done|]. cbn [repeat concat]. rewrite run_app.
  change (currentHash s) with (currentHash s1). rewrite quiet_round_same by done. exact IH.
Qed.

(** [log/slog] knows four words; with any other the level is the one of
    information, and only the word "text" chooses the format for people. *)
Lemma setupLogger_spec params :
  setupLogger params =
  (if String.eqb (LogFormat params) "text" then slog.TextHandler else slog.JSONHandler)
    (match slog.UnmarshalText (LogLevel params) with Some l => l | None => slog.LevelInfo end).
Proof. unfold setupLogger. destruct (slog.UnmarshalText _); by destruct (String.eqb _ _). Qed.

(** ** Witnesses *)

Definition example_fs (dir : string) : option (list (string * entry)) :=
  if String.eqb dir "/etc/conf" then Some [("config.yaml", File "old"); ("sub", Directory)] else None.

Definition changed_files : list (string * entry) := [("config.yaml", File "new"); ("sub", Directory)].

Definition example_args : list string := ["watcher"; "--cmd-line=/bin/proxy"; "--port=1"; "--watched-dir=/etc/conf/"].

Definition example_launched : launched :=
  mkLaunched (slog.JSONHandler 0%Z) (mkCommand "/bin/proxy" ["--port=1"])
    (started_with (getTotalHash id (example_fs "/etc/conf"))).

Definition example_events : list event :=
  [startProcess Started; ticker_C (getTotalHash id (Some changed_files))].

Lemma watcher_follows_directory_witness :
  main id example_fs example_args = Ret example_launched /\
  exists s s', run example_events (state example_launched) = Some s /\ run (settle s) s = Some s' /\
    children s' = {[1 := getTotalHash id (Some changed_files)]}.
Proof.
  assert (Hm : main id example_fs example_args = Ret example_launched) by (vm_compute; reflexivity).
  split; [exact Hm|]. eexists. edestruct (watcher_follows_directory id example_fs example_args example_launched
    example_events _ changed_files Hm ltac:(reflexivity)) as (s' & Hr & _ & _ & _ & _ & _ & [E|(pid & E & Hp)]);
    [reflexivity|reflexivity|reflexivity| |].
  - vm_compute in E. discriminate.
  - exists s'. split; [reflexivity|]. split; [exact Hr|]. assert (pid = 1) as ->; [|exact E].
    vm_compute in Hr. injection Hr as <-. vm_compute in Hp. by injection Hp as <-.
Defined.

Lemma ended_child_stays_ended_witness :
  exists s', run (ChildExits 0 :: concat (repeat (quiet_round "h" Stopped Started) 5))
    (default (started_with "h") (run [startProcess Started] (started_with "h"))) = Some s' /\ children s' = ∅.
Proof.
  edestruct (ended_child_stays_ended (default (started_with "h") (run [startProcess Started] (started_with "h"))) 0 5
    Stopped Started) as (s' & Hr & _ & He & _).
  - exists "h", [startProcess Started]. reflexivity.
  - reflexivity.
  - reflexivity.
  - reflexivity.
  - exists s'. split; [exact Hr|exact He].
Defined.
