(* ===== verification/Certificates.v ===== *)
(** * [pkg/certificates]: generating, saving and loading certificates

    [rand.go], [operations.go] and [generate.go].  The two common names are
    package variables set once ([names]); the rest of the state is the world. *)

From S2P Require Import Prelude GoStrings Kube Vendor RandUtils Filepath Pem Crypto.

(** ** [rand.go] *)

(** [generatedCAName] and [generatedTLSName], [None] before their [Once] ran. *)
Record names := mkNames {
  generatedCAName : option string;
  generatedTLSName : option string }.

Definition no_names : names := mkNames None None.

Section Generate.
Context {W : Type} `{Client W, Crypto W, Host W}.

Definition generateRandomString (length : nat) : M W string := GenerateRandomString length.

Definition generateCACommonName (prefix : string) : M (names * W) string :=
  s ← get_state;
  match generatedCAName s with
  | Some name => mret name
  | None =>
      r ← at_world (generateRandomString 5);
      put_state (mkNames (Some (prefix +:+ "-" +:+ r)) (generatedTLSName s));;
      mret (prefix +:+ "-" +:+ r)
  end.

Definition generateTLSCommonName (prefix : string) : M (names * W) string :=
  s ← get_state;
  match generatedTLSName s with
  | Some name => mret name
  | None =>
      r ← at_world (generateRandomString 5);
      put_state (mkNames (generatedCAName s) (Some (prefix +:+ "-" +:+ r)));;
      mret (prefix +:+ "-" +:+ r)
  end.

(** ** [operations.go] *)

Record CertificateOperations := mkCertificateOperations {
  GenerateKey : Z -> M W rsa_PrivateKey;
  CreateCertificate : Certificate -> Certificate -> rsa_PublicKey -> PrivateKey rsa_PrivateKey -> M W Certificate }.

Definition realCertOps : CertificateOperations := {|
  GenerateKey keyLength := rsa_GenerateKey keyLength;
  CreateCertificate template parent pub priv :=
    certBytes ← x509_CreateCertificate template parent pub priv;
    lift (checked (x509_ParseCertificate certBytes)) |}.

(** ** [generate.go] *)

Definition certCAType : string := "ca".
Definition certTLSType : string := "tls".
Definition commonTLSNamePrefix : string := "oidc-apps-controller-webhook".
Definition commonCANamePrefix : string := "oidc-apps-controller-ca".
Definition organizationName : string := "oidc-apps.io".
Definition keyLength : Z := 3072.

(** The validities of [manager.go], in nanoseconds *)
Definition Hour : Z := 3600000000000.
Definition tlsCertValidity : Z := Hour * 24.
Definition caCertValidity : Z := Hour * 168.

Record bundle := mkBundle {
  cert : Certificate;
  key : PrivateKey rsa_PrivateKey }.

Definition MaxInt64 : Z := 2 ^ 63 - 1.

Definition generateSerial : M W Z :=
  serial ← rand_Int (MaxInt64 - 1);
  mret (serial + 1)%Z.

Definition rsaToPem (privateKey : rsa_PrivateKey) : outcome string :=
  match x509_MarshalPKCS8PrivateKey privateKey with
  | inl e => Err (Errorf "error marshaling bundle private key" e)
  | inr m => Ret (pem.EncodeToMemory "RSA PRIVATE KEY" m)
  end.

Definition derToPem (certificate : Certificate) : outcome string :=
  match x509_ParseCertificate (Raw certificate) with
  | inl e => Err (Errorf "error parcing bundle" e)
  | inr certDERBytes => Ret (pem.EncodeToMemory "CERTIFICATE" (Raw certDERBytes))
  end.

(** [b.key] used as an RSA key: the type assertion panics on another key. *)
Definition assert_rsa (k : PrivateKey rsa_PrivateKey) : outcome rsa_PrivateKey :=
  match k with
  | RSA k => Ret k
  | OtherKey => Panic "interface conversion: crypto.PrivateKey is not *rsa.PrivateKey"
  end.

(** The two writes of either case of the switch in [writeBundle]. *)
Definition write_pair (path type_ certPEM keyPEM : string) : M W unit :=
  let locationCrt := filepath.Join2 path (type_ +:+ ".crt") in
  let locationKey := filepath.Join2 path (type_ +:+ ".key") in
  wrap "error saving bundle public key" (cert_WriteCert locationCrt certPEM);;
  wrap "error saving bundle private key" (cert_WriteCert locationKey keyPEM).

Definition writeBundle (path : string) (b : bundle) : M W unit :=
  certPEM ← lift (derToPem (cert b));
  k ← lift (assert_rsa (key b));
  keyPEM ← lift (rsaToPem k);
  if IsCA (cert b) then write_pair path certCAType certPEM keyPEM
  else write_pair path certTLSType certPEM keyPEM.

Definition generateCACert (path : string) (ops : CertificateOperations) : M (names * W) bundle :=
  privateKey ← wrap "error generating the CA private key" (at_world (GenerateKey ops keyLength));
  serial ← wrap "error generating bundle serial number" (at_world generateSerial);
  commonName ← generateCACommonName commonCANamePrefix;
  notBefore ← at_world time_Now;
  now ← at_world time_Now;
  let certTmpl := {|
    Raw := EmptyString;
    SerialNumber := serial;
    CommonName := commonName;
    Organization := [organizationName];
    DNSNames := ["CA"];
    NotBefore := notBefore;
    NotAfter := now + caCertValidity;
    KeyUsage := Z.lor (Z.lor KeyUsageKeyEncipherment KeyUsageDigitalSignature) KeyUsageCertSign;
    ExtKeyUsage := [];
    BasicConstraintsValid := true;
    IsCA := true |} in
  caCert ← wrap "error creating the CA bundle"
    (at_world (CreateCertificate ops certTmpl certTmpl (rsa_Public privateKey) (RSA privateKey)));
  let b := mkBundle caCert (RSA privateKey) in
  at_world (writeBundle path b);;
  mret b.

(** The private key does not come from [ops]. *)
Definition generateTLSCert (path : string) (ops : CertificateOperations) (dnsnames : list string) (caBundle : bundle) :
    M (names * W) bundle :=
  privateKey ← wrap "error generating the TLS private key" (at_world (rsa_GenerateKey keyLength));
  serial ← wrap "error generating bundle serial number" (at_world generateSerial);
  commonName ← generateTLSCommonName commonTLSNamePrefix;
  notBefore ← at_world time_Now;
  now ← at_world time_Now;
  let certTmpl := {|
    Raw := EmptyString;
    SerialNumber := serial;
    CommonName := commonName;
    Organization := [organizationName];
    DNSNames := dnsnames;
    NotBefore := notBefore;
    NotAfter := now + tlsCertValidity;
    KeyUsage := Z.lor KeyUsageDigitalSignature KeyUsageKeyEncipherment;
    ExtKeyUsage := [ExtKeyUsageServerAuth];
    BasicConstraintsValid := false;
    IsCA := false |} in
  certificate ← wrap "error generating the TLS bundle"
    (at_world (CreateCertificate ops certTmpl (cert caBundle) (rsa_Public privateKey) (key caBundle)));
  let b := mkBundle certificate (RSA privateKey) in
  at_world (writeBundle path b);;
  mret b.

(** The first PEM block of a file *)
Definition first_block (data : string) : outcome string :=
  match pem.Decode data with
  | (Some block, _) => Ret (pem.Block_Bytes block)
  | (None, _) => Err (ErrorString "no PEM block found")
  end.

(** The body that [loadTLSFromDisk] and [loadCAFromDisk] share. *)
Definition load_pair (path type_ : string) : M W bundle :=
  crt ← os_ReadFile (filepath.Join2 (filepath.Clean path) (type_ +:+ ".crt"));
  block ← lift (first_block crt);
  certificate ← lift (checked (x509_ParseCertificate block));
  key ← os_ReadFile (filepath.Join2 (filepath.Clean path) (type_ +:+ ".key"));
  block ← lift (first_block key);
  k ← lift (checked (x509_ParsePKCS8PrivateKey block));
  k ← lift (assert_rsa k);
  mret (mkBundle certificate (RSA k)).

Definition loadTLSFromDisk (path : string) : M W bundle := load_pair path certTLSType.
Definition loadCAFromDisk (path : string) : M W bundle := load_pair path certCAType.

End Generate.

Arguments CertificateOperations W {_}.
Arguments bundle W {_}.
