(* ===== verification/CertManager.v ===== *)
(** * [pkg/certificates/manager.go]: the certificate manager

    The CA bundles of the webhook configuration, the three ticker loops (one
    definition per tick), the constructor and the shut-down.  A pointer to a
    bundle is the bundle; what a tick assigns is in its result. *)

From S2P Require Import Prelude GoStrings Kube Vendor Pem Crypto Certificates.

Section Manager.
Context {W : Type} `{Client W, Crypto W, Host W, Clientset W}.

Definition tlsCertRotation : Z := Hour * 1.
Definition caCertRotation : Z := Hour * 10.

Definition podsWebhookSuffix : string := "-pods.oidc-apps.io".
Definition vpasWebhookSuffix : string := "-vpas.oidc-apps.io".

Record certManager := mkCertManager {
  certPath : string;
  dnsNames : list string;
  webhookName : string;
  ca : bundle W;
  tls : bundle W }.

Definition with_ca (b : bundle W) (c : certManager) : certManager :=
  mkCertManager (certPath c) (dnsNames c) (webhookName c) b (tls c).
Definition with_tls (b : bundle W) (c : certManager) : certManager :=
  mkCertManager (certPath c) (dnsNames c) (webhookName c) (ca c) b.

(** ** CA bundles *)

(** [cert.SerialNumber.String()] *)
Definition serial_string (c : Certificate) : string := Itoa (SerialNumber c).

(** The loop over the PEM blocks that [updateCABundles] and [removeCABundle]
    share: the certificates that [keep] selects.  [None] is a loop that has
    not ended after [fuel] rounds. *)
Fixpoint scan_bundle (fuel : nat) (keep : Certificate -> bool) (caBundle : string) : option (outcome (list Certificate)) :=
  match caBundle, fuel with
  | EmptyString, _ => Some (Ret [])
  | _, O => None
  | _, S fuel' =>
      let '(block, rest) := pem.Decode caBundle in
      match block with
      | None => Some (Ret [])
      | Some block =>
          if negb (String.eqb (pem.Block_Type block) "CERTIFICATE") then scan_bundle fuel' keep rest
          else match x509_ParseCertificate (pem.Block_Bytes block) with
               | inl e => Some (Err e)
               | inr crt =>
                   result ← scan_bundle fuel' keep rest;
                   Some (currentCAs ← result; Ret (if keep crt then crt :: currentCAs else currentCAs))
               end
      end
  end.

Definition not_ended : string := "the loop has not ended".

(** Every round consumes text: the length of the bundle is enough rounds. *)
Definition certificates_of (keep : Certificate -> bool) (caBundle : string) : outcome (list Certificate) :=
  default (Panic not_ended) (scan_bundle (String.length caBundle) keep caBundle).

(** Certificates that have not expired; the clock is read for each. *)
Fixpoint drop_expired (currentCAs : list Certificate) : M W (list Certificate) :=
  match currentCAs with
  | [] => mret []
  | ca :: rest =>
      now ← time_Now;
      updatedCAs ← drop_expired rest;
      mret (if Z.ltb (NotAfter ca) now then updatedCAs else ca :: updatedCAs)
  end.

(** The PEM text of a list of certificates *)
Definition encode_certificates (cas : list Certificate) : string :=
  fold_right (fun ca text => pem.EncodeToMemory "CERTIFICATE" (Raw ca) +:+ text) EmptyString cas.

(** [updateCABundles]; the second argument is [*c.ca.cert]. *)
Definition updateCABundles (current : Certificate) (caBundle : string) : M W string :=
  currentCAs ← lift (certificates_of (fun _ => true) caBundle);
  updatedCAs ← drop_expired currentCAs;
  mret (encode_certificates (updatedCAs ++ [current])).

Definition removeCABundle (current : Certificate) (caBundle : string) : outcome string :=
  currentCAs ← certificates_of (fun crt => negb (String.eqb (serial_string current) (serial_string crt))) caBundle;
  mret (encode_certificates currentCAs).

(** The loop of [caBundleFound]; [None] as above *)
Fixpoint caBundleFound_loop (fuel : nat) (caBundle : string) (cert : Certificate) : option bool :=
  match caBundle, fuel with
  | EmptyString, _ => Some false
  | _, O => None
  | _, S fuel' =>
      let '(block, rest) := pem.Decode caBundle in
      match block with
      | None => Some false
      | Some block =>
          if negb (String.eqb (pem.Block_Type block) "CERTIFICATE") then caBundleFound_loop fuel' rest cert
          else match x509_ParseCertificate (pem.Block_Bytes block) with
               | inl _ => Some false
               | inr crt => if String.eqb (serial_string cert) (serial_string crt) then Some true
                            else caBundleFound_loop fuel' rest cert
               end
      end
  end.

Definition caBundleFound (caBundle : string) (cert : Certificate) : bool :=
  default false (caBundleFound_loop (String.length caBundle) caBundle cert).

(** ** The webhook configuration *)

Definition set_bundle (b : string) (w : MutatingWebhook) : MutatingWebhook :=
  mkMutatingWebhook (Webhook_Name w) b (Webhook_Rest w).

(** The two webhooks of this controller *)
Definition own_webhook (name : string) (w : MutatingWebhook) : bool :=
  negb (negb (String.eqb (Webhook_Name w) (name +:+ vpasWebhookSuffix)) &&
        negb (String.eqb (Webhook_Name w) (name +:+ podsWebhookSuffix))).

(** The loop over the webhooks: others are skipped, an error ends the loop
    with the entries so far changed. *)
Fixpoint each_webhook (name : string) (f : string -> M W string) (ws : list MutatingWebhook) : M W (list MutatingWebhook) :=
  match ws with
  | [] => mret []
  | w :: rest =>
      if negb (own_webhook name w) then
        rest ← each_webhook name f rest;
        mret (w :: rest)
      else
        r ← try_ (f (Webhook_CABundle w));
        match r with
        | inl _ => mret ws
        | inr b =>
            rest ← each_webhook name f rest;
            mret (set_bundle b w :: rest)
        end
  end.

Definition set_webhooks (ws : list MutatingWebhook) (o : MutatingWebhookConfiguration) : MutatingWebhookConfiguration :=
  mkMutatingWebhookConfiguration (MutatingWebhookConfiguration_Meta o) ws.

(** Before the manager runs, with the first CA certificate *)
Definition setupWebhooksCABundles (name : string) (current : Certificate) : M W unit :=
  wrap "error creating k8s client" (lift kubernetes_NewForConfig);;
  RetryOnConflict (
    mutatingWebhook ← wrap "error getting webhook" (clientset_Get name);
    ws ← each_webhook name (updateCABundles current) (Webhooks mutatingWebhook);
    clientset_Update (set_webhooks ws mutatingWebhook)).

Definition get_webhook (name : string) : M W MutatingWebhookConfiguration :=
  cl_Get KMutatingWebhookConfiguration (mkNN EmptyString name).

Definition updateWebhookConfiguration (c : certManager) : M W unit :=
  RetryOnConflict (
    webhook ← get_webhook (webhookName c);
    ws ← each_webhook (webhookName c) (updateCABundles (cert (ca c))) (Webhooks webhook);
    cl_Update KMutatingWebhookConfiguration (set_webhooks ws webhook)).

Definition cleanWebhookCABundles (c : certManager) (oidcWebhook : MutatingWebhookConfiguration) : M W MutatingWebhookConfiguration :=
  ws ← each_webhook (webhookName c) (fun b => lift (removeCABundle (cert (ca c)) b)) (Webhooks oidcWebhook);
  mret (set_webhooks ws oidcWebhook).

Definition cleanUpMutatingWebhookConfiguration (c : certManager) : M W unit :=
  RetryOnConflict (
    webhook ← get_webhook (webhookName c);
    webhook ← cleanWebhookCABundles c webhook;
    cl_Update KMutatingWebhookConfiguration webhook).

(** ** Ticks *)

Fixpoint sync_webhooks (c : certManager) (ws : list MutatingWebhook) : M W unit :=
  match ws with
  | [] => mret tt
  | w :: rest =>
      (if negb (caBundleFound (Webhook_CABundle w) (cert (ca c)))
       then _ ← try_ (updateWebhookConfiguration c); mret tt
       else mret tt);;
      sync_webhooks c rest
  end.

(** [syncWebhookCaBundle], a tick: an error of the read is logged and leaves
    a configuration without webhooks. *)
Definition syncWebhookCaBundle (c : certManager) : M W unit :=
  r ← try_ (get_webhook (webhookName c));
  sync_webhooks c (match r with inl _ => [] | inr webhook => Webhooks webhook end).

Definition nil_bundle : string := "invalid memory address or nil pointer dereference".

(** [rotateTLSCert], a tick: an error is logged, and [t] is nil then. *)
Definition rotateTLSCert (c : certManager) : M (names * W) certManager :=
  now ← at_world time_Now;
  if Z.ltb (now + tlsCertRotation) (NotAfter (cert (tls c))) then mret c
  else
    r ← try_ (generateTLSCert (certPath c) realCertOps (dnsNames c) (ca c));
    match r with
    | inl _ => panic nil_bundle
    | inr t => mret (with_tls t c)
    end.

(** [rotateCACert], a tick *)
Definition rotateCACert (c : certManager) : M (names * W) certManager :=
  now ← at_world time_Now;
  if Z.ltb (now + caCertRotation) (NotAfter (cert (ca c))) then mret c
  else
    r ← try_ (generateCACert (certPath c) realCertOps);
    match r with
    | inl _ => panic nil_bundle
    | inr crt =>
        let c := with_ca crt c in
        _ ← try_ (at_world (updateWebhookConfiguration c));
        r ← try_ (generateTLSCert (certPath c) realCertOps (dnsNames c) (ca c));
        match r with
        | inl _ => panic nil_bundle
        | inr t => mret (with_tls t c)
        end
    end.

(** ** [New] and [Start] *)

Definition dns_names (name namespace : string) : list string :=
  name ::
  (if String.eqb namespace EmptyString then []
   else let prefix := name +:+ "." +:+ namespace in
        [prefix; prefix +:+ ".svc"; prefix +:+ ".svc.cluster"; prefix +:+ ".svc.cluster.local"]).

Definition New (certPath name namespace : string) : M (names * W) certManager :=
  r ← try_ (at_world (loadCAFromDisk certPath));
  ca ← (match r with
        | inr b => mret b
        | inl _ =>
            b ← generateCACert certPath realCertOps;
            at_world (setupWebhooksCABundles name (cert b));;
            mret b
        end);
  r ← try_ (at_world (loadTLSFromDisk certPath));
  tls ← (match r with
         | inr b => mret b
         | inl _ => generateTLSCert certPath realCertOps (dns_names name namespace) ca
         end);
  mret (mkCertManager certPath (dns_names name namespace) name ca tls).

Inductive tick := SyncTick | TLSTick | CATick.

Definition run_tick (t : tick) (c : certManager) : M (names * W) certManager :=
  match t with
  | SyncTick => at_world (syncWebhookCaBundle c);; mret c
  | TLSTick => rotateTLSCert c
  | CATick => rotateCACert c
  end.

Fixpoint run_ticks (ts : list tick) (c : certManager) : M (names * W) certManager :=
  match ts with
  | [] => mret c
  | t :: ts' => c ← run_tick t c; run_ticks ts' c
  end.

(** [Start] when the ticks before the context ends come in the order [ts],
    one after the other. *)
Definition Start (ts : list tick) (c : certManager) : M (names * W) unit :=
  c ← run_ticks ts c;
  at_world (cleanUpMutatingWebhookConfiguration c).

End Manager.

Arguments certManager W {_}.
