(* ===== verification/CertBundleSpec.v ===== *)
(** * CA bundles: what the manager reads and writes

    Lemmas on the loops over PEM blocks, and the theorems on
    [updateCABundles], [removeCABundle] and [caBundleFound]. *)

From S2P Require Import Prelude GoStrings Kube Vendor Pem Crypto Certificates CertManager Reference ReferenceHost.

Section Bundles.
Context {W : Type} `{CryptoLaws W, !Host W, !HostLaws W, !Clientset W}.

Definition all_certificates (_ : Certificate) : bool := true.

(** A certificate that is what its bytes parse to *)
Definition parsed (c : Certificate) : Prop := x509_ParseCertificate (Raw c) = inr c.

Lemma parse_parsed d c : x509_ParseCertificate d = inr c -> parsed c.
Proof. intros E. unfold parsed. by rewrite (parse_raw _ _ E). Qed.

(** ** The loops *)

(** A loop that ends does so for every larger number of rounds, with the same
    result; and there are enough rounds. *)
Lemma scan_bundle_more keep fuel fuel' b r :
  scan_bundle fuel keep b = Some r -> fuel <= fuel' -> scan_bundle fuel' keep b = Some r.
Proof.
  revert fuel' b r. induction fuel as [|fuel IH]; intros fuel' b r E L.
  - destruct b; [|done]. by destruct fuel'.
  - destruct fuel' as [|fuel']; [lia|]. destruct b as [|a b]; [exact E|]. cbn [scan_bundle] in *.
    destruct (pem.Decode (String a b)) as [[block|] rest]; [|done]. destruct (negb _); [apply (IH fuel'); [done|lia]|].
    destruct (x509_ParseCertificate _) as [e|crt]; [done|].
    destruct (scan_bundle fuel keep rest) as [l|] eqn:El; [|done]. by rewrite (IH fuel' rest l El) by lia.
Qed.

Lemma scan_bundle_ends keep fuel b : String.length b <= fuel -> is_Some (scan_bundle fuel keep b).
Proof.
  revert b. induction fuel as [|fuel IH]; intros b L; (destruct b as [|a b]; [by eexists|]); [cbn in L; lia|]. cbn [scan_bundle].
  destruct (pem.Decode (String a b)) as [[block|] rest] eqn:E; [|by eexists]. apply pem.Decode_shrinks in E. cbn [String.length] in *.
  destruct (IH rest ltac:(lia)) as [l El]. rewrite El. destruct (negb _); [by eexists|]. by destruct (x509_ParseCertificate _); eexists.
Qed.

Lemma scan_bundle_result keep fuel b r : scan_bundle fuel keep b = Some r -> certificates_of keep b = r.
Proof.
  intros E. destruct (scan_bundle_ends keep (String.length b) b (le_n _)) as [r' E'].
  unfold certificates_of. rewrite E'. cbn.
  apply (scan_bundle_more _ _ (Nat.max fuel (String.length b))) in E, E'; [congruence|lia..].
Qed.

Lemma found_loop_more cert fuel fuel' b r :
  caBundleFound_loop fuel b cert = Some r -> fuel <= fuel' -> caBundleFound_loop fuel' b cert = Some r.
Proof.
  revert fuel' b r. induction fuel as [|fuel IH]; intros fuel' b r E L.
  - destruct b; [|done]. by destruct fuel'.
  - destruct fuel' as [|fuel']; [lia|]. destruct b as [|a b]; [exact E|]. cbn [caBundleFound_loop] in *.
    destruct (pem.Decode (String a b)) as [[block|] rest]; [|done]. destruct (negb _); [apply (IH fuel'); [done|lia]|].
    destruct (x509_ParseCertificate _) as [e|crt]; [done|]. destruct (String.eqb _ _); [done|]. apply (IH fuel'); [done|lia].
Qed.

Lemma found_loop_ends cert fuel b : String.length b <= fuel -> is_Some (caBundleFound_loop fuel b cert).
Proof.
  revert b. induction fuel as [|fuel IH]; intros b L; (destruct b as [|a b]; [by eexists|]); [cbn in L; lia|]. cbn [caBundleFound_loop].
  destruct (pem.Decode (String a b)) as [[block|] rest] eqn:E; [|by eexists]. apply pem.Decode_shrinks in E. cbn [String.length] in *.
  specialize (IH rest ltac:(lia)). destruct (negb _); [done|]. destruct (x509_ParseCertificate _); [by eexists|].
  by destruct (String.eqb _ _); [eexists|].
Qed.

Lemma found_loop_result cert fuel b r : caBundleFound_loop fuel b cert = Some r -> caBundleFound b cert = r.
Proof.
  intros E. destruct (found_loop_ends cert (String.length b) b (le_n _)) as [r' E'].
  unfold caBundleFound. rewrite E'. cbn.
  apply (found_loop_more _ _ (Nat.max fuel (String.length b))) in E, E'; [congruence|lia..].
Qed.

(** One round *)
Lemma certificates_of_step keep b block rest :
  pem.Decode b = (Some block, rest) ->
  certificates_of keep b =
    if negb (String.eqb (pem.Block_Type block) "CERTIFICATE") then certificates_of keep rest
    else crt ← checked (x509_ParseCertificate (pem.Block_Bytes block));
         l ← certificates_of keep rest;
         mret (if keep crt then crt :: l else l).
Proof.
  intros E. pose proof (pem.Decode_shrinks _ _ _ E) as Hl. destruct b as [|a b]; [cbn in Hl; lia|].
  destruct (scan_bundle_ends keep (String.length rest) rest (le_n _)) as [l El].
  apply (scan_bundle_result keep (S (String.length rest))). cbn [scan_bundle]. rewrite E, El.
  rewrite (scan_bundle_result _ _ _ _ El). destruct (negb _); [done|]. by destruct (x509_ParseCertificate _).
Qed.

Lemma certificates_of_end keep b rest : pem.Decode b = (None, rest) -> certificates_of keep b = Ret [].
Proof. intros E. apply (scan_bundle_result keep 1). destruct b as [|a b]; [done|]. cbn [scan_bundle]. by rewrite E. Qed.

Lemma found_step cert b block rest :
  pem.Decode b = (Some block, rest) ->
  caBundleFound b cert =
    if negb (String.eqb (pem.Block_Type block) "CERTIFICATE") then caBundleFound rest cert
    else match x509_ParseCertificate (pem.Block_Bytes block) with
         | inl _ => false
         | inr crt => if String.eqb (serial_string cert) (serial_string crt) then true else caBundleFound rest cert
         end.
Proof.
  intros E. pose proof (pem.Decode_shrinks _ _ _ E) as Hl. destruct b as [|a b]; [cbn in Hl; lia|].
  destruct (found_loop_ends cert (String.length rest) rest (le_n _)) as [r Er].
  apply (found_loop_result cert (S (String.length rest))). cbn [caBundleFound_loop]. rewrite E, Er.
  rewrite (found_loop_result _ _ _ _ Er). destruct (negb _); [done|]. destruct (x509_ParseCertificate _); [done|].
  by destruct (String.eqb _ _).
Qed.

Lemma found_end cert b rest : pem.Decode b = (None, rest) -> caBundleFound b cert = false.
Proof. intros E. apply (found_loop_result cert 1). destruct b as [|a b]; [done|]. cbn [caBundleFound_loop]. by rewrite E. Qed.

(** Induction over the blocks of a bundle *)
Lemma bundle_ind (P : string -> Prop) :
  (forall b, (forall block rest, pem.Decode b = (Some block, rest) -> P rest) -> P b) -> forall b, P b.
Proof.
  intros Hstep b. induction b as [b IH] using (induction_ltof1 _ String.length). apply Hstep.
  intros block rest E. apply IH. exact (pem.Decode_shrinks _ _ _ E).
Qed.

(** Selecting while scanning is selecting afterwards. *)
Lemma certificates_of_filter keep b :
  certificates_of keep b = l ← certificates_of all_certificates b; Ret (List.filter keep l).
Proof.
  induction b as [b IH] using bundle_ind. destruct (pem.Decode b) as [[block|] rest] eqn:E.
  - rewrite !(certificates_of_step _ _ _ _ E), (IH _ _ eq_refl). destruct (negb _); [done|].
    destruct (x509_ParseCertificate _) as [e|c]; [done|]. cbn.
    destruct (certificates_of all_certificates rest); cbn; done.
  - by rewrite !(certificates_of_end _ _ _ E).
Qed.

Lemma certificates_of_no_panic keep b p : certificates_of keep b <> Panic p.
Proof.
  induction b as [b IH] using bundle_ind. destruct (pem.Decode b) as [[block|] rest] eqn:E.
  - rewrite (certificates_of_step _ _ _ _ E). specialize (IH _ _ eq_refl). destruct (negb _); [done|].
    destruct (x509_ParseCertificate _) as [e|c]; [done|]. cbn. by destruct (certificates_of keep rest).
  - by rewrite (certificates_of_end _ _ _ E).
Qed.

Lemma certificates_of_parsed keep b l : certificates_of keep b = Ret l -> Forall parsed l.
Proof.
  revert l. induction b as [b IH] using bundle_ind. intros l. destruct (pem.Decode b) as [[block|] rest] eqn:E.
  - rewrite (certificates_of_step _ _ _ _ E). specialize (IH _ _ eq_refl). destruct (negb _); [apply IH|].
    destruct (x509_ParseCertificate _) as [e|c] eqn:Ec; [done|]. cbn.
    destruct (certificates_of keep rest) as [l'| |]; [|done..]. intros [= <-]. specialize (IH l' eq_refl).
    destruct (keep c); [constructor; [by eapply parse_parsed|done]|done].
  - rewrite (certificates_of_end _ _ _ E). intros [= <-]. constructor.
Qed.

(** Reading back what was encoded *)
Lemma certificates_of_encode keep cs : Forall parsed cs -> certificates_of keep (encode_certificates cs) = Ret (List.filter keep cs).
Proof.
  induction 1 as [|c cs Hc Hcs IH]; [done|]. cbn [encode_certificates fold_right].
  rewrite (certificates_of_step _ _ _ _ (pem.Decode_EncodeToMemory _ _ _ pem.type_ok_CERTIFICATE)). cbn [pem.Block_Type pem.Block_Bytes].
  cbn [String.eqb Ascii.eqb Bool.eqb negb]. unfold encode_certificates in IH. rewrite Hc, IH. cbn. by destruct (keep c).
Qed.

(** ** Serial numbers *)

Lemma itoa_N_inj m n : itoa_N m = itoa_N n -> m = n.
Proof. intros E. pose proof (parse_itoa false m) as Hm. rewrite E, parse_itoa in Hm. congruence. Qed.

Lemma Itoa_inj x y : Itoa x = Itoa y -> x = y.
Proof.
  assert (Hd : forall n s, itoa_N n <> String "-" s).
  { intros n s E. pose proof (itoa_N_digits n) as Hn. rewrite E in Hn. discriminate. }
  destruct x as [|p|p], y as [|q|q]; cbn [Itoa Z.to_N String.append]; intros E;
    try (apply itoa_N_inj in E; congruence); try by apply Hd in E.
  1-2: exfalso; by apply (Hd _ _ (eq_sym E)) || by apply (Hd _ _ E).
  all: try (injection E as E; apply itoa_N_inj in E; congruence).
  all: exfalso; by apply (Hd _ _ E) || by apply (Hd _ _ (eq_sym E)).
Qed.

Definition same_serial (c c' : Certificate) : bool := Z.eqb (SerialNumber c) (SerialNumber c').

Lemma serial_string_eqb c c' : String.eqb (serial_string c) (serial_string c') = same_serial c c'.
Proof.
  unfold same_serial, serial_string. destruct (Z.eqb_spec (SerialNumber c) (SerialNumber c')) as [->|Hne].
  - apply String.eqb_refl.
  - apply String.eqb_neq. intros E. by apply Itoa_inj in E.
Qed.

Lemma found_spec cert b l : certificates_of all_certificates b = Ret l -> caBundleFound b cert = existsb (same_serial cert) l.
Proof.
  revert l. induction b as [b IH] using bundle_ind. intros l. destruct (pem.Decode b) as [[block|] rest] eqn:E.
  - rewrite (certificates_of_step _ _ _ _ E), (found_step _ _ _ _ E). specialize (IH _ _ eq_refl). destruct (negb _); [apply IH|].
    destruct (x509_ParseCertificate _) as [e|c] eqn:Ec; [done|]. cbn.
    destruct (certificates_of all_certificates rest) as [l'| |]; [|done..]. intros [= <-]. cbn [all_certificates existsb].
    rewrite serial_string_eqb. destruct (same_serial cert c); [done|]. by apply IH.
  - rewrite (certificates_of_end _ _ _ E), (found_end _ _ _ E). by intros [= <-].
Qed.

(** What is found is in the bundle, whatever follows it. *)
Lemma found_before_error cert b : caBundleFound b cert = true -> exists c, parsed c /\ same_serial cert c = true.
Proof.
  induction b as [b IH] using bundle_ind. destruct (pem.Decode b) as [[block|] rest] eqn:E.
  - rewrite (found_step _ _ _ _ E). specialize (IH _ _ eq_refl). destruct (negb _); [apply IH|].
    destruct (x509_ParseCertificate _) as [e|c] eqn:Ec; [done|]. rewrite serial_string_eqb.
    destruct (same_serial cert c) eqn:Es; [|apply IH]. intros _. exists c. split; [by eapply parse_parsed|done].
  - by rewrite (found_end _ _ _ E).
Qed.

(** ** The operations *)

(** What is kept of a list, in order, when the clock is read between [from]
    and [to] for each certificate *)
Inductive unexpired (from to : Z) : list Certificate -> list Certificate -> Prop :=
| unexpired_nil : unexpired from to [] []
| unexpired_drop c cas kept : (NotAfter c < to)%Z -> unexpired from to cas kept -> unexpired from to (c :: cas) kept
| unexpired_keep c cas kept : (from <= NotAfter c)%Z -> unexpired from to cas kept -> unexpired from to (c :: cas) (c :: kept).

Lemma unexpired_weaken from to from' to' cas kept :
  (from' <= from)%Z -> (to <= to')%Z -> unexpired from to cas kept -> unexpired from' to' cas kept.
Proof. intros Hf Ht. induction 1; [constructor|apply unexpired_drop; [lia|done]|apply unexpired_keep; [lia|done]]. Qed.

Lemma unexpired_sublist from to cas kept : unexpired from to cas kept -> kept `sublist_of` cas.
Proof. induction 1; by constructor. Qed.

Lemma unexpired_trans from1 to1 from2 to2 a b c :
  (from1 <= from2)%Z -> (to1 <= to2)%Z -> unexpired from1 to1 a b -> unexpired from2 to2 b c -> unexpired from1 to2 a c.
Proof.
  intros Hf Ht Hab. revert c. induction Hab as [|x a b Hx _ IH|x a b Hx _ IH]; intros c Hbc.
  - inversion Hbc. constructor.
  - apply unexpired_drop; [lia|by apply IH].
  - inversion Hbc; subst; [apply unexpired_drop; [done|by apply IH]|apply unexpired_keep; [lia|by apply IH]].
Qed.

(** Copies of a certificate that has not expired stay. *)
Lemma unexpired_copies from to l c n kept :
  (to <= NotAfter c)%Z -> unexpired from to (l ++ repeat c n) kept ->
  exists l', kept = l' ++ repeat c n /\ unexpired from to l l'.
Proof.
  intros Hc. revert kept. induction l as [|x l IH]; intros kept.
  - cbn [app]. intros Hu. exists []. split; [|constructor]. revert kept Hu. induction n as [|n IH]; intros kept Hu; cbn [repeat] in *.
    + by inversion Hu.
    + inversion Hu; subst; [lia|]. cbn. f_equal. by apply IH.
  - cbn [app]. intros Hu. inversion Hu as [|? ? ? Hx Hr|? ? ? Hx Hr]; subst; destruct (IH _ Hr) as (l' & -> & Hl).
    + exists l'. split; [done|]. by apply unexpired_drop.
    + exists (x :: l'). split; [done|]. by apply unexpired_keep.
Qed.

Lemma drop_expired_spec cas w :
  exists kept w', drop_expired cas w = (Ret kept, w') /\ quiet w w' /\ unexpired (clock w) (clock w') cas kept.
Proof.
  revert w. induction cas as [|c cas IH]; intros w.
  - exists [], w. split; [done|]. split; [reflexivity|constructor].
  - cbn [drop_expired]. destruct (now_spec w) as (t & Ht & (Hlo & Hhi) & Hq). destruct (time_Now w) as [r w1] eqn:E.
    cbn [fst snd] in *. subst r. rewrite (M_bind_ret _ _ _ _ _ E).
    destruct (IH w1) as (kept & w2 & Ek & Hq2 & Hu). rewrite (M_bind_ret _ _ _ _ _ Ek).
    pose proof Hq as (Hc1 & _). pose proof Hq2 as (Hc2 & _).
    eexists _, w2. split; [done|]. split; [by trans w1|].
    apply (unexpired_weaken _ _ (clock w) (clock w2)) in Hu; [|lia..].
    destruct (Z.ltb_spec (NotAfter c) t) as [Hlt|Hge]; [apply unexpired_drop; [lia|done]|apply unexpired_keep; [lia|done]].
Qed.

Lemma sublist_parsed kept cas : kept `sublist_of` cas -> Forall parsed cas -> Forall parsed kept.
Proof. rewrite !Forall_forall. intros Hs Hc c Hin. apply Hc, list_elem_of_In. eapply elem_of_sublist; [by apply list_elem_of_In|done]. Qed.

Lemma updateCABundles_cases current b w :
  match certificates_of all_certificates b with
  | Ret cas => exists kept w', updateCABundles current b w = (Ret (encode_certificates (kept ++ [current])), w') /\
                 quiet w w' /\ unexpired (clock w) (clock w') cas kept /\ Forall parsed kept
  | Err e => updateCABundles current b w = (Err e, w)
  | Panic _ => False
  end.
Proof.
  pose proof (certificates_of_no_panic all_certificates b) as Hp. unfold updateCABundles, mbind at 1, M_bind, lift.
  change (fun _ : Certificate => true) with all_certificates.
  destruct (certificates_of all_certificates b) as [cas|e|p] eqn:E; [|done|by apply (Hp p)].
  destruct (drop_expired_spec cas w) as (kept & w' & Ek & Hq & Hu). exists kept, w'.
  rewrite (M_bind_ret _ _ _ _ _ Ek). split; [done|]. split; [done|]. split; [done|].
  eapply sublist_parsed; [by eapply unexpired_sublist|by eapply certificates_of_parsed].
Qed.

Lemma existsb_last {A} (p : A -> bool) l x : p x = true -> existsb p (l ++ [x]) = true.
Proof. intros Hx. rewrite existsb_app. cbn. rewrite Hx. by rewrite orb_true_r. Qed.

Lemma same_serial_refl c : same_serial c c = true.
Proof. apply Z.eqb_refl. Qed.

(** A bundle written for a certificate *)
Lemma encoded_contains current kept :
  parsed current -> Forall parsed kept ->
  let b := encode_certificates (kept ++ [current]) in
  certificates_of all_certificates b = Ret (kept ++ [current]) /\ caBundleFound b current = true.
Proof.
  intros Hc Hk b. assert (E : certificates_of all_certificates b = Ret (kept ++ [current])).
  { unfold b. rewrite certificates_of_encode by (apply Forall_app; auto). f_equal. apply forallb_filter_id.
    by apply forallb_forall. }
  split; [done|]. rewrite (found_spec _ _ _ E). by apply existsb_last, same_serial_refl.
Qed.

(** C34. [updateCABundles] refuses a bundle with a certificate that does not
    parse and changes nothing then.  Otherwise the new bundle holds, in order,
    the certificates of the old one that have not expired and the current CA
    certificate, and [caBundleFound] finds that one. *)
Theorem updateCABundles_spec current b w :
  parsed current ->
  match certificates_of all_certificates b with
  | Ret cas =>
      exists b' kept w', updateCABundles current b w = (Ret b', w') /\ quiet w w' /\ unexpired (clock w) (clock w') cas kept /\
        certificates_of all_certificates b' = Ret (kept ++ [current]) /\ caBundleFound b' current = true
  | Err e => updateCABundles current b w = (Err e, w)
  | Panic _ => False
  end.
Proof.
  intros Hc. pose proof (updateCABundles_cases current b w) as Hu.
  destruct (certificates_of all_certificates b) as [cas|e|p]; [|done..].
  destruct Hu as (kept & w' & E & Hq & Hk & Hp). destruct (encoded_contains current kept Hc Hp) as [E1 E2].
  eexists _, kept, w'. by repeat (split; [done|]).
Qed.

Lemma removeCABundle_cases current b :
  match certificates_of all_certificates b with
  | Ret cas => removeCABundle current b = Ret (encode_certificates (List.filter (fun c => negb (same_serial current c)) cas))
  | Err e => removeCABundle current b = Err e
  | Panic _ => False
  end.
Proof.
  pose proof (certificates_of_no_panic all_certificates b) as Hp. unfold removeCABundle.
  rewrite (certificates_of_filter (fun crt => negb _)). destruct (certificates_of all_certificates b) as [cas|e|p]; [|done|by apply (Hp p)].
  cbn. do 2 f_equal. apply List.filter_ext. intros c. by rewrite serial_string_eqb.
Qed.

Lemma existsb_filter_negb {A} (p : A -> bool) l : existsb p (List.filter (fun x => negb (p x)) l) = false.
Proof. induction l as [|x l IH]; [done|]. cbn. destruct (p x) eqn:E; [done|]. cbn. by rewrite E. Qed.

(** C40. [removeCABundle] takes the certificates with the serial number of the
    current CA out of a bundle and keeps all others in order, so that the
    current CA is not found any more; on a bundle that [updateCABundles] made
    it gives back the certificates of others that had not expired. *)
Theorem removeCABundle_spec current b cas :
  certificates_of all_certificates b = Ret cas ->
  let others := List.filter (fun c => negb (same_serial current c)) in
  (exists b', removeCABundle current b = Ret b' /\ certificates_of all_certificates b' = Ret (others cas) /\
     caBundleFound b' current = false /\ removeCABundle current b' = Ret b') /\
  (forall w b1 w1, parsed current -> updateCABundles current b w = (Ret b1, w1) ->
     exists kept, unexpired (clock w) (clock w1) cas kept /\ removeCABundle current b1 = Ret (encode_certificates (others kept))).
Proof.
  intros E others. pose proof (removeCABundle_cases current b) as Hr. rewrite E in Hr.
  pose proof (certificates_of_parsed _ _ _ E) as Hp. split.
  - assert (Ho : Forall parsed (others cas)).
    { rewrite Forall_forall in *. intros c Hin. apply filter_In in Hin as [Hin _]. by apply Hp. }
    assert (Eb : certificates_of all_certificates (encode_certificates (others cas)) = Ret (others cas)).
    { rewrite certificates_of_encode by done. f_equal. apply forallb_filter_id. by apply forallb_forall. }
    eexists. split; [exact Hr|]. split; [exact Eb|]. split; [rewrite (found_spec _ _ _ Eb); apply existsb_filter_negb|].
    pose proof (removeCABundle_cases current (encode_certificates (others cas))) as Hr2. rewrite Eb in Hr2. etrans; [exact Hr2|].
    do 2 f_equal. apply forallb_filter_id, forallb_forall. intros c Hin. by apply filter_In in Hin as [_ ?].
  - intros w b1 w1 Hc Eu. pose proof (updateCABundles_cases current b w) as Hu. rewrite E in Hu.
    destruct Hu as (kept & w' & Eu' & _ & Hk & Hkp). rewrite Eu in Eu'. injection Eu' as -> <-.
    exists kept. split; [done|]. destruct (encoded_contains current kept Hc Hkp) as [E1 _].
    pose proof (removeCABundle_cases current (encode_certificates (kept ++ [current]))) as Hr1. rewrite E1 in Hr1. etrans; [exact Hr1|].
    do 2 f_equal. unfold others. rewrite List.filter_app. cbn. by rewrite same_serial_refl, app_nil_r.
Qed.

(** C35. The loops over a bundle end.  After as many rounds as the bundle has
    characters each of them has come to an end, with a result that is no
    panic; a loop that has ended after any number of rounds, however small,
    has that same result; and the result is the one of the specification: the
    selected certificates, or whether the serial number is among them. *)
Theorem bundle_loops_terminate keep cert b fuel :
  (String.length b <= fuel ->
     (exists r, scan_bundle fuel keep b = Some r /\ forall p, r <> Panic p) /\
     (exists found, caBundleFound_loop fuel b cert = Some found)) /\
  (forall r, scan_bundle fuel keep b = Some r -> certificates_of keep b = r) /\
  (forall found, caBundleFound_loop fuel b cert = Some found -> caBundleFound b cert = found) /\
  (forall l, certificates_of all_certificates b = Ret l ->
     certificates_of keep b = Ret (List.filter keep l) /\ caBundleFound b cert = existsb (same_serial cert) l).
Proof.
  split; [|split; [apply scan_bundle_result|split; [apply found_loop_result|]]].
  - intros Hf. split; [|destruct (found_loop_ends cert fuel b Hf) as [r E]; by exists r].
    destruct (scan_bundle_ends keep fuel b Hf) as [r E]. exists r. split; [done|]. intros p ->.
    apply scan_bundle_result in E. by apply certificates_of_no_panic in E.
  - intros l E. split; [|by apply found_spec]. by rewrite certificates_of_filter, E.
Qed.

End Bundles.

(** ** Witnesses *)

#[local] Existing Instances Ref.vendor Ref.vendor_laws Ref.client Ref.client_reads Ref.client_writes
  RefHost.crypto RefHost.crypto_view RefHost.crypto_laws RefHost.host_ops RefHost.host_view RefHost.host_laws
  RefHost.clientset RefHost.clientset_laws.

Module CertExamples.

(** A certificate of the reference instance that expires at the second [na]. *)
Definition certificate (serial na : Z) (name : string) (key signer : Z) : Certificate :=
  let c := mkCertificate EmptyString serial name ["oidc-apps.io"] ["CA"] 0 (na * 1000000000) 37 [] true true in
  RefHost.with_raw (RefHost.der c key signer) c.

Definition current : Certificate := certificate 7 5000 "oidc-apps-controller-ca-abcde" 1 1.
Definition other : Certificate := certificate 8 6000 "another-ca" 2 2.
Definition expired : Certificate := certificate 9 10 "an-old-ca" 3 3.

(** The clock is at second 1000. *)
Definition at_1000 : Ref.cluster := Ref.with_host (Ref.mkMachine ∅ false 1000000000000 1) Ref.empty_cluster.

Definition old_bundle : string := encode_certificates [expired; other].

Lemma old_bundle_read : certificates_of all_certificates old_bundle = Ret [expired; other].
Proof. by vm_compute. Qed.

Lemma current_parsed : parsed current.
Proof. by vm_compute. Qed.

End CertExamples.

Import CertExamples.

Lemma updateCABundles_spec_witness :
  caBundleFound old_bundle current = false /\
  exists b' w', updateCABundles current old_bundle at_1000 = (Ret b', w') /\ caBundleFound b' current = true.
Proof.
  split; [by vm_compute|]. pose proof (updateCABundles_spec current old_bundle at_1000 current_parsed) as Hu.
  rewrite old_bundle_read in Hu. destruct Hu as (b' & kept & w' & Hu & _ & _ & _ & Hf). exists b', w'. split; [exact Hu|exact Hf].
Defined.

Lemma removeCABundle_spec_witness :
  exists b', removeCABundle other old_bundle = Ret b' /\ certificates_of all_certificates b' = Ret [expired] /\
    caBundleFound b' other = false.
Proof.
  destruct (removeCABundle_spec other old_bundle _ old_bundle_read) as [(b' & Hr & Hc & Hf & _) _].
  exists b'. split; [exact Hr|]. split; [exact Hc|exact Hf].
Defined.

(** A bundle with a block of another type between its certificates *)
Definition mixed_bundle : string := pem.EncodeToMemory "RSA PRIVATE KEY" "key" +:+ old_bundle.

Lemma bundle_loops_terminate_witness :
  exists r, scan_bundle 1000 all_certificates mixed_bundle = Some r /\ (forall p, r <> Panic p) /\
    certificates_of all_certificates mixed_bundle = r.
Proof.
  destruct (bundle_loops_terminate all_certificates current mixed_bundle 1000) as (Hends & Hscan & _ & _).
  destruct Hends as [(r & Hr & Hp) _].
  - apply Nat.leb_le. vm_compute. reflexivity.
  - exists r. split; [exact Hr|]. split; [exact Hp|exact (Hscan r Hr)].
Defined.
