(* ===== verification/CertManagerSpec.v ===== *)
(** * The webhook configuration under the certificate manager

    What a successful update, a sync tick and the clean-up at shut-down do to
    the stored configuration; they touch no other object and no file. *)

From S2P Require Import Prelude GoStrings Kube Vendor Pem Crypto Certificates CertManager CertBundleSpec Reference ReferenceHost.

Section Webhooks.
Context {W : Type} `{CryptoLaws W, !Host W, !HostLaws W, !Vendor, !ClientWrites W, !Clientset W, !ClientsetLaws W}.

(** ** One pass over the webhooks *)

(** What a pass makes of the entries: others stay, own bundles are replaced
    as [becomes] says, until one that is [refused]. *)
Inductive rewritten (name : string) (becomes : string -> string -> Prop) (refused : string -> Prop) :
    list MutatingWebhook -> list MutatingWebhook -> Prop :=
| rewritten_nil : rewritten name becomes refused [] []
| rewritten_other w ws ws' : own_webhook name w = false ->
    rewritten name becomes refused ws ws' -> rewritten name becomes refused (w :: ws) (w :: ws')
| rewritten_own w b ws ws' : own_webhook name w = true -> becomes (Webhook_CABundle w) b ->
    rewritten name becomes refused ws ws' -> rewritten name becomes refused (w :: ws) (set_bundle b w :: ws')
| rewritten_stop w ws : own_webhook name w = true -> refused (Webhook_CABundle w) ->
    rewritten name becomes refused (w :: ws) (w :: ws).

Lemma rewritten_impl name (P P' : string -> string -> Prop) (Q Q' : string -> Prop) ws ws' :
  (forall b b', P b b' -> P' b b') -> (forall b, Q b -> Q' b) -> rewritten name P Q ws ws' -> rewritten name P' Q' ws ws'.
Proof. intros HP HQ. induction 1; [constructor|by constructor|apply rewritten_own; auto|apply rewritten_stop; auto]. Qed.

(** A pass that refuses no own bundle reaches all of them. *)
Definition all_readable (name : string) (refused : string -> Prop) (ws : list MutatingWebhook) : Prop :=
  Forall (fun x => own_webhook name x = true -> ~ refused (Webhook_CABundle x)) ws.

(** What a pass makes of an entry that it reaches *)
Definition entry_becomes (name : string) (becomes : string -> string -> Prop) (x x' : MutatingWebhook) : Prop :=
  if own_webhook name x then exists b, becomes (Webhook_CABundle x) b /\ x' = set_bundle b x else x' = x.

Lemma rewritten_all name becomes refused ws ws' :
  rewritten name becomes refused ws ws' -> all_readable name refused ws -> Forall2 (entry_becomes name becomes) ws ws'.
Proof.
  unfold all_readable, entry_becomes. intros Hrw Hall.
  induction Hrw as [|w ws ws' Hw _ IH|w b ws ws' Hw Hb _ IH|w ws Hw Hr]; [constructor|inversion Hall as [|? ? Hx Hl]; subst..].
  - constructor; [by rewrite Hw|by apply IH].
  - constructor; [rewrite Hw; by exists b|by apply IH].
  - by destruct (Hx Hw).
Qed.

(** The first own bundle is refused. *)
Definition stuck (name : string) (refused : string -> Prop) (ws : list MutatingWebhook) : Prop :=
  exists before x after, ws = before ++ x :: after /\ Forall (fun y => own_webhook name y = false) before /\
    own_webhook name x = true /\ refused (Webhook_CABundle x).

(** A pass ends there, and nothing changes. *)
Lemma rewritten_stuck name becomes refused ws ws' :
  (forall b b', becomes b b' -> ~ refused b) -> rewritten name becomes refused ws ws' -> stuck name refused ws -> ws' = ws.
Proof.
  intros Hex Hrw (before & x & after & -> & Hb & Hx & Hr). revert ws' Hrw.
  induction Hb as [|y before Hy _ IH]; intros ws' Hrw; inversion Hrw; subst; try done; try congruence.
  - exfalso. by eapply Hex.
  - cbn [app]. f_equal. by apply IH.
Qed.

(** A function on bundles that changes nothing but the clock *)
Definition bundle_function (f : string -> M W string) (becomes : Z -> Z -> string -> string -> Prop) (refused : string -> Prop) : Prop :=
  (forall b w, (exists b' w', f b w = (Ret b', w') /\ quiet w w' /\ becomes (clock w) (clock w') b b') \/
               (exists e, f b w = (Err e, w) /\ refused b)) /\
  (forall from to from' to' b b', (from' <= from)%Z -> (to <= to')%Z -> becomes from to b b' -> becomes from' to' b b').

Lemma each_webhook_spec name f becomes refused ws w :
  bundle_function f becomes refused ->
  exists ws' w', each_webhook name f ws w = (Ret ws', w') /\ quiet w w' /\
    rewritten name (becomes (clock w) (clock w')) refused ws ws'.
Proof.
  intros [Hf Hmono]. revert w. induction ws as [|x ws IH]; intros w; cbn [each_webhook].
  - exists [], w. split; [done|]. split; [reflexivity|constructor].
  - destruct (own_webhook name x) eqn:Eo; cbn [negb].
    + destruct (Hf (Webhook_CABundle x) w) as [(b' & w1 & E & Hq & Hb)|(e & E & Hb)].
      * assert (Et : try_ (f (Webhook_CABundle x)) w = (Ret (inr b'), w1)) by (unfold try_; by rewrite E).
        rewrite (M_bind_ret _ _ _ _ _ Et). destruct (IH w1) as (ws' & w2 & Er & Hq2 & Hr). rewrite (M_bind_ret _ _ _ _ _ Er).
        destruct Hq as (Hc1 & Hq1). destruct (Hq2) as (Hc2 & _).
        eexists _, w2. split; [done|]. split; [trans w1; [by split|done]|]. apply rewritten_own; [done|eapply Hmono; [|exact Hc2|exact Hb]; lia|].
        eapply rewritten_impl; [| |exact Hr]; [|done]. intros b b2. apply Hmono; [done|lia].
      * assert (Et : try_ (f (Webhook_CABundle x)) w = (Ret (inl e), w)) by (unfold try_; by rewrite E).
        rewrite (M_bind_ret _ _ _ _ _ Et). eexists _, w. split; [done|]. split; [reflexivity|]. by apply rewritten_stop.
    + destruct (IH w) as (ws' & w2 & Er & Hq2 & Hr). rewrite (M_bind_ret _ _ _ _ _ Er).
      eexists _, w2. split; [done|]. split; [done|]. by apply rewritten_other.
Qed.

(** [updateCABundles] *)
Definition updated_bundle (current : Certificate) (from to : Z) (b b' : string) : Prop :=
  exists cas kept, certificates_of all_certificates b = Ret cas /\ unexpired from to cas kept /\
    certificates_of all_certificates b' = Ret (kept ++ [current]) /\ caBundleFound b' current = true.

(** A bundle with a certificate that does not parse *)
Definition unreadable (b : string) : Prop := exists e, certificates_of all_certificates b = Err e.

Lemma update_function current : parsed current -> bundle_function (updateCABundles current) (updated_bundle current) unreadable.
Proof.
  intros Hc. split.
  - intros b w. pose proof (updateCABundles_cases current b w) as Hu. unfold updated_bundle, unreadable.
    destruct (certificates_of all_certificates b) as [cas|e|p]; [|right; exists e; split; [done|by exists e]|done]. left.
    destruct Hu as (kept & w' & E & Hq & Hk & Hp). destruct (encoded_contains current kept Hc Hp) as [E1 E2].
    eexists _, w'. split; [done|]. split; [done|]. by exists cas, kept.
  - intros from to from' to' b b' Hf Ht (cas & kept & E & Hu & Hrest). exists cas, kept. split; [done|].
    split; [by eapply unexpired_weaken|done].
Qed.

(** [removeCABundle] *)
Definition removed_bundle (current : Certificate) (b b' : string) : Prop :=
  exists cas, certificates_of all_certificates b = Ret cas /\
    certificates_of all_certificates b' = Ret (List.filter (fun c => negb (same_serial current c)) cas) /\
    caBundleFound b' current = false.

Lemma remove_function current :
  bundle_function (fun b => lift (removeCABundle current b)) (fun _ _ => removed_bundle current) unreadable.
Proof.
  split; [|done]. intros b w. pose proof (removeCABundle_cases current b) as Hr. unfold removed_bundle, unreadable, lift.
  destruct (certificates_of all_certificates b) as [cas|e|p] eqn:E; [|right; exists e; rewrite Hr; split; [done|by exists e]|done]. left.
  set (l := List.filter _ cas) in *. assert (Hl : Forall parsed l).
  { pose proof (certificates_of_parsed _ _ _ E) as Hp. rewrite Forall_forall in *. intros c Hin. apply filter_In in Hin as [Hin _]. by apply Hp. }
  assert (Eb : certificates_of all_certificates (encode_certificates l) = Ret l).
  { rewrite certificates_of_encode by done. f_equal. apply forallb_filter_id. by apply forallb_forall. }
  eexists _, w. rewrite Hr. split; [done|]. split; [reflexivity|]. exists cas. split; [done|]. split; [exact Eb|].
  rewrite (found_spec _ _ _ Eb). apply existsb_filter_negb.
Qed.

(** ** A pass under [RetryOnConflict] *)

Definition webhook_key (name : string) : NamespacedName := mkNN EmptyString name.

Definition stored_webhook (w : W) (name : string) : option MutatingWebhookConfiguration :=
  view w KMutatingWebhookConfiguration (webhook_key name).

(** Only the configuration may differ, and the clock. *)
Definition only_webhook (name : string) (w w' : W) : Prop :=
  frame KMutatingWebhookConfiguration (webhook_key name) w w' /\ (forall p, file w' p = file w p) /\ (clock w <= clock w')%Z.

#[local] Instance only_webhook_preorder name : PreOrder (only_webhook name).
Proof.
  split; [by intros w|]. intros w1 w2 w3 (F1 & P1 & C1) (F2 & P2 & C2). split; [|split; [intros p; by rewrite P2|lia]].
  intros k key Hne. by rewrite F2, F1.
Qed.

Lemma quiet_only name w w' : quiet w w' -> only_webhook name w w'.
Proof. intros (C & P & V). split; [|by split]. intros k key _. apply V. Qed.

Definition pass (name : string) (f : string -> M W string) : M W unit :=
  webhook ← get_webhook name;
  ws ← each_webhook name f (Webhooks webhook);
  cl_Update KMutatingWebhookConfiguration (set_webhooks ws webhook).

Lemma update_only name o w :
  key_of (MutatingWebhookConfiguration_Meta o) = webhook_key name ->
  only_webhook name w (snd (cl_Update KMutatingWebhookConfiguration o w)).
Proof.
  intros Hk. split; [rewrite <- Hk; apply (update_frame KMutatingWebhookConfiguration o w)|].
  split; [intros p; apply update_file|apply update_clock].
Qed.

(** What a pass left: the entries it found, rewritten, unless the object was
    waiting for its deletion. *)
Definition passed (name : string) (becomes : Z -> Z -> string -> string -> Prop) (refused : string -> Prop) (w w' : W) : Prop :=
  exists o ws, stored_webhook w name = Some o /\
    rewritten name (becomes (clock w) (clock w')) refused (Webhooks o) ws /\
    stored_webhook w' name = if released (MutatingWebhookConfiguration_Meta o) then None else Some (set_webhooks ws o).

Lemma pass_spec name f becomes refused w r w' :
  bundle_function f becomes refused -> pass name f w = (r, w') ->
  only_webhook name w w' /\ (forall p, r <> Panic p) /\ (r = Ret tt -> passed name becomes refused w w').
Proof.
  intros Hf E. unfold pass in E. destruct (get_webhook name w) as [g w1] eqn:Eg.
  pose proof (get_pure KMutatingWebhookConfiguration (webhook_key name) w) as Hp.
  pose proof (get_no_panic KMutatingWebhookConfiguration (webhook_key name) w) as Hn.
  pose proof (get_sound KMutatingWebhookConfiguration (webhook_key name) w) as Hs.
  unfold get_webhook in Eg. unfold webhook_key in *. rewrite Eg in Hp, Hn, Hs. cbn in Hp, Hn, Hs. subst w1.
  rewrite (M_bind_case _ _ _ _ _ Eg) in E. destruct g as [o|e|p]; [|injection E as <- <-; split; [reflexivity|done]|by destruct (Hn p)].
  specialize (Hs o eq_refl). pose proof (view_key w KMutatingWebhookConfiguration _ o Hs) as Hk. change (key_of (MutatingWebhookConfiguration_Meta o) = mkNN EmptyString name) in Hk.
  destruct (each_webhook_spec name f becomes refused (Webhooks o) w Hf) as (ws & w2 & Ee & Hq & Hr).
  rewrite (M_bind_ret _ _ _ _ _ Ee) in E.
  pose proof (update_only name (set_webhooks ws o) w2 Hk) as Ho.
  pose proof (update_no_panic KMutatingWebhookConfiguration (set_webhooks ws o) w2) as Hup.
  pose proof (update_done KMutatingWebhookConfiguration (set_webhooks ws o) w2) as Hd.
  rewrite E in Ho, Hup, Hd. cbn in Ho, Hup, Hd. split; [trans w2; [by apply quiet_only|done]|]. split; [done|].
  intros ->. specialize (Hd eq_refl). rewrite Hk in Hd. exists o, ws. split; [done|]. split; [|done].
  destruct Ho as (_ & _ & Hc). eapply rewritten_impl; [| |exact Hr]; [|done]. intros b b'. apply Hf; [done|lia].
Qed.

(** Under the retry: after passes that met a conflict, one that worked. *)
Lemma retried_pass_spec name f becomes refused w r w' :
  bundle_function f becomes refused -> retried (pass name f) w r w' ->
  only_webhook name w w' /\ (forall p, r <> Panic p) /\
  (r = Ret tt -> exists w1, only_webhook name w w1 /\ passed name becomes refused w1 w').
Proof.
  intros Hf. induction 1 as [w r w' E|w e w1 r w' E _ _ IH].
  - destruct (pass_spec name f becomes refused w r w' Hf E) as (Ho & Hn & Hr). split; [done|]. split; [done|].
    intros Hd. exists w. split; [reflexivity|by apply Hr].
  - destruct (pass_spec name f becomes refused w _ w1 Hf E) as (Ho & _). destruct IH as (Ho2 & Hn & Hr).
    split; [by trans w1|]. split; [done|]. intros Hd. destruct (Hr Hd) as (w2 & Ho3 & Hp). exists w2. split; [by trans w1|done].
Qed.

Lemma retried_ext (fn gn : M W unit) w r w' : (forall w, fn w = gn w) -> retried fn w r w' -> retried gn w r w'.
Proof.
  intros Heq. induction 1 as [w r w' E|w e w1 r w' E Hc _ IH]; rewrite Heq in E; [by constructor|by eapply retried_again].
Qed.

(** ** The operations of the manager *)

Lemma updated_readable current from to b b' : updated_bundle current from to b b' -> ~ unreadable b.
Proof. intros (cas & kept & E & _) [e E']. congruence. Qed.

(** C33. A successful update of the webhook configuration rewrites the stored
    configuration: the webhooks of others keep their bundles, and the own
    ones, up to the first own bundle that does not parse, get the current CA
    certificate behind those that have not expired; no other object and no
    file changes, and the call never panics.  So when the own bundles parse,
    all of them are renewed in this way; and when the first one does not,
    none is, although the update succeeds. *)
Theorem updateWebhookConfiguration_spec c w r w' :
  parsed (cert (ca c)) -> updateWebhookConfiguration c w = (r, w') ->
  only_webhook (webhookName c) w w' /\ (forall p, r <> Panic p) /\
  (r = Ret tt -> exists w1, only_webhook (webhookName c) w w1 /\
     passed (webhookName c) (updated_bundle (cert (ca c))) unreadable w1 w' /\
     forall o, stored_webhook w1 (webhookName c) = Some o -> released (MutatingWebhookConfiguration_Meta o) = false ->
       exists ws, stored_webhook w' (webhookName c) = Some (set_webhooks ws o) /\
         (all_readable (webhookName c) unreadable (Webhooks o) ->
            Forall2 (entry_becomes (webhookName c) (updated_bundle (cert (ca c)) (clock w1) (clock w'))) (Webhooks o) ws) /\
         (stuck (webhookName c) unreadable (Webhooks o) -> ws = Webhooks o)).
Proof.
  intros Hc E. apply retry_spec in E.
  destruct (retried_pass_spec _ _ _ _ _ _ _ (update_function _ Hc) E) as (Ho & Hn & Hr). split; [exact Ho|]. split; [exact Hn|].
  intros Hd. destruct (Hr Hd) as (w1 & Ho1 & Hp). exists w1. split; [exact Ho1|]. split; [exact Hp|].
  intros o Hst Hrel. destruct Hp as (o' & ws & Hst' & Hrw & Hw'). rewrite Hst in Hst'. injection Hst' as <-. rewrite Hrel in Hw'.
  exists ws. split; [exact Hw'|]. split; [by apply (rewritten_all _ _ unreadable)|].
  apply (rewritten_stuck _ _ _ _ _ (updated_readable _ _ _) Hrw).
Qed.

Lemma update_run c w r w' :
  parsed (cert (ca c)) -> updateWebhookConfiguration c w = (r, w') -> only_webhook (webhookName c) w w' /\ forall p, r <> Panic p.
Proof.
  intros Hc E. apply retry_spec in E. by destruct (retried_pass_spec _ _ _ _ _ _ _ (update_function _ Hc) E) as (Ho & Hn & _).
Qed.

(** Every webhook of the configuration trusts the current CA. *)
Definition in_sync (c : certManager W) (ws : list MutatingWebhook) : Prop :=
  Forall (fun x => caBundleFound (Webhook_CABundle x) (cert (ca c)) = true) ws.

Lemma sync_webhooks_spec c ws w r w' :
  parsed (cert (ca c)) -> sync_webhooks c ws w = (r, w') ->
  r = Ret tt /\ only_webhook (webhookName c) w w' /\ (in_sync c ws -> w' = w).
Proof.
  intros Hc. revert w. induction ws as [|x ws IH]; intros w E; cbn [sync_webhooks] in E.
  - injection E as <- <-. split; [done|]. by split.
  - destruct (caBundleFound (Webhook_CABundle x) (cert (ca c))) eqn:Ef; cbn [negb] in E.
    + rewrite (M_bind_ret _ _ w tt w eq_refl) in E. destruct (IH w E) as (-> & Ho & Hs). split; [done|]. split; [done|].
      intros Hin. apply Hs. by inversion Hin.
    + destruct (updateWebhookConfiguration c w) as [u w1] eqn:Eu.
      destruct (update_run c w u w1 Hc Eu) as (Ho1 & Hn).
      assert (Et : (_ ← try_ (updateWebhookConfiguration c); mret tt) w = (Ret tt, w1)).
      { unfold mbind, M_bind, try_. rewrite Eu. destruct u; [done|done|by apply Hn in Eu || by exfalso; eapply Hn]. }
      rewrite (M_bind_ret _ _ _ _ _ Et) in E. destruct (IH w1 E) as (-> & Ho & _). split; [done|]. split; [by trans w1|].
      intros Hin. inversion Hin. congruence.
Qed.

(** A sync tick is the loop over the webhooks it read, or over none. *)
Lemma sync_tick_loop c w :
  exists ws, syncWebhookCaBundle c w = sync_webhooks c ws w /\
    (ws = [] \/ exists o, stored_webhook w (webhookName c) = Some o /\ ws = Webhooks o).
Proof.
  unfold syncWebhookCaBundle.
  pose proof (get_pure KMutatingWebhookConfiguration (webhook_key (webhookName c)) w) as Hp.
  pose proof (get_no_panic KMutatingWebhookConfiguration (webhook_key (webhookName c)) w) as Hn.
  pose proof (get_sound KMutatingWebhookConfiguration (webhook_key (webhookName c)) w) as Hs.
  unfold mbind at 1, M_bind at 1, try_, get_webhook. unfold webhook_key in *.
  destruct (cl_Get KMutatingWebhookConfiguration (mkNN EmptyString (webhookName c)) w) as [g w1]. cbn in Hp, Hn, Hs. subst w1.
  destruct g as [o|e|p]; [| |by destruct (Hn p)].
  - exists (Webhooks o). split; [done|]. right. exists o. split; [by apply Hs|done].
  - exists []. split; [done|by left].
Qed.

(** A sync tick never fails and never panics, touches nothing but the
    webhook configuration, and writes nothing at all when every webhook of
    the stored configuration already trusts the current CA. *)
Theorem syncWebhookCaBundle_spec c w r w' :
  parsed (cert (ca c)) -> syncWebhookCaBundle c w = (r, w') ->
  r = Ret tt /\ only_webhook (webhookName c) w w' /\
  ((forall o, stored_webhook w (webhookName c) = Some o -> in_sync c (Webhooks o)) -> w' = w).
Proof.
  intros Hc E. destruct (sync_tick_loop c w) as (ws & El & Hws). rewrite El in E.
  destruct (sync_webhooks_spec c ws w r w' Hc E) as (Hr & Ho & Hs). split; [done|]. split; [done|].
  intros Hin. apply Hs. destruct Hws as [->|(o & Hst & ->)]; [constructor|by apply Hin].
Qed.

(** The clean-up at shut-down takes the current CA out of the own
    bundles, up to the first that does not parse, keeps the other
    certificates and the other webhooks, and touches nothing else. *)
Theorem cleanUpMutatingWebhookConfiguration_spec c w r w' :
  cleanUpMutatingWebhookConfiguration c w = (r, w') ->
  only_webhook (webhookName c) w w' /\ (forall p, r <> Panic p) /\
  (r = Ret tt -> exists w1, only_webhook (webhookName c) w w1 /\
     passed (webhookName c) (fun _ _ => removed_bundle (cert (ca c))) unreadable w1 w').
Proof.
  intros E. apply retry_spec in E.
  apply (retried_pass_spec _ (fun b => lift (removeCABundle (cert (ca c)) b)) _ _ _ _ _ (remove_function _)).
  eapply retried_ext; [|exact E]. intros w0. unfold pass, mbind, M_bind.
  destruct (get_webhook (webhookName c) w0) as [[o| |] w1]; [|done..].
  unfold cleanWebhookCABundles, mbind, M_bind. by destruct (each_webhook _ _ (Webhooks o) w1) as [[ws| |] w2].
Qed.

End Webhooks.

(** ** Witnesses *)

#[local] Existing Instances Ref.vendor Ref.vendor_laws Ref.client Ref.client_reads Ref.client_writes
  RefHost.crypto RefHost.crypto_view RefHost.crypto_laws RefHost.host_ops RefHost.host_view RefHost.host_laws
  RefHost.clientset RefHost.clientset_laws.

Module WebhookExamples.
Import CertExamples.

Definition name : string := "oidc-apps-controller".
Definition pods : string := name +:+ podsWebhookSuffix.
Definition vpas : string := name +:+ vpasWebhookSuffix.

Definition manager : certManager Ref.cluster :=
  mkCertManager "./certs" [name] name (mkBundle current (RSA 1%Z)) (mkBundle current (RSA 1%Z)).

(** A cluster with the given webhooks in the configuration. *)
Definition with_webhooks (ws : list (string * string)) : Ref.cluster :=
  Ref.put KMutatingWebhookConfiguration
    (mkMutatingWebhookConfiguration (Ref.meta1 name EmptyString "uid" None)
       (map (fun x => mkMutatingWebhook x.1 x.2 "rest") ws)) at_1000.

(** Names of the webhooks and serial numbers in their bundles *)
Definition serials (w : Ref.cluster) : list (string * list Z) :=
  match stored_webhook w name with
  | None => []
  | Some o => map (fun x => (Webhook_Name x,
      match certificates_of all_certificates (Webhook_CABundle x) with Ret l => map SerialNumber l | _ => [] end)) (Webhooks o)
  end.

End WebhookExamples.

Import CertExamples WebhookExamples.

Lemma updateWebhookConfiguration_spec_witness :
  exists w', updateWebhookConfiguration manager (with_webhooks [(pods, old_bundle); ("other", old_bundle)]) = (Ret tt, w') /\
    only_webhook name (with_webhooks [(pods, old_bundle); ("other", old_bundle)]) w' /\
    serials w' = [(pods, [8; 7]%Z); ("other", [9; 8]%Z)].
Proof.
  eexists. split; [vm_compute; reflexivity|]. split; [|vm_compute; reflexivity].
  eapply (updateWebhookConfiguration_spec manager); [exact current_parsed|vm_compute; reflexivity].
Defined.

Lemma syncWebhookCaBundle_spec_witness :
  snd (syncWebhookCaBundle manager (with_webhooks [(pods, encode_certificates [current])])) = with_webhooks [(pods, encode_certificates [current])].
Proof.
  eapply (syncWebhookCaBundle_spec manager); [exact current_parsed|apply surjective_pairing|].
  intros o Ho. vm_compute in Ho. injection Ho as <-. constructor; [vm_compute; reflexivity|constructor].
Defined.

Lemma cleanUpMutatingWebhookConfiguration_spec_witness :
  exists w', cleanUpMutatingWebhookConfiguration manager (with_webhooks [(vpas, encode_certificates [other; current]); ("other", old_bundle)]) = (Ret tt, w') /\
    only_webhook name (with_webhooks [(vpas, encode_certificates [other; current]); ("other", old_bundle)]) w' /\
    serials w' = [(vpas, [8]%Z); ("other", [9; 8]%Z)].
Proof.
  eexists. split; [vm_compute; reflexivity|]. split; [|vm_compute; reflexivity].
  eapply (cleanUpMutatingWebhookConfiguration_spec manager). vm_compute; reflexivity.
Defined.
