(* ===== verification/CertSyncSpec.v ===== *)
(** * The sync loop repeats its updates

    What any number of sync ticks makes of the webhook configuration when
    the API server answers: how often the current CA is appended to the own
    bundles, and when nothing is changed at all. *)

From S2P Require Import Prelude GoStrings Kube Vendor Pem Crypto Certificates CertManager CertBundleSpec CertManagerSpec Reference ReferenceHost.

Section Sync.
Context {W : Type} `{CryptoLaws W, !Host W, !HostLaws W, !Vendor, !ClientWrites W, !Clientset W, !ClientsetLaws W}.

(** The API server answers: it reads and updates the stored configuration
    without a conflict or another error. *)
Definition answers (name : string) : Prop := forall (u : W) o,
  stored_webhook u name = Some o ->
  fst (cl_Get KMutatingWebhookConfiguration (webhook_key name) u) = Ret o /\
  forall ws, fst (cl_Update KMutatingWebhookConfiguration (set_webhooks ws o) u) = Ret tt.

(** The state after a number of sync ticks *)
Definition sync_ticks (c : certManager W) (n : nat) (w : W) : W := Nat.iter n (fun w => snd (syncWebhookCaBundle c w)) w.

(** The entries whose bundle lacks a certificate, own or not *)
Definition lacks (current : Certificate) (x : MutatingWebhook) : bool := negb (caBundleFound (Webhook_CABundle x) current).

Definition missing (current : Certificate) (ws : list MutatingWebhook) : nat := length (List.filter (lacks current) ws).

(** What a number of updates makes of an entry: an own bundle keeps what has
    not expired and gets as many copies of the current CA. *)
Definition appended (name : string) (current : Certificate) (from to : Z) (m : nat) (x x' : MutatingWebhook) : Prop :=
  if own_webhook name x && negb (Nat.eqb m 0) then
    exists cas kept b, certificates_of all_certificates (Webhook_CABundle x) = Ret cas /\ unexpired from to cas kept /\
      certificates_of all_certificates b = Ret (kept ++ repeat current m) /\ x' = set_bundle b x
  else x' = x.

(** ** One update *)

Section Manager.
Context (c : certManager W).
Notation name := (webhookName c).
Notation current := (cert (ca c)).
Hypothesis Hcurrent : parsed current.
Hypothesis Hanswers : answers name.

Lemma pass_answered f becomes refused u o :
  bundle_function f becomes refused -> stored_webhook u name = Some o -> exists u', pass name f u = (Ret tt, u').
Proof.
  intros Hf Hst. destruct (Hanswers u o Hst) as [Hg _]. pose proof (get_pure KMutatingWebhookConfiguration (webhook_key name) u) as Hp.
  destruct (each_webhook_spec name f becomes refused (Webhooks o) u Hf) as (ws & u1 & Ee & Hq & _).
  assert (Hst1 : stored_webhook u1 name = Some o) by (unfold stored_webhook; destruct Hq as (_ & _ & V); by rewrite V).
  exists (snd (cl_Update KMutatingWebhookConfiguration (set_webhooks ws o) u1)). unfold pass.
  assert (Eg : get_webhook name u = (Ret o, u)).
  { unfold get_webhook. change (mkNN EmptyString name) with (webhook_key name). by rewrite (surjective_pairing (cl_Get _ _ u)), Hg, Hp. }
  rewrite (M_bind_ret _ _ _ _ _ Eg), (M_bind_ret _ _ _ _ _ Ee). destruct (Hanswers u1 o Hst1) as [_ Hu].
  rewrite (surjective_pairing (cl_Update _ _ u1)), Hu. done.
Qed.

Lemma update_answered u o :
  stored_webhook u name = Some o -> released (MutatingWebhookConfiguration_Meta o) = false ->
  exists ws u', updateWebhookConfiguration c u = (Ret tt, u') /\ (clock u <= clock u')%Z /\
    rewritten name (updated_bundle current (clock u) (clock u')) unreadable (Webhooks o) ws /\
    stored_webhook u' name = Some (set_webhooks ws o).
Proof.
  intros Hst Hrel. pose proof (update_function current Hcurrent) as Hf.
  destruct (pass_answered _ _ _ u o Hf Hst) as [u1 Hp].
  destruct (updateWebhookConfiguration c u) as [r u'] eqn:E. apply retry_spec in E.
  assert (Er : (r, u') = (Ret tt, u1)).
  { change (retried (pass name (updateCABundles current)) u r u') in E.
    inversion E as [? ? ? Hlast|? ? ? ? ? Hagain]; subst; [|rewrite Hp in Hagain; discriminate]. by rewrite Hp in Hlast. }
  injection Er as -> ->. destruct (pass_spec _ _ _ _ _ _ _ Hf Hp) as ((_ & _ & Hc) & _ & Hd).
  destruct (Hd eq_refl) as (o' & ws & Hst' & Hrw & Hw). rewrite Hst in Hst'. injection Hst' as <-. rewrite Hrel in Hw.
  by exists ws, u1.
Qed.

(** ** Composing updates *)

Lemma appended_own from to m x x' : appended name current from to m x x' -> own_webhook name x' = own_webhook name x.
Proof. unfold appended. destruct (_ && _); [by intros (? & ? & ? & _ & _ & _ & ->)|by intros ->]. Qed.

Lemma appended_readable from to m x x' :
  (own_webhook name x = true -> ~ unreadable (Webhook_CABundle x)) -> appended name current from to m x x' ->
  own_webhook name x' = true -> ~ unreadable (Webhook_CABundle x').
Proof.
  intros Hx Ha. rewrite (appended_own _ _ _ _ _ Ha). revert Ha. unfold appended.
  destruct (own_webhook name x && negb (Nat.eqb m 0)); [|by intros ->]. intros (cas & kept & b & _ & _ & E & ->) _ [e E'].
  cbn [set_bundle Webhook_CABundle] in E'. congruence.
Qed.

Lemma all_readable_appended from to m ws ws' :
  Forall2 (appended name current from to m) ws ws' -> all_readable name unreadable ws -> all_readable name unreadable ws'.
Proof.
  unfold all_readable. induction 1 as [|x x' ws ws' Ha _ IH]; [done|]. intros Hall. inversion Hall as [|? ? Hx Hl]; subst.
  constructor; [by eapply appended_readable|by apply IH].
Qed.

Lemma appended_step from to to' m x x1 x2 :
  (from <= to)%Z -> (to <= to')%Z -> (to' <= NotAfter current)%Z ->
  appended name current from to m x x1 -> entry_becomes name (updated_bundle current to to') x1 x2 ->
  appended name current from to' (S m) x x2.
Proof.
  intros Hf Ht Hexp Ha He. unfold entry_becomes in He. rewrite (appended_own _ _ _ _ _ Ha) in He. unfold appended in *.
  destruct (own_webhook name x); cbn [andb negb Nat.eqb] in *; [|by subst].
  destruct He as (b & (cas1 & kept1 & E1 & Hu1 & Eb & _) & ->). destruct m as [|m]; cbn [Nat.eqb negb] in Ha.
  - subst x1. exists cas1, kept1, b. split; [done|]. split; [|done]. exact (unexpired_weaken _ _ from to' _ _ Hf (Z.le_refl _) Hu1).
  - destruct Ha as (cas & kept & b1 & E & Hu & Eb1 & ->). cbn [set_bundle Webhook_CABundle] in E1. rewrite Eb1 in E1. injection E1 as <-.
    apply (unexpired_copies _ _ kept current (S m)) in Hu1 as (kept' & -> & Hu'); [|done]. exists cas, kept', b. split; [done|].
    split; [exact (unexpired_trans _ _ _ _ _ _ _ Hf Ht Hu Hu')|]. split; [|done]. rewrite Eb, <- app_assoc.
    change [current] with (repeat current 1). by rewrite <- repeat_app, Nat.add_comm.
Qed.

Lemma appended_none from to ws : Forall2 (appended name current from to 0) ws ws.
Proof. apply Forall_Forall2_diag, Forall_forall. intros x _. unfold appended. by rewrite andb_false_r. Qed.

Lemma appended_later from to to' m x x' :
  (to <= to')%Z -> appended name current from to m x x' -> appended name current from to' m x x'.
Proof.
  intros Ht. unfold appended. destruct (_ && _); [|done]. intros (cas & kept & b & E & Hu & Eb & ->). exists cas, kept, b.
  split; [done|]. split; [|done]. by eapply unexpired_weaken.
Qed.

(** ** The loop of a tick *)

(** The configuration [o] after [m] updates since [from] *)
Definition after_updates (o : MutatingWebhookConfiguration) (from : Z) (m : nat) (u : W) : Prop :=
  (from <= clock u)%Z /\
  exists ws, stored_webhook u name = Some (set_webhooks ws o) /\
    Forall2 (appended name current from (clock u) m) (Webhooks o) ws.

Lemma update_after o from m u u' r :
  released (MutatingWebhookConfiguration_Meta o) = false -> all_readable name unreadable (Webhooks o) ->
  after_updates o from m u -> updateWebhookConfiguration c u = (r, u') -> (clock u' <= NotAfter current)%Z ->
  r = Ret tt /\ after_updates o from (S m) u'.
Proof.
  intros Hrel Hall (Hf & ws & Hst & Ha) E Hexp. destruct (update_answered u _ Hst Hrel) as (ws2 & u2 & E2 & Hcl & Hrw & Hst2).
  rewrite E in E2. injection E2 as -> <-. split; [done|]. split; [lia|]. exists ws2. split; [exact Hst2|].
  apply (rewritten_all _ _ unreadable) in Hrw; [|by eapply all_readable_appended].
  cbn [set_webhooks Webhooks] in Hrw. revert Hrw. generalize ws2 at 1 2. clear Hst Hst2 Hall. revert ws Ha.
  generalize (Webhooks o). intros l ws Ha. induction Ha as [|x x1 l ws Hx _ IH]; intros ws3 Hrw; inversion Hrw; subst; constructor.
  - by eapply appended_step.
  - by apply IH.
Qed.

Lemma clock_grows u : (clock u <= clock (snd (updateWebhookConfiguration c u)))%Z.
Proof.
  destruct (updateWebhookConfiguration c u) as [r u'] eqn:E. by destruct (update_run c u r u' Hcurrent E) as [(_ & _ & Hc) _].
Qed.

Lemma sync_webhooks_clock ws u : (clock u <= clock (snd (sync_webhooks c ws u)))%Z.
Proof.
  destruct (sync_webhooks c ws u) as [r u'] eqn:E. by destruct (sync_webhooks_spec c ws u r u' Hcurrent E) as (_ & (_ & _ & Hc) & _).
Qed.

Lemma sync_after o from m snapshot u :
  released (MutatingWebhookConfiguration_Meta o) = false -> all_readable name unreadable (Webhooks o) ->
  after_updates o from m u -> (clock (snd (sync_webhooks c snapshot u)) <= NotAfter current)%Z ->
  after_updates o from (m + missing current snapshot) (snd (sync_webhooks c snapshot u)).
Proof.
  intros Hrel Hall. revert m u. induction snapshot as [|x snapshot IH]; intros m u Hafter Hexp.
  - cbn. by rewrite Nat.add_0_r.
  - unfold missing in *. cbn [sync_webhooks List.filter] in *. unfold lacks at 1.
    destruct (caBundleFound (Webhook_CABundle x) current); cbn [negb] in *.
    + rewrite (M_bind_ret _ _ u tt u eq_refl) in *. by apply IH.
    + destruct (updateWebhookConfiguration c u) as [r u1] eqn:Eu.
      assert (Et : forall v, r = Ret v -> (_ ← try_ (updateWebhookConfiguration c); mret tt) u = (Ret tt, u1)).
      { intros v ->. unfold mbind, M_bind, try_. by rewrite Eu. }
      destruct Hafter as (Hf & ws & Hst & Ha). destruct (update_answered u _ Hst Hrel) as (_ & u2 & E2 & _).
      rewrite Eu in E2. injection E2 as -> <-. rewrite (M_bind_ret _ _ _ _ _ (Et tt eq_refl)) in *.
      cbn [length]. rewrite Nat.add_succ_r, <- Nat.add_succ_l. apply IH; [|exact Hexp].
      apply (update_after o from m u u1 (Ret tt)); try done; [split; [done|by exists ws]|].
      pose proof (sync_webhooks_clock snapshot u1). lia.
Qed.

(** A tick reads the stored configuration. *)
Lemma sync_tick_reads u o :
  stored_webhook u name = Some o -> syncWebhookCaBundle c u = sync_webhooks c (Webhooks o) u.
Proof.
  intros Hst. destruct (Hanswers u o Hst) as [Hg _]. pose proof (get_pure KMutatingWebhookConfiguration (webhook_key name) u) as Hp.
  unfold syncWebhookCaBundle.
  assert (Eg : try_ (get_webhook name) u = (Ret (inr o), u)).
  { unfold try_, get_webhook. change (mkNN EmptyString name) with (webhook_key name).
    rewrite (surjective_pairing (cl_Get _ _ u)), Hg, Hp. done. }
  by rewrite (M_bind_ret _ _ _ _ _ Eg).
Qed.

(** A webhook of others that lacks the CA lacks it for ever. *)
Lemma missing_others from to m ws ws' :
  Forall2 (appended name current from to m) ws ws' ->
  (exists x, In x ws /\ own_webhook name x = false /\ lacks current x = true) -> 0 < missing current ws'.
Proof.
  intros Ha (x & Hin & Ho & Hl). assert (Hin' : In x ws').
  { clear Hl. induction Ha as [|y y' ws ws' Hy _ IH]; [done|]. destruct Hin as [->|Hin]; [|right; by apply IH].
    left. unfold appended in Hy. by rewrite Ho in Hy. }
  unfold missing. assert (Hf : In x (List.filter (lacks current) ws')) by (by apply filter_In).
  destruct (List.filter _ ws'); [done|cbn; lia].
Qed.

Lemma ticks_after o w n :
  stored_webhook w name = Some o -> released (MutatingWebhookConfiguration_Meta o) = false ->
  all_readable name unreadable (Webhooks o) -> (clock (sync_ticks c n w) <= NotAfter current)%Z ->
  exists m, after_updates o (clock w) m (sync_ticks c n w) /\ (n = 0 -> m = 0) /\ (n = 1 -> m = missing current (Webhooks o)) /\
    ((exists x, In x (Webhooks o) /\ own_webhook name x = false /\ lacks current x = true) -> n <= m).
Proof.
  intros Hst Hrel Hall. induction n as [|n IH]; intros Hexp.
  - exists 0. split; [|split; [done|split; [done|lia]]]. split; [cbn; lia|]. exists (Webhooks o). split; [cbn; by destruct o|]. apply appended_none.
  - change (sync_ticks c (S n) w) with (snd (syncWebhookCaBundle c (sync_ticks c n w))) in *. set (u := sync_ticks c n w) in *.
    assert (Hc : (clock u <= clock (snd (syncWebhookCaBundle c u)))%Z).
    { destruct (syncWebhookCaBundle c u) as [r u'] eqn:E. by destruct (syncWebhookCaBundle_spec c u r u' Hcurrent E) as (_ & (_ & _ & ?) & _). }
    destruct (IH ltac:(lia)) as (m & Hafter & Hzero & _ & Hm). pose proof Hafter as (_ & ws & Hstu & Ha).
    rewrite (sync_tick_reads u _ Hstu) in *. cbn [set_webhooks Webhooks] in *.
    exists (m + missing current ws). split; [by apply sync_after|]. split; [done|]. split.
    + intros [= ->]. change u with w in *. rewrite Hst in Hstu. injection Hstu as Eo.
      rewrite (Hzero eq_refl). f_equal. by rewrite Eo.
    + intros Hx. specialize (Hm Hx). pose proof (missing_others _ _ _ _ _ Ha Hx). lia.
Qed.

(** With a first own bundle that does not parse no update changes anything. *)
Lemma sync_stuck o snapshot u :
  released (MutatingWebhookConfiguration_Meta o) = false -> stuck name unreadable (Webhooks o) ->
  stored_webhook u name = Some o -> stored_webhook (snd (sync_webhooks c snapshot u)) name = Some o.
Proof.
  intros Hrel Hs. revert u. induction snapshot as [|x snapshot IH]; intros u Hst; [exact Hst|]. cbn [sync_webhooks].
  destruct (negb _); [|rewrite (M_bind_ret _ _ u tt u eq_refl); by apply IH].
  destruct (update_answered u o Hst Hrel) as (ws & u1 & E & _ & Hrw & Hst1).
  assert (Et : (_ ← try_ (updateWebhookConfiguration c); mret tt) u = (Ret tt, u1)).
  { unfold mbind, M_bind, try_. by rewrite E. }
  rewrite (M_bind_ret _ _ _ _ _ Et). apply IH. rewrite Hst1. f_equal.
  rewrite (rewritten_stuck _ _ _ _ _ (updated_readable _ _ _) Hrw Hs). by destruct o.
Qed.

Lemma ticks_stuck o w n :
  released (MutatingWebhookConfiguration_Meta o) = false -> stuck name unreadable (Webhooks o) ->
  stored_webhook w name = Some o -> stored_webhook (sync_ticks c n w) name = Some o.
Proof.
  intros Hrel Hs Hst. induction n as [|n IH]; [exact Hst|].
  change (sync_ticks c (S n) w) with (snd (syncWebhookCaBundle c (sync_ticks c n w))).
  rewrite (sync_tick_reads _ o IH). by apply sync_stuck.
Qed.

End Manager.

(** C38. The sync loop repeats its updates.  Take any stored configuration that
    is not being deleted, an API server that answers, and any number of
    ticks.  When the own bundles parse and the current CA has not expired by
    the end, the own bundles have kept what has not expired and got [m]
    copies of the current CA: one tick appends as many as there are webhooks
    in the configuration, own or not, that lack the CA when it begins (so two
    copies for two empty own bundles); and as long as a webhook of others
    lacks it, which is for ever, every tick appends at least one more.  But
    when the first own bundle does not parse, the configuration is never
    changed. *)
Theorem sync_appends_duplicates (c : certManager W) (o : MutatingWebhookConfiguration) (w : W) (n : nat) :
  parsed (cert (ca c)) -> answers (webhookName c) ->
  stored_webhook w (webhookName c) = Some o -> released (MutatingWebhookConfiguration_Meta o) = false ->
  let name := webhookName c in
  let current := cert (ca c) in
  let w' := sync_ticks c n w in
  (all_readable name unreadable (Webhooks o) -> (clock w' <= NotAfter current)%Z ->
     exists m ws, stored_webhook w' name = Some (set_webhooks ws o) /\
       Forall2 (appended name current (clock w) (clock w') m) (Webhooks o) ws /\
       (n = 1 -> m = missing current (Webhooks o)) /\
       ((exists x, In x (Webhooks o) /\ own_webhook name x = false /\ lacks current x = true) -> n <= m)) /\
  (stuck name unreadable (Webhooks o) -> stored_webhook w' name = Some o).
Proof.
  intros Hc Ha Hst Hrel. cbv zeta. split.
  - intros Hall Hexp. destruct (ticks_after c Hc Ha o w n Hst Hrel Hall Hexp) as (m & (_ & ws & Hw & Hf) & _ & Hone & Hx).
    by exists m, ws.
  - intros Hs. by apply ticks_stuck.
Qed.

End Sync.

(** ** Witnesses *)

#[local] Existing Instances Ref.vendor Ref.vendor_laws Ref.client Ref.client_reads Ref.client_writes
  RefHost.crypto RefHost.crypto_view RefHost.crypto_laws RefHost.host_ops RefHost.host_view RefHost.host_laws
  RefHost.clientset RefHost.clientset_laws.

Import CertExamples WebhookExamples.

Lemma reference_answers name : answers (W := Ref.cluster) name.
Proof.
  intros u o Hst. cbn in Hst. split.
  - cbn. unfold Ref.get, Ref.lookup. by rewrite Hst.
  - intros ws. pose proof (view_key u KMutatingWebhookConfiguration _ o Hst) as Hk. cbn. unfold Ref.update.
    change (meta_of KMutatingWebhookConfiguration (set_webhooks ws o)) with (meta_of KMutatingWebhookConfiguration o).
    rewrite Hk. by rewrite Hst.
Qed.

(** Two own webhooks without a bundle get the CA twice in one tick; a webhook
    of another component makes every tick add a copy; a broken first bundle
    keeps the second from being repaired. *)
Example sync_examples :
  serials (sync_ticks manager 1 (with_webhooks [(pods, EmptyString); (vpas, EmptyString)])) = [(pods, [7; 7]%Z); (vpas, [7; 7]%Z)] /\
  serials (sync_ticks manager 3 (with_webhooks [(pods, encode_certificates [current]); ("other", EmptyString)])) =
    [(pods, [7; 7; 7; 7]%Z); ("other", [])] /\
  (let broken := with_webhooks [(pods, pem.EncodeToMemory "CERTIFICATE" "junk"); (vpas, EmptyString)] in
   stored_webhook (sync_ticks manager 3 broken) name = stored_webhook broken name).
Proof. vm_compute. done. Qed.

Definition polluted : Ref.cluster := with_webhooks [(pods, encode_certificates [current]); ("other", EmptyString)].

Lemma sync_appends_duplicates_witness :
  exists o m ws, stored_webhook polluted name = Some o /\
    stored_webhook (sync_ticks manager 3 polluted) name = Some (set_webhooks ws o) /\ 3 <= m /\
    Forall2 (appended name current (clock polluted) (clock (sync_ticks manager 3 polluted)) m) (Webhooks o) ws.
Proof.
  eexists. destruct (sync_appends_duplicates manager _ polluted 3 current_parsed (reference_answers name) eq_refl eq_refl)
    as [(m & ws & Hst & Hf & _ & Hm) _].
  - constructor; [|constructor; [|constructor]]; intros Ho [e He]; vm_compute in He; discriminate.
  - vm_compute. discriminate.
  - exists m, ws. split; [reflexivity|]. split; [exact Hst|]. split; [|exact Hf]. apply Hm.
    eexists. split; [right; left; reflexivity|]. split; vm_compute; reflexivity.
Defined.
