(* ===== verification/CertGenerateSpec.v ===== *)
(** * Generated certificates and the files they are kept in

    What [generateCACert] and [generateTLSCert] return and leave on the disk,
    the bounds of serial numbers, and that loading gives back what was saved. *)

From S2P Require Import Prelude GoStrings Kube Vendor RandUtils Filepath Pem Crypto Certificates CertManager CertBundleSpec Reference ReferenceHost.

Section Generate.
Context {W : Type} `{CryptoLaws W, !Host W, !HostLaws W, !Entropy W}.

(** ** Effects *)

(** Time may pass and the files [ps] may change; nothing else does. *)
Definition touches (ps : list string) (w w' : W) : Prop :=
  (clock w <= clock w')%Z /\ (forall p, p ∉ ps -> file w' p = file w p) /\ (forall k key, view w' k key = view w k key).

#[local] Instance touches_preorder ps : PreOrder (touches ps).
Proof.
  split; [by intros w|]. intros w1 w2 w3 (C & P & V) (C' & P' & V').
  split; [lia|]. split; intros; [by rewrite P', P|by rewrite V'].
Qed.

Lemma quiet_touches ps w w' : quiet w w' -> touches ps w w'.
Proof. intros (C & P & V). split; [done|]. split; [intros p _; apply P|done]. Qed.

Lemma touches_incl ps qs w w' : (forall p, p ∈ ps -> p ∈ qs) -> touches ps w w' -> touches qs w w'.
Proof. intros Hi (C & P & V). split; [done|]. split; [|done]. intros p Hp. apply P. intros Hin. by apply Hp, Hi. Qed.

Lemma write_touches ps p d w : p ∈ ps -> touches ps w (snd (cert_WriteCert p d w)).
Proof.
  intros Hp. split; [apply write_clock|]. split; [|apply write_view]. intros q Hq. apply write_frame. by intros ->.
Qed.

Lemma safe_quiet {A} ps (m : M W A) w0 w :
  touches ps w0 w -> quiet w (snd (m w)) -> (forall p, fst (m w) <> Panic p) ->
  safe m w (touches ps w0) (fun a w' => fst (m w) = Ret a /\ quiet w w').
Proof.
  intros Ht Hq Hp. destruct (m w) as [r w'] eqn:E. cbn in *. eapply safe_intro; [exact E| |done|by intros a ->].
  trans w; [done|by apply quiet_touches].
Qed.

(** ** Serial numbers and names *)

Lemma serial_value w r w' : generateSerial w = (r, w') ->
  quiet w w' /\ (forall p, r <> Panic p) /\ (forall z, r = Ret z -> (1 <= z <= MaxInt64 - 1)%Z).
Proof.
  unfold generateSerial, mbind, M_bind. pose proof (rand_quiet (MaxInt64 - 1) w) as Hq. pose proof (rand_no_panic (MaxInt64 - 1) w) as Hp.
  destruct (rand_Int (MaxInt64 - 1) w) as [[v|e|p] w1] eqn:E; cbn in *.
  - apply rand_range in E. intros [= <- <-]. split; [done|]. split; [done|]. intros z [= <-]. lia.
  - by intros [= <- <-].
  - by destruct (Hp p).
Qed.

(** C37. A serial number is positive and fits into a signed 64-bit integer,
    with one value to spare; drawing one changes no file and no object and
    never panics. *)
Theorem generateSerial_bounds w r w' :
  generateSerial w = (r, w') ->
  quiet w w' /\ (forall p, r <> Panic p) /\ (forall z, r = Ret z -> (0 < z < 2 ^ 63 - 1)%Z).
Proof.
  intros E. destruct (serial_value w r w' E) as (Hq & Hp & Hz). split; [done|]. split; [done|].
  intros z Hr. specialize (Hz z Hr). unfold MaxInt64 in Hz. lia.
Qed.

Lemma random_quiet n b w : quiet w (snd (random_loop n b w)).
Proof.
  revert b w. induction n as [|n IH]; intros b w; cbn [random_loop]; [reflexivity|]. unfold mbind, M_bind, try_.
  pose proof (rand_quiet (Z.of_nat (String.length charset)) w) as Hq.
  destruct (rand_Int (Z.of_nat (String.length charset)) w) as [[v|e|p] w1] eqn:E; cbn in *; [|done..].
  destruct (charset_at v); [|done..]. etrans; [exact Hq|apply IH].
Qed.

Lemma random_no_panic n w p : fst (generateRandomString n w) <> Panic p.
Proof. destruct (random_loop_spec n EmptyString w) as (s & w' & E & _). unfold generateRandomString, GenerateRandomString. by rewrite E. Qed.

(** A name once set stays. *)
Definition names_kept (s s' : names) : Prop :=
  (forall n, generatedCAName s = Some n -> generatedCAName s' = Some n) /\
  (forall n, generatedTLSName s = Some n -> generatedTLSName s' = Some n).

#[local] Instance names_kept_preorder : PreOrder names_kept.
Proof. split; [by intros s|]. intros s1 s2 s3 [C T] [C' T']. split; auto. Qed.

(** The invariant of the programs below, from a starting point *)
Definition during (ps : list string) (sw0 sw : names * W) : Prop :=
  names_kept (fst sw0) (fst sw) /\ touches ps (snd sw0) (snd sw).

#[local] Instance during_preorder ps : PreOrder (during ps).
Proof.
  split; [by intros [s w]|]. intros sw1 sw2 sw3 [N T] [N' T']. split; [by trans (fst sw2)|by trans (snd sw2)].
Qed.

Lemma safe_random {ps} n sw0 sw :
  during ps sw0 sw -> safe (at_world (generateRandomString n)) sw (during ps sw0) (fun r sw' => fst sw' = fst sw).
Proof.
  intros [Hn Ht]. apply safe_at_world. eapply safe_impl; [apply (safe_quiet ps _ (snd sw0))|..].
  - done.
  - apply random_quiet.
  - apply random_no_panic.
  - done.
  - done.
Qed.

Lemma safe_CA_name {ps} prefix sw0 sw :
  during ps sw0 sw -> safe (generateCACommonName prefix) sw (during ps sw0) (fun cn sw' => generatedCAName (fst sw') = Some cn).
Proof.
  intros Hd. unfold generateCACommonName. eapply safe_bind with (P := fun s sw' => s = fst sw /\ sw' = sw); [done|].
  intros s sw' _ [-> ->]. destruct (generatedCAName (fst sw)) as [n|] eqn:E; [done|].
  eapply safe_bind; [by apply safe_random|]. intros r sw1 Hd1 Hs.
  eapply safe_bind with (P := fun _ sw' => generatedCAName (fst sw') = Some (prefix +:+ "-" +:+ r)).
  - eapply safe_intro; [done| |done|done]. cbn. trans sw1; [done|]. split; [|reflexivity]. cbn. rewrite Hs.
    split; [intros n Hn; congruence|done].
  - intros _ sw2 Hd2 Hc. by apply safe_ret.
Qed.

Lemma safe_TLS_name {ps} prefix sw0 sw :
  during ps sw0 sw -> safe (generateTLSCommonName prefix) sw (during ps sw0) (fun cn sw' => generatedTLSName (fst sw') = Some cn).
Proof.
  intros Hd. unfold generateTLSCommonName. eapply safe_bind with (P := fun s sw' => s = fst sw /\ sw' = sw); [done|].
  intros s sw' _ [-> ->]. destruct (generatedTLSName (fst sw)) as [n|] eqn:E; [done|].
  eapply safe_bind; [by apply safe_random|]. intros r sw1 Hd1 Hs.
  eapply safe_bind with (P := fun _ sw' => generatedTLSName (fst sw') = Some (prefix +:+ "-" +:+ r)).
  - eapply safe_intro; [done| |done|done]. cbn. trans sw1; [done|]. split; [|reflexivity]. cbn. rewrite Hs.
    split; [done|intros n Hn; congruence].
  - intros _ sw2 Hd2 Hc. by apply safe_ret.
Qed.

(** ** Files *)

Definition crt_file (path type_ : string) : string := filepath.Join2 path (type_ +:+ ".crt").
Definition key_file (path type_ : string) : string := filepath.Join2 path (type_ +:+ ".key").
Definition pair_files (path type_ : string) : list string := [crt_file path type_; key_file path type_].

Lemma files_differ path t t' x y :
  filepath.plain (t +:+ x) = true -> filepath.plain (t' +:+ y) = true -> t +:+ x <> t' +:+ y ->
  filepath.Join2 path (t +:+ x) <> filepath.Join2 path (t' +:+ y).
Proof. intros Hx Hy Hne E. by apply Hne, (filepath.Join2_inj path). Qed.

Definition bundle_type (b : bundle W) : string := if IsCA (cert b) then certCAType else certTLSType.

(** The pair of files that holds a bundle *)
Definition saved (w : W) (path type_ : string) (b : bundle W) : Prop :=
  exists k m, key b = RSA k /\ x509_MarshalPKCS8PrivateKey k = inr m /\
    file w (crt_file path type_) = Some (pem.EncodeToMemory "CERTIFICATE" (Raw (cert b))) /\
    file w (key_file path type_) = Some (pem.EncodeToMemory "RSA PRIVATE KEY" m).

Lemma saved_touches ps w w' path type_ b :
  touches ps w w' -> crt_file path type_ ∉ ps -> key_file path type_ ∉ ps -> saved w path type_ b -> saved w' path type_ b.
Proof.
  intros (_ & P & _) Hc Hk (k & m & E1 & E2 & E3 & E4). exists k, m. by rewrite !P.
Qed.

Lemma write_done_spec ps p d w0 w : p ∈ ps -> touches ps w0 w ->
  safe (cert_WriteCert p d) w (touches ps w0) (fun _ w' => file w' p = Some d /\ forall q, q <> p -> file w' q = file w q).
Proof.
  intros Hp Ht. pose proof (write_touches ps p d w Hp) as Hw. pose proof (write_done p d w) as Hd.
  pose proof (write_no_panic p d w) as Hn. pose proof (write_frame p d w) as Hf.
  destruct (cert_WriteCert p d w) as [r w'] eqn:E. cbn in *. eapply safe_intro; [exact E|by trans w|done|].
  intros [] ->. split; [by apply Hd|done].
Qed.

Lemma writeBundle_safe path b w0 w :
  parsed (cert b) -> (exists k, key b = RSA k) -> touches (pair_files path (bundle_type b)) w0 w ->
  safe (writeBundle path b) w (touches (pair_files path (bundle_type b)) w0) (fun _ w' => saved w' path (bundle_type b) b).
Proof.
  intros Hc [k Ek] Ht. unfold writeBundle, derToPem. rewrite Hc, Ek. cbn [assert_rsa].
  eapply safe_bind with (P := fun x w' => x = pem.EncodeToMemory "CERTIFICATE" (Raw (cert b)) /\ w' = w); [done|]. intros ? ? _ [-> ->].
  eapply safe_bind with (P := fun x w' => x = k /\ w' = w); [done|]. intros ? ? _ [-> ->].
  eapply safe_bind with (P := fun x w' => exists m, x509_MarshalPKCS8PrivateKey k = inr m /\ x = pem.EncodeToMemory "RSA PRIVATE KEY" m /\ w' = w).
  { unfold rsaToPem. destruct (x509_MarshalPKCS8PrivateKey k) as [e|m]; [done|]. apply safe_lift; [done|done|]. intros ? [= <-]. by exists m. }
  intros keyPEM ? _ (m & Em & -> & ->).
  assert (Hpair : forall t, (t = "ca" \/ t = "tls") -> touches (pair_files path t) w0 w ->
    safe (write_pair path t (pem.EncodeToMemory "CERTIFICATE" (Raw (cert b))) (pem.EncodeToMemory "RSA PRIVATE KEY" m)) w
      (touches (pair_files path t) w0) (fun _ w' => saved w' path t b)).
  { intros t Hcase Htt. unfold write_pair. fold (crt_file path t) (key_file path t).
    eapply safe_bind; [apply safe_wrap, write_done_spec; [by left|done]|]. intros _ w1 Ht1 [Hf _].
    eapply safe_impl; [apply safe_wrap, write_done_spec; [right; by left|exact Ht1]|done|]. intros _ w2 _ [Hf2 Hother].
    exists k, m. split; [done|]. split; [done|]. split; [|done]. rewrite Hother; [done|].
    apply files_differ; destruct Hcase as [->| ->]; done. }
  unfold bundle_type in *. destruct (IsCA (cert b)); apply Hpair; auto.
Qed.

(** ** What a new bundle is *)

(** The key belongs to the certificate. *)
Definition key_pair (b : bundle W) : Prop := exists k, key b = RSA k /\ cert_key (cert b) = Some (rsa_Public k).

(** The certificate is signed with the key of another bundle. *)
Definition signed_with (b parent : bundle W) : Prop := exists k, key parent = RSA k /\ verifies (cert b) (rsa_Public k) = true.

(** Valid for [validity] from a moment between two states, to the second *)
Definition valid_for (validity : Z) (w w' : W) (b : bundle W) : Prop :=
  exists t, (clock w <= t <= clock w')%Z /\ NotAfter (cert b) = in_seconds (t + validity).

Lemma safe_now {ps} sw0 sw :
  during ps sw0 sw -> safe (at_world time_Now) sw (during ps sw0)
    (fun t sw' => fst sw' = fst sw /\ (clock (snd sw0) <= t <= clock (snd sw'))%Z).
Proof.
  intros [Hn Ht]. apply safe_at_world. destruct (now_spec (snd sw)) as (t & E & Hb & Hq).
  destruct (time_Now (snd sw)) as [r w'] eqn:Ew. cbn in *. subst r. eapply safe_intro; [exact Ew| |done|].
  - split; [done|]. cbn. trans (snd sw); [done|by apply quiet_touches].
  - intros a [= <-]. cbn. split; [done|]. destruct Ht as [Hc _]. lia.
Qed.

(** The certificate that the real operations make from a template *)
Lemma safe_create {ps} tmpl parent pub priv sw0 sw :
  during ps sw0 sw -> safe (at_world (CreateCertificate realCertOps tmpl parent pub priv)) sw (during ps sw0)
    (fun c sw' => fst sw' = fst sw /\ parsed c /\ from_template tmpl c /\ cert_key c = Some pub /\
       (exists k, priv = RSA k /\ verifies c (rsa_Public k) = true) /\ (clock (snd sw) <= clock (snd sw'))%Z).
Proof.
  intros [Hn Ht]. apply safe_at_world. cbn [CreateCertificate realCertOps].
  eapply safe_bind with (P := fun der w' => fst (x509_CreateCertificate tmpl parent pub priv (snd sw)) = Ret der /\ quiet (snd sw) w').
  - eapply safe_impl; [apply (safe_quiet ps _ (snd sw0) (snd sw) Ht)|..]; [apply create_quiet|apply create_cert_no_panic|done|done].
  - intros der w' [Hn' Ht'] [Hder Hq]. apply safe_lift; [done|by destruct (x509_ParseCertificate der)|].
    intros c Hc. destruct (x509_ParseCertificate der) as [e|c'] eqn:Ep; [done|]. injection Hc as <-.
    destruct (create_spec _ _ _ _ _ _ Hder) as (c2 & k & Hp2 & Ht2 & Hk2 & Hpr & Hv & _).
    rewrite Ep in Hp2. injection Hp2 as <-. split; [done|]. split; [by eapply parse_parsed|]. split; [done|]. split; [done|].
    split; [by exists k|]. cbn. apply Hq.
Qed.

Lemma safe_serial {ps} sw0 sw :
  during ps sw0 sw -> safe (at_world generateSerial) sw (during ps sw0) (fun z sw' => (1 <= z <= MaxInt64 - 1)%Z).
Proof.
  intros [Hn Ht]. apply safe_at_world. destruct (generateSerial (snd sw)) as [r w'] eqn:E.
  destruct (serial_value _ _ _ E) as (Hq & Hp & Hz). eapply safe_intro; [exact E| |done|by intros; apply Hz].
  split; [done|]. cbn. trans (snd sw); [done|by apply quiet_touches].
Qed.

Lemma safe_key {ps} n sw0 sw :
  during ps sw0 sw -> safe (at_world (rsa_GenerateKey n)) sw (during ps sw0) (fun _ sw' => True).
Proof.
  intros [Hn Ht]. apply safe_at_world. eapply safe_impl; [apply (safe_quiet ps _ (snd sw0) (snd sw) Ht)|..];
    [apply generate_quiet|apply generate_no_panic|done|done].
Qed.

(** What is true of a new CA bundle *)
Definition new_ca (w w' : W) (n : names) (b : bundle W) : Prop :=
  parsed (cert b) /\ key_pair b /\ signed_with b b /\ IsCA (cert b) = true /\
  (1 <= SerialNumber (cert b) <= MaxInt64 - 1)%Z /\ generatedCAName n = Some (CommonName (cert b)) /\
  valid_for caCertValidity w w' b.

(** [generateCACert] never panics, touches only [ca.crt] and [ca.key] and
    keeps the common names that were set.  When it works, the bundle is a
    self-signed CA certificate with its own key, a serial number in range and
    the common name of the process, valid for a week from now, and it is what
    the two files hold. *)
Theorem generateCACert_spec path s w r s' w' :
  generateCACert path realCertOps (s, w) = (r, (s', w')) ->
  (forall p, r <> Panic p) /\ names_kept s s' /\ touches (pair_files path certCAType) w w' /\
  (forall b, r = Ret b -> new_ca w w' s' b /\ saved w' path certCAType b).
Proof.
  intros E. set (ps := pair_files path certCAType).
  assert (Hsafe : safe (generateCACert path realCertOps) (s, w) (during ps (s, w))
            (fun b sw' => new_ca w (snd sw') (fst sw') b /\ saved (snd sw') path certCAType b)).
  { unfold generateCACert.
    eapply safe_bind; [apply safe_wrap, safe_key; reflexivity|]. intros k sw1 D1 _.
    eapply safe_bind; [by apply safe_wrap, safe_serial|]. intros serial sw2 D2 Hs.
    eapply safe_bind; [by apply safe_CA_name|]. intros cn sw3 D3 Hcn.
    eapply safe_bind; [by apply safe_now|]. intros nb sw4 D4 [E4 _].
    eapply safe_bind; [by apply safe_now|]. intros now sw5 D5 [E5 Hnow]. cbn zeta.
    eapply safe_bind; [by apply safe_wrap, safe_create|]. cbn beta.
    intros c sw6 D6 (E6 & Hp & (Hser & Hname & _ & _ & _ & Hna & _ & _ & Hca) & Hk & (k' & [= <-] & Hv) & Hclk).
    cbn in Hser, Hname, Hna, Hca.
    set (b := mkBundle c (RSA k)). assert (Hb : bundle_type b = certCAType) by (unfold bundle_type; cbn; by rewrite Hca).
    eapply safe_bind with (P := fun _ sw' => fst sw' = fst sw6 /\ saved (snd sw') path certCAType b /\ (clock (snd sw6) <= clock (snd sw'))%Z).
    - apply safe_at_world. pose proof (writeBundle_safe path b (snd sw6) (snd sw6) Hp (ex_intro _ k eq_refl)) as Hw. rewrite Hb in Hw.
      eapply safe_impl; [apply Hw; reflexivity|..].
      + intros w1 T1. destruct D6 as [N6 T6]. split; [done|]. cbn. by trans (snd sw6).
      + intros _ w1 (C1 & _) Hsv. done.
    - intros _ sw7 D7 (E7 & Hsv & Hc7). apply safe_ret; [done|]. split; [|done].
      unfold new_ca, key_pair, signed_with, b. cbn [cert key]. rewrite Hser, Hname, E7, E6, E5, E4.
      split; [done|]. split; [by exists k|]. split; [by exists k|]. repeat (split; [done|]). exists now. split; [|done]. cbn [snd] in *. lia. }
  destruct (safe_elim _ _ _ _ _ _ Hsafe E) as ([Hn Ht] & Hp & Hq). split; [done|]. split; [done|]. split; [done|]. exact Hq.
Qed.

(** What is true of a new TLS bundle *)
Definition new_tls (w w' : W) (n : names) (dns : list string) (caBundle b : bundle W) : Prop :=
  parsed (cert b) /\ key_pair b /\ signed_with b caBundle /\ IsCA (cert b) = false /\
  (1 <= SerialNumber (cert b) <= MaxInt64 - 1)%Z /\ DNSNames (cert b) = dns /\
  ExtKeyUsage (cert b) = [ExtKeyUsageServerAuth] /\ generatedTLSName n = Some (CommonName (cert b)) /\
  valid_for tlsCertValidity w w' b.

Lemma generateTLSCert_safe path dns caBundle sw :
  safe (generateTLSCert path realCertOps dns caBundle) sw (during (pair_files path certTLSType) sw)
    (fun b sw' => new_tls (snd sw) (snd sw') (fst sw') dns caBundle b /\ saved (snd sw') path certTLSType b).
Proof.
  destruct sw as [s w]. cbn [fst snd]. set (ps := pair_files path certTLSType). unfold generateTLSCert.
  eapply safe_bind; [apply safe_wrap, safe_key; reflexivity|]. intros k sw1 D1 _.
  eapply safe_bind; [by apply safe_wrap, safe_serial|]. intros serial sw2 D2 Hs.
  eapply safe_bind; [by apply safe_TLS_name|]. intros cn sw3 D3 Hcn.
  eapply safe_bind; [by apply safe_now|]. intros nb sw4 D4 [E4 _].
  eapply safe_bind; [by apply safe_now|]. intros now sw5 D5 [E5 Hnow]. cbn zeta.
  eapply safe_bind; [by apply safe_wrap, safe_create|]. cbn beta.
  intros c sw6 D6 (E6 & Hp & (Hser & Hname & _ & Hdns & _ & Hna & _ & Heku & Hca) & Hk & Hsig & Hclk).
  cbn in Hser, Hname, Hdns, Hna, Heku, Hca.
  set (b := mkBundle c (RSA k)). assert (Hb : bundle_type b = certTLSType) by (unfold bundle_type; cbn; by rewrite Hca).
  eapply safe_bind with (P := fun _ sw' => fst sw' = fst sw6 /\ saved (snd sw') path certTLSType b /\ (clock (snd sw6) <= clock (snd sw'))%Z).
  - apply safe_at_world. pose proof (writeBundle_safe path b (snd sw6) (snd sw6) Hp (ex_intro _ k eq_refl)) as Hw. rewrite Hb in Hw.
    eapply safe_impl; [apply Hw; reflexivity|..].
    + intros w1 T1. destruct D6 as [N6 T6]. split; [done|]. cbn. by trans (snd sw6).
    + intros _ w1 (C1 & _) Hsv. done.
  - intros _ sw7 D7 (E7 & Hsv & Hc7). apply safe_ret; [done|]. split; [|done].
    unfold new_tls, key_pair, signed_with, b. cbn [cert key]. rewrite Hser, Hname, Hdns, Heku, E7, E6, E5, E4.
    split; [done|]. split; [by exists k|]. split; [exact Hsig|]. repeat (split; [done|]).
    exists now. split; [|done]. cbn [snd] in *. lia.
Qed.

(** [generateTLSCert] never panics, touches only [tls.crt] and [tls.key]
    and keeps the common names that were set.  When it works, the bundle is a
    server certificate for the given names with its own key, signed with the
    key of the CA bundle, valid for a day from now, and it is what the two
    files hold. *)
Theorem generateTLSCert_spec path dns caBundle s w r s' w' :
  generateTLSCert path realCertOps dns caBundle (s, w) = (r, (s', w')) ->
  (forall p, r <> Panic p) /\ names_kept s s' /\ touches (pair_files path certTLSType) w w' /\
  (forall b, r = Ret b -> new_tls w w' s' dns caBundle b /\ saved w' path certTLSType b).
Proof.
  intros E. destruct (safe_elim _ _ _ _ _ _ (generateTLSCert_safe path dns caBundle (s, w)) E) as ([Hn Ht] & Hp & Hq).
  split; [done|]. split; [done|]. split; [done|]. exact Hq.
Qed.

(** ** Loading *)

(** The files of a pair can be read. *)
Definition readable (w : W) (path type_ : string) : Prop :=
  forall p d, p ∈ pair_files path type_ -> file w p = Some d -> fst (os_ReadFile p w) = Ret d.

Lemma first_block_encoded t d : pem.type_ok t = true -> first_block (pem.EncodeToMemory t d) = Ret d.
Proof.
  intros Ht. unfold first_block. rewrite <- (sapp_nil_r (pem.EncodeToMemory t d)).
  by rewrite pem.Decode_EncodeToMemory.
Qed.

Lemma read_back p w d : fst (os_ReadFile p w) = Ret d -> os_ReadFile p w = (Ret d, w).
Proof. intros E. pose proof (read_pure p w) as Hp. destruct (os_ReadFile p w) as [r w']. cbn in *. by subst. Qed.

Lemma load_saved path type_ b w :
  filepath.plain (type_ +:+ ".crt") = true -> filepath.plain (type_ +:+ ".key") = true ->
  parsed (cert b) -> saved w path type_ b -> readable w path type_ -> load_pair path type_ w = (Ret b, w).
Proof.
  intros Hpc Hpk Hc (k & m & Ek & Em & Ec & Ef) Hr.
  unfold load_pair. rewrite !filepath.Join2_Clean_plain by done.
  rewrite (M_bind_ret _ _ _ _ _ (read_back _ _ _ (Hr (crt_file path type_) _ ltac:(by left) Ec))).
  rewrite first_block_encoded by done. rewrite (M_bind_ret _ (lift _) w (Raw (cert b)) w eq_refl). rewrite Hc.
  rewrite (M_bind_ret _ (lift _) w (cert b) w eq_refl).
  rewrite (M_bind_ret _ _ _ _ _ (read_back _ _ _ (Hr (key_file path type_) _ ltac:(right; by left) Ef))).
  rewrite first_block_encoded by done. rewrite (M_bind_ret _ (lift _) w m w eq_refl). rewrite (marshal_parse _ _ Em).
  rewrite (M_bind_ret _ (lift _) w (RSA k) w eq_refl). cbn [assert_rsa]. rewrite (M_bind_ret _ (lift _) w k w eq_refl).
  destruct b as [c x]. cbn in Ek |- *. by subst x.
Qed.

(** C36. Saving and loading: after [writeBundle] worked, the loader for that
    kind of bundle returns the same bundle, whatever form the path was given
    in, provided the two files can be read. *)
Theorem writeBundle_load_roundtrip path b k w w' :
  parsed (cert b) -> key b = RSA k -> writeBundle path b w = (Ret tt, w') -> readable w' path (bundle_type b) ->
  touches (pair_files path (bundle_type b)) w w' /\
  (if IsCA (cert b) then loadCAFromDisk path w' = (Ret b, w') else loadTLSFromDisk path w' = (Ret b, w')).
Proof.
  intros Hc Hk E Hr. pose proof (writeBundle_safe path b w w Hc (ex_intro _ k Hk)) as Hs.
  destruct (safe_elim _ _ _ _ _ _ (Hs ltac:(reflexivity)) E) as (Ht & _ & Hsv). split; [done|]. specialize (Hsv tt eq_refl).
  unfold bundle_type in *. destruct (IsCA (cert b)); by apply load_saved.
Qed.

End Generate.

(** ** Witnesses *)

#[local] Existing Instances Ref.vendor Ref.vendor_laws Ref.client Ref.client_reads Ref.client_writes Ref.client_entropy
  RefHost.crypto RefHost.crypto_view RefHost.crypto_laws RefHost.host_ops RefHost.host_view RefHost.host_laws
  RefHost.clientset RefHost.clientset_laws.

Import CertExamples.

Lemma generateSerial_bounds_witness : generateSerial at_1000 = (Ret 1%Z, at_1000) /\ (0 < 1 < 2 ^ 63 - 1)%Z.
Proof.
  assert (E : generateSerial at_1000 = (Ret 1%Z, at_1000)) by (vm_compute; reflexivity). split; [exact E|].
  exact (proj2 (proj2 (generateSerial_bounds at_1000 _ _ E)) _ eq_refl).
Defined.

Module GenerateExamples.

Lemma split3 {A B C} (x : A * (B * C)) : x = (fst x, (fst (snd x), snd (snd x))).
Proof. by destruct x as [? []]. Qed.

Definition is_ret {A} (o : outcome A) : Prop := match o with Ret _ => True | _ => False end.

Lemma ret_of {A} (o : outcome A) : is_ret o -> exists a, o = Ret a.
Proof. destruct o as [a| |]; [by exists a|done..]. Qed.

Definition ca_run := generateCACert "./certs" realCertOps (no_names, at_1000).
Definition current_bundle : bundle Ref.cluster := mkBundle current (RSA 1%Z).
Definition tls_run := generateTLSCert "./certs" realCertOps ["webhook"] current_bundle (no_names, at_1000).

End GenerateExamples.

Import GenerateExamples.

Lemma generateCACert_spec_witness :
  exists b, fst ca_run = Ret b /\ new_ca at_1000 (snd (snd ca_run)) (fst (snd ca_run)) b /\
    saved (snd (snd ca_run)) "./certs" certCAType b.
Proof.
  destruct (ret_of (fst ca_run) ltac:(vm_compute; exact I)) as [b E]. exists b. split; [exact E|].
  exact (proj2 (proj2 (proj2 (generateCACert_spec "./certs" no_names at_1000 (fst ca_run) (fst (snd ca_run)) (snd (snd ca_run)) (split3 ca_run)))) b E).
Defined.

Lemma generateTLSCert_spec_witness :
  exists b, fst tls_run = Ret b /\ new_tls at_1000 (snd (snd tls_run)) (fst (snd tls_run)) ["webhook"] current_bundle b /\
    saved (snd (snd tls_run)) "./certs" certTLSType b.
Proof.
  destruct (ret_of (fst tls_run) ltac:(vm_compute; exact I)) as [b E]. exists b. split; [exact E|].
  exact (proj2 (proj2 (proj2 (generateTLSCert_spec "./certs" ["webhook"] current_bundle no_names at_1000 (fst tls_run) (fst (snd tls_run)) (snd (snd tls_run)) (split3 tls_run)))) b E).
Defined.

Lemma writeBundle_load_roundtrip_witness :
  exists w', writeBundle "./certs" current_bundle at_1000 = (Ret tt, w') /\ loadCAFromDisk "./certs" w' = (Ret current_bundle, w').
Proof.
  assert (E : exists w', writeBundle "./certs" current_bundle at_1000 = (Ret tt, w')) by (eexists; vm_compute; reflexivity).
  destruct E as [w' E]. exists w'. split; [exact E|].
  assert (Hr : readable w' "./certs" (bundle_type current_bundle)).
  { intros p d _ Hf. cbn in Hf |- *. unfold RefHost.read_file. cbn. by rewrite Hf. }
  exact (proj2 (writeBundle_load_roundtrip "./certs" current_bundle 1%Z at_1000 w' current_parsed eq_refl E Hr)).
Defined.
