(* ===== verification/CertRotationSpec.v ===== *)
(** * The certificate manager over time

    The invariant of the manager's bundles and files, that the ticks keep it
    and keep the certificates valid, what [New] establishes, and what a
    failed rotation does. *)

From S2P Require Import Prelude GoStrings Kube Vendor RandUtils Filepath Pem Crypto Certificates CertManager CertBundleSpec CertGenerateSpec CertManagerSpec Reference ReferenceHost.

Section Rotation.
Context {W : Type} `{CryptoLaws W, !Host W, !HostLaws W, !Entropy W, !Vendor, !ClientWrites W, !Clientset W, !ClientsetLaws W}.

#[local] Existing Instances touches_preorder names_kept_preorder only_webhook_preorder.

(** ** The invariant *)

Definition ca_ok (b : bundle W) : Prop := parsed (cert b) /\ key_pair b /\ signed_with b b /\ IsCA (cert b) = true.

Definition tls_ok (dns : list string) (caBundle b : bundle W) : Prop :=
  parsed (cert b) /\ key_pair b /\ signed_with b caBundle /\ IsCA (cert b) = false /\ DNSNames (cert b) = dns.

(** The CA is a CA with its own key, the TLS certificate has its own key, is
    signed by that CA and names the webhook, and the disk holds both. *)
Record manager_ok (w : W) (c : certManager W) : Prop := {
  ok_ca : ca_ok (ca c);
  ok_tls : tls_ok (dnsNames c) (ca c) (tls c);
  ok_ca_saved : saved w (certPath c) certCAType (ca c);
  ok_tls_saved : saved w (certPath c) certTLSType (tls c) }.

Lemma new_ca_ok w w' n b : new_ca w w' n b -> ca_ok b.
Proof. intros (Hp & Hk & Hs & Hi & _). done. Qed.

Lemma new_tls_ok w w' n dns caBundle b : new_tls w w' n dns caBundle b -> tls_ok dns caBundle b.
Proof. intros (Hp & Hk & Hs & Hi & _ & Hd & _). done. Qed.

(** Same files as far as the manager's are concerned *)
Lemma pairs_disjoint path t t' :
  (t = certCAType /\ t' = certTLSType \/ t = certTLSType /\ t' = certCAType) ->
  crt_file path t ∉ pair_files path t' /\ key_file path t ∉ pair_files path t'.
Proof.
  intros Hc. unfold pair_files. rewrite !not_elem_of_cons. unfold crt_file, key_file.
  destruct Hc as [[-> ->]|[-> ->]]; split; (split; [|split; [|apply not_elem_of_nil]]); by apply files_differ.
Qed.

Lemma saved_other w w' path t t' b :
  (t = certCAType /\ t' = certTLSType \/ t = certTLSType /\ t' = certCAType) ->
  touches (pair_files path t') w w' -> saved w path t b -> saved w' path t b.
Proof. intros Hc Ht. destruct (pairs_disjoint path t t' Hc). by eapply saved_touches. Qed.

Lemma saved_same_files w w' path t b : (forall p, file w' p = file w p) -> saved w path t b -> saved w' path t b.
Proof. intros Hf (k & m & E1 & E2 & E3 & E4). exists k, m. by rewrite !Hf. Qed.

Lemma manager_same_files w w' c : (forall p, file w' p = file w p) -> manager_ok w c -> manager_ok w' c.
Proof. intros Hf [O1 O2 O3 O4]. split; [done|done|by eapply saved_same_files..]. Qed.

Lemma in_seconds_bounds t : (t - 1000000000 < in_seconds t <= t)%Z.
Proof. unfold in_seconds. pose proof (Z.div_mod t 1000000000 ltac:(done)). pose proof (Z.mod_pos_bound t 1000000000 ltac:(done)). lia. Qed.

Lemma valid_for_long validity w w' b : valid_for validity w w' b -> (clock w + validity - 1000000000 < NotAfter (cert b))%Z.
Proof. intros (t & Ht & ->). pose proof (in_seconds_bounds (t + validity)). lia. Qed.

(** ** Ticks *)

Lemma now_step {A} (f : Z -> M (names * W) A) s w r sw' :
  (now ← at_world time_Now; f now) (s, w) = (r, sw') ->
  exists t w1, quiet w w1 /\ (clock w <= t <= clock w1)%Z /\ f t (s, w1) = (r, sw').
Proof.
  intros E. destruct (now_spec w) as (t & Et & Hb & Hq). destruct (time_Now w) as [r1 w1] eqn:Ew. cbn in *. subst r1.
  assert (Ea : at_world time_Now (s, w) = (Ret t, (s, w1))) by (unfold at_world; cbn; by rewrite Ew).
  rewrite (M_bind_ret _ _ _ _ _ Ea) in E. by exists t, w1.
Qed.

Lemma try_cases {S A B} (m : M S A) (f : error + A -> M S B) s r s' :
  (x ← try_ m; f x) s = (r, s') ->
  exists x s1, m s = (x, s1) /\
    match x with Ret a => f (inr a) s1 = (r, s') | Err e => f (inl e) s1 = (r, s') | Panic p => r = Panic p /\ s' = s1 end.
Proof.
  unfold mbind, M_bind, try_. destruct (m s) as [x s1]. intros E. exists x, s1. split; [done|].
  destruct x; [done|done|]. by injection E as <- <-.
Qed.

(** A TLS tick that returns leaves a manager with the same CA, keeps the
    invariant, and its TLS certificate is valid for more than the rotation
    time after the tick began.  It writes only the TLS files.  The only other
    way to end is the nil dereference after a rotation that failed. *)
Theorem rotateTLSCert_spec c s w r s' w' :
  manager_ok w c -> rotateTLSCert c (s, w) = (r, (s', w')) ->
  names_kept s s' /\ touches (pair_files (certPath c) certTLSType) w w' /\
  match r with
  | Ret c' => manager_ok w' c' /\ (exists b, c' = with_tls b c) /\ (clock w + tlsCertRotation < NotAfter (cert (tls c')))%Z
  | Panic p => p = nil_bundle /\ exists w1 e, quiet w w1 /\ generateTLSCert (certPath c) realCertOps (dnsNames c) (ca c) (s, w1) = (Err e, (s', w'))
  | Err _ => False
  end.
Proof.
  intros Hok E. unfold rotateTLSCert in E. apply now_step in E as (t & w1 & Hq & Ht & E).
  destruct (Z.ltb_spec (t + tlsCertRotation) (NotAfter (cert (tls c)))) as [Hv|Hexp].
  - injection E as <- <- <-. split; [reflexivity|]. split; [by apply quiet_touches|].
    split; [apply (manager_same_files w); [apply Hq|done]|]. split; [exists (tls c); by destruct c|]. lia.
  - apply try_cases in E as (x & [s1 w2] & Eg & E).
    destruct (safe_elim _ _ _ _ _ _ (generateTLSCert_safe _ _ _ _) Eg) as ([Hn Htc] & Hp & Hb). cbn [fst snd] in *.
    assert (Htc' : touches (pair_files (certPath c) certTLSType) w w2) by (trans w1; [by apply quiet_touches|done]).
    destruct x as [b|e|p]; [| |by destruct (Hp p)].
    + injection E as <- <- <-. destruct (Hb b eq_refl) as [Hnew Hsv]. split; [done|]. split; [done|]. split.
      * destruct Hok as [O1 O2 O3 O4]. split; cbn; [done|by eapply new_tls_ok| |done]. eapply saved_other; [by left|exact Htc'|done].
      * split; [by exists b|]. cbn. destruct Hnew as (_ & _ & _ & _ & _ & _ & _ & _ & Hval).
        pose proof (valid_for_long _ _ _ _ Hval). unfold tlsCertRotation, tlsCertValidity, Hour in *. destruct Hq as [Hc _]. lia.
    + injection E as <- <- <-. split; [done|]. split; [done|]. split; [done|]. by exists w1, e.
Qed.

(** A CA tick that returns keeps the invariant, and its CA certificate is
    valid for more than the rotation time after the tick began.  When it
    rotates, the TLS certificate is a new one, signed by the new CA.  The only
    other way to end is the nil dereference. *)
Theorem rotateCACert_spec c s w r s' w' :
  manager_ok w c -> rotateCACert c (s, w) = (r, (s', w')) ->
  names_kept s s' /\
  match r with
  | Ret c' =>
      manager_ok w' c' /\ (exists b b', c' = with_tls b' (with_ca b c)) /\
      (clock w + caCertRotation < NotAfter (cert (ca c')))%Z /\
      (clock w <= clock w')%Z /\
      (c' = c \/ exists w1, (clock w <= clock w1)%Z /\ valid_for caCertValidity w1 w' (ca c') /\ valid_for tlsCertValidity w1 w' (tls c'))
  | Panic p => p = nil_bundle
  | Err _ => False
  end.
Proof.
  intros Hok E. unfold rotateCACert in E. apply now_step in E as (t & w1 & Hq & Ht & E).
  destruct (Z.ltb_spec (t + caCertRotation) (NotAfter (cert (ca c)))) as [Hv|Hexp].
  - injection E as <- <- <-. split; [reflexivity|]. split; [apply (manager_same_files w); [apply Hq|done]|].
    split; [exists (ca c), (tls c); by destruct c|]. destruct Hq as [Hc1 _]. split; [lia|]. split; [lia|by left].
  - apply try_cases in E as (x & [s1 w2] & Eg & E).
    destruct (generateCACert_spec _ _ _ _ _ _ Eg) as (Hp & Hn & Htc & Hb).
    destruct x as [b|e|p]; [|by injection E as <- <- <-|by destruct (Hp p)].
    destruct (Hb b eq_refl) as [Hnew Hsv]. apply try_cases in E as (x & [s2 w3] & Eu & E). apply at_world_inv in Eu as [-> Eu].
    pose proof (new_ca_ok _ _ _ _ Hnew) as Hca.
    destruct (update_run (with_ca b c) w2 x w3 (proj1 Hca) Eu) as ((_ & Hf3 & Hc3) & Hpu).
    assert (E' : (r ← try_ (generateTLSCert (certPath (with_ca b c)) realCertOps (dnsNames (with_ca b c)) (ca (with_ca b c)));
                  match r with inl _ => panic nil_bundle | inr t => mret (with_tls t (with_ca b c)) end) (s1, w3) = (r, (s', w'))).
    { destruct x as [u|e|p]; [exact E|exact E|by destruct (Hpu p)]. }
    clear E. apply try_cases in E' as (x2 & [s4 w4] & Et & E).
    destruct (safe_elim _ _ _ _ _ _ (generateTLSCert_safe _ _ _ _) Et) as ([Hn2 Htt] & Hp2 & Hbt). cbn [fst snd] in *.
    destruct x2 as [b'|e|p]; [|injection E as <- <- <-; split; [by trans s1|done]|by destruct (Hp2 p)].
    injection E as <- <- <-. destruct (Hbt b' eq_refl) as [Hnewt Hsvt]. pose proof (new_tls_ok _ _ _ _ _ _ Hnewt) as Htls.
    split; [by trans s1|]. split; [|split; [by exists b, b'|]].
    + split; [exact Hca|exact Htls| |exact Hsvt]. cbn. eapply saved_other; [by left|exact Htt|].
      by apply (saved_same_files w2).
    + destruct Hnew as (_ & _ & _ & _ & _ & _ & Hval). destruct Hnewt as (_ & _ & _ & _ & _ & _ & _ & _ & Hvalt). cbn.
      destruct Hq as [Hc1 _]. destruct Htc as [Hc2 _]. destruct Htt as [Hc4 _]. split.
      * pose proof (valid_for_long _ _ _ _ Hval). unfold caCertRotation, caCertValidity, Hour in *. lia.
      * split; [lia|]. right. exists w1. split; [lia|]. destruct Hval as (t1 & Hb1 & E1), Hvalt as (t2 & Hb2 & E2).
        split; [exists t1|exists t2]; (split; [lia|done]).
Qed.

(** The parts of a manager that never change *)
Definition same_manager (c c' : certManager W) : Prop :=
  certPath c' = certPath c /\ dnsNames c' = dnsNames c /\ webhookName c' = webhookName c.

Lemma run_tick_ok t c s w c' s' w' :
  manager_ok w c -> run_tick t c (s, w) = (Ret c', (s', w')) -> manager_ok w' c' /\ names_kept s s' /\ same_manager c c'.
Proof.
  intros Hok E. destruct t; cbn [run_tick] in E.
  - apply M_bind_inv in E as ([] & [s1 w1] & Es & E). injection E as <- <- <-. apply at_world_inv in Es as [-> Es].
    destruct (sync_tick_loop c w) as (ws & El & _). rewrite El in Es. destruct (sync_webhooks_spec c ws w _ w1 (proj1 (ok_ca _ _ Hok)) Es) as (_ & (_ & Hf & _) & _).
    split; [by apply (manager_same_files w)|]. split; [reflexivity|by split].
  - destruct (rotateTLSCert_spec _ _ _ _ _ _ Hok E) as (Hn & _ & Hok' & (b & ->) & _). split; [done|]. split; [done|by split].
  - destruct (rotateCACert_spec _ _ _ _ _ _ Hok E) as (Hn & Hok' & (b & b' & ->) & _). split; [done|]. split; [done|by split].
Qed.

(** C26. The invariant of the manager holds after any number of ticks in any
    order: the CA has its own key and signs the TLS certificate, which has
    its own key and the names of the webhook, and the disk holds both pairs;
    the common names of the process stay. *)
Theorem ticks_keep_manager ts c s w c' s' w' :
  manager_ok w c -> run_ticks ts c (s, w) = (Ret c', (s', w')) ->
  manager_ok w' c' /\ names_kept s s' /\ same_manager c c'.
Proof.
  revert c s w. induction ts as [|t ts IH]; intros c s w Hok E; cbn [run_ticks] in E.
  - injection E as <- <- <-. split; [done|]. split; [reflexivity|by split].
  - apply M_bind_inv in E as (c1 & [s1 w1] & Et & E). destruct (run_tick_ok _ _ _ _ _ _ _ Hok Et) as (Hok1 & Hn1 & (P1 & P2 & P3)).
    destruct (IH c1 s1 w1 Hok1 E) as (Hok2 & Hn2 & (Q1 & Q2 & Q3)). split; [done|]. split; [by trans s1|].
    split; [congruence|]. split; congruence.
Qed.

(** *** Expiry *)

(** What happens to a running manager, with the times at which its last TLS
    tick and its last CA tick began: ticks that return, and time passing. *)
Inductive lives : certManager W -> W -> Z -> Z -> Prop :=
| lives_start c w T C :
    manager_ok w c -> (T <= clock w)%Z -> (T + tlsCertRotation < NotAfter (cert (tls c)))%Z ->
    (C + caCertRotation < NotAfter (cert (ca c)))%Z -> lives c w T C
| lives_wait c w w' T C : lives c w T C -> quiet w w' -> lives c w' T C
| lives_sync c w T C s c' s' w' :
    lives c w T C -> run_tick SyncTick c (s, w) = (Ret c', (s', w')) -> lives c' w' T C
| lives_tls c w T C s c' s' w' :
    lives c w T C -> run_tick TLSTick c (s, w) = (Ret c', (s', w')) -> lives c' w' (clock w) C
| lives_ca c w T C s c' s' w' :
    lives c w T C -> run_tick CATick c (s, w) = (Ret c', (s', w')) -> lives c' w' T (clock w).

Lemma lives_bounds c w T C :
  lives c w T C ->
  manager_ok w c /\ (T <= clock w)%Z /\ (T + tlsCertRotation < NotAfter (cert (tls c)))%Z /\
  (C + caCertRotation < NotAfter (cert (ca c)))%Z.
Proof.
  induction 1 as [c w T C Hok HT Ht Hc|c w w' T C _ (Hok & HT & Ht & Hc) (Hq & Hf & _)
    |c w T C s c' s' w' _ (Hok & HT & Ht & Hc) E|c w T C s c' s' w' _ (Hok & HT & Ht & Hc) E|c w T C s c' s' w' _ (Hok & HT & Ht & Hc) E].
  - done.
  - split; [by apply (manager_same_files w)|]. split; [lia|done].
  - destruct (run_tick_ok _ _ _ _ _ _ _ Hok E) as (Hok' & _). cbn [run_tick] in E.
    apply M_bind_inv in E as ([] & [s1 w1] & Es & E). injection E as <- <- <-. apply at_world_inv in Es as [-> Es].
    destruct (sync_tick_loop c w) as (ws & El & _). rewrite El in Es.
    destruct (sync_webhooks_spec c ws w _ w1 (proj1 (ok_ca _ _ Hok)) Es) as (_ & (_ & _ & Hclk) & _).
    split; [done|]. split; [lia|done].
  - destruct (rotateTLSCert_spec _ _ _ _ _ _ Hok E) as (_ & [Hclk _] & Hok' & (b & ->) & Hv). done.
  - destruct (rotateCACert_spec _ _ _ _ _ _ Hok E) as (_ & Hok' & _ & Hv & Hclk & Hcase). split; [done|]. split; [lia|]. split; [|done].
    destruct Hcase as [->|(w1 & Hw1 & _ & Hval)]; [done|]. pose proof (valid_for_long _ _ _ _ Hval).
    unfold tlsCertRotation, tlsCertValidity, Hour in *. lia.
Qed.

(** C31. As long as the ticks return and come in time, the certificates in use
    never expire: within an hour of the beginning of the last TLS tick the TLS
    certificate is valid, within ten hours of the last CA tick the CA is, and
    the files hold both. *)
Theorem certificates_never_expire c w T C :
  lives c w T C ->
  manager_ok w c /\ ((clock w <= T + tlsCertRotation)%Z -> (clock w < NotAfter (cert (tls c)))%Z) /\
  ((clock w <= C + caCertRotation)%Z -> (clock w < NotAfter (cert (ca c)))%Z).
Proof. intros Hl. destruct (lives_bounds _ _ _ _ Hl) as (Hok & _ & Ht & Hc). split; [done|]. lia. Qed.

(** ** [New] and [Start] *)

Lemma load_missing path t w :
  filepath.plain (t +:+ ".crt") = true -> file w (crt_file path t) = None -> exists e, load_pair path t w = (Err e, w).
Proof.
  intros Ht Hf. unfold load_pair. rewrite (filepath.Join2_Clean_plain path (t +:+ ".crt") Ht). fold (crt_file path t).
  pose proof (read_pure (crt_file path t) w) as Hp. pose proof (read_sound (crt_file path t) w) as Hs.
  pose proof (read_no_panic (crt_file path t) w) as Hn.
  destruct (os_ReadFile (crt_file path t) w) as [r w1] eqn:E. cbn in Hp, Hs, Hn. subst w1.
  rewrite (M_bind_case _ _ _ _ _ E). destruct r as [d|e|p]; [|by exists e|by destruct (Hn p)].
  specialize (Hs d eq_refl). congruence.
Qed.

Lemma setup_files name current w r w' :
  parsed current -> setupWebhooksCABundles name current w = (r, w') -> forall p, file w' p = file w p.
Proof.
  intros Hc E p. unfold setupWebhooksCABundles in E.
  destruct (wrap "error creating k8s client" (lift kubernetes_NewForConfig) w) as [x w1] eqn:Ew.
  assert (w1 = w) as -> by (unfold wrap, lift in Ew; destruct kubernetes_NewForConfig; by injection Ew as _ <-).
  rewrite (M_bind_case _ _ _ _ _ Ew) in E. destruct x as [u|e|q]; [|by injection E as _ <-..].
  apply retry_spec in E. clear Ew.
  assert (Hone : forall w r w1, (mutatingWebhook ← wrap "error getting webhook" (clientset_Get name);
             ws ← each_webhook name (updateCABundles current) (Webhooks mutatingWebhook);
             clientset_Update (set_webhooks ws mutatingWebhook)) w = (r, w1) -> file w1 p = file w p).
  { clear E. intros w0 r0 w1 E. pose proof (clientset_get_pure name w0) as Hp.
    destruct (clientset_Get name w0) as [g w2] eqn:Eg. cbn in Hp. subst w2.
    assert (Egw : exists g', wrap "error getting webhook" (clientset_Get name) w0 = (g', w0)) by (unfold wrap; rewrite Eg; destruct g; by eexists).
    destruct Egw as [g' Egw]. rewrite (M_bind_case _ _ _ _ _ Egw) in E. destruct g' as [o|e|q]; [|by injection E as _ <-..].
    destruct (each_webhook_spec name _ _ _ (Webhooks o) w0 (update_function current Hc)) as (ws & w3 & Ee & (_ & Hf & _) & _).
    rewrite (M_bind_ret _ _ _ _ _ Ee) in E. pose proof (clientset_update_file (set_webhooks ws o) w3 p) as Hu. rewrite E in Hu.
    cbn in Hu. by rewrite Hu. }
  induction E as [w r w' E|w e w1 r w' E _ _ IH]; [by eapply Hone|]. rewrite IH. by eapply Hone.
Qed.

(** C32. Starting on a disk without certificates: when [New] works, the
    manager satisfies its invariant and carries the names it was given. *)
Theorem New_establishes path name namespace s w c s' w' :
  file w (crt_file path certCAType) = None -> file w (crt_file path certTLSType) = None ->
  New path name namespace (s, w) = (Ret c, (s', w')) ->
  manager_ok w' c /\ certPath c = path /\ webhookName c = name /\ dnsNames c = dns_names name namespace.
Proof.
  intros Hca Htls E. unfold New in E. apply try_cases in E as (x & [s1 w1] & El & E).
  apply at_world_inv in El as [-> El]. destruct (load_missing path certCAType w eq_refl Hca) as [e Em].
  unfold loadCAFromDisk in El. rewrite Em in El. injection El as <- <-.
  apply M_bind_inv in E as (b & [s2 w2] & Eg & E). apply M_bind_inv in Eg as (b0 & [s3 w3] & Eg & Es).
  apply M_bind_inv in Es as ([] & [s4 w4] & Es & Er). injection Er as <- <- <-. apply at_world_inv in Es as [-> Es].
  destruct (generateCACert_spec _ _ _ _ _ _ Eg) as (_ & _ & Htc & Hb). destruct (Hb b0 eq_refl) as [Hnew Hsv].
  pose proof (new_ca_ok _ _ _ _ Hnew) as Hok. pose proof (setup_files name (cert b0) w3 _ w4 (proj1 Hok) Es) as Hfs.
  apply try_cases in E as (x & [s5 w5] & El & E). apply at_world_inv in El as [-> El].
  destruct (pairs_disjoint path certTLSType certCAType (or_intror (conj eq_refl eq_refl))) as [Hd _].
  assert (Hmiss : file w4 (crt_file path certTLSType) = None) by (rewrite Hfs; destruct Htc as (_ & Hf & _); by rewrite Hf).
  destruct (load_missing path certTLSType w4 eq_refl Hmiss) as [e2 Em2]. unfold loadTLSFromDisk in El. rewrite Em2 in El. injection El as <- <-.
  apply M_bind_inv in E as (b' & [s6 w6] & Et & E). injection E as <- <- <-.
  destruct (safe_elim _ _ _ _ _ _ (generateTLSCert_safe _ _ _ _) Et) as ([_ Htt] & _ & Hbt). cbn [fst snd] in *. destruct (Hbt b' eq_refl) as [Hnewt Hsvt].
  split; [|done]. split; [exact Hok|by eapply new_tls_ok| |exact Hsvt]. cbn. eapply saved_other; [by left|exact Htt|].
  by apply (saved_same_files w3).
Qed.

(** Restarting on the disk of a manager that satisfies its invariant,
    when its files can be read, gives back the same two bundles and writes
    nothing, to the disk or to the API server. *)
Theorem New_restart name namespace s w c :
  manager_ok w c -> readable w (certPath c) certCAType -> readable w (certPath c) certTLSType ->
  New (certPath c) name namespace (s, w) =
  (Ret (mkCertManager (certPath c) (dns_names name namespace) name (ca c) (tls c)), (s, w)).
Proof.
  intros [Hca Htls Hs1 Hs2] Hr1 Hr2. unfold New.
  pose proof (load_saved (certPath c) certCAType (ca c) w eq_refl eq_refl (proj1 Hca) Hs1 Hr1) as E1.
  pose proof (load_saved (certPath c) certTLSType (tls c) w eq_refl eq_refl (proj1 Htls) Hs2 Hr2) as E2.
  unfold loadCAFromDisk, loadTLSFromDisk.
  unfold mbind at 1, M_bind at 1, try_ at 1, at_world at 1. cbn [snd fst]. rewrite E1.
  rewrite (M_bind_ret _ (mret (ca c)) (s, w) (ca c) (s, w) eq_refl).
  unfold mbind at 1, M_bind at 1, try_ at 1, at_world at 1. cbn [snd fst]. rewrite E2. done.
Qed.

End Rotation.

(** ** Witnesses *)

#[local] Existing Instances Ref.vendor Ref.vendor_laws Ref.client Ref.client_reads Ref.client_writes Ref.client_entropy
  RefHost.crypto RefHost.crypto_view RefHost.crypto_laws RefHost.host_ops RefHost.host_view RefHost.host_laws
  RefHost.clientset RefHost.clientset_laws.

Module RotationExamples.
Import CertExamples WebhookExamples GenerateExamples.

(** A server certificate for key 4, signed with key [signer], that expires at
    the second [na] *)
Definition server (na signer : Z) : bundle Ref.cluster :=
  let c := mkCertificate EmptyString 11 "oidc-apps-controller-webhook-abcde" ["oidc-apps.io"] [name] 0 (na * 1000000000) 5 [1%Z] false false in
  mkBundle (RefHost.with_raw (RefHost.der c 4 signer) c) (RSA 4%Z).

Definition running : certManager Ref.cluster := mkCertManager "./certs" [name] name current_bundle (server 3000 1).

(** The disk of [running], a configuration with two empty bundles, second 1000 *)
Definition saved_both (tls : bundle Ref.cluster) (w : Ref.cluster) : Ref.cluster :=
  snd (writeBundle "./certs" tls (snd (writeBundle "./certs" current_bundle w))).

Definition cluster0 : Ref.cluster := with_webhooks [(pods, EmptyString); (vpas, EmptyString)].
Definition disk : Ref.cluster := saved_both (server 3000 1) cluster0.

Lemma running_ok : manager_ok disk running.
Proof.
  split.
  - split; [by vm_compute|]. split; [by exists 1%Z|]. split; [exists 1%Z; by vm_compute|by vm_compute].
  - split; [by vm_compute|]. split; [exists 4%Z; by vm_compute|]. split; [exists 1%Z; by vm_compute|by vm_compute].
  - exists 1%Z, "key 1". by repeat (split; [vm_compute; reflexivity|]).
  - exists 4%Z, "key 4". by repeat (split; [vm_compute; reflexivity|]).
Qed.

Definition tls_tick := rotateTLSCert running (no_names, disk).
Definition ca_tick := rotateCACert running (no_names, disk).
Definition three_ticks := run_ticks [SyncTick; CATick; TLSTick] running (no_names, disk).
Definition first_start := New "./certs" name "oidc-system" (no_names, cluster0).

End RotationExamples.

Import CertExamples WebhookExamples GenerateExamples RotationExamples.

Lemma rotateTLSCert_spec_witness :
  exists c', fst tls_tick = Ret c' /\ manager_ok (snd (snd tls_tick)) c' /\
    (Ref.clock (Ref.host disk) + tlsCertRotation < NotAfter (cert (tls c')))%Z.
Proof.
  destruct (ret_of (fst tls_tick) ltac:(vm_compute; exact I)) as [c' E]. exists c'. split; [exact E|].
  pose proof (rotateTLSCert_spec running no_names disk (fst tls_tick) (fst (snd tls_tick)) (snd (snd tls_tick)) running_ok (split3 tls_tick)) as Ht.
  rewrite E in Ht. destruct Ht as (_ & _ & Hok & _ & Hv). split; [exact Hok|exact Hv].
Defined.

Lemma rotateCACert_spec_witness :
  exists c', fst ca_tick = Ret c' /\ manager_ok (snd (snd ca_tick)) c' /\
    (Ref.clock (Ref.host disk) + caCertRotation < NotAfter (cert (ca c')))%Z.
Proof.
  destruct (ret_of (fst ca_tick) ltac:(vm_compute; exact I)) as [c' E]. exists c'. split; [exact E|].
  pose proof (rotateCACert_spec running no_names disk (fst ca_tick) (fst (snd ca_tick)) (snd (snd ca_tick)) running_ok (split3 ca_tick)) as Ht.
  rewrite E in Ht. destruct Ht as (_ & Hok & _ & Hv & _). split; [exact Hok|exact Hv].
Defined.

(** After a TLS tick at second 1000 *)
Lemma certificates_never_expire_witness :
  exists c', fst tls_tick = Ret c' /\ (clock (snd (snd tls_tick)) < NotAfter (cert (tls c')))%Z.
Proof.
  assert (H0 : lives running disk (-3000000000000)%Z (-90000000000000)%Z).
  { apply lives_start; [exact running_ok|vm_compute; discriminate|vm_compute; reflexivity|vm_compute; reflexivity]. }
  destruct (ret_of (fst tls_tick) ltac:(vm_compute; exact I)) as [c' E]. exists c'. split; [exact E|].
  assert (Ht : run_tick TLSTick running (no_names, disk) = (Ret c', (fst (snd tls_tick), snd (snd tls_tick)))).
  { rewrite <- E. exact (split3 tls_tick). }
  apply (certificates_never_expire _ _ _ _ (lives_tls _ _ _ _ _ _ _ _ H0 Ht)).
  assert (Hc : Z.leb (clock (snd (snd tls_tick))) (clock disk + tlsCertRotation) = true) by (vm_compute; reflexivity).
  exact (proj1 (Z.leb_le _ _) Hc).
Defined.

Lemma ticks_keep_manager_witness :
  exists c', fst three_ticks = Ret c' /\ manager_ok (snd (snd three_ticks)) c'.
Proof.
  destruct (ret_of (fst three_ticks) ltac:(vm_compute; exact I)) as [c' E]. exists c'. split; [exact E|].
  eapply (ticks_keep_manager [SyncTick; CATick; TLSTick] running no_names disk c' (fst (snd three_ticks))); [exact running_ok|].
  rewrite <- E. exact (split3 three_ticks).
Defined.

Lemma New_establishes_witness :
  exists c, fst first_start = Ret c /\ manager_ok (snd (snd first_start)) c.
Proof.
  destruct (ret_of (fst first_start) ltac:(vm_compute; exact I)) as [c E]. exists c. split; [exact E|].
  eapply (New_establishes "./certs" name "oidc-system" no_names cluster0 c (fst (snd first_start)));
    [vm_compute; reflexivity..|]. rewrite <- E. exact (split3 first_start).
Defined.

Lemma New_restart_witness :
  New "./certs" name EmptyString (no_names, disk) = (Ret running, (no_names, disk)).
Proof.
  eapply (New_restart name EmptyString no_names disk running); [exact running_ok|..];
    intros p d _ Hf; cbn in Hf |- *; unfold RefHost.read_file; cbn; by rewrite Hf.
Defined.

Module FailureExamples.

Definition write_file (p d : string) (w : Ref.cluster) : Ref.cluster :=
  let x := Ref.host w in Ref.with_host (Ref.mkMachine (<[p := d]> (Ref.files x)) (Ref.disk_full x) (Ref.clock x) (Ref.next_key x)) w.

Definition full (w : Ref.cluster) : Ref.cluster :=
  let x := Ref.host w in Ref.with_host (Ref.mkMachine (Ref.files x) true (Ref.clock x) (Ref.next_key x)) w.

(** The key a manager's CA has, and whether it verifies the TLS certificate *)
Definition chain (r : outcome (certManager Ref.cluster)) : option bool :=
  match r with
  | Ret c => match key (ca c) with RSA k => Some (RefHost.signed_by (cert (tls c)) k) | OtherKey => None end
  | _ => None
  end.

Definition start (w : Ref.cluster) : outcome (certManager Ref.cluster) := fst (New "./certs" name "oidc-system" (no_names, w)).

(** How a run failed *)
Definition failure {A} (r : outcome A) : option (error + string) :=
  match r with Ret _ => None | Err e => Some (inl e) | Panic p => Some (inr p) end.

(** A disk with a TLS pair of the CA with key 77 and no CA; with an expired CA; with the
    key of another CA (a save interrupted between its two writes); with a key
    that is not an RSA key *)
Definition tls_only : Ref.cluster := snd (writeBundle "./certs" (server 90000 77) (with_webhooks [(pods, EmptyString)])).
Definition expired_ca : Ref.cluster := snd (writeBundle "./certs" (mkBundle expired (RSA 3%Z)) (with_webhooks [(pods, EmptyString)])).
Definition mixed_pair : Ref.cluster := write_file "certs/ca.key" (pem.EncodeToMemory "RSA PRIVATE KEY" "key 9") expired_ca.
Definition ec_key : Ref.cluster := write_file "certs/ca.key" (pem.EncodeToMemory "PRIVATE KEY" "ec 9") expired_ca.

End FailureExamples.

Import FailureExamples.

(** [New] trusts the files it can parse.  A TLS pair without its CA is
    kept under a CA generated now, which did not sign it; an expired CA is
    kept; a CA certificate with the key of another CA makes every start fail,
    since no TLS certificate can be made with it; a key that is not RSA
    panics. *)
Theorem New_trusts_the_disk :
  chain (start tls_only) = Some false /\
  match start expired_ca with
  | Ret c => Z.ltb (NotAfter (cert (ca c))) (Ref.clock (Ref.host expired_ca)) = true
  | _ => False
  end /\
  failure (start mixed_pair) = Some (inl (Errorf "error generating the TLS bundle" (ErrorString "x509: provided PrivateKey doesn't match parent's PublicKey"))) /\
  failure (start ec_key) = Some (inr "interface conversion: crypto.PrivateKey is not *rsa.PrivateKey").
Proof.
  by vm_compute.
Qed.

(** On a full disk a tick that has to rotate does not keep the old
    certificate: the error is logged and the missing bundle dereferenced,
    which ends the process; the CA tick leaves the webhooks as they are. *)
Theorem rotation_failure_panics :
  failure (fst (rotateTLSCert running (no_names, full disk))) = Some (inr nil_bundle) /\
  failure (fst (rotateCACert running (no_names, full disk))) = Some (inr nil_bundle) /\
  stored_webhook (snd (snd (rotateCACert running (no_names, full disk)))) name = stored_webhook disk name.
Proof. by vm_compute. Qed.
