(* ===== verification/CertRaces.v ===== *)
(** * The two rotation loops at the same time

    [rotateTLSCert] and [rotateCACert] run in two goroutines without a lock
    and share the bundles [c.ca], [c.tls] and the certificate files.  Their
    accesses to what they share, one instruction each, in the order of the
    source; a schedule picks whose instruction runs next.  A key is a number;
    a certificate is the key it is for and the key that signed it. *)

From S2P Require Import Prelude.

Record certificate := mkCert { for_key : nat; signer : nat }.

#[export] Instance certificate_eq_dec : EqDecision certificate.
Proof. solve_decision. Defined.

(** [c.ca], [c.tls], the four files, and the next key to be generated *)
Record shared := mkShared {
  ca_key : nat; ca_cert : certificate;
  tls_key : nat; tls_cert : certificate;
  ca_key_file : nat; ca_crt_file : certificate;
  tls_key_file : nat; tls_crt_file : certificate;
  next : nat }.

Inductive instruction :=
| GenerateKey | ReadParentCert | ReadParentKey | CreateCertificate | SelfSign
| WriteCACrt | WriteCAKey | WriteTLSCrt | WriteTLSKey
| SetCAKey | SetCACert | SetTLSKey | SetTLSCert.

(** [generateCACert] and the two assignments *)
Definition rotate_ca : list instruction := [GenerateKey; SelfSign; WriteCACrt; WriteCAKey; SetCAKey; SetCACert].

(** [generateTLSCert] and the two assignments *)
Definition rotate_tls : list instruction :=
  [GenerateKey; ReadParentCert; ReadParentKey; CreateCertificate; WriteTLSCrt; WriteTLSKey; SetTLSKey; SetTLSCert].

(** A goroutine: what is left of its tick, and its local variables. *)
Record goroutine := mkGoroutine {
  program : list instruction;
  key : nat; cert : certificate;
  parent_cert : certificate; parent_key : nat }.

Definition no_cert : certificate := mkCert 0 0.
Definition tls_goroutine : goroutine := mkGoroutine rotate_tls 0 no_cert no_cert 0.
Definition ca_goroutine : goroutine := mkGoroutine (rotate_ca ++ rotate_tls) 0 no_cert no_cert 0.

(** One instruction; [None] is the nil dereference after
    [x509.CreateCertificate] refused a key that is not the parent's. *)
Definition execute (i : instruction) (rest : list instruction) (g : goroutine) (s : shared) : option (goroutine * shared) :=
  let 'mkGoroutine _ k c pc pk := g in
  let 'mkShared cak cac tk tc cakf cacf tkf tcf n := s in
  match i with
  | GenerateKey => Some (mkGoroutine rest n c pc pk, mkShared cak cac tk tc cakf cacf tkf tcf (S n))
  | ReadParentCert => Some (mkGoroutine rest k c cac pk, s)
  | ReadParentKey => Some (mkGoroutine rest k c pc cak, s)
  | CreateCertificate => if Nat.eqb (for_key pc) pk then Some (mkGoroutine rest k (mkCert k pk) pc pk, s) else None
  | SelfSign => Some (mkGoroutine rest k (mkCert k k) pc pk, s)
  | WriteCACrt => Some (mkGoroutine rest k c pc pk, mkShared cak cac tk tc cakf c tkf tcf n)
  | WriteCAKey => Some (mkGoroutine rest k c pc pk, mkShared cak cac tk tc k cacf tkf tcf n)
  | WriteTLSCrt => Some (mkGoroutine rest k c pc pk, mkShared cak cac tk tc cakf cacf tkf c n)
  | WriteTLSKey => Some (mkGoroutine rest k c pc pk, mkShared cak cac tk tc cakf cacf k tcf n)
  | SetCAKey => Some (mkGoroutine rest k c pc pk, mkShared k cac tk tc cakf cacf tkf tcf n)
  | SetCACert => Some (mkGoroutine rest k c pc pk, mkShared cak c tk tc cakf cacf tkf tcf n)
  | SetTLSKey => Some (mkGoroutine rest k c pc pk, mkShared cak cac k tc cakf cacf tkf tcf n)
  | SetTLSCert => Some (mkGoroutine rest k c pc pk, mkShared cak cac tk c cakf cacf tkf tcf n)
  end.

Definition advance (g : goroutine) (s : shared) : option (goroutine * shared) :=
  match program g with [] => Some (g, s) | i :: rest => execute i rest g s end.

(** [true]: the goroutine of [rotateTLSCert] runs next; [None]: the process died. *)
Fixpoint interleave (schedule : list bool) (t c : goroutine) (s : shared) : option (goroutine * goroutine * shared) :=
  match schedule with
  | [] => Some (t, c, s)
  | true :: schedule' => '(t', s') ← advance t s; interleave schedule' t' c s'
  | false :: schedule' => '(c', s') ← advance c s; interleave schedule' t c' s'
  end.

(** ** What should hold after the ticks *)

(** In memory and on the disk, both certificates have their own key and the
    CA signed the TLS certificate. *)
Definition consistent (s : shared) : bool :=
  Nat.eqb (for_key (ca_cert s)) (ca_key s) && Nat.eqb (for_key (ca_crt_file s)) (ca_key_file s) &&
  Nat.eqb (for_key (tls_cert s)) (tls_key s) && Nat.eqb (for_key (tls_crt_file s)) (tls_key_file s) &&
  Nat.eqb (signer (tls_cert s)) (ca_key s) && Nat.eqb (signer (tls_crt_file s)) (ca_key_file s) &&
  Nat.eqb (ca_key s) (ca_key_file s).

Definition finished (r : option (goroutine * goroutine * shared)) : option shared :=
  match r with
  | Some (t, c, s) => match program t, program c with [], [] => Some s | _, _ => None end
  | None => None
  end.

(** Ticks one after the other, in either order *)
Definition tls_first : list bool := repeat true 8 ++ repeat false 14.
Definition ca_first : list bool := repeat false 14 ++ repeat true 8.

(** C39. Rotations that do not overlap keep the certificates consistent from
    any consistent start, in either order.  Overlapping ones need not: a
    schedule in which both ticks finish leaves [tls.crt] and [tls.key] from
    different rotations on the disk, one leaves a TLS certificate that the CA
    did not sign, and one reads the CA between its two assignments, for which
    no certificate can be made, and kills the process. *)
Theorem rotations_race s :
  (consistent s = true -> forall schedule, schedule = tls_first \/ schedule = ca_first ->
     exists s', finished (interleave schedule tls_goroutine ca_goroutine s) = Some s' /\ consistent s' = true) /\
  (let s0 := mkShared 1 (mkCert 1 1) 2 (mkCert 2 1) 1 (mkCert 1 1) 2 (mkCert 2 1) 3 in
   consistent s0 = true /\
   (exists schedule s', finished (interleave schedule tls_goroutine ca_goroutine s0) = Some s' /\
      for_key (tls_crt_file s') <> tls_key_file s') /\
   (exists schedule s', finished (interleave schedule tls_goroutine ca_goroutine s0) = Some s' /\
      for_key (tls_crt_file s') = tls_key_file s' /\ signer (tls_crt_file s') <> ca_key s') /\
   (exists schedule, interleave schedule tls_goroutine ca_goroutine s0 = None)).
Proof.
  split.
  - destruct s as [cak [cac1 cac2] tk [tc1 tc2] cakf [cacf1 cacf2] tkf [tcf1 tcf2] n]. unfold consistent. cbn. intros Hs.
    repeat (apply andb_prop in Hs as [Hs ?]). repeat match goal with H : Nat.eqb _ _ = true |- _ => apply Nat.eqb_eq in H end. subst.
    intros schedule [->| ->]; repeat (cbn; rewrite ?Nat.eqb_refl); eexists; (split; [reflexivity|]); cbn; by rewrite !Nat.eqb_refl.
  - split; [done|]. split; [|split].
    + exists (repeat true 5 ++ repeat false 14 ++ repeat true 3). eexists. by split.
    + exists (repeat true 4 ++ repeat false 14 ++ repeat true 4). eexists. by split.
    + exists (repeat false 5 ++ repeat true 4). done.
Qed.

(** The theorem at a concrete state, for the order in which the TLS tick runs first *)
Lemma rotations_race_witness :
  exists s', finished (interleave tls_first tls_goroutine ca_goroutine (mkShared 1 (mkCert 1 1) 2 (mkCert 2 1) 1 (mkCert 1 1) 2 (mkCert 2 1) 3)) = Some s' /\
    consistent s' = true.
Proof.
  exact (proj1 (rotations_race (mkShared 1 (mkCert 1 1) 2 (mkCert 2 1) 1 (mkCert 1 1) 2 (mkCert 2 1) 3)) eq_refl tls_first (or_introl eq_refl)).
Defined.
