(* ===== verification/Runtime.v ===== *)
(** * controller-runtime: the interface of the command

    What pkg/oidc-apps and pkg/healthz use of controller-runtime and
    apimachinery, as data (events, predicates, watches, controllers, the
    options of a manager) and as the class [Runtime] of the calls.
    [RuntimeLaws] states their documented behaviour: what the predicates let
    through, which requests an owner handler makes, and that a controller
    enqueues what the handlers of its sources return for the events that pass
    its filters. *)

From S2P Require Import Prelude GoStrings Kube Constants Vendor Configuration Controllers Gateway PodWebhook VpaWebhook Crypto CertManager.

(** ** Events and predicates *)

(** An object in an update event, with the two numbers the API server keeps. *)
Record Versioned := mkVersioned { object : Object; Generation : Z; ResourceVersion : string }.

Inductive event :=
| CreateEvent (o : Object)
| UpdateEvent (old new : Versioned)
| DeleteEvent (o : Object)
| GenericEvent (o : Object).

(** The objects of an event, the newest one last *)
Definition event_objects (e : event) : list Object :=
  match e with
  | CreateEvent o | DeleteEvent o | GenericEvent o => [o]
  | UpdateEvent old new => [object old; object new]
  end.

(** [predicate.Funcs], and the interface [predicate.Predicate] *)
Record Predicate (W : Type) := mkPredicate {
  CreateFunc : Object -> M W bool;
  DeleteFunc : Object -> M W bool;
  UpdateFunc : Versioned -> Versioned -> M W bool;
  GenericFunc : Object -> M W bool }.

Arguments mkPredicate {W}.
Arguments CreateFunc {W}.
Arguments DeleteFunc {W}.
Arguments UpdateFunc {W}.
Arguments GenericFunc {W}.

Definition passes {W} (p : Predicate W) (e : event) : M W bool :=
  match e with
  | CreateEvent o => CreateFunc p o
  | DeleteEvent o => DeleteFunc p o
  | UpdateEvent old new => UpdateFunc p old new
  | GenericEvent o => GenericFunc p o
  end.

(** ** Controllers, webhooks, runnables *)

Definition Handler (W : Type) : Type := Object -> M W (list NamespacedName).

(** A source of events: a kind, what its events enqueue, its predicates *)
Record Watch (W : Type) := mkWatch {
  Watch_Kind : Kind;
  Watch_Handler : Handler W;
  Watch_Predicates : list (Predicate W) }.

Arguments mkWatch {W}.
Arguments Watch_Kind {W}.
Arguments Watch_Handler {W}.
Arguments Watch_Predicates {W}.

Inductive Reconciler :=
| Deployments (r : WorkloadReconciler)
| StatefulSets (r : WorkloadReconciler)
| ImagePullSecrets (r : ImagePullSecretReconciler)
| Gateways (r : GatewayReconciler).

(** What [ControllerManagedBy(mgr)] has collected when [Complete] is called.
    [RawSource]: requests added once, when the controller starts. *)
Record Controller (W : Type) := mkController {
  Named : string;
  For : Kind;
  For_Predicates : list (Predicate W);
  EventFilter : list (Predicate W);
  Watches : list (Watch W);
  RawSource : list NamespacedName;
  Complete : Reconciler }.

Arguments mkController {W}.
Arguments Named {W}.
Arguments For {W}.
Arguments For_Predicates {W}.
Arguments EventFilter {W}.
Arguments Watches {W}.
Arguments RawSource {W}.
Arguments Complete {W}.

(** [EnqueueRequestForObject], the handler of [For] *)
Definition own_key {W} : Handler W := fun o => mret [key_of (obj_meta o)].

Definition sources {W} (c : Controller W) : list (Watch W) :=
  mkWatch (For c) own_key (For_Predicates c) :: Watches c.

Inductive Defaulter :=
| Pods (d : PodMutator)
| Autoscalers (d : VPAMutator).

Record WebhookServer := mkWebhookServer {
  Server_Port : Z;
  CertDir : string;
  Registered : list (string * Defaulter) }.

(** [rest.Config]: the two fields the program sets *)
Record RestConfig := mkRestConfig { QPS : Z; Burst : Z }.

(** [manager.Options] with the table [Cache.ByObject]; durations in seconds *)
Record ManagerOptions := mkManagerOptions {
  ByObject : list (Kind * (GoMap string -> bool));
  LeaderElection : bool;
  LeaderElectionID : string;
  LeaderElectionNamespace : string;
  LeaseDuration : Z;
  RenewDeadline : Z;
  RetryPeriod : Z;
  LeaderElectionReleaseOnCancel : bool;
  HealthProbeBindAddress : string;
  MetricsBindAddress : string }.

(** The calls that hand something to the manager *)
Inductive registration (W : Type) `{Client W, Crypto W} :=
| IndexField (k : Kind) (field : string) (extract : Object -> option (list string))
| AddController (c : Controller W)
| AddCertManager (c : certManager W)
| AddServer (s : WebhookServer)
| AddReadyzCheck (name : string) (check : M W unit)
| AddHealthzCheck (name : string) (check : M W unit).

Arguments IndexField {W _ _}.
Arguments AddController {W _ _}.
Arguments AddCertManager {W _ _}.
Arguments AddServer {W _ _}.
Arguments AddReadyzCheck {W _ _}.
Arguments AddHealthzCheck {W _ _}.

(** ** The calls *)

Class Runtime (W : Type) `{Client W, Crypto W} := {
  (** [predicate.GenerationChangedPredicate{TypedFuncs: funcs}] *)
  GenerationChangedPredicate : Predicate W -> Predicate W;
  ResourceVersionChangedPredicate : Predicate W;
  NewPredicateFuncs : (Object -> M W bool) -> Predicate W;
  (** [handler.EnqueueRequestForOwner] with an owner of a kind *)
  EnqueueRequestForOwner : Kind -> Object -> list NamespacedName;
  labels_Everything : GoMap string -> bool;
  labels_Parse : string -> error + (GoMap string -> bool);
  SelectorFromSet : gmap string string -> GoMap string -> bool;
  (** [AddToScheme] and [Install] of an API group *)
  AddToScheme : string -> outcome unit;
  (** [config.GetConfigOrDie]; it may exit the process *)
  GetConfigOrDie : M W RestConfig;
  manager_New : RestConfig -> ManagerOptions -> M W unit;
  (** [IndexField], [Complete], [Add] and the two checks *)
  accept : registration W -> M W unit;
  (** [mgr.Start] *)
  manager_Start : M W unit;
  WaitForCacheSync : M W bool;
  (** [healthz.Ping] *)
  Ping : M W unit;
  (** [yaml.Unmarshal] into a configuration *)
  yaml_Unmarshal : string -> OIDCAppsControllerConfig -> error + OIDCAppsControllerConfig;
  (** What an event puts into the queue of a controller *)
  deliver : Controller W -> event -> M W (list NamespacedName);
}.

(** All filters of a source let an event through. *)
Definition admits {W} (c : Controller W) (src : Watch W) (e : event) (w : W) : Prop :=
  Forall (fun o => obj_kind o = Watch_Kind src) (event_objects e) /\
  Forall (fun p => fst (passes p e w) = Ret true) (EventFilter c ++ Watch_Predicates src).

(** The generation predicate replaces the update function of the functions it
    is built on and keeps the others; a resource version predicate lets all
    but equal versions through; an owner handler makes a request for each
    owner of the kind; the selector of a set asks for each of its labels;
    unexported fields are not unmarshalled.  A registration changes no object
    and no file.  A controller enqueues exactly what the handlers of the
    sources that admit an event return for its objects. *)
Class RuntimeLaws (W : Type) `{ClientReads W, HostView W, Crypto W, !Runtime W} : Prop := {
  generation_keeps : forall f,
    CreateFunc (GenerationChangedPredicate f) = CreateFunc f /\ DeleteFunc (GenerationChangedPredicate f) = DeleteFunc f /\
    GenericFunc (GenerationChangedPredicate f) = GenericFunc f;
  generation_update : forall f old new (w : W),
    UpdateFunc (GenerationChangedPredicate f) old new w = (Ret (negb (Z.eqb (Generation old) (Generation new))), w);
  version_passes : forall e (w : W),
    passes ResourceVersionChangedPredicate e w =
    (Ret (match e with
          | UpdateEvent old new => negb (String.eqb (ResourceVersion old) (ResourceVersion new))
          | _ => true
          end), w);
  funcs_passes : forall f e,
    passes (NewPredicateFuncs f) e = match e with UpdateEvent _ new => f (object new) | CreateEvent o | DeleteEvent o | GenericEvent o => f o end;
  owner_requests : forall k o key, k = KDeployment \/ k = KStatefulSet ->
    In key (EnqueueRequestForOwner k o) <->
    exists r, In r (OwnerReferences (obj_meta o)) /\
      OwnerReference_Kind r = (match k with KDeployment => "Deployment" | _ => "StatefulSet" end) /\
      key = mkNN (GetNamespace o) (OwnerReference_Name r);
  everything_spec : forall m, labels_Everything m = true;
  set_selector_spec : forall s m, SelectorFromSet s m = bool_decide (forall k v, s !! k = Some v -> map_get m k = Some v);
  unmarshal_client : forall d c c', yaml_Unmarshal d c = inr c' -> client_set c' = client_set c;
  config_quiet : forall w : W, quiet w (snd (GetConfigOrDie w));
  manager_quiet : forall c o (w : W), quiet w (snd (manager_New c o w));
  accept_quiet : forall r (w : W), quiet w (snd (accept r w));
  deliver_reaches : forall c e (w : W) src o l, In src (sources c) -> admits c src e w -> In o (event_objects e) ->
    Watch_Handler src o w = (Ret l, w) ->
    exists l', fst (deliver c e w) = Ret l' /\ incl l l';
  deliver_only : forall c e (w : W) l key, fst (deliver c e w) = Ret l -> In key l ->
    exists src o keys, In src (sources c) /\ admits c src e w /\ In o (event_objects e) /\
      fst (Watch_Handler src o w) = Ret keys /\ In key keys;
}.
