(* ===== verification/ReferenceRuntime.v ===== *)
(** * Reference instance of [Runtime]

    A manager that accepts everything, predicates and handlers as documented,
    and a dispatcher that asks each source of a controller in turn.  The
    witnesses of the start-up theorems run on it. *)

From S2P Require Import Prelude GoStrings Kube Constants Vendor Reference Crypto ReferenceHost Configuration ControllersSpec Runtime.

Module RefRuntime.

Import Ref.

#[local] Existing Instances Ref.vendor Ref.client Ref.client_reads RefHost.crypto RefHost.host_ops RefHost.host_view.

(** The one configuration text that parses *)
Definition unmarshal (d : string) (c : OIDCAppsControllerConfig) : error + OIDCAppsControllerConfig :=
  if String.eqb d "grafana"
  then inr (mkConfig (Config_Global ControllerExamples.config) (Targets ControllerExamples.config) (client_set c))
  else inl (ErrorString "yaml").

Definition always (b : bool) : M cluster bool := mret b.

Definition generation_changed (f : Predicate cluster) : Predicate cluster := {|
  CreateFunc := CreateFunc f;
  DeleteFunc := DeleteFunc f;
  UpdateFunc := fun old new => always (negb (Z.eqb (Generation old) (Generation new)));
  GenericFunc := GenericFunc f |}.

Definition version_changed : Predicate cluster := {|
  CreateFunc := fun _ => always true;
  DeleteFunc := fun _ => always true;
  UpdateFunc := fun old new => always (negb (String.eqb (ResourceVersion old) (ResourceVersion new)));
  GenericFunc := fun _ => always true |}.

Definition predicate_funcs (f : Object -> M cluster bool) : Predicate cluster := {|
  CreateFunc := f; DeleteFunc := f; UpdateFunc := fun _ new => f (object new); GenericFunc := f |}.

Definition owner_keys (k : Kind) (o : Object) : list NamespacedName :=
  map (fun r => mkNN (GetNamespace o) (OwnerReference_Name r))
    (List.filter (fun r => String.eqb (OwnerReference_Kind r) (kind_name k)) (OwnerReferences (obj_meta o))).

Definition says_yes (r : outcome bool) : bool := match r with Ret b => b | _ => false end.

Definition admitted (c : Controller cluster) (src : Watch cluster) (e : event) (w : cluster) : bool :=
  forallb (fun o => bool_decide (obj_kind o = Watch_Kind src)) (event_objects e) &&
  forallb (fun p => says_yes (fst (passes p e w))) (EventFilter c ++ Watch_Predicates src).

Definition keys_of (r : outcome (list NamespacedName)) : list NamespacedName := match r with Ret l => l | _ => [] end.

Definition handled (src : Watch cluster) (e : event) (w : cluster) : list NamespacedName :=
  concat (map (fun o => keys_of (fst (Watch_Handler src o w))) (event_objects e)).

Definition dispatch (c : Controller cluster) (e : event) : M cluster (list NamespacedName) := fun w =>
  (Ret (concat (map (fun src => if admitted c src e w then handled src e w else []) (sources c))), w).

#[export] Instance runtime : Runtime cluster := {
  GenerationChangedPredicate := generation_changed;
  ResourceVersionChangedPredicate := version_changed;
  NewPredicateFuncs := predicate_funcs;
  EnqueueRequestForOwner := owner_keys;
  labels_Everything := fun _ => true;
  labels_Parse := fun s => if String.eqb s "!" then inl (ErrorString "selector") else inr (fun _ => true);
  SelectorFromSet := fun s m => labels_match (Some s) m;
  AddToScheme := fun _ => Ret tt;
  GetConfigOrDie := mret (mkRestConfig 0 0);
  manager_New := fun _ _ => mret tt;
  accept := fun _ => mret tt;
  manager_Start := mret tt;
  WaitForCacheSync := mret true;
  Ping := mret tt;
  yaml_Unmarshal := unmarshal;
  deliver := dispatch }.

Lemma admitted_spec c src e w : admitted c src e w = true <-> admits c src e w.
Proof.
  unfold admitted, admits. rewrite andb_true_iff, !forallb_forall, !Forall_forall. split; intros [Hk Hp]; split; intros x Hx.
  - apply Hk, bool_decide_eq_true in Hx. done.
  - apply Hp in Hx. unfold says_yes in Hx. destruct (fst (passes x e w)); [by rewrite Hx|done..].
  - by apply bool_decide_eq_true, Hk.
  - apply Hp in Hx. by rewrite Hx.
Qed.

#[export] Instance runtime_laws : RuntimeLaws cluster.
Proof.
  split; try done.
  - intros [] w; done.
  - intros k o key Hk. cbn. unfold owner_keys. rewrite in_map_iff. setoid_rewrite filter_In. setoid_rewrite String.eqb_eq.
    destruct Hk as [->| ->]; naive_solver.
  - intros s m. cbn. apply eq_true_iff_eq. rewrite bool_decide_eq_true, labels_match_spec. done.
  - intros d c c'. cbn. unfold unmarshal. destruct (String.eqb d "grafana"); [|done]. by intros [= <-].
  - intros c e w src o l Hs Ha Ho Hh. eexists. split; [reflexivity|]. intros key Hkey.
    apply in_concat. exists (handled src e w). split.
    + apply in_map_iff. exists src. split; [|done]. by apply admitted_spec in Ha as ->.
    + apply in_concat. exists l. split; [|done]. apply in_map_iff. exists o. by rewrite Hh.
  - intros c e w l key E Hkey. apply (f_equal keys_of) in E. change l with (keys_of (Ret l)) in Hkey. rewrite <- E in Hkey.
    change (In key (concat (map (fun src => if admitted c src e w then handled src e w else []) (sources c)))) in Hkey. apply in_concat in Hkey as (l1 & Hl & Hkey). apply in_map_iff in Hl as (src & <- & Hs). clear E.
    destruct (admitted c src e w) eqn:Ea; [|done]. apply in_concat in Hkey as (keys & Hk & Hkey).
    apply in_map_iff in Hk as (o & <- & Ho). exists src, o. destruct (fst (Watch_Handler src o w)) as [ks| |] eqn:Eh; [|done..].
    exists ks. split; [done|]. split; [by apply admitted_spec|done].
Qed.

End RefRuntime.
