(* ===== verification/Startup.v ===== *)
(** * [cmd.go], [options.go], [config.go], [healthz.go]: starting the controller

    The options with their flags, loading the configuration, and
    [RunController]: everything that is handed to the controller-runtime
    manager before it starts.  The state is the process ([process]): the
    package variables, and what the manager has been given so far. *)

From S2P Require Import Prelude GoStrings Kube Constants Vendor Filepath Configuration Controllers Gateway PodWebhook VpaWebhook.
From S2P Require Import Crypto Certificates CertManager EventRouting Runtime.

(** ** [options.go] *)

Record Options := mkOptions {
  useCertManager : bool;
  enableVpa : bool;
  webhookPort : Z;
  metricsPort : Z;
  controllerConfigPath : string;
  cacheSelectorString : string;
  webhookCertsDir : string;
  webhookName : string;
  registrySecret : string }.

(** [&Options{}] *)
Definition zeroOptions : Options := mkOptions false false 0 0 "" "" "" "" "".

(** The variable a flag is bound to, by its setter, and its default *)
Inductive flag_value :=
| StringVar (set : string -> Options -> Options) (value : string)
| BoolVar (set : bool -> Options -> Options) (value : bool)
| IntVar (set : Z -> Options -> Options) (value : Z).

Definition flags : list (string * flag_value) :=
  [("config", StringVar (fun v '(mkOptions a b c d _ f g h i) => mkOptions a b c d v f g h i) "extension-config.yaml");
   ("registry-secret", StringVar (fun v '(mkOptions a b c d e f g h _) => mkOptions a b c d e f g h v) "");
   ("use-cert-manager", BoolVar (fun v '(mkOptions _ b c d e f g h i) => mkOptions v b c d e f g h i) false);
   ("enable-vpa", BoolVar (fun v '(mkOptions a _ c d e f g h i) => mkOptions a v c d e f g h i) false);
   ("webhook-certs-dir", StringVar (fun v '(mkOptions a b c d e f _ h i) => mkOptions a b c d e f v h i) "./certs");
   ("webhook-name", StringVar (fun v '(mkOptions a b c d e f g _ i) => mkOptions a b c d e f g v i) "oidc-apps-controller");
   ("webhook-port", IntVar (fun v '(mkOptions a b _ d e f g h i) => mkOptions a b v d e f g h i) 10250);
   ("metrics-port", IntVar (fun v '(mkOptions a b c _ e f g h i) => mkOptions a b c v e f g h i) 8080);
   ("cache-selector", StringVar (fun v '(mkOptions a b c d e _ g h i) => mkOptions a b c d e v g h i) "")]%Z.

(** Adding a flag stores its default in the variable. *)
Definition set_default (f : flag_value) (o : Options) : Options :=
  match f with StringVar set v => set v o | BoolVar set v => set v o | IntVar set v => set v o end.

Definition AddFlags (o : Options) : Options := fold_left (fun o f => set_default (snd f) o) flags o.

Section Startup.
Context {W : Type} `{Client W, Vendor, OSEnv, Crypto W, Host W, Clientset W, !Runtime W}.

(** ** The process *)

Record process := mkProcess {
  common_names : names;
  extensionConfig : option OIDCAppsControllerConfig;
  predicates : option (Predicate W);
  scheme : list string;
  manager_options : option ManagerOptions;
  registrations : list (registration W);
  started : bool }.

Definition fresh : process := mkProcess no_names None None [] None [] false.

Definition set_names n s := mkProcess n (extensionConfig s) (predicates s) (scheme s) (manager_options s) (registrations s) (started s).
Definition set_config c s := mkProcess (common_names s) c (predicates s) (scheme s) (manager_options s) (registrations s) (started s).
Definition set_predicates p s := mkProcess (common_names s) (extensionConfig s) p (scheme s) (manager_options s) (registrations s) (started s).
Definition set_scheme l s := mkProcess (common_names s) (extensionConfig s) (predicates s) l (manager_options s) (registrations s) (started s).
Definition set_manager o s := mkProcess (common_names s) (extensionConfig s) (predicates s) (scheme s) o (registrations s) (started s).
Definition set_registrations l s := mkProcess (common_names s) (extensionConfig s) (predicates s) (scheme s) (manager_options s) l (started s).
Definition set_started b s := mkProcess (common_names s) (extensionConfig s) (predicates s) (scheme s) (manager_options s) (registrations s) b.

Definition change (f : process -> process) : M (process * W) unit := s ← get_state; put_state (f s).

(** A call that works on the common names of the certificates *)
Definition at_names {A} (m : M (names * W) A) : M (process * W) A := fun sw =>
  let '(r, (n, w)) := m (common_names (fst sw), snd sw) in (r, (set_names n (fst sw), w)).

(** Hands something to the manager, which keeps it when it accepts it. *)
Definition register (r : registration W) : M (process * W) unit :=
  at_world (accept r);;
  change (fun s => set_registrations (registrations s ++ [r]) s).

(** ** [config.go] *)

Definition WithClient (config : OIDCAppsControllerConfig) : OIDCAppsControllerConfig :=
  mkConfig (Config_Global config) (Targets config) true.

(** [SetClient] *)
Definition SetClient : OIDCAppsControllerConfig -> OIDCAppsControllerConfig := WithClient.

(** Logs and panics *)
Definition handleError {S A} : M S A := panic "terminating".

Definition CreateControllerConfigOrDie (path : string) (opts : list (OIDCAppsControllerConfig -> OIDCAppsControllerConfig)) :
    M W OIDCAppsControllerConfig :=
  let config := fold_left (fun c o => o c) opts (mkConfig emptyGlobal [] false) in
  r ← try_ (os_ReadFile (filepath.Clean path));
  match r with
  | inl _ => handleError
  | inr cf =>
      match yaml_Unmarshal cf config with
      | inl _ => handleError
      | inr config => mret config
      end
  end.

(** ** [healthz.go] *)

Definition NewCacheSyncHealthz : M W unit :=
  b ← WaitForCacheSync;
  if b : bool then mret tt else throw (ErrorString "cache has not synced yet").

(** ** The parts of the manager *)

(** The functions inside [fetchPredicates] *)
Definition config_predicates (extensionConfig : option OIDCAppsControllerConfig) : Predicate W :=
  GenerationChangedPredicate {|
    CreateFunc := fun o => matchOrLabeled extensionConfig o;
    DeleteFunc := fun o => matchOrLabeled extensionConfig o;
    UpdateFunc := fun _ new => matchOrLabeled extensionConfig (object new);
    GenericFunc := fun o => matchOrLabeled extensionConfig o |}.

(** [fetchPredicates]: made once *)
Definition fetchPredicates (extensionConfig : option OIDCAppsControllerConfig) : M (process * W) (Predicate W) :=
  s ← get_state;
  match predicates s with
  | Some p => mret p
  | None =>
      change (set_predicates (Some (config_predicates extensionConfig)));;
      mret (config_predicates extensionConfig)
  end.

(** The index function for objects of kind [k] *)
Definition label_index (k : Kind) (obj : Object) : option (list string) :=
  if bool_decide (obj_kind obj = k) then
    match map_get (GetLabels obj) constants.LabelKey with Some value => Some [value] | None => None end
  else None.

Definition index_by_label (k : Kind) (type_ : string) : M (process * W) unit :=
  wrap ("could not set up the oidc-app-controller " +:+ type_ +:+ " index")
    (register (IndexField k ("metadata.labels" +:+ constants.LabelKey) (label_index k))).

Definition initializeManagerIndices : M (process * W) unit :=
  index_by_label KSecret "v1.Secret";;
  index_by_label KService "v1.Service";;
  index_by_label KHTTPRoute "v1.HTTPRoute".

(** [EnqueueRequestForOwner(scheme, mapper, &T{})] *)
Definition for_owner (k : Kind) : Handler W := fun o => mret (EnqueueRequestForOwner k o).

(** [Watches(&T{}, h, WithPredicates(ResourceVersionChangedPredicate{}))] *)
Definition watch (k : Kind) (h : Handler W) : Watch W := mkWatch k h [ResourceVersionChangedPredicate].

Definition workload_reconciler (config : option OIDCAppsControllerConfig) (o : Options) : WorkloadReconciler :=
  mkWorkloadReconciler config (registrySecret o) (Getenv constants.NAMESPACE).

Definition deployment_controller (config : option OIDCAppsControllerConfig) (p : Predicate W) (o : Options) : Controller W := {|
  Named := "oidc-apps-deployments";
  For := KDeployment;
  For_Predicates := [];
  EventFilter := [p];
  Watches := [watch KSecret (for_owner KDeployment); watch KService (for_owner KDeployment);
              watch KPod PodMapFuncForDeployment; watch KHTTPRoute (for_owner KDeployment)];
  RawSource := [];
  Complete := Deployments (workload_reconciler config o) |}.

Definition statefulset_controller (config : option OIDCAppsControllerConfig) (p : Predicate W) (o : Options) : Controller W := {|
  Named := "oidc-apps-statefulsets";
  For := KStatefulSet;
  For_Predicates := [];
  EventFilter := [p];
  Watches := [watch KPod (for_owner KStatefulSet); watch KSecret (for_owner KStatefulSet);
              watch KService ServiceMapFuncForStatefulset; watch KHTTPRoute HTTPRouteMapFuncForStatefulset];
  RawSource := [];
  Complete := StatefulSets (workload_reconciler config o) |}.

Definition addDeploymentController (o : Options) : M (process * W) unit :=
  s ← get_state;
  p ← fetchPredicates (extensionConfig s);
  register (AddController (deployment_controller (extensionConfig s) p o)).

Definition addStatefulSetController (o : Options) : M (process * W) unit :=
  s ← get_state;
  p ← fetchPredicates (extensionConfig s);
  register (AddController (statefulset_controller (extensionConfig s) p o)).

Definition addWebhookCertificateManager (o : Options) : M (process * W) unit :=
  if negb (useCertManager o) then
    certManager ← at_names (CertManager.New (webhookCertsDir o) (webhookName o) (Getenv constants.NAMESPACE));
    register (AddCertManager certManager)
  else mret tt.

Definition pull_secret_controller (o : Options) : Controller W := {|
  Named := "image-pull-secret";
  For := KSecret;
  For_Predicates := [];
  EventFilter := [NewPredicateFuncs (fun obj => mret (imagePullSecretPredicates (registrySecret o) (Getenv constants.NAMESPACE) obj))];
  Watches := [];
  RawSource := [];
  Complete := ImagePullSecrets (mkImagePullSecretReconciler (registrySecret o)) |}.

Definition addPrivateRegistrySecretControllers (o : Options) : M (process * W) unit :=
  if negb (String.eqb (registrySecret o) EmptyString) then register (AddController (pull_secret_controller o))
  else mret tt.

Definition autoscaling : string := "autoscaling.k8s.io".

Definition addWebhooks (o : Options) : M (process * W) unit :=
  s ← get_state;
  let pods := (constants.PodWebHookPath, Pods (mkPodMutator (registrySecret o) (extensionConfig s))) in
  paths ← (if enableVpa o then
             lift (AddToScheme autoscaling);;
             mret [pods; (constants.VpaWebHookPath, Autoscalers (mkVPAMutator (extensionConfig s)))]
           else mret [pods]);
  register (AddServer (mkWebhookServer (webhookPort o) (webhookCertsDir o) paths)).

(** The name of the managed Gateway *)
Definition managed_name (config : OIDCAppsControllerConfig) : string :=
  match GetManagedGatewayConf config with
  | Some conf => if String.eqb (Gateway_Name conf) EmptyString then constants.ManagedGatewayName else Gateway_Name conf
  | None => constants.ManagedGatewayName
  end.

Definition managed_label (obj : Object) : M W bool :=
  mret (match map_get (GetLabels obj) constants.LabelKey with Some v => String.eqb v constants.LabelValue | None => false end).

Definition gateway_controller (config : OIDCAppsControllerConfig) : Controller W := {|
  Named := "managed-gateway";
  For := KGateway;
  For_Predicates := [NewPredicateFuncs managed_label];
  EventFilter := [];
  Watches := [];
  RawSource := [mkNN (Getenv constants.NAMESPACE) (managed_name config)];
  Complete := Gateways (mkGatewayReconciler (Getenv constants.NAMESPACE) (GetManagedGatewayConf config)) |}.

Definition addManagedGateway : M (process * W) unit :=
  s ← get_state;
  if negb (IsManagedGatewayEnabled (extensionConfig s)) then mret tt
  else match extensionConfig s with
       | None => panic "nil configuration"
       | Some config => register (AddController (gateway_controller config))
       end.

(** ** [RunController] *)

Definition add_scheme (msg group : string) : M (process * W) unit :=
  wrap msg (lift (AddToScheme group));;
  change (fun s => set_scheme (scheme s ++ [group]) s).

Definition component_selector : GoMap string -> bool :=
  SelectorFromSet {[constants.LabelKey := constants.LabelValue]}.

(** [cacheOptions.ByObject] *)
Definition cache_table (o : Options) (selector : GoMap string -> bool) (config : option OIDCAppsControllerConfig) :
    list (Kind * (GoMap string -> bool)) :=
  [(KPod, selector); (KSecret, component_selector); (KService, component_selector); (KNamespace, labels_Everything)] ++
  (if enableVpa o then [(KVPA, selector)] else []) ++
  [(KHTTPRoute, component_selector)] ++
  (if IsManagedGatewayEnabled config then [(KGateway, component_selector)] else []).

Definition no_namespace : error := ErrorString "NAMESPACE environment variable is not set".

(** The three checks of the environment *)
Definition check_namespace (o : Options) (config : option OIDCAppsControllerConfig) : outcome unit :=
  let unset := String.eqb (Getenv constants.NAMESPACE) EmptyString in
  if negb (useCertManager o) && unset then Err no_namespace
  else if negb (String.eqb (registrySecret o) EmptyString) && unset then Err no_namespace
  else if IsManagedGatewayEnabled config && unset then Err no_namespace
  else Ret tt.

Definition manager_settings (o : Options) (table : list (Kind * (GoMap string -> bool))) : ManagerOptions := {|
  ByObject := table;
  LeaderElection := true;
  LeaderElectionID := "oidc-apps-controller";
  LeaderElectionNamespace := Getenv constants.NAMESPACE;
  LeaseDuration := 60;
  RenewDeadline := 30;
  RetryPeriod := 10;
  LeaderElectionReleaseOnCancel := true;
  HealthProbeBindAddress := ":8081";
  MetricsBindAddress := ":" +:+ Itoa (metricsPort o) |}.

(** The flag [--cache-selector] *)
Definition cache_label_selector (o : Options) : M (process * W) (GoMap string -> bool) :=
  if Nat.ltb 0 (String.length (cacheSelectorString o))
  then wrap "could not parse the cache selector" (lift (checked (labels_Parse (cacheSelectorString o))))
  else mret labels_Everything.

(** The scheme, the cache and the manager, for a configuration *)
Definition make_manager (o : Options) (config : OIDCAppsControllerConfig) : M (process * W) unit :=
  add_scheme "could not initialize the runtime scheme" "";;
  (if enableVpa o then add_scheme "could not initialize the runtime scheme" autoscaling else mret tt);;
  add_scheme "could not initialize the gateway-api scheme" "gateway.networking.k8s.io";;
  selector ← cache_label_selector o;
  lift (check_namespace o (Some config));;
  cfg ← at_world GetConfigOrDie;
  let settings := manager_settings o (cache_table o selector (Some config)) in
  wrap "could not initialize the controller-runtime manager"
    (at_world (manager_New (mkRestConfig 100 200) settings));;
  change (set_manager (Some settings)).

Definition new_manager (o : Options) : M (process * W) unit :=
  config ← at_world (CreateControllerConfigOrDie (controllerConfigPath o) []);
  change (set_config (Some config));;
  make_manager o config.

(** Everything the manager is given *)
Definition add_parts (o : Options) : M (process * W) unit :=
  wrap "could not initialize cache indices" initializeManagerIndices;;
  wrap "could not initialize deployment controller" (addDeploymentController o);;
  wrap "could not initialize statefulset controller" (addStatefulSetController o);;
  wrap "could not initialize webhook certificate manager" (addWebhookCertificateManager o);;
  wrap "could not initialize private registry secret manager" (addPrivateRegistrySecretControllers o);;
  wrap "could not initialize managed gateway" addManagedGateway;;
  wrap "could not initialize mutating webhooks" (addWebhooks o);;
  wrap "could not initialize controller readycheck" (register (AddReadyzCheck "informer-sync" NewCacheSyncHealthz));;
  wrap "could not initialize controller healthcheck" (register (AddHealthzCheck "ping" Ping)).

Definition RunController (o : Options) : M (process * W) unit :=
  new_manager o;;
  change (fun s => set_config (SetClient <$> extensionConfig s) s);;
  add_parts o;;
  change (set_started true);;
  at_world manager_Start.

End Startup.

Arguments process W {_ _}.
