(* ===== verification/StartupSpec.v ===== *)
(** * What the controller has when it starts

    [RunController] either starts a manager that has all its parts, wired to
    one configuration, or it fails without starting anything; the cache the
    manager gets is the one that [in_cache] describes. *)

From S2P Require Import Prelude GoStrings Kube Constants Vendor Filepath Configuration Controllers Gateway PodWebhook VpaWebhook ControllersSpec.
From S2P Require Import Crypto Certificates CertManager CertBundleSpec CertManagerSpec CertGenerateSpec CertRotationSpec EventRouting Reference ReferenceHost Runtime ReferenceRuntime Startup.

Section StartupSpec.
Context {W : Type} `{ClientReads W, !Vendor, !OSEnv, HostView W, !Crypto W, !Host W, !HostLaws W, !Clientset W, !Runtime W, !RuntimeLaws W}.

Notation step A := (M (process W * W) A).

(** ** Steps that do not start the manager *)

Definition idle {A} (m : step A) : Prop := forall sw, started (fst (snd (m sw))) = started (fst sw).

Lemma idle_ret {A} (a : A) : idle (mret a).
Proof. by intros sw. Qed.

Lemma idle_lift {A} (o : outcome A) : idle (lift o).
Proof. by intros sw. Qed.

Lemma idle_bind {A B} (m : step A) (f : A -> step B) : idle m -> (forall a, idle (f a)) -> idle (m ≫= f).
Proof. intros Hm Hf sw. unfold mbind, M_bind. specialize (Hm sw). destruct (m sw) as [[a|e|p] sw']; cbn in *; [by rewrite Hf|done|done]. Qed.

Lemma idle_wrap {A} msg (m : step A) : idle m -> idle (wrap msg m).
Proof. intros Hm sw. unfold wrap. specialize (Hm sw). by destruct (m sw) as [[] ?]. Qed.

Lemma idle_at_world {A} (m : M W A) : idle (at_world m).
Proof. intros sw. unfold at_world. by destruct (m (snd sw)). Qed.

Lemma idle_at_names {A} (m : M (names * W) A) : idle (at_names m).
Proof. intros sw. unfold at_names. by destruct (m _) as [? [? ?]]. Qed.

Lemma idle_get : idle get_state.
Proof. by intros sw. Qed.

Lemma idle_change f : (forall s, started (f s) = started s) -> idle (change f).
Proof. intros Hf sw. unfold change, get_state, put_state, mbind, M_bind. cbn. apply Hf. Qed.

Hint Resolve idle_ret idle_lift idle_wrap idle_at_world idle_at_names idle_get : idle.
Hint Extern 1 (idle (change _)) => (apply idle_change; done) : idle.
Hint Extern 1 (idle (_ ≫= _)) => (apply idle_bind; [|intros]) : idle.
Hint Extern 2 (idle (match ?x with _ => _ end)) => destruct x : idle.

Lemma idle_register r : idle (register r).
Proof. unfold register. auto with idle. Qed.
Hint Resolve idle_register : idle.

Lemma idle_fetch c : idle (fetchPredicates c).
Proof. unfold fetchPredicates. eauto 8 with idle. Qed.
Hint Resolve idle_fetch : idle.

Lemma idle_new_manager o : idle (new_manager o).
Proof. unfold new_manager, make_manager, cache_label_selector, add_scheme. eauto 30 with idle. Qed.

Lemma idle_add_parts o : idle (add_parts o).
Proof.
  unfold add_parts, initializeManagerIndices, index_by_label, addDeploymentController, addStatefulSetController,
    addWebhookCertificateManager, addPrivateRegistrySecretControllers, addManagedGateway, addWebhooks. eauto 40 with idle.
Qed.

(** A run that starts the manager gets past an idle step. *)
Lemma idle_until {B} (m : step unit) (k : unit -> step B) s w r s' w' :
  (m ≫= k) (s, w) = (r, (s', w')) -> idle m -> started s = false -> started s' = true ->
  exists s1 w1, m (s, w) = (Ret tt, (s1, w1)) /\ started s1 = false /\ k tt (s1, w1) = (r, (s', w')).
Proof.
  intros E Hm Hs Hs'. specialize (Hm (s, w)). unfold mbind, M_bind in E. destruct (m (s, w)) as [[[]|e|p] [s1 w1]]; cbn in Hm.
  - exists s1, w1. split; [done|]. split; [congruence|done].
  - injection E as <- <- <-. congruence.
  - injection E as <- <- <-. congruence.
Qed.

(** ** What a step that works leaves in the process *)

Definition ends {A} (m : step A) (s : process W) (Q : A -> process W -> Prop) : Prop :=
  forall w a s' w', m (s, w) = (Ret a, (s', w')) -> Q a s'.

Lemma ends_bind {A B} (m : step A) (f : A -> step B) s P Q :
  ends m s P -> (forall a s', P a s' -> ends (f a) s' Q) -> ends (m ≫= f) s Q.
Proof. intros Hm Hf w b s' w' E. apply M_bind_inv in E as (a & [s1 w1] & E1 & E2). eapply Hf; [by eapply Hm|done]. Qed.

Lemma ends_ret {A} (a : A) s (Q : A -> process W -> Prop) : Q a s -> ends (mret a) s Q.
Proof. intros HQ w a' s' w' E. by injection E as <- <- <-. Qed.

Lemma ends_lift {A} (o : outcome A) s (Q : A -> process W -> Prop) : (forall a, o = Ret a -> Q a s) -> ends (lift o) s Q.
Proof. intros HQ w a s' w' E. injection E as -> <- <-. by apply HQ. Qed.

Lemma ends_wrap {A} msg (m : step A) s Q : ends m s Q -> ends (wrap msg m) s Q.
Proof. intros Hm w a s' w' E. apply wrap_inv in E. by eapply Hm. Qed.

Lemma ends_at_world {A} (m : M W A) s (Q : A -> process W -> Prop) :
  (forall w a w', m w = (Ret a, w') -> Q a s) -> ends (at_world m) s Q.
Proof. intros HQ w a s' w' E. apply at_world_inv in E as [-> E]. by eapply HQ. Qed.

Lemma ends_change f s (Q : unit -> process W -> Prop) : Q tt (f s) -> ends (change f) s Q.
Proof. intros HQ w [] s' w' E. by injection E as <- <-. Qed.

Lemma ends_get {B} (f : process W -> step B) s Q : ends (f s) s Q -> ends (get_state ≫= f) s Q.
Proof. intros Hf w a s' w' E. apply (Hf w a s' w' E). Qed.

Definition with_part (r : registration W) (s : process W) : process W := set_registrations (registrations s ++ [r]) s.

Lemma ends_register r s (Q : unit -> process W -> Prop) : Q tt (with_part r s) -> ends (register r) s Q.
Proof.
  intros HQ. unfold register. eapply ends_bind; [by apply (ends_at_world _ _ (fun _ s' => s' = s))|].
  intros [] s' ->. by apply ends_change.
Qed.

(** The predicates are those of the configuration, made before or now. *)
Lemma ends_fetch c s (Q : Predicate W -> process W -> Prop) :
  (predicates s = None \/ predicates s = Some (config_predicates c)) ->
  Q (config_predicates c) (set_predicates (Some (config_predicates c)) s) -> ends (fetchPredicates c) s Q.
Proof.
  intros Hp HQ. unfold fetchPredicates. apply ends_get. destruct s as [n cfg p l m r b]. cbn in Hp, HQ |- *. destruct Hp as [->| ->].
  - eapply ends_bind; [by apply (ends_change _ _ (fun _ s' => s' = set_predicates (Some (config_predicates c)) (mkProcess n cfg None l m r b)))|].
    intros [] s' ->. by apply ends_ret.
  - by apply ends_ret.
Qed.

Lemma New_fields path name namespace sw c sw' :
  CertManager.New path name namespace sw = (Ret c, sw') ->
  certPath c = path /\ CertManager.webhookName c = name /\ dnsNames c = dns_names name namespace.
Proof. intros E. unfold CertManager.New in E. inv_bind. done. Qed.

(** ** The parts *)

Definition settled (s : process W) : Prop :=
  predicates s = None \/ predicates s = Some (config_predicates (extensionConfig s)).

(** The manager has been given [rs]; the rest of the process is the same. *)
Definition grown (s : process W) (rs : list (registration W)) (s' : process W) : Prop :=
  registrations s' = registrations s ++ rs /\ extensionConfig s' = extensionConfig s /\
  manager_options s' = manager_options s /\ scheme s' = scheme s /\ (settled s -> settled s').

Lemma grown_none s : grown s [] s.
Proof. unfold grown. by rewrite app_nil_r. Qed.

Lemma grown_trans s s1 s2 rs rs' : grown s rs s1 -> grown s1 rs' s2 -> grown s (rs ++ rs') s2.
Proof. intros (R1 & C1 & M1 & S1 & P1) (R2 & C2 & M2 & S2 & P2). unfold grown. rewrite app_assoc. repeat split; [congruence..|auto]. Qed.

Lemma part_bind (m k : step unit) s rs rs' :
  ends m s (fun _ => grown s rs) -> (forall s1, grown s rs s1 -> ends k s1 (fun _ => grown s1 rs')) ->
  ends (m;; k) s (fun _ => grown s (rs ++ rs')).
Proof.
  intros Hm Hk. eapply ends_bind; [exact Hm|]. intros [] s1 G1 w [] s2 w2 E. eapply grown_trans; [exact G1|].
  by apply (Hk s1 G1 w tt s2 w2).
Qed.

Lemma part_register r s : ends (register r) s (fun _ => grown s [r]).
Proof. by apply ends_register. Qed.

Lemma part_unless (b : bool) (m : step unit) s rs :
  ends m s (fun _ => grown s rs) -> ends (if b then mret tt else m) s (fun _ => grown s (if b then [] else rs)).
Proof. intros Hm. destruct b; [apply ends_ret, grown_none|done]. Qed.

(** A controller whose predicates come from [fetchPredicates] *)
Lemma part_controller (mk : Predicate W -> registration W) s :
  settled s -> ends (p ← fetchPredicates (extensionConfig s); register (mk p)) s
    (fun _ => grown s [mk (config_predicates (extensionConfig s))]).
Proof.
  intros Hs. set (P := fun p s1 => p = config_predicates (extensionConfig s) /\ s1 = set_predicates (Some (config_predicates (extensionConfig s))) s).
  eapply (ends_bind _ _ s P); [by apply ends_fetch|].
  intros p s1 [-> Es1]. apply ends_register. subst s1. split; [done|]. split; [done|]. split; [done|]. split; [done|by right].
Qed.

(** The certificate managers of a process started with these options *)
Definition certs_for (o : Options) (certs : list (certManager W)) : Prop :=
  if useCertManager o then certs = []
  else exists c, certs = [c] /\ certPath c = webhookCertsDir o /\ CertManager.webhookName c = webhookName o /\
         dnsNames c = dns_names (webhookName o) (Getenv constants.NAMESPACE).

Definition cert_parts (certs : list (certManager W)) : list (registration W) := map AddCertManager certs.

Lemma part_certs o s :
  ends (addWebhookCertificateManager o) s (fun _ s' => exists certs, certs_for o certs /\ grown s (cert_parts certs) s').
Proof.
  unfold addWebhookCertificateManager, certs_for. destruct (useCertManager o); cbn [negb].
  - apply ends_ret. exists []. split; [done|apply grown_none].
  - intros w [] s' w' E. apply M_bind_inv in E as (c & [s1 w1] & E1 & E2). unfold at_names in E1. cbn [fst snd] in E1.
    destruct (CertManager.New _ _ _ _) as [r [n w2]] eqn:En. injection E1 as -> <- <-.
    destruct (New_fields _ _ _ _ _ _ En) as (P1 & P2 & P3). exists [c]. split; [by exists c|].
    apply (part_register (AddCertManager c) (set_names n s) w2 tt s' w' E2).
Qed.

Definition webhook_parts (config : option OIDCAppsControllerConfig) (o : Options) : list (string * Defaulter) :=
  (constants.PodWebHookPath, Pods (mkPodMutator (registrySecret o) config)) ::
  (if enableVpa o then [(constants.VpaWebHookPath, Autoscalers (mkVPAMutator config))] else []).

Lemma part_webhooks o s :
  ends (addWebhooks o) s (fun _ =>
    grown s [AddServer (mkWebhookServer (webhookPort o) (webhookCertsDir o) (webhook_parts (extensionConfig s) o))]).
Proof.
  unfold addWebhooks, webhook_parts. apply ends_get. cbv zeta. destruct (enableVpa o).
  - eapply (ends_bind _ _ s (fun l s1 => s1 = s /\ l = [_; _])).
    + eapply (ends_bind _ _ s (fun _ s1 => s1 = s)); [by apply ends_lift|]. intros [] s1 ->. by apply ends_ret.
    + intros l s1 [-> ->]. apply part_register.
  - eapply (ends_bind _ _ s (fun l s1 => s1 = s /\ l = [_])); [by apply ends_ret|]. intros l s1 [-> ->]. apply part_register.
Qed.

Definition index_of (k : Kind) : registration W := IndexField k ("metadata.labels" +:+ constants.LabelKey) (label_index k).

(** Everything a manager is given, in order *)
Definition parts (config : OIDCAppsControllerConfig) (certs : list (certManager W)) (o : Options) : list (registration W) :=
  let p := config_predicates (Some config) in
  [index_of KSecret; index_of KService; index_of KHTTPRoute] ++
  [AddController (deployment_controller (Some config) p o)] ++ [AddController (statefulset_controller (Some config) p o)] ++
  cert_parts certs ++
  (if String.eqb (registrySecret o) EmptyString then [] else [AddController (pull_secret_controller o)]) ++
  (if negb (IsManagedGatewayEnabled (Some config)) then [] else [AddController (gateway_controller config)]) ++
  [AddServer (mkWebhookServer (webhookPort o) (webhookCertsDir o) (webhook_parts (Some config) o))] ++
  [AddReadyzCheck "informer-sync" NewCacheSyncHealthz] ++ [AddHealthzCheck "ping" Ping].

Lemma grown_config s rs s' config : grown s rs s' -> extensionConfig s = Some config -> extensionConfig s' = Some config.
Proof. intros (_ & -> & _). done. Qed.

Lemma part_indices s : ends initializeManagerIndices s (fun _ => grown s [index_of KSecret; index_of KService; index_of KHTTPRoute]).
Proof.
  unfold initializeManagerIndices, index_by_label.
  apply (part_bind _ _ s [_] [_; _]); [apply ends_wrap, part_register|]. intros s1 _.
  apply (part_bind _ _ s1 [_] [_]); [apply ends_wrap, part_register|]. intros s2 _. apply ends_wrap, part_register.
Qed.

Lemma part_secrets o s :
  ends (addPrivateRegistrySecretControllers o) s
    (fun _ => grown s (if String.eqb (registrySecret o) EmptyString then [] else [AddController (pull_secret_controller o)])).
Proof.
  unfold addPrivateRegistrySecretControllers. destruct (String.eqb _ _); cbn [negb]; [apply ends_ret, grown_none|apply part_register].
Qed.

Lemma part_gateway s config :
  extensionConfig s = Some config ->
  ends addManagedGateway s
    (fun _ => grown s (if negb (IsManagedGatewayEnabled (Some config)) then [] else [AddController (gateway_controller config)])).
Proof. intros Hc. unfold addManagedGateway. apply ends_get. rewrite Hc. apply part_unless, part_register. Qed.

Lemma part_deployments o s config :
  extensionConfig s = Some config -> settled s ->
  ends (addDeploymentController o) s
    (fun _ => grown s [AddController (deployment_controller (Some config) (config_predicates (Some config)) o)]).
Proof.
  intros Hc Hs. unfold addDeploymentController. apply ends_get.
  pose proof (part_controller (fun p => AddController (deployment_controller (extensionConfig s) p o)) s Hs) as Hp. by rewrite Hc in *.
Qed.

Lemma part_statefulsets o s config :
  extensionConfig s = Some config -> settled s ->
  ends (addStatefulSetController o) s
    (fun _ => grown s [AddController (statefulset_controller (Some config) (config_predicates (Some config)) o)]).
Proof.
  intros Hc Hs. unfold addStatefulSetController. apply ends_get.
  pose proof (part_controller (fun p => AddController (statefulset_controller (extensionConfig s) p o)) s Hs) as Hp. by rewrite Hc in *.
Qed.

(** What the later parts are, after the certificate manager *)
Lemma parts_after_certs o s config :
  extensionConfig s = Some config ->
  ends (wrap "could not initialize private registry secret manager" (addPrivateRegistrySecretControllers o);;
        wrap "could not initialize managed gateway" addManagedGateway;;
        wrap "could not initialize mutating webhooks" (addWebhooks o);;
        wrap "could not initialize controller readycheck" (register (AddReadyzCheck "informer-sync" NewCacheSyncHealthz));;
        wrap "could not initialize controller healthcheck" (register (AddHealthzCheck "ping" Ping))) s
    (fun _ => grown s (
      (if String.eqb (registrySecret o) EmptyString then [] else [AddController (pull_secret_controller o)]) ++
      (if negb (IsManagedGatewayEnabled (Some config)) then [] else [AddController (gateway_controller config)]) ++
      [AddServer (mkWebhookServer (webhookPort o) (webhookCertsDir o) (webhook_parts (Some config) o))] ++
      [AddReadyzCheck "informer-sync" NewCacheSyncHealthz] ++ [AddHealthzCheck "ping" Ping])).
Proof.
  intros Hc. apply part_bind; [apply ends_wrap, part_secrets|]. intros s1 G1. pose proof (grown_config _ _ _ _ G1 Hc) as Hc1.
  apply part_bind; [by apply ends_wrap, part_gateway|]. intros s2 G2. pose proof (grown_config _ _ _ _ G2 Hc1) as Hc2.
  apply part_bind; [apply ends_wrap; rewrite <- Hc2; apply part_webhooks|]. intros s3 _.
  apply part_bind; [apply ends_wrap, part_register|]. intros s4 _. apply ends_wrap, part_register.
Qed.

Lemma add_parts_ends o s config :
  extensionConfig s = Some config -> settled s ->
  ends (add_parts o) s (fun _ s' => exists certs, certs_for o certs /\ grown s (parts config certs o) s').
Proof.
  intros Hc Hs w [] s' w' E. unfold add_parts in E.
  apply M_bind_inv in E as ([] & [s1 w1] & E1 & E). apply wrap_inv, part_indices in E1.
  apply M_bind_inv in E as ([] & [s2 w2] & E2 & E).
  apply wrap_inv, (part_deployments o s1 config (grown_config _ _ _ _ E1 Hc)) in E2; [|by apply E1].
  pose proof (grown_trans _ _ _ _ _ E1 E2) as G2.
  apply M_bind_inv in E as ([] & [s3 w3] & E3 & E).
  apply wrap_inv, (part_statefulsets o s2 config (grown_config _ _ _ _ G2 Hc)) in E3; [|by apply G2].
  pose proof (grown_trans _ _ _ _ _ G2 E3) as G3.
  apply M_bind_inv in E as ([] & [s4 w4] & E4 & E). apply wrap_inv, part_certs in E4 as (certs & Hcerts & E4).
  pose proof (grown_trans _ _ _ _ _ G3 E4) as G4. exists certs. split; [done|].
  pose proof (parts_after_certs o s4 config (grown_config _ _ _ _ G4 Hc) w4 tt s' w' E) as G5.
  pose proof (grown_trans _ _ _ _ _ G4 G5) as G. unfold parts. cbv zeta. by rewrite <- !app_assoc in G.
Qed.

(** ** The manager *)

(** What the flag [--cache-selector] selects *)
Definition selector_for (o : Options) (selector : GoMap string -> bool) : Prop :=
  if Nat.ltb 0 (String.length (cacheSelectorString o)) then labels_Parse (cacheSelectorString o) = inr selector
  else selector = labels_Everything.

Definition needs_namespace (o : Options) (config : OIDCAppsControllerConfig) : bool :=
  negb (useCertManager o) || negb (String.eqb (registrySecret o) EmptyString) || IsManagedGatewayEnabled (Some config).

Lemma check_namespace_eq o config :
  check_namespace o (Some config) =
  if needs_namespace o config && String.eqb (Getenv constants.NAMESPACE) EmptyString then Err no_namespace else Ret tt.
Proof.
  unfold check_namespace, needs_namespace. destruct (useCertManager o), (String.eqb (registrySecret o) EmptyString),
    (IsManagedGatewayEnabled (Some config)), (String.eqb (Getenv constants.NAMESPACE) EmptyString); done.
Qed.

Definition groups (o : Options) : list string :=
  [EmptyString] ++ (if enableVpa o then [autoscaling] else []) ++ ["gateway.networking.k8s.io"].

(** The process once the manager is made *)
Definition managed (o : Options) (config : OIDCAppsControllerConfig) (selector : GoMap string -> bool) : process W :=
  mkProcess no_names (Some config) None (groups o) (Some (manager_settings o (cache_table o selector (Some config)))) [] false.

Lemma ends_add_scheme msg g s (Q : unit -> process W -> Prop) :
  Q tt (set_scheme (scheme s ++ [g]) s) -> ends (add_scheme msg g) s Q.
Proof.
  intros HQ. unfold add_scheme. eapply (ends_bind _ _ s (fun _ s' => s' = s)); [by apply ends_wrap, ends_lift|].
  intros [] s' ->. by apply ends_change.
Qed.

(** The process while the manager is being made *)
Definition loading (config : OIDCAppsControllerConfig) (l : list string) : process W :=
  mkProcess no_names (Some config) None l None [] false.

Lemma ends_cache_selector o s : ends (cache_label_selector o) s (fun sel s' => selector_for o sel /\ s' = s).
Proof.
  unfold cache_label_selector, selector_for. destruct (Nat.ltb _ _); [|by apply ends_ret]. apply ends_wrap, ends_lift.
  intros sel Hsel. destruct (labels_Parse _); [done|]. by injection Hsel as ->.
Qed.

Lemma make_manager_ends o config :
  ends (make_manager o config) (loading config [])
    (fun _ s' => exists selector, selector_for o selector /\ check_namespace o (Some config) = Ret tt /\ s' = managed o config selector).
Proof.
  unfold make_manager.
  eapply (ends_bind _ _ _ (fun _ s1 => s1 = loading config [EmptyString])); [by apply ends_add_scheme|]. intros [] s1 ->.
  eapply (ends_bind _ _ _ (fun _ s1 => s1 = loading config ([EmptyString] ++ if enableVpa o then [autoscaling] else []))).
  { destruct (enableVpa o); [by apply ends_add_scheme|by apply ends_ret]. }
  intros [] s1 ->. eapply (ends_bind _ _ _ (fun _ s1 => s1 = loading config (groups o))).
  { apply ends_add_scheme. unfold groups, loading, set_scheme. cbn [scheme common_names extensionConfig predicates manager_options registrations started]. by rewrite <- app_assoc. }
  intros [] s1 ->. eapply ends_bind; [apply ends_cache_selector|].
  intros selector s1 [Hsel ->]. eapply (ends_bind _ _ _ (fun _ s1 => check_namespace o (Some config) = Ret tt /\ s1 = loading config (groups o))).
  { apply ends_lift. by intros []. }
  intros [] s1 [Hns ->]. eapply (ends_bind _ _ _ (fun _ s1 => s1 = loading config (groups o))); [by apply ends_at_world|].
  intros cfg s1 ->. cbv zeta. eapply (ends_bind _ _ _ (fun _ s1 => s1 = loading config (groups o))); [by apply ends_wrap, ends_at_world|].
  intros [] s1 ->. apply ends_change. by exists selector.
Qed.

Lemma new_manager_ends o w s' w' :
  new_manager o (fresh, w) = (Ret tt, (s', w')) ->
  exists config selector w1, CreateControllerConfigOrDie (controllerConfigPath o) [] w = (Ret config, w1) /\
    selector_for o selector /\ check_namespace o (Some config) = Ret tt /\ s' = managed o config selector.
Proof.
  intros E. unfold new_manager in E. apply M_bind_inv in E as (config & [s1 w1] & Ec & E). apply at_world_inv in Ec as [-> Ec].
  apply M_bind_inv in E as ([] & [s2 w2] & Es & E). injection Es as <- <-.
  destruct (make_manager_ends o config w1 tt s' w' E) as (selector & Hs). by exists config, selector, w1.
Qed.

(** ** Loading the configuration *)

Lemma config_cases path (w : W) :
  (exists config, CreateControllerConfigOrDie path [] w = (Ret config, w) /\ client_set config = false) \/
  CreateControllerConfigOrDie path [] w = (Panic "terminating", w).
Proof.
  unfold CreateControllerConfigOrDie. cbn [fold_left].
  pose proof (read_pure (filepath.Clean path) w) as Hp. pose proof (read_no_panic (filepath.Clean path) w) as Hn.
  unfold mbind at 1 2, M_bind at 1 2, try_. destruct (os_ReadFile (filepath.Clean path) w) as [r w1]. cbn in Hp, Hn. subst w1.
  destruct r as [d|e|p]; [|by right|by destruct (Hn p)].
  destruct (yaml_Unmarshal d (mkConfig emptyGlobal [] false)) as [e|c] eqn:E; [by right|]. left. exists c.
  split; [done|]. by rewrite (unmarshal_client _ _ _ E).
Qed.

(** Without a namespace that is needed, making the manager fails before
    anything but the scheme is changed. *)
Lemma make_manager_refused o config s w :
  needs_namespace o config = true -> Getenv constants.NAMESPACE = EmptyString ->
  exists r l, make_manager o config (s, w) = (r, (set_scheme l s, w)) /\ forall a, r <> Ret a.
Proof.
  intros Hneed Hempty. assert (Hns : check_namespace o (Some config) = Err no_namespace).
  { rewrite check_namespace_eq, Hneed, Hempty. done. }
  unfold make_manager, add_scheme, cache_label_selector, change, get_state, put_state, wrap, lift, mbind, M_bind, mret, M_ret.
  rewrite Hns. destruct s as [n cfg p l m rs b].
  repeat (match goal with
          | |- context [AddToScheme ?g] => destruct (AddToScheme g)
          | |- context [if enableVpa o then _ else _] => destruct (enableVpa o)
          | |- context [if Nat.ltb ?a ?b then _ else _] => destruct (Nat.ltb a b)
          | |- context [labels_Parse ?x] => destruct (labels_Parse x)
          end; cbn [checked fst snd scheme set_scheme common_names extensionConfig predicates manager_options registrations started]);
    (eexists _, _; split; [reflexivity|intros ?; discriminate]).
Qed.

(** ** The theorems *)

(** When the manager is started it has all its parts, and they fit the
    options: the cache that the flags ask for, the scheme with the autoscaler
    only when that is enabled, the three indices, both workload controllers,
    the certificate manager unless certificates are managed elsewhere, the
    pull-secret controller when a pull secret is named, the Gateway
    controller when one is managed, the webhook server and the two probes, in
    this order; the configuration is the one in the file, with its client
    set, and the namespace is known when one of the parts needs it. *)
Theorem RunController_starts o w r s' w' :
  RunController o (fresh, w) = (r, (s', w')) -> started s' = true ->
  exists loaded config certs selector,
    CreateControllerConfigOrDie (controllerConfigPath o) [] w = (Ret loaded, w) /\ config = SetClient loaded /\
    extensionConfig s' = Some config /\ selector_for o selector /\
    manager_options s' = Some (manager_settings o (cache_table o selector (Some config))) /\
    scheme s' = groups o /\ certs_for o certs /\ registrations s' = parts config certs o /\
    (needs_namespace o config = true -> Getenv constants.NAMESPACE <> EmptyString).
Proof.
  intros E Hst. unfold RunController in E.
  apply idle_until in E as (s1 & w1 & E1 & St1 & E); [|apply idle_new_manager|done|done].
  apply idle_until in E as (s2 & w2 & E2 & St2 & E); [|by apply idle_change|done|done].
  apply idle_until in E as (s3 & w3 & E3 & St3 & E); [|apply idle_add_parts|done|done].
  apply new_manager_ends in E1 as (loaded & selector & w0 & Ec & Hsel & Hns & ->). injection E2 as <- <-.
  destruct (config_cases (controllerConfigPath o) w) as [(c & Ec' & _)|Ec']; [|congruence]. rewrite Ec in Ec'. injection Ec' as -> ->.
  apply (add_parts_ends o _ (SetClient c)) in E3 as (certs & Hcerts & (Hr & Hcfg & Hm & Hsch & _)); [|done|by left].
  assert (Hs : s' = set_started true s3) by (unfold change, get_state, put_state, mbind, M_bind, at_world in E; cbn in E; by destruct (manager_Start w3); injection E as _ <- _).
  exists c, (SetClient c), certs, selector. rewrite Hs. split; [exact Ec|]. split; [done|]. split; [exact Hcfg|]. split; [exact Hsel|].
  split; [exact Hm|]. split; [exact Hsch|]. split; [exact Hcerts|]. split; [exact Hr|].
  intros Hneed Hempty. rewrite check_namespace_eq in Hns. change (needs_namespace o c = true) in Hneed. by rewrite Hneed, Hempty in Hns.
Qed.

(** A part is one of the entries of [parts]. *)
Lemma in_parts config certs o x :
  In x (parts config certs o) ->
  (exists k, x = index_of k) \/
  x = AddController (deployment_controller (Some config) (config_predicates (Some config)) o) \/
  x = AddController (statefulset_controller (Some config) (config_predicates (Some config)) o) \/
  (exists m, In m certs /\ x = AddCertManager m) \/
  (x = AddController (pull_secret_controller o) /\ registrySecret o <> EmptyString) \/
  (x = AddController (gateway_controller config) /\ IsManagedGatewayEnabled (Some config) = true) \/
  x = AddServer (mkWebhookServer (webhookPort o) (webhookCertsDir o) (webhook_parts (Some config) o)) \/
  x = AddReadyzCheck "informer-sync" NewCacheSyncHealthz \/ x = AddHealthzCheck "ping" Ping.
Proof.
  unfold parts. rewrite !in_app_iff. cbn [In]. intros [Hx|[Hx|[Hx|[Hx|[Hx|[Hx|[Hx|[Hx|Hx]]]]]]]].
  - left. by destruct Hx as [<-|[<-|[<-|[]]]]; eexists.
  - destruct Hx as [<-|[]]. right; by left.
  - destruct Hx as [<-|[]]. do 2 right; by left.
  - apply in_map_iff in Hx as (m & <- & Hm). do 3 right; left; by exists m.
  - destruct (String.eqb_spec (registrySecret o) EmptyString); [by destruct Hx|destruct Hx as [<-|[]]]. by do 4 right; left.
  - destruct (IsManagedGatewayEnabled (Some config)); cbn [negb] in Hx; [destruct Hx as [<-|[]]|by destruct Hx]. by do 5 right; left.
  - destruct Hx as [<-|[]]. by do 6 right; left.
  - destruct Hx as [<-|[]]. by do 7 right; left.
  - destruct Hx as [<-|[]]. by do 8 right.
Qed.

(** The kinds of parts that depend on an option *)
Definition has_certs (s : process W) : Prop := exists m, In (AddCertManager m) (registrations s).
Definition has_pull_secrets (s : process W) : Prop :=
  exists c r, In (AddController c) (registrations s) /\ Complete c = ImagePullSecrets r.
Definition has_gateways (s : process W) : Prop :=
  exists c r, In (AddController c) (registrations s) /\ Complete c = Gateways r.
Definition has_autoscalers (s : process W) : Prop :=
  exists v p d, In (AddServer v) (registrations s) /\ In (p, Autoscalers d) (Registered v).

Lemma parts_present (s : process W) config certs o :
  registrations s = parts config certs o -> certs_for o certs ->
  (has_certs s <-> useCertManager o = false) /\ (has_pull_secrets s <-> registrySecret o <> EmptyString) /\
  (has_gateways s <-> IsManagedGatewayEnabled (Some config) = true) /\ (has_autoscalers s <-> enableVpa o = true).
Proof.
  intros Hr Hc. unfold has_certs, has_pull_secrets, has_gateways, has_autoscalers. rewrite Hr. unfold certs_for in Hc.
  repeat split.
  - intros (m & Hm). apply in_parts in Hm. destruct (useCertManager o); [|done]. subst certs. cbn in Hm. naive_solver.
  - intros Hu. rewrite Hu in Hc. destruct Hc as (m & -> & _). exists m. unfold parts, cert_parts. rewrite !in_app_iff. cbn. tauto.
  - intros (c & x & Hm & Hx). apply in_parts in Hm. naive_solver.
  - intros Hs. exists (pull_secret_controller o), (mkImagePullSecretReconciler (registrySecret o)). split; [|done].
    unfold parts. rewrite !in_app_iff. destruct (String.eqb_spec (registrySecret o) EmptyString); [done|]. cbn. tauto.
  - intros (c & x & Hm & Hx). apply in_parts in Hm. naive_solver.
  - intros Hg. eexists (gateway_controller config), _. split; [|done]. unfold parts. rewrite !in_app_iff, Hg. cbn [negb In]. tauto.
  - intros (v & p & d & Hm & Hx). apply in_parts in Hm. assert (Hv : Registered v = webhook_parts (Some config) o) by naive_solver.
    rewrite Hv in Hx. unfold webhook_parts in Hx. destruct (enableVpa o); [done|]. destruct Hx as [[=]|[]].
  - intros Hv. exists (mkWebhookServer (webhookPort o) (webhookCertsDir o) (webhook_parts (Some config) o)), constants.VpaWebHookPath, (mkVPAMutator (Some config)).
    unfold parts. rewrite !in_app_iff. cbn [Registered]. unfold webhook_parts. rewrite Hv. cbn. tauto.
Qed.

(** How the parts of a started manager are wired *)
Definition wired (o : Options) (config : OIDCAppsControllerConfig) (s : process W) : Prop :=
  let ns := Getenv constants.NAMESPACE in
  (forall c, In (AddController c) (registrations s) ->
     match Complete c with
     | Deployments d | StatefulSets d => d = mkWorkloadReconciler (Some config) (registrySecret o) ns
     | ImagePullSecrets r => SecretName r = registrySecret o /\
         exists p, EventFilter c = [p] /\ forall obj (w : W), passes p (DeleteEvent obj) w =
           (Ret (String.eqb (GetName obj) (registrySecret o) && String.eqb (GetNamespace obj) ns), w)
     | Gateways g => g = mkGatewayReconciler ns (GetManagedGatewayConf config) /\ RawSource c = [mkNN ns (managed_name config)]
     end) /\
  (forall v p d, In (AddServer v) (registrations s) -> In (p, d) (Registered v) ->
     match d with
     | Pods m => m = mkPodMutator (registrySecret o) (Some config)
     | Autoscalers m => m = mkVPAMutator (Some config)
     end) /\
  (forall v m, In (AddServer v) (registrations s) -> In (AddCertManager m) (registrations s) ->
     CertDir v = certPath m /\ dnsNames m = dns_names (CertManager.webhookName m) ns).

Lemma parts_wired (s : process W) config certs o :
  registrations s = parts config certs o -> certs_for o certs -> wired o config s.
Proof.
  intros Hr Hc. unfold wired. rewrite Hr. split; [|split].
  - intros c Hin. apply in_parts in Hin as [(k & Hx)|[Hx|[Hx|[(m & _ & Hx)|[(Hx & _)|[(Hx & _)|[Hx|[Hx|Hx]]]]]]]]; try discriminate Hx;
      injection Hx as ->; cbn [Complete deployment_controller statefulset_controller pull_secret_controller gateway_controller RawSource EventFilter SecretName]; try done.
    split; [done|]. eexists. split; [done|]. intros obj w. by rewrite funcs_passes.
  - intros v p d Hv Hd. apply in_parts in Hv. assert (Hw : Registered v = webhook_parts (Some config) o) by naive_solver.
    rewrite Hw in Hd. unfold webhook_parts in Hd. destruct Hd as [[= <- <-]|Hd]; [done|]. destruct (enableVpa o); [|done].
    by destruct Hd as [[= <- <-]|[]].
  - intros v m Hv Hm. apply in_parts in Hv, Hm. unfold certs_for in Hc.
    assert (Hd : CertDir v = webhookCertsDir o) by naive_solver. assert (Hi : In m certs) by naive_solver.
    destruct (useCertManager o); [by subst certs|]. destruct Hc as (c & -> & Hp & Hn & Hdns). destruct Hi as [->|[]]. split; congruence.
Qed.

(** C27. The parts of a started manager agree with each other and with the
    options: every reconciler and every webhook has the one configuration of
    the file, with its client set; the pull secret that the webhook puts on
    pods is the one that the reconcilers propagate, and its source in the
    controller's namespace is what the pull-secret controller watches; the
    server reads its certificate from the directory the certificate manager
    writes to; and the certificate manager, the pull-secret controller, the
    Gateway controller and the autoscaler webhook (with its scheme) are there
    exactly when the options ask for them. *)
Theorem components_agree o w r s' w' :
  RunController o (fresh, w) = (r, (s', w')) -> started s' = true ->
  exists loaded, let config := SetClient loaded in
    CreateControllerConfigOrDie (controllerConfigPath o) [] w = (Ret loaded, w) /\
    extensionConfig s' = Some config /\ client_set config = true /\ wired o config s' /\
    (has_certs s' <-> useCertManager o = false) /\ (has_pull_secrets s' <-> registrySecret o <> EmptyString) /\
    (has_gateways s' <-> IsManagedGatewayEnabled (Some config) = true) /\ (has_autoscalers s' <-> enableVpa o = true) /\
    (In autoscaling (scheme s') <-> enableVpa o = true).
Proof.
  intros E Hst. destruct (RunController_starts o w r s' w' E Hst) as (c & config & certs & sel & Ec & -> & Hcfg & _ & _ & Hsch & Hcerts & Hr & _).
  exists c. split; [exact Ec|]. split; [exact Hcfg|]. split; [done|]. split; [by eapply parts_wired|].
  destruct (parts_present s' _ _ _ Hr Hcerts) as (P1 & P2 & P3 & P4). repeat (split; [done|]).
  rewrite Hsch. unfold groups. destruct (enableVpa o); cbn; [tauto|]. split; [|done]. intros [[=]|[[=]|[]]].
Qed.

(** A run that ends well has started the manager. *)
Lemma RunController_Ret o w a s' w' : RunController o (fresh, w) = (Ret a, (s', w')) -> started s' = true.
Proof.
  intros E. unfold RunController in E.
  apply M_bind_inv in E as ([] & [s1 w1] & _ & E). apply M_bind_inv in E as ([] & [s2 w2] & _ & E).
  apply M_bind_inv in E as ([] & [s3 w3] & _ & E). apply M_bind_inv in E as ([] & [s4 w4] & E4 & E).
  injection E4 as <- <-. by apply at_world_inv in E as [-> _].
Qed.

(** C28. [RunController] starts nothing unless everything worked: a run that
    does not start the manager fails.  In particular, when a part needs the
    namespace and the environment does not name it, the run fails before
    anything is created: nothing is handed to a manager, and no object and no
    file is touched. *)
Theorem RunController_refuses o w r s' w' :
  RunController o (fresh, w) = (r, (s', w')) ->
  (started s' = false -> forall a, r <> Ret a) /\
  ((forall config, CreateControllerConfigOrDie (controllerConfigPath o) [] w = (Ret config, w) -> needs_namespace o config = true) ->
   Getenv constants.NAMESPACE = EmptyString ->
   started s' = false /\ registrations s' = [] /\ manager_options s' = None /\ w' = w).
Proof.
  intros E. split.
  - intros Hst a ->. apply RunController_Ret in E. congruence.
  - intros Hneed Hempty. unfold RunController, new_manager in E.
    destruct (config_cases (controllerConfigPath o) w) as [(c & Ec & _)|Ec].
    + assert (Ea : at_world (CreateControllerConfigOrDie (controllerConfigPath o) []) (@fresh W _ _, w) = (Ret c, (fresh, w)))
        by (unfold at_world; cbn; by rewrite Ec).
      rewrite M_bind_assoc, (M_bind_ret _ _ _ _ _ Ea), M_bind_assoc in E.
      rewrite (M_bind_ret _ (change (set_config (Some c))) (fresh, w) tt (set_config (Some c) fresh, w) eq_refl) in E.
      destruct (make_manager_refused o c (set_config (Some c) fresh) w (Hneed c Ec) Hempty) as (x & l & Ex & Hx).
      rewrite (M_bind_case _ _ _ _ _ Ex) in E. destruct x as [[]|e|p]; [by destruct (Hx tt)|by injection E as _ <- <-..].
    + assert (Ea : at_world (CreateControllerConfigOrDie (controllerConfigPath o) []) (@fresh W _ _, w) = (Panic "terminating", (fresh, w)))
        by (unfold at_world; cbn; by rewrite Ec).
      rewrite M_bind_assoc, (M_bind_case _ _ _ _ _ Ea) in E. by injection E as _ <- <-.
Qed.

(** What the cache of a manager holds of a kind: what its entry in the table
    selects, everything without one *)
Definition cached_by (table : list (Kind * (GoMap string -> bool))) (k : Kind) (m : ObjectMeta) : bool :=
  match find_first (fun x => bool_decide (fst x = k)) table with
  | Some (_, selector) => selector (Labels m)
  | None => true
  end.

Lemma component_selector_spec m :
  component_selector m = bool_decide (map_get m constants.LabelKey = Some constants.LabelValue).
Proof.
  unfold component_selector. rewrite set_selector_spec. apply bool_decide_ext. split.
  - intros Hs. apply Hs, lookup_singleton_eq.
  - intros Hm k v Hk. apply lookup_singleton_Some in Hk as [<- <-]. done.
Qed.

(** The cache that the manager is given holds, of every kind, exactly the
    objects that [in_cache] says the client reads; autoscalers and Gateways
    are not filtered when they are not enabled, and namespaces and workloads
    never are. *)
Theorem cache_is_in_cache o selector config k m :
  (forall l, selector l = cache_selector l) ->
  cached_by (cache_table o selector config) k m =
  if bool_decide (k = KVPA) && negb (enableVpa o) || bool_decide (k = KGateway) && negb (IsManagedGatewayEnabled config)
  then true else in_cache cache_selector k m.
Proof.
  intros Hs. unfold cached_by, cache_table.
  destruct (enableVpa o), (IsManagedGatewayEnabled config), k; cbn [find_first app fst negb andb orb in_cache];
    repeat (case_bool_decide; try discriminate; cbn [andb orb negb]); rewrite ?Hs, ?component_selector_spec, ?everything_spec;
    first [done | by apply bool_decide_eq_true_2 | by apply bool_decide_eq_false_2].
Qed.

End StartupSpec.

(** ** Witnesses *)

#[local] Existing Instances Ref.vendor Ref.client Ref.client_reads RefHost.crypto RefHost.host_ops RefHost.host_view RefHost.host_laws
  RefHost.clientset RefRuntime.runtime RefRuntime.runtime_laws.

Module StartupExamples.
Import WebhookExamples RotationExamples FailureExamples.

Definition env : OSEnv := fun n => if String.eqb n "NAMESPACE" then "oidc-system" else EmptyString.
Definition no_env : OSEnv := fun _ => EmptyString.

(** The default flags, with autoscalers and a registry secret *)
Definition options : Options :=
  mkOptions false true 10250 8080 "extension-config.yaml" EmptyString "./certs" name "regcred".

Lemma defaults : AddFlags zeroOptions =
  mkOptions false false 10250 8080 "extension-config.yaml" EmptyString "./certs" "oidc-apps-controller" EmptyString.
Proof. reflexivity. Qed.

(** A disk with the configuration and no certificates *)
Definition world : Ref.cluster := write_file "extension-config.yaml" "grafana" cluster0.

Definition run (env : OSEnv) := RunController options (fresh, world).

End StartupExamples.

Import GenerateExamples StartupExamples.

Lemma components_agree_witness :
  exists config, extensionConfig (fst (snd (run env))) = Some config /\ client_set config = true /\
    wired (H2 := env) options config (fst (snd (run env))) /\ has_certs (fst (snd (run env))) /\ has_autoscalers (fst (snd (run env))).
Proof.
  destruct (components_agree (H2 := env) options world (fst (run env)) (fst (snd (run env))) (snd (snd (run env))) (split3 (run env))
              ltac:(vm_compute; reflexivity)) as (loaded & _ & Hc & Hs & Hw & Hm & _ & _ & Ha & _).
  exists (SetClient loaded). split; [exact Hc|]. split; [exact Hs|]. split; [exact Hw|]. split; [by apply Hm|by apply Ha].
Defined.

Lemma RunController_refuses_witness :
  started (fst (snd (run no_env))) = false /\ registrations (fst (snd (run no_env))) = [] /\ snd (snd (run no_env)) = world.
Proof.
  destruct (RunController_refuses (H2 := no_env) options world (fst (run no_env)) (fst (snd (run no_env))) (snd (snd (run no_env)))
              (split3 (run no_env))) as [_ Hn].
  destruct Hn as (Hs & Hr & _ & Hw); [done|done|]. split; [exact Hs|]. split; [exact Hr|exact Hw].
Defined.

Lemma cache_is_in_cache_witness :
  cached_by (cache_table options (fun _ => true) (Some ControllerExamples.config)) KSecret
    (set_labels (Ref.labels1 constants.LabelKey constants.LabelValue) emptyMeta) = true.
Proof. rewrite cache_is_in_cache; [vm_compute; reflexivity|reflexivity]. Defined.
