(* ===== verification/DispatchSpec.v ===== *)
(** * Which events lead to a reconcile

    The controllers that [RunController] registers, with their filters and
    handlers, on the events of controller-runtime: creations and deletions of
    what belongs to a workload reach its reconciler; updates do so only when
    the generation changes. *)

From S2P Require Import Prelude GoStrings Kube Constants Vendor Configuration ConfigurationSpec Controllers PodWebhook PodWebhookSpec.
From S2P Require Import Crypto Certificates CertManager ControllersSpec RegistrySpec WorkloadSpec EventRouting Reference ReferenceHost Runtime ReferenceRuntime Startup.

Section Dispatch.
Context {W : Type} `{ClientWrites W, !VendorLaws, !OSEnv, HostView W, !Crypto W, !Runtime W, !RuntimeLaws W}.

(** An event that is not an update *)
Definition plain_event (e : event) (o : Object) : Prop := e = CreateEvent o \/ e = DeleteEvent o \/ e = GenericEvent o.

(** What the filter asks of the object: a target, or the component label *)
Definition wanted (config : option OIDCAppsControllerConfig) (o : Object) (w : W) : Prop :=
  match config with Some c => existsb (selectsb w c o) (Targets c) = true | None => False end \/
  is_Some (map_get (GetLabels o) constants.LabelKey).

Lemma matchOrLabeled_spec config o w :
  exists b, matchOrLabeled config o w = (Ret b, w) /\ (b = true <-> wanted config o w).
Proof.
  unfold matchOrLabeled, wanted. rewrite (M_bind_ret _ _ _ _ _ (Match_option w config o)).
  destruct config as [c|].
  - destruct (existsb (selectsb w c o) (Targets c)) eqn:E; eexists; (split; [reflexivity|]).
    + split; [by left|done].
    + rewrite bool_decide_eq_true. split; [by right|]. intros [Hf|Hl]; [done|done].
  - eexists; split; [reflexivity|]. rewrite bool_decide_eq_true. split; [by right|]. by intros [[]|Hl].
Qed.

Lemma wanted_passes config e o w :
  plain_event e o -> wanted config o w -> fst (passes (config_predicates config) e w) = Ret true.
Proof.
  intros He Hw. destruct (matchOrLabeled_spec config o w) as (b & E & Hb). apply Hb in Hw as ->.
  unfold config_predicates. set (f := mkPredicate _ _ _ _). destruct (generation_keeps f) as (Hc & Hd & Hg).
  destruct He as [->|[->| ->]]; cbn [passes]; rewrite ?Hc, ?Hd, ?Hg; subst f; cbn; by rewrite E.
Qed.

(** A source of one of the controllers: no predicates, or the version. *)
Definition version_only (src : Watch W) : Prop :=
  Watch_Predicates src = [] \/ Watch_Predicates src = [ResourceVersionChangedPredicate].

Lemma plain_admitted c src config e o w :
  EventFilter c = [config_predicates config] -> version_only src -> Watch_Kind src = obj_kind o ->
  plain_event e o -> wanted config o w -> admits c src e w.
Proof.
  intros Hf Hv Hk He Hw. pose proof (wanted_passes config e o w He Hw) as Hp. unfold admits. rewrite Hf. split.
  - destruct He as [->|[->| ->]]; cbn; by constructor.
  - constructor; [exact Hp|]. destruct Hv as [->| ->]; [constructor|]. constructor; [|constructor].
    rewrite version_passes. destruct He as [->|[->| ->]]; done.
Qed.

Lemma plain_delivered c src config e o w l :
  EventFilter c = [config_predicates config] -> version_only src -> Watch_Kind src = obj_kind o -> In src (sources c) ->
  plain_event e o -> wanted config o w -> Watch_Handler src o w = (Ret l, w) ->
  exists l', fst (deliver c e w) = Ret l' /\ incl l l'.
Proof.
  intros Hf Hv Hk Hs He Hw Hh. apply (deliver_reaches c e w src o l Hs); [by eapply plain_admitted| |exact Hh].
  destruct He as [->|[->| ->]]; by left.
Qed.

(** ** What belongs to a workload *)

(** The events of a Deployment: on itself, on an object it owns, on a pod of
    one of its ReplicaSets. *)
Inductive of_deployment (w : W) : Object -> NamespacedName -> Prop :=
| deployment_self d : of_deployment w (DeploymentObject d) (key_of (Deployment_Meta d))
| deployment_owned k (o : kobj k) r :
    k = KSecret \/ k = KService \/ k = KHTTPRoute -> In r (OwnerReferences (meta_of k o)) ->
    OwnerReference_Kind r = "Deployment" ->
    of_deployment w (mkObject k o) (mkNN (Namespace (meta_of k o)) (OwnerReference_Name r))
| deployment_pod p r rs dref d :
    let ns := Namespace (Pod_Meta p) in
    isOidcAppPod p = true -> owner_of "ReplicaSet" (OwnerReferences (Pod_Meta p)) = Some r ->
    view w KReplicaSet (mkNN ns (OwnerReference_Name r)) = Some rs ->
    owner_of "Deployment" (OwnerReferences (ReplicaSet_Meta rs)) = Some dref ->
    view w KDeployment (mkNN ns (OwnerReference_Name dref)) = Some d ->
    of_deployment w (PodObject p) (key_of (Deployment_Meta d)).

(** The events of a StatefulSet: on itself, on a pod or secret it owns, on a
    service or route that one of its pods owns. *)
Inductive of_statefulset (w : W) : Object -> NamespacedName -> Prop :=
| statefulset_self s : of_statefulset w (StatefulSetObject s) (key_of (StatefulSet_Meta s))
| statefulset_owned k (o : kobj k) r :
    k = KSecret \/ k = KPod -> In r (OwnerReferences (meta_of k o)) -> OwnerReference_Kind r = "StatefulSet" ->
    of_statefulset w (mkObject k o) (mkNN (Namespace (meta_of k o)) (OwnerReference_Name r))
| statefulset_pod k (x : kobj k) o p r s :
    let ns := Namespace (meta_of k x) in
    k = KService \/ k = KHTTPRoute -> owner_of "Pod" (OwnerReferences (meta_of k x)) = Some o ->
    view w KPod (mkNN ns (OwnerReference_Name o)) = Some p ->
    in_cache cache_selector KPod (Pod_Meta p) = true -> Name (Pod_Meta p) <> EmptyString ->
    owner_of "StatefulSet" (OwnerReferences (Pod_Meta p)) = Some r ->
    view w KStatefulSet (mkNN ns (OwnerReference_Name r)) = Some s ->
    of_statefulset w (mkObject k x) (key_of (StatefulSet_Meta s)).

(** Every event of a workload has a source that handles it. *)
Lemma deployment_source config p o obj key w :
  reads_reliable w -> of_deployment w obj key ->
  exists src l, In src (sources (deployment_controller config p o)) /\ Watch_Kind src = obj_kind obj /\ version_only src /\
    Watch_Handler src obj w = (Ret l, w) /\ In key l.
Proof.
  intros Hrel [d|k x r Hk Hin Hr|q r rs dref d ns Hq Hr Hrs Hd Hdep].
  - eexists _, _. split; [by left|]. split; [done|]. split; [by left|]. split; [reflexivity|by left].
  - exists (watch k (for_owner KDeployment)), (EnqueueRequestForOwner KDeployment (mkObject k x)).
    split; [destruct Hk as [->|[->| ->]]; cbn; tauto|]. split; [done|]. split; [by right|]. split; [done|].
    apply owner_requests; [by left|]. by exists r.
  - exists (watch KPod PodMapFuncForDeployment), [key_of (Deployment_Meta d)].
    split; [cbn; tauto|]. split; [done|]. split; [by right|]. split; [|by left].
    cbn [Watch_Handler watch PodMapFuncForDeployment PodObject]. unfold IsOidcAppsPod. rewrite Hq.
    by apply (replicaset_owners_first q _ r rs dref d).
Qed.

Lemma statefulset_source config p o obj key w :
  reads_reliable w -> of_statefulset w obj key ->
  exists src l, In src (sources (statefulset_controller config p o)) /\ Watch_Kind src = obj_kind obj /\ version_only src /\
    Watch_Handler src obj w = (Ret l, w) /\ In key l.
Proof.
  intros Hrel [s|k x r Hk Hin Hr|k x q p' r s ns Hk Hq Hp Hc Hn Hr Hs].
  - eexists _, _. split; [by left|]. split; [done|]. split; [by left|]. split; [reflexivity|by left].
  - exists (watch k (for_owner KStatefulSet)), (EnqueueRequestForOwner KStatefulSet (mkObject k x)).
    split; [destruct Hk as [->| ->]; cbn; tauto|]. split; [done|]. split; [by right|]. split; [done|].
    apply owner_requests; [by right|]. by exists r.
  - pose proof (pod_owners_first ns _ q p' r s w Hrel Hq Hp Hc Hn Hr Hs) as Ho.
    destruct Hk as [->| ->]; [exists (watch KService ServiceMapFuncForStatefulset)|exists (watch KHTTPRoute HTTPRouteMapFuncForStatefulset)];
      exists [key_of (StatefulSet_Meta s)]; (split; [cbn; tauto|]); (split; [done|]); (split; [by right|]); (split; [exact Ho|by left]).
Qed.

(** ** The theorems *)

(** C29. Where reads do not fail, the creation and the deletion of a Deployment
    or StatefulSet, of the objects maintained for it and of its pods put its
    key into the queue of its reconciler, provided the object is a target or
    carries the component label. *)
Theorem events_reconcile config o obj e key (w : W) :
  reads_reliable w -> plain_event e obj -> wanted config obj w ->
  (of_deployment w obj key ->
     exists l, fst (deliver (deployment_controller config (config_predicates config) o) e w) = Ret l /\ In key l) /\
  (of_statefulset w obj key ->
     exists l, fst (deliver (statefulset_controller config (config_predicates config) o) e w) = Ret l /\ In key l).
Proof.
  intros Hrel He Hw. split; intros Hof.
  - destruct (deployment_source config (config_predicates config) o obj key w Hrel Hof) as (src & l & Hs & Hk & Hv & Hh & Hin).
    destruct (plain_delivered (deployment_controller config (config_predicates config) o) src config e obj w l eq_refl Hv Hk Hs He Hw Hh) as (l' & El & Hincl). exists l'. by split; [|apply Hincl].
  - destruct (statefulset_source config (config_predicates config) o obj key w Hrel Hof) as (src & l & Hs & Hk & Hv & Hh & Hin).
    destruct (plain_delivered (statefulset_controller config (config_predicates config) o) src config e obj w l eq_refl Hv Hk Hs He Hw Hh) as (l' & El & Hincl). exists l'. by split; [|apply Hincl].
Qed.

(** C30. Updates are let through by their generation alone.  An update that
    keeps the generation of the object, as one of a secret or of labels does,
    enqueues nothing in either workload controller, whatever its resource
    version; a Deployment or StatefulSet whose generation changes is enqueued
    whether it is a target or not. *)
Theorem updates_follow_generation config o old new (w : W) c :
  (c = deployment_controller config (config_predicates config) o \/ c = statefulset_controller config (config_predicates config) o) ->
  (Generation old = Generation new -> forall l, fst (deliver c (UpdateEvent old new) w) = Ret l -> l = []) /\
  (Generation old <> Generation new -> obj_kind (object old) = For c -> obj_kind (object new) = For c ->
   exists l, fst (deliver c (UpdateEvent old new) w) = Ret l /\ In (key_of (obj_meta (object new))) l).
Proof.
  intros Hc.
  assert (Hf : EventFilter c = [config_predicates config] /\ For_Predicates c = []) by (by destruct Hc as [->| ->]).
  assert (Hu : passes (config_predicates config) (UpdateEvent old new) w = (Ret (negb (Z.eqb (Generation old) (Generation new))), w))
    by (apply generation_update).
  destruct Hf as [Hf Hfor]. split.
  - intros Hg l El. destruct l as [|key l]; [done|]. exfalso.
    destruct (deliver_only c _ w _ key El ltac:(by left)) as (src & x & keys & _ & (_ & Hadm) & _).
    rewrite Hf in Hadm. cbn [app] in Hadm. apply list.Forall_cons in Hadm as [Hp _]. rewrite Hu, Hg, Z.eqb_refl in Hp. done.
  - intros Hg Ho Hn.
    destruct (deliver_reaches c (UpdateEvent old new) w (mkWatch (For c) own_key (For_Predicates c)) (object new)
                [key_of (obj_meta (object new))]) as (l & El & Hincl); [by left| |cbn; tauto|done|].
    + split; [by repeat constructor|]. rewrite Hf. cbn [app Watch_Predicates]. rewrite Hfor. constructor; [|constructor].
      rewrite Hu. cbn. by apply Z.eqb_neq in Hg as ->.
    + exists l. split; [exact El|]. apply Hincl. by left.
Qed.

End Dispatch.

(** ** Witnesses *)

#[local] Existing Instances Ref.vendor Ref.vendor_laws Ref.client Ref.client_reads Ref.client_writes RefHost.crypto RefHost.host_ops
  RefHost.host_view RefHost.clientset RefRuntime.runtime RefRuntime.runtime_laws.

Module DispatchExamples.

#[export] Instance env : OSEnv := fun n => if String.eqb n "NAMESPACE" then "oidc-system" else EmptyString.

Definition options : Options :=
  mkOptions false true 10250 8080 "extension-config.yaml" EmptyString "./certs" "oidc-apps-controller" "regcred".

(** A secret maintained for the Deployment grafana *)
Definition secret : Secret :=
  mkSecret (mkObjectMeta "oauth2-proxy-1" "mon" "uid-1" (Ref.labels1 constants.LabelKey constants.LabelValue) None
              [mkOwnerReference "Deployment" "grafana" "uid-g"] [] None) EmptyString None None.

Definition controller : Controller Ref.cluster :=
  deployment_controller (Some ControllerExamples.config) (config_predicates (Some ControllerExamples.config)) options.

Definition grafana : Object := DeploymentObject Examples.grafana.

End DispatchExamples.

Import DispatchExamples.

Lemma events_reconcile_witness :
  exists l, fst (deliver controller (DeleteEvent (mkObject KSecret secret)) WorkloadExamples.cluster) = Ret l /\ In (mkNN "mon" "grafana") l.
Proof.
  destruct (events_reconcile (Some ControllerExamples.config) options (mkObject KSecret secret) (DeleteEvent (mkObject KSecret secret))
              (mkNN "mon" "grafana") WorkloadExamples.cluster) as [Hd _].
  - apply reads_reliable_reference.
  - right; by left.
  - right. by eexists.
  - apply Hd. apply (deployment_owned _ KSecret secret (mkOwnerReference "Deployment" "grafana" "uid-g")); [by left|by left|reflexivity].
Defined.

Lemma updates_follow_generation_witness :
  (forall l, fst (deliver controller (UpdateEvent (mkVersioned (mkObject KSecret secret) 0 "1") (mkVersioned (mkObject KSecret secret) 0 "2"))
         WorkloadExamples.cluster) = Ret l -> l = []) /\
  exists l, fst (deliver controller (UpdateEvent (mkVersioned grafana 1 "1") (mkVersioned grafana 2 "2")) WorkloadExamples.cluster) = Ret l /\
    In (mkNN "mon" "grafana") l.
Proof.
  split.
  - destruct (updates_follow_generation (Some ControllerExamples.config) options (mkVersioned (mkObject KSecret secret) 0 "1")
                (mkVersioned (mkObject KSecret secret) 0 "2") WorkloadExamples.cluster controller (or_introl eq_refl)) as [Hs _].
    by apply Hs.
  - destruct (updates_follow_generation (Some ControllerExamples.config) options (mkVersioned grafana 1 "1") (mkVersioned grafana 2 "2")
                WorkloadExamples.cluster controller (or_introl eq_refl)) as [_ Hn].
    exact (Hn ltac:(discriminate) eq_refl eq_refl).
Defined.
