(* ===== verification/ControllerMain.v ===== *)
(** * [cmd/oidc-apps]: the controller's command

    The root command with its flags and its logger, and [main] with its exit
    code.  Parsing the command line is cobra's: a parameter. *)

From S2P Require Import Prelude GoStrings Slog Kube Constants Vendor Configuration Controllers PodWebhook Crypto Certificates CertManager.
From S2P Require Import Runtime Startup StartupSpec.

(** The variables the flags of the root command are bound to; [version] is
    the flag of the library for version flags. *)
Record rootFlags := mkRootFlags {
  opts : Options;
  logLevelStr : string;
  logFormat : string;
  version : bool }.

(** [newRootCommand]: every flag with its default *)
Definition newRootCommand : rootFlags := mkRootFlags (AddFlags zeroOptions) "info" "json" false.

(** The logger that [RunE] sets up *)
Definition RunE_logger (f : rootFlags) : slog.Handler :=
  let level := default slog.LevelInfo (slog.UnmarshalText (logLevelStr f)) in
  if String.eqb (logFormat f) "text" then slog.TextHandler level else slog.JSONHandler level.

(** The exit code of a process: a panic ends it with two. *)
Definition exit_code (r : outcome unit) : Z :=
  match r with Ret _ => 0 | Err _ => 1 | Panic _ => 2 end%Z.

Section Main.
Context {W : Type} `{Client W, Vendor, OSEnv, Crypto W, Host W, Clientset W, !Runtime W}.

(** [cobra.Command.ExecuteContext]: the arguments, parsed into the variables *)
Context (parse : list string -> rootFlags -> error + rootFlags).

(** [RunE]: with the version flag the process prints it and exits. *)
Definition RunE (f : rootFlags) : M (process W * W) unit :=
  if version f then mret tt else RunController (opts f).

(** [main]: the exit code and what is left *)
Definition main (args : list string) (w : W) : Z * (process W * W) :=
  match parse args newRootCommand with
  | inl _ => (1%Z, (fresh, w))
  | inr f => let '(r, sw) := RunE f (fresh, w) in (exit_code r, sw)
  end.

(** The exit code tells whether the controller ran: zero without the version
    flag means that the manager was started, with the parsed options; and
    arguments that cannot be parsed leave everything as it is. *)
Theorem main_exit_code args w code s' w' :
  main args w = (code, (s', w')) ->
  (code = 0%Z -> exists f, parse args newRootCommand = inr f /\ (version f = false -> started s' = true)) /\
  (forall e, parse args newRootCommand = inl e -> code = 1%Z /\ s' = fresh /\ w' = w).
Proof.
  unfold main. destruct (parse args newRootCommand) as [e|f]; [by intros [= <- <- <-]|].
  destruct (RunE f (fresh, w)) as [r [s1 w1]] eqn:E. intros [= <- <- <-]. split; [|done].
  intros Hc. exists f. split; [done|]. intros Hv. unfold RunE in E. rewrite Hv in E.
  destruct r as [[]|e|p]; try done. by eapply RunController_Ret.
Qed.

End Main.

(** Without arguments the options are those of the source. *)
Example newRootCommand_defaults :
  opts newRootCommand = mkOptions false false 10250 8080 "extension-config.yaml" "" "./certs" "oidc-apps-controller" "" /\
  RunE_logger newRootCommand = slog.JSONHandler 0%Z.
Proof. split; reflexivity. Qed.
